(* ===== verification/_CoqProject ===== *)
-Q . S2P
Prelude.v
GoStd.v
KubeApi.v
PodMutator.v
PodLabels.v
PodPatch.v
PodApply.v
PodHandle.v
PodTests.v
DeepCopy.v
NameRegex.v
Base64.v
Archive.v
DatasetController.v
DatasetSafety.v
KubeServer.v
KubeWp.v
DatasetProgress.v
Url.v
Metastore.v
InternalController.v
InternalSafety.v
InternalProgress.v
InternalWitness.v
CephCache.v
CephSafety.v
CephProgress.v
CephProvision.v
CephWitness.v
Path.v
Sha1.v
NodeApi.v
S3Client.v
S3Mounter.v
S3Server.v
S3Safety.v
S3Mount.v
S3Files.v
S3Witness.v
NodeWorld.v
NodeMounts.v
CsiSpec.v
CsiLifecycle.v
CsiWitness.v
Pipeline.v
EndToEnd.v
Interleave.v
SharedServer.v
Careful.v
Concurrency.v
ConcurrencyWitness.v
Nfs.v
NfsSafety.v
NfsWorld.v
NfsWitness.v
NfsServer.v
Startup.v
Clientset.v
ClientsetSafety.v
ClientsetWitness.v
UserStory.v
DatasetLifecycle.v
CephLifecycle.v
CacheStory.v
VolumeLifecycle.v
ArchiveLifecycle.v
CatalogLifecycle.v
