(* ===== verification/Prelude.v ===== *)
(** * Datashim: a verification library

    Datashim lets the pods of a Kubernetes cluster use data sets by name.  A user
    creates a [Dataset]; controllers turn it into a claim and credentials, a webhook
    adds these to the pods whose labels ask for the dataset, and CSI drivers mount the
    data.  This library models the Go code of these parts and proves what makes each
    of them correct.  Paths are relative to [src/].

    ** How the parts interact

    - The Dataset reconciler ([src/dataset-operator/controllers/dataset_controller.go])
      initialises the status of a [Dataset], picks a caching plugin if there is one,
      creates the [DatasetInternal] of the same name and follows the claim to [OK].
    - The Ceph cache plugin ([plugins/ceph-cache-plugin/pkg/controller/dataset]) is such
      a plugin: it creates an object store as a cache with the Rook operator, then a
      [DatasetInternal] that points at it.
    - The DatasetInternal reconciler ([.../controllers/datasetinternal_controller.go])
      creates what the type of the dataset asks for: ConfigMap, claim and Secret for an
      object store, volume and claim for NFS, HOST and H3; a remote dataset is looked up
      in a Hive metastore ([metastore_client.go]).  It tears them down under a finalizer.
    - The webhook ([.../admissioncontroller/mutatingwebhook.go]) reads the labels
      [dataset.<i>.id] and [dataset.<i>.useas] of a pod and answers with a JSON patch.
    - The S3 driver ([src/csi-s3/pkg/s3]) is given the Secret of a dataset and creates,
      deletes and mounts its bucket; the NFS driver ([src/csi-driver-nfs/pkg/nfs])
      mounts shares.
    - Programs outside these use the typed clients ([src/apiclient/pkg/clientset]) to read
      and write the custom resources, and their fakes in tests.

    ** How programs are modelled

    A handler is a value of [prog E A] (below): a tree of calls of the signature [E]
    whose branches are all the answers the environment can give.  The signatures are
    [Kube] ([KubeApi.v]: the API server, the environment of the process) and [Node]
    ([NodeApi.v]: operating system, mount library, object store).  Three ways to state
    theorems about them:
    - for every environment: [behaviour p evs a] is an interaction of [p], a list of
      calls with their answers; [guarded] and [ensures] prove properties of all of them
      by following the control flow ([guarded_behaviour], [ensures_behaviour]).  This is
      how the safety theorems hold for servers that fail, race or lie;
    - for an environment given by a handler: [run h p s];
    - for an environment that keeps its documented contract, a class with laws:
      [ApiServer] ([KubeServer.v]), [SharedServer] ([SharedServer.v]), [RestServer]
      ([ClientsetSafety.v]), [PosixFiles] ([S3Files.v]), [ObjectStore] and [MountTable]
      ([NodeWorld.v]), each with an implementation ([mem_api_server], [lag_shared_server],
      [mem_rest_server], [mem_posix], [mem_store], [mem_table]) on which the witnesses
      run.  [KubeWp.v] derives weakest-precondition rules from the laws.

    Concurrency: [Interleave.v] runs any number of programs and other clients against one
    environment, one call at a time ([step]), and lifts what is [guarded] in each program
    to every interleaving; [SharedServer] is an API server with stale caches and optimistic
    concurrency.  [NfsServer.v] has its own step relation for goroutines that share memory
    and block.

    Go code that can panic has an option for result ([None]); Go maps that may be nil are
    [gomap]; the iteration order of a map is a parameter (any permutation).  Logging is
    left out.

    ** Files

    - [Prelude.v]: programs, interactions, loops, tactics.  [GoStd.v]: [strings],
      [strconv], nil maps.  [Base64.v], [Url.v], [Path.v], [Sha1.v]: [encoding/base64],
      [net/url], [path], [crypto/sha1] with [encoding/hex].
    - Webhook: [PodMutator.v] holds every function of [mutatingwebhook.go] under its
      name; [PodLabels.v] (labels to requests), [PodPatch.v] (requests to patch),
      [PodApply.v] (what applying the patch, by RFC 6902, makes of the pod),
      [PodHandle.v] (the admission handler), [PodTests.v] (the test suite of the webhook,
      [mutatingwebhook_test.go], with its builders, [testing/wrapper.go]).
    - [KubeApi.v]: the custom resources of [api/v1alpha1] and the client.  [DeepCopy.v]:
      their deep copies ([zz_generated.deepcopy.go]) on a heap with references.
    - Dataset reconciler: [DatasetController.v], one definition per step of [Reconcile]
      ([initial_status_update], [caching_setup], [create_internal], [provision_setup],
      [propagate_labels]), [NameRegex.v] (names), [Archive.v] ([archive_handler.go]);
      theorems in [DatasetSafety.v] and [DatasetProgress.v].
    - DatasetInternal reconciler: [Metastore.v], [InternalController.v]
      ([processLocalDatasetCOS], ..., [finalize], [Reconcile]); theorems in
      [InternalSafety.v] and [InternalProgress.v], witnesses in [InternalWitness.v].
    - Ceph plugin: [CephCache.v], one [stage] per step of [Reconcile]; theorems in
      [CephSafety.v], [CephProgress.v], [CephProvision.v], witnesses in [CephWitness.v].
    - S3 driver: [S3Client.v] ([s3-client.go], [config.go], [sanitizeVolumeID]),
      [S3Mounter.v] ([mounter*.go], [util.go]; the interface [Mounter] is a record),
      [S3Server.v] ([controllerserver.go], [nodeserver.go]); theorems in [S3Safety.v],
      [S3Mount.v], [S3Files.v], witnesses in [S3Witness.v].
    - The S3 driver where nothing fails: [NodeWorld.v] (the laws of an object store and of
      the mount table of a node, where mounting takes time), [NodeMounts.v] (the mounters
      by these laws), [CsiSpec.v] (the abstract specification of the CSI calls, a function
      on buckets and mounts, and the refinement), [CsiLifecycle.v] (what follows for
      volumes), [CsiWitness.v] (a node and a store in memory).
    - [Pipeline.v]: the DatasetInternal reconciler and the S3 driver composed.
      [EndToEnd.v]: both reconcilers, the webhook and the S3 driver composed.
      [UserStory.v]: the typed client in front of them.  [DatasetLifecycle.v]: a dataset
      from its Secret to the mount on a node that works, and from its deletion by the
      client to an empty cluster and store.  [CephLifecycle.v]: a cached dataset, from the
      plugin and Rook to the mount of its cache; [CacheStory.v]: from a new Dataset on.  [VolumeLifecycle.v]: datasets of type
      NFS, HOST and H3, and the way of an NFS dataset to its mount.  [ArchiveLifecycle.v]:
      an archive, from the job that downloads it to the mount of its bucket.
      [CatalogLifecycle.v]: what the reconciler publishes of a table of a catalog.
    - Concurrency: [Interleave.v] (pools of programs), [SharedServer.v] (the server they
      share), [Careful.v] (what each reconciler does, as guards on its calls),
      [Concurrency.v] (theorems), [ConcurrencyWitness.v].
    - NFS driver: [Nfs.v] (every handler), theorems in [NfsSafety.v]; where nothing fails,
      [NfsWorld.v] (the laws of the node, the specification, the refinement), witness in
      [NfsWitness.v]; [NfsServer.v]: [server.go] and [Run].
    - Start-up: [Startup.v]: [main.go] of the operator, the manager of the Ceph plugin, the
      S3 driver; the reconcilers are registered by [DatasetReconciler_SetupWithManager],
      [DatasetInternalReconciler_SetupWithManager] and [add].
    - Typed clients: [Clientset.v], one definition per method ([datasets_Get] for [Get] of
      [datasets], [internal_Get] for [datasetInternal], [fake_datasets_Get] and
      [fake_internal_Get] for the fakes); theorems in [ClientsetSafety.v], witnesses in
      [ClientsetWitness.v].

    ** What the theorems show

    - The system: a dataset becomes usable, from the call of the client that creates it to
      the mount in a pod ([created_dataset_becomes_usable]); with the three reconcilers,
      any number of workers, stale caches, crashes and other clients, the edits of users
      are kept ([user_edits_kept]), tenants are isolated ([tenants_isolated]) and the
      status of a dataset follows its life cycle ([concurrent_lifecycle]).  A dataset is
      mounted on a node that works ([dataset_is_mounted]), a new dataset through its cache
      ([new_dataset_is_cached]), an NFS dataset by the NFS driver
      ([nfs_dataset_is_mounted]), an archive from the bucket its download fills
      ([archive_is_mounted]), and a dataset that is deleted leaves nothing behind
      ([deleted_dataset_leaves_nothing]).
    - The S3 driver as a service: it refines its specification ([S3_driver_refines]), for
      every sequence of calls; a volume leaves nothing behind ([volume_leaves_nothing]),
      calls may be repeated ([calls_idempotent]; [NodeUnpublishVolume] may not), and data
      is kept unless its removal is asked for ([data_kept]).
    - The NFS driver as a service: it refines its specification ([Nfs_driver_refines]); a
      volume comes and goes (the theorem [Nfs_volume_comes_and_goes]).
    - Progress: a [Dataset] reaches [OK] by finitely many reconciliations and stays
      there ([Reconcile_converges]); a COS dataset is provisioned by one reconciliation,
      and the next changes nothing ([Reconcile_provisions_COS]), and so is a dataset of
      type NFS, HOST or H3 ([Reconcile_provisions_volume]) and of a catalog
      ([Reconcile_provisions_catalog]); a cached dataset is
      provisioned in turns with Rook ([Ceph_cache_provisioned]), its placements settle
      ([Ceph_placements_settle]); teardowns end with everything gone and nothing else
      changed (the theorem [teardown_completes], [Ceph_teardown_completes]).
    - Safety: which writes the reconcilers may issue and what they must have seen before
      ([Reconcile_justified], [Reconcile_stays_in_namespace],
      [Reconcile_tears_down_in_order], [Ceph_internal_backed], and the lemma
      [status_lifecycle]); the S3 driver destroys data only on request
      ([DeleteVolume_authorised]).
    - The webhook: the patch, applied to the pod, yields the pod of a direct definition
      ([patch_yields_mutated_pod], [mutate_pod_idempotent]); reading labels does not
      depend on the order of a map ([DatasetInputFromPod_order_independent]) and keeps
      its invariant; the handler admits, rejects and patches as specified on a stable
      cluster and is safe on any ([Handle_on_stable_cluster], [Handle_safe]); the model
      passes the tests of the repository for every order of maps ([webhook_passes_tests]).
    - The drivers, whatever the node and the store answer: what success means
      ([NodePublishVolume_success], and the theorems [Nfs_publish_success],
      [CreateVolume_success] and [DeleteVolume_success]), bounded waiting
      (the theorem [waits_are_bounded]), bounds of identifiers ([sanitizeVolumeID_bounds]).
    - Across components: the Secret that the reconciler writes makes the driver mount
      the bucket, folder and flags of the dataset, whatever the node answers (the theorem
      [dataset_reaches_mount]).
    - Start-up: the operator and the Ceph plugin start completely, in order, or not at all
      (the theorems [operator_startup] and [ceph_startup]); the NFS server serves only what
      it has set up ([serve_order]).
    - Data and clients: deep copies are equal, of the same type and independent
      ([DeepCopy_independent], [DeepCopyObject_typed]); the client of Datasets stores and
      reads objects ([datasets_client_roundtrip]); further lemmas: its fake performs the same
      actions ([fake_performs_same_actions]), [list_timeout_bounds] (timeouts in 64
      bits) and [NewForConfig_shares_limiter] (how clients are made).
    - Pure code: [name_rejected_spec], [parseCatalogUri_roundtrip], [ParseEndpoint_spec],
      [processCatalogEntry_partitions], [volumes_bindable].
    - Defects, proved as the code has them: [internal_client_finds_nothing],
      [unpublish_not_idempotent], [Run_never_returns], [second_tenant_gets_first_volume],
      [metrics_address_unused],
      [patch_of_pod_without_volumes_rejected], [env_values_accumulate],
      [add_uses_stops_at_repeat], [Ceph_teardown_loses_error], [emptyBucket_hides_failures],
      [readonly_by_mounter], [NodeStageVolume_stages_nothing], [writes3fsPass_keeps_tail],
      [Nfs_readonly_directory_fails].

    ** Bounds and fuel

    [waitForMount] polls every 10 ms until its timeout: its fuel is one more than the
    number of polls, and [waits_are_bounded] shows that it never runs out;
    [waitForProcess] recurses on the 19 calls its back-off allows, which is enough for a
    daemon that ends within 17.1 seconds ([daemon_patience]); SHA-1 has one unit of
    fuel per word, at least one per block; the replacement of a regular expression in a
    name has one more than the length of the name ([replace_all_nil]).  An [int] is a [Z]; [GoStd.v] writes out the
    64-bit range where the code parses numbers.

    ** Assumptions and what is left out

    Strings are byte strings, and [ToLower] and [TrimSpace] are those of Go on ASCII.
    [controllerutil.AddFinalizer] and [RemoveFinalizer], the metastore client and the
    admission decoder are parameters with their documented behaviour.  Listing and
    removing the objects of a bucket run concurrently in the source; the model lets the
    listing finish first and keeps the race on its error as an answer of the scheduler.
    The deep copies of [ObjectMeta] and [ListMeta] are parameters.  What
    a REST request, an action of a fake or a call of controller-runtime does belongs to
    client-go and controller-runtime: these calls are operations of signatures ([Rest],
    [Fake], [Tracker], [Connect], [Setup], [Grpc]).
    Not modelled: the parsing of command lines, logging, the variables that hand types to
    a scheme builder ([register.go], [groupversion_info.go]), charts, the suite that starts
    a cluster for tests ([controller_suite_test.go]) and examples. *)

From Stdlib Require Import ZArith Lia.
From stdpp Require Export base tactics list gmap strings pretty sorting.
From stdpp Require Import options.

#[export] Set Default Goal Selector "!".
Open Scope Z_scope.

Declare Scope prog_scope.
Delimit Scope prog_scope with prog.
Open Scope prog_scope.

(** ** Programs that call an environment

    A handler of the program is a value of [prog E A]: it issues operations of
    the signature [E] (calls of the Kubernetes API, of the object store, of the
    operating system) and returns a value of [A].  What the environment answers
    is not fixed by the program; [run] supplies the answers from a handler of
    operations over a state, and records the operations issued, in order. *)

Structure Sig := MkSig { op : Type; reply : op → Type }.

Inductive prog (E : Sig) (A : Type) : Type :=
  | Ret (a : A)
  | Call (o : op E) (k : reply E o → prog E A).
Arguments Ret {E A} a.
Arguments Call {E A} o k.

Fixpoint prog_bind {E A B} (f : A → prog E B) (p : prog E A) : prog E B :=
  match p with
  | Ret a => f a
  | Call o k => Call o (λ r, prog_bind f (k r))
  end.

#[export] Instance prog_mret {E} : MRet (prog E) := @Ret E.
#[export] Instance prog_mbind {E} : MBind (prog E) := @prog_bind E.

#[export] Instance prog_fmap {E} : FMap (prog E) := λ A B f p, p ≫= λ a, Ret (f a).

Definition call {E} (o : op E) : prog E (reply E o) := Call o Ret.

(** The answers of an environment with state [S]. *)
Definition handler (E : Sig) (S : Type) : Type := ∀ o : op E, S → reply E o * S.

Record outcome (E : Sig) (S A : Type) := Outcome {
  trace : list (op E);
  result : A;
  final : S }.
Arguments Outcome {E S A} _ _ _.
Arguments trace {E S A} _.
Arguments result {E S A} _.
Arguments final {E S A} _.

Fixpoint run {E S A} (h : handler E S) (p : prog E A) (s : S) : outcome E S A :=
  match p with
  | Ret a => Outcome [] a s
  | Call o k =>
      let rs := h o s in
      let out := run h (k rs.1) rs.2 in
      Outcome (o :: trace out) (result out) (final out)
  end.

Lemma run_bind {E S A B} (h : handler E S) (p : prog E A) (f : A → prog E B) s :
  run h (p ≫= f) s =
    let o1 := run h p s in
    let o2 := run h (f (result o1)) (final o1) in
    Outcome (trace o1 ++ trace o2) (result o2) (final o2).
Proof.
  unfold mbind, prog_mbind.
  revert s. induction p as [a|o k IH]; intros s; simpl.
  - by destruct (run h (f a) s).
  - by rewrite IH.
Qed.

(** Two programs are equivalent when no environment tells them apart. *)
Definition prog_equiv {E A} (p q : prog E A) : Prop :=
  ∀ (S : Type) (h : handler E S) (s : S), run h p s = run h q s.
Infix "≈ₚ" := prog_equiv (at level 70) : prog_scope.

#[export] Instance prog_equiv_equivalence {E A} : Equivalence (@prog_equiv E A).
Proof.
  split; [intros p S h s; done|intros p q Hpq S h s; by rewrite Hpq|].
  intros p q r Hpq Hqr S h s. by rewrite Hpq, Hqr.
Qed.

#[export] Instance bind_proper {E A B} :
  Proper (pointwise_relation A prog_equiv ==> prog_equiv ==> prog_equiv)
    (@mbind (prog E) _ A B).
Proof.
  intros f g Hfg p q Hpq S h s. rewrite !run_bind, (Hpq S h s). simpl.
  by rewrite (Hfg _ S h).
Qed.

Lemma bind_ret_r {E A} (p : prog E A) : p ≫= Ret ≈ₚ p.
Proof.
  intros S h s. rewrite run_bind. simpl. rewrite app_nil_r.
  by destruct (run h p s).
Qed.

Lemma bind_assoc {E A B C} (p : prog E A) (f : A → prog E B) (g : B → prog E C) :
  (p ≫= f) ≫= g ≈ₚ p ≫= (λ a, f a ≫= g).
Proof.
  intros S h s. rewrite !run_bind. simpl. rewrite run_bind. simpl.
  by rewrite <-app_assoc.
Qed.

(** [always p Q]: whatever the environment answers, the operations issued by
    [p] and its result satisfy [Q].  It is the tool of the safety theorems, which
    hold for an API server that fails, races with other clients or lies. *)
Fixpoint always_from {E A} (p : prog E A) (tr : list (op E))
    (Q : list (op E) → A → Prop) : Prop :=
  match p with
  | Ret a => Q tr a
  | Call o k => ∀ r, always_from (k r) (tr ++ [o]) Q
  end.
Definition always {E A} (p : prog E A) (Q : list (op E) → A → Prop) : Prop :=
  always_from p [] Q.

Lemma always_from_run {E A} (p : prog E A) tr Q {S} (h : handler E S) s :
  always_from p tr Q → Q (tr ++ trace (run h p s)) (result (run h p s)).
Proof.
  revert tr s. induction p as [a|o k IH]; intros tr s; simpl.
  - by rewrite app_nil_r.
  - intros H. specialize (IH (h o s).1 (tr ++ [o]) (h o s).2 (H _)).
    by rewrite <-app_assoc in IH.
Qed.

Lemma always_run {E A} (p : prog E A) Q {S} (h : handler E S) s :
  always p Q → Q (trace (run h p s)) (result (run h p s)).
Proof. apply (always_from_run p [] Q h s). Qed.

Lemma always_from_bind {E A B} (p : prog E A) (f : A → prog E B) tr Q :
  always_from p tr (λ tr' a, always_from (f a) tr' Q) → always_from (p ≫= f) tr Q.
Proof.
  unfold mbind, prog_mbind.
  revert tr. induction p as [a|o k IH]; intros tr; simpl; auto.
Qed.

Lemma always_from_mono {E A} (p : prog E A) tr (Q Q' : list (op E) → A → Prop) :
  (∀ tr' a, Q tr' a → Q' tr' a) → always_from p tr Q → always_from p tr Q'.
Proof. intros HQ. revert tr. induction p as [a|o k IH]; intros tr; simpl; auto. Qed.

Lemma always_from_app {E A} (p : prog E A) tr0 tr Q :
  always_from p tr (λ tr' a, Q (tr0 ++ tr') a) → always_from p (tr0 ++ tr) Q.
Proof.
  revert tr. induction p as [a|o k IH]; intros tr; simpl; [done|].
  intros H r. rewrite <-app_assoc. by apply IH.
Qed.

(** ** Interactions

    The operations of a program together with the answers they got.  The safety
    theorems that relate what a handler does to what it was told are stated on
    interactions. *)

Structure event (E : Sig) := Ev { ev_op : op E; ev_reply : reply E ev_op }.
Arguments Ev {E} _ _.
Arguments ev_op {E} _.
Arguments ev_reply {E} _.

Fixpoint behaviour {E A} (p : prog E A) (evs : list (event E)) (a : A) : Prop :=
  match p with
  | Ret a' => evs = [] ∧ a' = a
  | Call o k => ∃ r evs', evs = Ev o r :: evs' ∧ behaviour (k r) evs' a
  end.

Fixpoint events {E S A} (h : handler E S) (p : prog E A) (s : S) : list (event E) :=
  match p with
  | Ret a => []
  | Call o k => Ev o (h o s).1 :: events h (k (h o s).1) (h o s).2
  end.

Lemma events_trace {E S A} (h : handler E S) (p : prog E A) s :
  ev_op <$> events h p s = trace (run h p s).
Proof. revert s. induction p as [a|o k IH]; intros s; cbn; [done|]. by rewrite IH. Qed.

(** Every run is a behaviour of the program. *)
Lemma run_behaviour {E S A} (h : handler E S) (p : prog E A) s :
  behaviour p (events h p s) (result (run h p s)).
Proof. revert s. induction p as [a|o k IH]; intros s; cbn; eauto. Qed.

(** [ensures p Q]: every behaviour of [p] satisfies [Q]. *)
Fixpoint ensures_from {E A} (p : prog E A) (evs : list (event E))
    (Q : list (event E) → A → Prop) : Prop :=
  match p with
  | Ret a => Q evs a
  | Call o k => ∀ r, ensures_from (k r) (evs ++ [Ev o r]) Q
  end.
Definition ensures {E A} (p : prog E A) (Q : list (event E) → A → Prop) : Prop :=
  ensures_from p [] Q.

Lemma ensures_from_behaviour {E A} (p : prog E A) evs0 Q :
  ensures_from p evs0 Q ↔ ∀ evs a, behaviour p evs a → Q (evs0 ++ evs) a.
Proof.
  revert evs0. induction p as [a|o k IH]; intros evs0; cbn; split.
  - intros HQ evs a' [-> <-]. by rewrite app_nil_r.
  - intros HQ. specialize (HQ [] a (conj eq_refl eq_refl)). by rewrite app_nil_r in HQ.
  - intros HQ evs a (r & evs' & -> & Hb).
    specialize (proj1 (IH r _) (HQ r) _ _ Hb). by rewrite <-app_assoc.
  - intros HQ r. apply IH. intros evs a Hb.
    specialize (HQ (Ev o r :: evs) a (ex_intro _ r (ex_intro _ evs (conj eq_refl Hb)))).
    by rewrite <-app_assoc.
Qed.

Lemma ensures_behaviour {E A} (p : prog E A) Q :
  ensures p Q ↔ ∀ evs a, behaviour p evs a → Q evs a.
Proof. apply ensures_from_behaviour. Qed.

Lemma behaviour_bind {E A B} (p : prog E A) (f : A → prog E B) evs b :
  behaviour (p ≫= f) evs b →
  ∃ evs1 evs2 a, evs = evs1 ++ evs2 ∧ behaviour p evs1 a ∧ behaviour (f a) evs2 b.
Proof.
  unfold mbind, prog_mbind. revert evs. induction p as [a|o k IH]; intros evs; cbn.
  - intros H. by exists [], evs, a.
  - intros (r & evs' & -> & H). destruct (IH r evs' H) as (evs1 & evs2 & a & -> & H1 & H2).
    exists (Ev o r :: evs1), evs2, a. split; [done|]. split; [by exists r, evs1|done].
Qed.

Lemma ensures_run {E A S} (p : prog E A) Q (h : handler E S) s :
  ensures p Q → Q (events h p s) (result (run h p s)).
Proof. intros HQ. exact (proj1 (ensures_behaviour p Q) HQ _ _ (run_behaviour h p s)). Qed.

Lemma ensures_from_bind {E A B} (p : prog E A) (f : A → prog E B) evs Q :
  ensures_from p evs (λ evs' a, ensures_from (f a) evs' Q) → ensures_from (p ≫= f) evs Q.
Proof.
  unfold mbind, prog_mbind.
  revert evs. induction p as [a|o k IH]; intros evs; cbn; auto.
Qed.

Lemma ensures_from_mono {E A} (p : prog E A) evs (Q Q' : list (event E) → A → Prop) :
  (∀ evs' a, Q evs' a → Q' evs' a) → ensures_from p evs Q → ensures_from p evs Q'.
Proof. intros HQ. revert evs. induction p as [a|o k IH]; intros evs; cbn; auto. Qed.

(** A property of the operations alone. *)
Lemma always_from_ensures {E A} (p : prog E A) evs Q :
  ensures_from p evs (λ evs a, Q (ev_op <$> evs) a) ↔ always_from p (ev_op <$> evs) Q.
Proof.
  revert evs. induction p as [a|o k IH]; intros evs; cbn; [done|].
  split; intros HQ r; specialize (HQ r).
  - apply IH in HQ. by rewrite fmap_app in HQ.
  - apply IH. by rewrite fmap_app.
Qed.

(** [guarded p evs G]: every operation of [p] satisfies [G] of the interaction that
    precedes it, whatever the environment answers. *)
Fixpoint guarded {E A} (p : prog E A) (evs : list (event E))
    (G : list (event E) → op E → Prop) : Prop :=
  match p with
  | Ret _ => True
  | Call o k => G evs o ∧ ∀ r, guarded (k r) (evs ++ [Ev o r]) G
  end.

Lemma guarded_behaviour {E A} (p : prog E A) evs0 G evs a pre o r post :
  guarded p evs0 G → behaviour p evs a → evs = pre ++ Ev o r :: post →
  G (evs0 ++ pre) o.
Proof.
  revert evs0 evs pre. induction p as [a'|o' k IH]; intros evs0 evs pre; cbn.
  - intros _ [-> _] H. by destruct pre.
  - intros [HG Hk] (r' & evs' & -> & Hb) Hsplit.
    destruct pre as [|e pre]; cbn in Hsplit.
    + apply (f_equal (λ l, ev_op <$> head l)) in Hsplit. cbn in Hsplit.
      injection Hsplit as <-. by rewrite app_nil_r.
    + pose proof (f_equal head Hsplit) as He. apply (f_equal tail) in Hsplit.
      cbn in He, Hsplit. injection He as <-.
      specialize (IH r' (evs0 ++ [Ev o' r']) _ pre (Hk r') Hb Hsplit).
      by rewrite <-app_assoc in IH.
Qed.

Lemma guarded_bind {E A B} (p : prog E A) (f : A → prog E B) evs G :
  guarded p evs G → ensures_from p evs (λ evs' a, guarded (f a) evs' G) →
  guarded (p ≫= f) evs G.
Proof.
  unfold mbind, prog_mbind.
  revert evs. induction p as [a|o k IH]; intros evs; cbn; [done|].
  intros [HG Hk] Hf. split; [done|]. auto.
Qed.

Lemma ensures_from_grows {E A} (p : prog E A) evs :
  ensures_from p evs (λ evs' _, ∃ l, evs' = evs ++ l).
Proof.
  revert evs. induction p as [a|o k IH]; intros evs; cbn; [exists []; by rewrite app_nil_r|].
  intros r. eapply ensures_from_mono; [|apply IH].
  intros evs' _ [l ->]. rewrite <-app_assoc. by eexists.
Qed.

Lemma guarded_bind_grow {E A B} (p : prog E A) (f : A → prog E B) evs G :
  guarded p evs G → (∀ l a, guarded (f a) (evs ++ l) G) → guarded (p ≫= f) evs G.
Proof.
  intros Hp Hf. apply guarded_bind; [done|].
  eapply ensures_from_mono; [|apply ensures_from_grows]. intros evs' a [l ->]. apply Hf.
Qed.

Lemma guarded_mono {E A} (p : prog E A) evs (G G' : list (event E) → op E → Prop) :
  (∀ evs o, G evs o → G' evs o) → guarded p evs G → guarded p evs G'.
Proof. intros HG. revert evs. induction p as [a|o k IH]; intros evs; cbn; [done|].
  intros [HGo Hk]. split; auto.
Qed.

(** ** Loops with early exit

    A Go loop that returns from its body: the first [None] ends it. *)
Fixpoint fold_opt {S A} (f : S → A → option S) (s : S) (l : list A) : option S :=
  match l with
  | [] => Some s
  | a :: l => s ← f s a; fold_opt f s l
  end.

Lemma fold_opt_app {S A} (f : S → A → option S) s l1 l2 :
  fold_opt f s (l1 ++ l2) = fold_opt f s l1 ≫= λ s, fold_opt f s l2.
Proof.
  revert s. induction l1 as [|a l1 IH]; intros s; [done|]. cbn.
  destruct (f s a); [apply IH|done].
Qed.

(** The order does not matter when any two different elements commute. *)
Lemma fold_opt_perm {S A} (f : S → A → option S) l1 l2 s :
  l1 ≡ₚ l2 → NoDup l1 →
  (∀ a b s, a ∈ l1 → b ∈ l1 → a ≠ b →
     f s a ≫= (λ s, f s b) = f s b ≫= (λ s, f s a)) →
  fold_opt f s l1 = fold_opt f s l2.
Proof.
  intros Hp. revert s. induction Hp as [|x l1 l2 Hp IH|x y l|l1 l2 l3 Hp1 IH1 Hp2 IH2];
    intros s Hnd Hcomm.
  - done.
  - apply NoDup_cons in Hnd as [Hx Hnd]. cbn. destruct (f s x) as [s'|]; [|done].
    apply IH; [done|]. intros a b s'' Ha Hb. apply Hcomm; by apply list_elem_of_further.
  - apply NoDup_cons in Hnd as [Hy Hnd].
    specialize (Hcomm y x s ltac:(set_solver) ltac:(set_solver) ltac:(set_solver)).
    cbn. destruct (f s y) as [s1|], (f s x) as [s2|]; cbn in *;
      [by rewrite Hcomm|by rewrite Hcomm|by rewrite <-Hcomm|done].
  - rewrite IH1 by done. apply IH2; [by rewrite <-Hp1|].
    intros a b s' Ha Hb. apply Hcomm; by rewrite Hp1.
Qed.

(** An invariant of the body is an invariant of the loop. *)
Lemma fold_opt_inv {S A} (f : S → A → option S) (P : S → Prop) l s s' :
  (∀ s a s', P s → f s a = Some s' → P s') →
  P s → fold_opt f s l = Some s' → P s'.
Proof.
  intros Hf. revert s. induction l as [|a l IH]; intros s Hs; cbn; [by intros [= <-]|].
  destruct (f s a) as [s1|] eqn:E; [|done]. cbn. eauto.
Qed.

(** ** Tactics of the development *)

(** Follow the control flow of a handler: open every answer of the environment
    and every test of the code that the goal is stuck on. *)
Ltac step_case :=
  match goal with
  | |- context [match ?x with _ => _ end] => destruct x eqn:?
  | |- context [if ?x then _ else _] => destruct x eqn:?
  end.
Ltac explore := repeat (simpl; intros; try step_case); simplify_eq.

(** Rewrite with a Boolean test known to hold, then simplify. *)
Ltac bool_simpl :=
  repeat match goal with
  | H : ?b = true |- context [?b] => rewrite H
  | H : ?b = false |- context [?b] => rewrite H
  end; simpl.

Create HintDb datashim.
Create Rewrite HintDb datashim.
