(* ===== verification/GoStd.v ===== *)
(** * The Go standard library, as the sources use it

    Strings are byte strings.  The functions that treat letters or blanks
    ([ToLower], [TrimSpace]) are those of Go on ASCII strings, which is what
    Kubernetes names, label keys and label values are made of.  An [int] is a
    [Z] in the range of a 64-bit machine integer; [Atoi] writes out how the
    range is enforced.  A [map[string]string] that may be [nil] is an
    [option (gmap string string)]. *)

From Stdlib Require Import ZArith Lia Ascii.
From stdpp Require Import options.
From S2P Require Import Prelude.

Open Scope Z_scope.

(** ** Maps that may be nil *)

Abbreviation gomap := (option (gmap string string)).

(** [m[k]] with its second result: a nil map has no key. *)
Definition map_get (m : gomap) (k : string) : option string :=
  m ≫= λ m, m !! k.

(** [m[k]]: the zero value for an absent key. *)
Definition map_index (m : gomap) (k : string) : string :=
  default "" (map_get m k).

(** ** Package strings *)

Definition HasPrefix (s p : string) : bool := String.prefix p s.

Fixpoint HasSuffix (s p : string) : bool :=
  bool_decide (s = p) ||
  match s with "" => false | String _ s' => HasSuffix s' p end.

(** [strings.Split] with a one-byte separator. *)
Fixpoint Split (s : string) (sep : ascii) : list string :=
  match s with
  | "" => [""]
  | String c s' =>
      if decide (c = sep) then "" :: Split s' sep
      else match Split s' sep with
           | w :: ws => String c w :: ws
           | [] => [String c ""]
           end
  end.

Fixpoint Join (l : list string) (sep : string) : string :=
  match l with
  | [] => ""
  | [w] => w
  | w :: ws => w +:+ sep +:+ Join ws sep
  end.

(** [strings.Cut] with a one-byte separator: before, after, found. *)
Fixpoint Cut (s : string) (sep : ascii) : string * string * bool :=
  match s with
  | "" => ("", "", false)
  | String c s' =>
      if decide (c = sep) then ("", s', true)
      else let '(b, a, found) := Cut s' sep in (String c b, a, found)
  end.

Fixpoint str_drop (n : nat) (s : string) : string :=
  match n, s with
  | S n, String _ s' => str_drop n s'
  | _, _ => s
  end.

Fixpoint str_take (n : nat) (s : string) : string :=
  match n, s with
  | S n, String c s' => String c (str_take n s')
  | _, _ => ""
  end.

(** The text before and after the first occurrence of [sub]. *)
Fixpoint cut_at (s sub : string) : option (string * string) :=
  if HasPrefix s sub then Some ("", str_drop (String.length sub) s)
  else match s with
       | "" => None
       | String c s' => '(b, a) ← cut_at s' sub; Some (String c b, a)
       end.

Definition Contains (s sub : string) : bool :=
  match cut_at s sub with Some _ => true | None => false end.

(** [strings.SplitN(s, sep, 2)]. *)
Definition SplitN2 (s sep : string) : list string :=
  match cut_at s sep with
  | Some (b, a) => [b; a]
  | None => [s]
  end.

Definition is_space (c : ascii) : bool :=
  bool_decide (c ∈ ["009"; "010"; "011"; "012"; "013"; " "]%char).

Fixpoint TrimLeftSpace (s : string) : string :=
  match s with
  | String c s' => if is_space c then TrimLeftSpace s' else s
  | "" => ""
  end.

(** Drop the trailing bytes that satisfy [f]. *)
Fixpoint trim_right (f : ascii → bool) (s : string) : string :=
  match s with
  | "" => ""
  | String c s' =>
      match trim_right f s' with
      | "" => if f c then "" else String c ""
      | t => String c t
      end
  end.

Definition TrimSpace (s : string) : string := trim_right is_space (TrimLeftSpace s).

(** [strings.TrimRight] with a one-byte cutset. *)
Definition TrimRight (s : string) (c : ascii) : string :=
  trim_right (λ d, bool_decide (d = c)) s.

Definition lower (c : ascii) : ascii :=
  let n := nat_of_ascii c in
  if bool_decide (65 ≤ n ≤ 90)%nat then ascii_of_nat (n + 32) else c.

Fixpoint ToLower (s : string) : string :=
  match s with "" => "" | String c s' => String (lower c) (ToLower s') end.

Definition newline : string := String "010" "".

(** ** Package strconv *)

Inductive NumError := ErrSyntax | ErrRange.

#[export] Instance NumError_eq_dec : EqDecision NumError.
Proof. solve_decision. Defined.

Definition maxInt64 : Z := 2 ^ 63 - 1.
Definition minInt64 : Z := - 2 ^ 63.
Definition maxUint64 : Z := 2 ^ 64 - 1.

(** The [int64] an arithmetic operation with the exact result [n] yields. *)
Definition wrap64 (n : Z) : Z := (n + 2 ^ 63) mod 2 ^ 64 - 2 ^ 63.

Definition digit (c : ascii) : option Z :=
  let n := Z.of_nat (nat_of_ascii c) in
  if bool_decide (48 ≤ n ≤ 57) then Some (n - 48) else None.

(** The loop of [strconv.ParseUint] in base 10: it leaves with [ErrRange] and
    the largest value as soon as the next digit would overflow 64 bits. *)
Fixpoint ParseUint_loop (s : string) (n : Z) : Z * option NumError :=
  match s with
  | "" => (n, None)
  | String c s' =>
      match digit c with
      | None => (0, Some ErrSyntax)
      | Some d =>
          if maxUint64 / 10 + 1 <=? n then (maxUint64, Some ErrRange)
          else if maxUint64 <? n * 10 + d then (maxUint64, Some ErrRange)
          else ParseUint_loop s' (n * 10 + d)
      end
  end.

Definition ParseUint (s : string) : Z * option NumError :=
  match s with "" => (0, Some ErrSyntax) | _ => ParseUint_loop s 0 end.

(** The optional sign of a number: is it negative, and what follows it. *)
Definition sign (s : string) : bool * string :=
  match s with
  | String "-" s' => (true, s')
  | String "+" s' => (false, s')
  | _ => (false, s)
  end.

Definition ParseInt (s : string) : Z * option NumError :=
  match s with
  | "" => (0, Some ErrSyntax)
  | _ =>
      let '(neg, digits) := sign s in
      match ParseUint digits with
      | (_, Some ErrSyntax) => (0, Some ErrSyntax)
      | (un, _) =>
          if negb neg && (2 ^ 63 <=? un) then (maxInt64, Some ErrRange)
          else if neg && (2 ^ 63 <? un) then (minInt64, Some ErrRange)
          else ((if neg then - un else un), None)
      end
  end.

Fixpoint digits_value (s : string) (n : Z) : option Z :=
  match s with
  | "" => Some n
  | String c s' => d ← digit c; digits_value s' (n * 10 + d)
  end.

(** [strconv.Atoi] on a 64-bit machine, with its fast path for short strings. *)
Definition Atoi (s : string) : Z * option NumError :=
  if bool_decide (0 < String.length s < 19)%nat then
    let '(neg, digits) := sign s in
    if decide (digits = "") then (0, Some ErrSyntax)
    else match digits_value digits 0 with
         | Some n => ((if neg then - n else n), None)
         | None => (0, Some ErrSyntax)
         end
  else ParseInt s.

(** [strconv.Itoa], [fmt.Sprint] and [%d] on an [int]. *)
Definition Itoa (n : Z) : string := pretty n.

Lemma Itoa_of_N (x : N) : Itoa (Z.of_N x) = pretty x.
Proof. by destruct x. Qed.

Lemma Itoa_nonneg n : 0 ≤ n → Itoa n = pretty (Z.to_N n).
Proof. intros Hn. rewrite <-Itoa_of_N. f_equal. lia. Qed.

Definition ParseBool (s : string) : bool * option NumError :=
  if bool_decide (s ∈ ["1"; "t"; "T"; "true"; "TRUE"; "True"]) then (true, None)
  else if bool_decide (s ∈ ["0"; "f"; "F"; "false"; "FALSE"; "False"]) then (false, None)
  else (false, Some ErrSyntax).

Definition FormatBool (b : bool) : string := if b then "true" else "false".

(** ** Lemmas on strings *)

#[local] Arguments String.append : simpl nomatch.

Lemma str_app_nil_r (s : string) : s +:+ "" = s.
Proof. induction s as [|c s IH]; [done|]. cbn. by f_equal. Qed.

Lemma str_app_assoc (s t u : string) : (s +:+ t) +:+ u = s +:+ t +:+ u.
Proof. induction s as [|c s IH]; [done|]. cbn. by f_equal. Qed.

Lemma str_app_length (s t : string) :
  String.length (s +:+ t) = (String.length s + String.length t)%nat.
Proof. induction s as [|c s IH]; [done|]. cbn. by rewrite IH. Qed.

Lemma HasPrefix_spec (s p : string) : HasPrefix s p = true ↔ ∃ t, s = p +:+ t.
Proof.
  unfold HasPrefix. revert s. induction p as [|c p IH]; intros s; cbn.
  - split; [by exists s|by destruct s].
  - destruct s as [|d s]; cbn.
    { split; [done|by intros [t ?]]. }
    destruct (ascii_dec c d) as [->|Hne].
    + rewrite IH. split; intros [t Ht]; exists t; [by f_equal|by simplify_eq].
    + split; [done|]. intros [t Ht]. congruence.
Qed.

Lemma str_drop_app (s t : string) : str_drop (String.length s) (s +:+ t) = t.
Proof. induction s as [|c s IH]; [by destruct t|]. apply IH. Qed.

(** The character [c] does not occur in [s]. *)
Fixpoint no_char (c : ascii) (s : string) : Prop :=
  match s with "" => True | String d s' => d ≠ c ∧ no_char c s' end.

#[export] Instance no_char_dec c s : Decision (no_char c s).
Proof. induction s; cbn; apply _. Defined.

Lemma no_char_app c s t : no_char c (s +:+ t) ↔ no_char c s ∧ no_char c t.
Proof. induction s as [|d s IH]; cbn; [tauto|]. rewrite IH. tauto. Qed.

Lemma Split_cons s c : ∃ w ws, Split s c = w :: ws.
Proof.
  induction s as [|d s (w & ws & IH)]; cbn; [by eexists _, _|].
  case_decide; [by eexists _, _|]. rewrite IH. by eexists _, _.
Qed.

Lemma Split_not_nil s c : Split s c ≠ [].
Proof. by destruct (Split_cons s c) as (w & ws & ->). Qed.

Lemma Join_cons w ws sep : ws ≠ [] → Join (w :: ws) sep = w +:+ sep +:+ Join ws sep.
Proof. by destruct ws. Qed.

(** Splitting and joining are inverse to each other. *)
Lemma Join_Split s c : Join (Split s c) (String c "") = s.
Proof.
  induction s as [|d s IH]; cbn; [done|]. case_decide as Hd.
  - subst. rewrite Join_cons by apply Split_not_nil. cbn. by rewrite IH.
  - destruct (Split_cons s c) as (w & ws & Hs). rewrite Hs in *.
    rewrite <-IH. by destruct ws.
Qed.

Lemma Split_no_char s c : Forall (no_char c) (Split s c).
Proof.
  induction s as [|d s IH]; cbn; [by repeat constructor|]. case_decide.
  { by constructor. }
  destruct (Split_cons s c) as (w & ws & Hs). rewrite Hs in *.
  inversion_clear IH. by constructor.
Qed.

Lemma Split_app_sep w s c :
  no_char c w → Split (w +:+ String c s) c = w :: Split s c.
Proof.
  induction w as [|d w IH]; cbn; intros Hw.
  - by rewrite decide_True by done.
  - destruct Hw as [Hd Hw]. rewrite decide_False by done. by rewrite IH.
Qed.

Lemma Split_id w c : no_char c w → Split w c = [w].
Proof.
  induction w as [|d w IH]; cbn; intros Hw; [done|].
  destruct Hw as [Hd Hw]. rewrite decide_False by done. by rewrite IH.
Qed.

Lemma Split_Join l c :
  l ≠ [] → Forall (no_char c) l → Split (Join l (String c "")) c = l.
Proof.
  intros Hne Hl. induction Hl as [|w ws Hw Hws IH]; [done|].
  destruct ws as [|w' ws]; [by apply Split_id|].
  rewrite Join_cons by done. change (String c "" +:+ ?t) with (String c t).
  rewrite Split_app_sep by done. by rewrite IH.
Qed.

Lemma Cut_spec s c :
  let '(b, a, found) := Cut s c in
  no_char c b ∧ if found then s = b +:+ String c a else b = s ∧ a = "".
Proof.
  induction s as [|d s IH]; cbn; [done|]. case_decide; [by subst|].
  destruct (Cut s c) as [[b a] found]. destruct IH as [Hb IH].
  split; [done|]. destruct found; [by subst|by destruct IH; subst].
Qed.

Lemma cut_at_spec s sub b a : cut_at s sub = Some (b, a) → s = b +:+ sub +:+ a.
Proof.
  revert b a. induction s as [|c s IH]; intros b a; cbn -[HasPrefix str_drop].
  - destruct (HasPrefix "" sub) eqn:Hp; [|done]. intros [= <- <-].
    by destruct sub.
  - destruct (HasPrefix (String c s) sub) eqn:Hp.
    + intros [= <- <-]. apply HasPrefix_spec in Hp as [t Ht].
      by rewrite Ht, str_drop_app.
    + destruct (cut_at s sub) as [[b' a']|] eqn:Hc; [|done]. cbn.
      intros [= <- <-]. by rewrite (IH b' a' eq_refl).
Qed.

Lemma cut_at_app b sub a :
  (∃ b' a', cut_at (b +:+ sub +:+ a) sub = Some (b', a')).
Proof.
  assert (∀ t, HasPrefix (sub +:+ t) sub = true) as Hp
    by (intros t; apply HasPrefix_spec; eauto).
  induction b as [|c b (b' & a' & IH)]; cbn -[HasPrefix str_drop].
  - specialize (Hp a). destruct (sub +:+ a) eqn:E; cbn -[HasPrefix str_drop];
      rewrite Hp; eauto.
  - destruct (HasPrefix _ sub); [by eauto|]. rewrite IH. cbn. eauto.
Qed.

Lemma Contains_spec s sub : Contains s sub = true ↔ ∃ b a, s = b +:+ sub +:+ a.
Proof.
  unfold Contains. split.
  - destruct (cut_at s sub) as [[b a]|] eqn:H; [|done]. eauto using cut_at_spec.
  - intros (b & a & ->). by destruct (cut_at_app b sub a) as (b' & a' & ->).
Qed.

Lemma ToLower_length s : String.length (ToLower s) = String.length s.
Proof. induction s as [|c s IH]; cbn; [done|by rewrite IH]. Qed.

Lemma lower_idemp c : lower (lower c) = lower c.
Proof. by destruct c as [[] [] [] [] [] [] [] []]; vm_compute. Qed.

Lemma ToLower_idemp s : ToLower (ToLower s) = ToLower s.
Proof. induction s as [|c s IH]; cbn; [done|by rewrite lower_idemp, IH]. Qed.

Lemma trim_right_idemp f s : trim_right f (trim_right f s) = trim_right f s.
Proof.
  induction s as [|c s IH]; cbn; [done|].
  destruct (trim_right f s) as [|d t] eqn:E.
  - destruct (f c) eqn:Hc; [done|]. cbn. by rewrite Hc.
  - cbn in *. by rewrite IH.
Qed.

Lemma TrimLeftSpace_trim_right s :
  TrimLeftSpace (trim_right is_space (TrimLeftSpace s))
  = trim_right is_space (TrimLeftSpace s).
Proof.
  induction s as [|c s IH]; [done|]. cbn -[is_space].
  destruct (is_space c) eqn:Hc; [done|]. cbn -[is_space].
  destruct (trim_right is_space s); rewrite ?Hc; cbn -[is_space]; by rewrite ?Hc.
Qed.

Lemma TrimSpace_idemp s : TrimSpace (TrimSpace s) = TrimSpace s.
Proof. unfold TrimSpace. by rewrite TrimLeftSpace_trim_right, trim_right_idemp. Qed.

(** ** Lemmas on numbers *)

Lemma ParseBool_FormatBool b : ParseBool (FormatBool b) = (b, None).
Proof. by destruct b. Qed.

Lemma digit_range c d : digit c = Some d → 0 ≤ d ≤ 9.
Proof. unfold digit. case_bool_decide; [|done]. intros [= <-]. lia. Qed.

Lemma digit_pretty_N_char (x : N) :
  (x < 10)%N → digit (pretty_N_char x) = Some (Z.of_N x).
Proof.
  intros Hx. assert (x ∈ [0; 1; 2; 3; 4; 5; 6; 7; 8; 9]%N) as Hin.
  { rewrite !elem_of_cons. lia. }
  by repeat (apply elem_of_cons in Hin as [->|Hin]; [done|]);
    apply elem_of_nil in Hin.
Qed.

(** Reading back the digits that [Itoa] writes, with or without the overflow
    tests of [ParseUint]. *)
Lemma digits_value_pretty_go (x : N) s :
  digits_value (pretty_N_go x s) 0 = digits_value s (Z.of_N x).
Proof.
  revert s. induction (N.lt_wf_0 x) as [x _ IH]; intros s.
  assert (x = 0 ∨ 0 < x)%N as [->|Hx] by lia; [done|].
  rewrite pretty_N_go_step by done. rewrite IH by (by apply N.div_lt).
  cbn -[Z.of_N digit]. rewrite digit_pretty_N_char by (by apply N.mod_lt). cbn -[Z.of_N].
  f_equal. pose proof (N.div_mod x 10 ltac:(done)). lia.
Qed.

Lemma digits_value_pretty (x : N) : digits_value (pretty x) 0 = Some (Z.of_N x).
Proof.
  unfold pretty, pretty_N. case_decide; [by subst|]. apply digits_value_pretty_go.
Qed.

Lemma digits_value_nonneg s n m : 0 ≤ n → digits_value s n = Some m → 0 ≤ m.
Proof.
  revert n. induction s as [|c s IH]; intros n Hn; cbn -[digit].
  - by intros [= <-].
  - destruct (digit c) as [d|] eqn:Hd; [|done]. cbn. apply digit_range in Hd.
    apply IH. lia.
Qed.

Lemma ParseUint_loop_range s n :
  0 ≤ n ≤ maxUint64 → 0 ≤ (ParseUint_loop s n).1 ≤ maxUint64.
Proof.
  assert (maxUint64 = 18446744073709551615) as Hmax by done.
  revert n. induction s as [|c s IH]; intros n Hn; cbn -[digit maxUint64]; [done|].
  destruct (digit c) as [d|] eqn:Hd; [apply digit_range in Hd|cbn; lia].
  destruct (_ <=? n); [cbn -[maxUint64]; lia|].
  destruct (Z.ltb_spec maxUint64 (n * 10 + d)); [cbn -[maxUint64]; lia|].
  apply IH. lia.
Qed.

(** A value that fits is returned; the overflow tests only reject others. *)
Lemma ParseUint_loop_value s n :
  0 ≤ n → (∃ m, digits_value s n = Some m ∧ m ≤ maxUint64) →
  (digits_value s n, @None NumError) = (Some (ParseUint_loop s n).1, (ParseUint_loop s n).2).
Proof.
  assert (maxUint64 = 18446744073709551615) as Hmax by done.
  assert (∀ s n m, 0 ≤ n → digits_value s n = Some m → n ≤ m) as Hmono.
  { clear. induction s as [|c s IH]; intros n m Hn; cbn -[digit].
    - by intros [= <-].
    - destruct (digit c) as [d|] eqn:Hd; [|done]. cbn. apply digit_range in Hd.
      intros Hv. apply IH in Hv; lia. }
  revert n. induction s as [|c s IH]; intros n Hn (m & Hm & Hle);
    cbn -[digit maxUint64] in *; [by simplify_eq|].
  destruct (digit c) as [d|] eqn:Hd; [|done]. cbn in Hm.
  apply digit_range in Hd. pose proof (Hmono s (n * 10 + d) m ltac:(lia) Hm) as Hnm.
  destruct (Z.leb_spec (maxUint64 / 10 + 1) n) as [Hc|Hc].
  { change (maxUint64 / 10 + 1) with 1844674407370955162 in Hc. lia. }
  destruct (Z.ltb_spec maxUint64 (n * 10 + d)); [lia|].
  rewrite <-IH; [done|lia|eauto].
Qed.

Lemma ParseInt_range s : minInt64 ≤ (ParseInt s).1 ≤ maxInt64.
Proof.
  unfold ParseInt. destruct s as [|c s]; [done|].
  destruct (sign (String c s)) as [neg ds]. unfold ParseUint.
  assert (0 ≤ (match ds with "" => (0, Some ErrSyntax) | _ => ParseUint_loop ds 0 end).1
    ≤ maxUint64) as Hr.
  { destruct ds; [done|]. by apply ParseUint_loop_range. }
  assert (maxUint64 = 18446744073709551615) as Hm by done.
  assert (maxInt64 = 9223372036854775807) as Hm1 by done.
  assert (minInt64 = -9223372036854775808) as Hm2 by done.
  destruct (match ds with "" => _ | _ => _ end) as [un e]. cbn [fst] in Hr.
  destruct e as [[]|], neg; cbn [fst negb andb];
    repeat case_match; cbn [fst]; rewrite ?Z.leb_gt, ?Z.ltb_ge in *; lia.
Qed.

Lemma Atoi_digits s neg ds m :
  sign s = (neg, ds) → ds ≠ "" → digits_value ds 0 = Some m →
  m < (if neg then 2 ^ 63 + 1 else 2 ^ 63) →
  Atoi s = (if neg then - m else m, None).
Proof.
  intros Hs Hne Hv Hm. unfold Atoi. rewrite Hs. case_bool_decide.
  { by rewrite decide_False, Hv by done. }
  unfold ParseInt. rewrite Hs. destruct s as [|c s]; [by simplify_eq/=|].
  unfold ParseUint. destruct ds as [|d ds]; [done|].
  pose proof (digits_value_nonneg (String d ds) 0 m (Z.le_refl 0) Hv) as Hm0.
  assert (m ≤ maxUint64) by (unfold maxUint64; destruct neg; lia).
  pose proof (ParseUint_loop_value (String d ds) 0 ltac:(lia) ltac:(eauto)) as Heq.
  rewrite Hv in Heq. destruct (ParseUint_loop (String d ds) 0) as [un e].
  cbn [fst snd] in Heq. simplify_eq.
  destruct neg; cbn [negb andb].
  - destruct (Z.ltb_spec (2 ^ 63) un); [lia|done].
  - destruct (Z.leb_spec (2 ^ 63) un); [lia|done].
Qed.

Lemma pretty_N_go_head (x : N) s :
  (0 < x)%N → ∃ c t, pretty_N_go x s = String c t ∧ is_Some (digit c).
Proof.
  revert s. induction (N.lt_wf_0 x) as [x _ IH]; intros s Hx.
  rewrite pretty_N_go_step by done.
  destruct (decide (x `div` 10 = 0)%N) as [->|Hd].
  - rewrite pretty_N_go_0. eexists _, _; split; [done|].
    rewrite digit_pretty_N_char by (by apply N.mod_lt). eauto.
  - apply IH; [by apply N.div_lt|by apply N.neq_0_lt_0].
Qed.

Lemma pretty_N_head (x : N) : ∃ c t, pretty x = String c t ∧ is_Some (digit c).
Proof.
  unfold pretty, pretty_N. case_decide; [by eexists _, _|].
  apply pretty_N_go_head. lia.
Qed.

Lemma sign_digit c t : is_Some (digit c) → sign (String c t) = (false, String c t).
Proof. intros [d Hd]. by destruct c as [[] [] [] [] [] [] [] []]. Qed.

(** [Atoi] reads back what [Itoa] prints, over the whole range of an [int]. *)
Lemma Atoi_Itoa n : minInt64 ≤ n ≤ maxInt64 → Atoi (Itoa n) = (n, None).
Proof.
  intros Hn. unfold minInt64, maxInt64 in Hn.
  assert (∀ p, Itoa (Zpos p) = pretty (Npos p)) as Hpos by done.
  destruct n as [|p|p].
  - done.
  - rewrite Hpos. destruct (pretty_N_head (Npos p)) as (c & t & Hp & Hd).
    apply (Atoi_digits _ false (pretty (Npos p))).
    + rewrite Hp. by apply sign_digit.
    + by rewrite Hp.
    + apply digits_value_pretty.
    + lia.
  - change (Itoa (Zneg p)) with (String "-" (pretty (Npos p))).
    destruct (pretty_N_head (Npos p)) as (c & t & Hp & Hd).
    apply (Atoi_digits _ true (pretty (Npos p)) (Zpos p)).
    + done.
    + by rewrite Hp.
    + apply digits_value_pretty.
    + lia.
Qed.

(** A decimal string contains no separator of a path. *)
Lemma no_char_pretty (x : N) c : digit c = None → no_char c (pretty x).
Proof.
  intros Hc. assert (∀ y s, no_char c s → no_char c (pretty_N_go y s)) as Hgo.
  { intros y. induction (N.lt_wf_0 y) as [y _ IH]; intros s Hs.
    assert (y = 0 ∨ 0 < y)%N as [->|Hy] by lia; [done|].
    rewrite pretty_N_go_step by done. apply IH; [by apply N.div_lt|].
    split; [|done]. intros Heq.
    pose proof (digit_pretty_N_char (y `mod` 10) ltac:(by apply N.mod_lt)). congruence. }
  unfold pretty, pretty_N. case_decide; [|by apply Hgo].
  split; [|done]. intros <-. done.
Qed.

#[export] Hint Resolve no_char_pretty Split_not_nil : datashim.
#[export] Hint Rewrite str_app_assoc str_app_nil_r : datashim.
