(* ===== verification/KubeApi.v ===== *)
(** * The objects of the cluster and the client the controllers are given

    The custom resources are those of [api/v1alpha1]; of the built-in Kubernetes
    objects only the fields the controllers read or write are kept, under their Go
    names with a prefix.  The API server, the controller-runtime client, the UUID
    generator and the environment of the process are not part of the repository:
    they are the operations of the signature [Kube], answered by whatever handler
    the theorem quantifies over.  What the Kubernetes API documents about a server
    that is reachable is stated in [KubeServer.v]. *)

From Stdlib Require Import ZArith Lia.
From stdpp Require Import options.
From S2P Require Import Prelude GoStd.

Open Scope Z_scope.

(** ** Metadata *)

Record OwnerReference := MkOwnerReference {
  or_Kind : string;
  or_Name : string;
  or_UID : string }.

Record ObjectMeta := MkObjectMeta {
  om_Name : string;
  om_Namespace : string;
  om_UID : string;
  om_ResourceVersion : string;
  om_Labels : gomap;
  om_Annotations : gomap;
  om_Finalizers : list string;
  om_OwnerReferences : list OwnerReference;
  om_DeletionTimestamp : option Z }.

(** [metav1.ObjectMeta{Name: n, Namespace: ns, Labels: ls}]. *)
Definition new_meta (n ns : string) (ls : gomap) : ObjectMeta :=
  MkObjectMeta n ns "" "" ls None [] [] None.

Record NamespacedName := MkNamespacedName { nn_Namespace : string; nn_Name : string }.

#[export] Instance NamespacedName_eq_dec : EqDecision NamespacedName.
Proof. solve_decision. Defined.
#[export] Instance NamespacedName_countable : Countable NamespacedName.
Proof.
  refine (inj_countable' (λ n, (nn_Namespace n, nn_Name n))
    (λ p, MkNamespacedName p.1 p.2) _). by intros [].
Defined.

Definition key_of (m : ObjectMeta) : NamespacedName :=
  MkNamespacedName (om_Namespace m) (om_Name m).

(** ** Custom resources ([api/v1alpha1]) *)

Definition StatusEmpty := "".
Definition StatusInitial := "Initializing".
Definition StatusPending := "Pending".
Definition StatusOK := "OK".
Definition StatusDisabled := "Disabled".
Definition StatusFail := "Failed".

Record DatasetSpec := MkDatasetSpec {
  spec_Local : gomap;
  spec_Remote : gomap;
  spec_Type : string;
  spec_Url : string;
  spec_Format : string;
  spec_Extract : string }.

Record DatasetStatusCondition := MkCondition { cond_Status : string; cond_Info : string }.

Record DatasetStatus := MkDatasetStatus {
  st_Caching : DatasetStatusCondition;
  st_Provision : DatasetStatusCondition }.

Record Dataset := MkDataset {
  ds_Meta : ObjectMeta;
  ds_Spec : DatasetSpec;
  ds_Status : DatasetStatus }.

Record CachingPlacementInfo := MkPlacementInfo { cpi_Key : string; cpi_Value : string }.

Record CachingPlacement := MkPlacement {
  cp_Gateways : list CachingPlacementInfo;
  cp_DataLocations : list CachingPlacementInfo }.

(** The status of a DatasetInternal holds nothing but the caching placements. *)
Record DatasetInternal := MkDatasetInternal {
  di_Meta : ObjectMeta;
  di_Spec : DatasetSpec;
  di_Placements : CachingPlacement }.

(** The zero values of Go. *)
Definition empty_spec : DatasetSpec := MkDatasetSpec None None "" "" "" "".
Definition empty_status : DatasetStatus :=
  MkDatasetStatus (MkCondition "" "") (MkCondition "" "").
Definition empty_placement : CachingPlacement := MkPlacement [] [].

(** ** Built-in objects *)

Inductive AccessMode := ReadWriteOnce | ReadOnlyMany | ReadWriteMany.
Inductive HostPathType := HostPathDirectory | HostPathDirectoryOrCreate.

Inductive VolumeSource :=
  | CSISource (driver handle : string) (attributes : gmap string string)
  | HostPathSource (path : string) (type : HostPathType).

Record PersistentVolume := MkPV {
  pv_Meta : ObjectMeta;
  pv_StorageClassName : string;
  pv_AccessModes : list AccessMode;
  pv_Storage : string;
  pv_Source : VolumeSource }.

Inductive ClaimPhase := ClaimPhaseEmpty | ClaimPending | ClaimBound | ClaimLost.

Record PersistentVolumeClaim := MkPVC {
  pvc_Meta : ObjectMeta;
  pvc_AccessModes : list AccessMode;
  pvc_VolumeName : string;
  pvc_StorageClassName : string;
  pvc_Requests : option string;
  pvc_Selector : option (gmap string string);
  pvc_Phase : ClaimPhase }.

Record Secret := MkSecret {
  sec_Meta : ObjectMeta;
  sec_Data : gomap;
  sec_StringData : gomap }.

Record ConfigMap := MkConfigMap { cm_Meta : ObjectMeta; cm_Data : gomap }.

Record ServicePort := MkServicePort { port_Name : string; port_Port : Z }.
Record Service := MkService {
  svc_Meta : ObjectMeta;
  svc_ClusterIP : string;
  svc_Ports : list ServicePort }.

Record Job := MkJob {
  job_Meta : ObjectMeta;
  job_BackoffLimit : Z;
  job_TTLSecondsAfterFinished : Z;
  job_RestartPolicy : string;
  job_Image : string;
  job_ImagePullPolicy : string;
  job_ContainerName : string;
  job_Command : list string;
  job_EnvFromSecret : string }.

(** The custom resources of Rook the cache plugin creates. *)
Record PoolSpec := MkPoolSpec { pool_FailureDomain : string; pool_ReplicatedSize : Z }.

Record CephObjectStore := MkCephObjectStore {
  cos_Meta : ObjectMeta;
  cos_MetadataPool : PoolSpec;
  cos_DataPool : PoolSpec;
  cos_PreservePoolsOnDelete : bool;
  cos_GatewayInstances : Z;
  cos_GatewayPort : Z;
  (** the host the gateway must run on, if one is required *)
  cos_GatewayHost : option string;
  (** the phase, once there is a status *)
  cos_Phase : option string }.

Record CephObjectStoreUser := MkCephObjectStoreUser {
  cu_Meta : ObjectMeta;
  cu_Store : string;
  cu_DisplayName : string }.

(** The part of a pod that is read through [List]. *)
Record PodInfo := MkPodInfo { pi_Labels : gomap; pi_NodeName : string }.

(** ** Errors of the API machinery *)

Inductive goerr :=
  | NotFound
  | AlreadyExists
  | Conflict
  | BadRequest (msg : string)
  | InternalError (msg : string)
  | ServiceUnavailable (msg : string)
  | OtherError (msg : string).

#[export] Instance goerr_eq_dec : EqDecision goerr.
Proof. solve_decision. Defined.

(** [errors.IsNotFound]. *)
Definition IsNotFound (e : goerr) : bool := bool_decide (e = NotFound).

(** What a reconciler returns: [reconcile.Result] and an error. *)
Record ReconcileResult := MkResult { Requeue : bool; RequeueAfter : Z }.
Definition result_done : ReconcileResult := MkResult false 0.
Definition result_requeue : ReconcileResult := MkResult true 0.
Definition reconciled : Type := ReconcileResult * option goerr.

(** ** The client *)

Inductive Kind :=
  | KDataset | KDatasetInternal | KPVC | KPV | KSecret | KConfigMap | KService | KJob
  | KCephObjectStore | KCephObjectStoreUser.

Definition Object (k : Kind) : Type :=
  match k with
  | KDataset => Dataset
  | KDatasetInternal => DatasetInternal
  | KPVC => PersistentVolumeClaim
  | KPV => PersistentVolume
  | KSecret => Secret
  | KConfigMap => ConfigMap
  | KService => Service
  | KJob => Job
  | KCephObjectStore => CephObjectStore
  | KCephObjectStoreUser => CephObjectStoreUser
  end.

Definition meta_of (k : Kind) : Object k → ObjectMeta :=
  match k with
  | KDataset => ds_Meta
  | KDatasetInternal => di_Meta
  | KPVC => pvc_Meta
  | KPV => pv_Meta
  | KSecret => sec_Meta
  | KConfigMap => cm_Meta
  | KService => svc_Meta
  | KJob => job_Meta
  | KCephObjectStore => cos_Meta
  | KCephObjectStoreUser => cu_Meta
  end.

(** Label selectors of [List]: required values and required keys. *)
Record ListOptions := MkListOptions {
  lo_Namespace : string;
  lo_MatchingLabels : list (string * string);
  lo_HasLabels : list string }.

Inductive kube_op :=
  | Get (k : Kind) (n : NamespacedName)
  | Create (k : Kind) (o : Object k)
  | Update (k : Kind) (o : Object k)
  | StatusUpdate (k : Kind) (o : Object k)
  | Delete (k : Kind) (o : Object k)
  | ListPods (opts : ListOptions)
  | ListEvents (ns : string) (selector : string)
  | ListNodes (labels : list (string * string))
  | ListCephClusters (ns : string)
  | Getenv (name : string)
  | NewUUID
  | SetControllerReference (k : Kind) (owner : ObjectMeta) (o : Object k).

(** Reads answer an error or the value; writes answer an optional error;
    [SetControllerReference] answers an error or the object it has marked;
    events are represented by their messages, nodes and Ceph clusters by their
    names. *)
Definition kube_reply (o : kube_op) : Type :=
  match o with
  | Get k _ => goerr + Object k
  | Create _ _ | Update _ _ | StatusUpdate _ _ | Delete _ _ => option goerr
  | ListPods _ => goerr + list PodInfo
  | ListEvents _ _ | ListNodes _ | ListCephClusters _ => goerr + list string
  | Getenv _ => string
  | NewUUID => string
  | SetControllerReference k _ _ => goerr + Object k
  end.

Definition Kube : Sig := MkSig kube_op kube_reply.

(** Typed abbreviations of the calls. *)
Definition kget (k : Kind) (n : NamespacedName) : prog Kube (goerr + Object k) :=
  @call Kube (Get k n).
Definition kcreate (k : Kind) (o : Object k) : prog Kube (option goerr) :=
  @call Kube (Create k o).
Definition kupdate (k : Kind) (o : Object k) : prog Kube (option goerr) :=
  @call Kube (Update k o).
Definition kstatus_update (k : Kind) (o : Object k) : prog Kube (option goerr) :=
  @call Kube (StatusUpdate k o).
Definition kdelete (k : Kind) (o : Object k) : prog Kube (option goerr) :=
  @call Kube (Delete k o).
Definition kset_owner (k : Kind) (owner : ObjectMeta) (o : Object k) :
    prog Kube (goerr + Object k) :=
  @call Kube (SetControllerReference k owner o).
Definition getenv (name : string) : prog Kube string := @call Kube (Getenv name).
Definition new_uuid : prog Kube string := @call Kube NewUUID.

(** Operations that change the cluster. *)
Definition is_write (o : kube_op) : bool :=
  match o with
  | Create _ _ | Update _ _ | StatusUpdate _ _ | Delete _ _ => true
  | _ => false
  end.
Definition writes (tr : list kube_op) : list kube_op := filter (λ o, is_write o) tr.

(** ** Environments *)

(** Reads that are answered from a fixed snapshot [f] of the cluster. *)
Definition stable_reads {S} (h : handler Kube S) (s : S)
    (f : ∀ k, NamespacedName → goerr + Object k) : Prop :=
  ∀ k n, h (Get k n) s = (f k n, s).
