(* ===== verification/PodMutator.v ===== *)
(** * The mutating webhook for pods ([admissioncontroller/mutatingwebhook.go])

    [DatasetInputFromPod] reads the [dataset.<i>.id] and [dataset.<i>.useas]
    labels of a pod, [RetrieveDatasetsFromAPIServer] looks the datasets up, and
    [PatchPodWithDatasetLabels] computes the JSON patch that mounts them or
    injects their ConfigMap and Secret.  [Handle] is the admission handler.

    Go iterates over a map in an order that changes from one loop to the next;
    the class [MapRange] gives that order as an oracle, indexed by the execution
    of the loop.  The theorems are about every oracle. *)

From Stdlib Require Import ZArith Lia Ascii.
From stdpp Require Import options.
From S2P Require Import Prelude GoStd KubeApi.

Open Scope Z_scope.

(** [range m]: the entries of [m] in the order in which the [visit]-th loop over
    it meets them. *)
Class MapRange := {
  map_range : ∀ (visit : nat) {K} `{Countable K} {V}, gmap K V → list (K * V);
  map_range_perm : ∀ (visit : nat) {K} `{Countable K} {V} (m : gmap K V),
    map_range visit m ≡ₚ map_to_list m }.

(** ** Pods and patches *)

Record Volume := MkVolume {
  vol_Name : string;
  (** the [PersistentVolumeClaim] source, if it has one: claim name, read-only *)
  vol_PersistentVolumeClaim : option (string * bool) }.

Record VolumeMount := MkVolumeMount { vm_Name : string; vm_MountPath : string }.

Record EnvFromSource := MkEnvFromSource {
  env_Prefix : string;
  env_ConfigMapRef : option string;
  env_SecretRef : option string }.

Record Container := MkContainer {
  c_Name : string;
  c_VolumeMounts : list VolumeMount;
  (** a nil slice of Go and an empty one are both [[]] *)
  c_EnvFrom : list EnvFromSource }.

Record Pod := MkPod {
  pod_Name : string;
  pod_Namespace : string;
  pod_Labels : gmap string string;
  pod_Volumes : list Volume;
  pod_InitContainers : list Container;
  pod_Containers : list Container }.

(** The values of [map[string]interface{}] that the patches carry. *)
#[warnings="-register-all"]
Inductive json :=
  | JBool (b : bool)
  | JString (s : string)
  | JArray (l : list json)
  | JObject (fields : list (string * json)).

(** [jsonpatch.JsonPatchOperation]. *)
Record JsonPatchOperation := MkPatch {
  jp_Operation : string;
  jp_Path : string;
  jp_Value : json }.

(** ** Dataset inputs *)

Definition prefixLabels : string := "dataset.".
Definition labelSeparator : ascii := ".".

Record DatasetInput := MkDatasetInput {
  in_name : string;
  in_index : Z;
  in_useasLabels : list string;
  in_resource : Dataset }.

Definition empty_dataset : Dataset :=
  MkDataset (new_meta "" "" None) empty_spec empty_status.

Definition NewDatasetInput : DatasetInput := MkDatasetInput "" 0 [] empty_dataset.

Definition RequestedUseContains (d : DatasetInput) (useas : string) : bool :=
  existsb (String.eqb useas) (in_useasLabels d).

Definition SetName (d : DatasetInput) (name : string) : DatasetInput :=
  MkDatasetInput name (in_index d) (in_useasLabels d) (in_resource d).

Definition SetIndex (d : DatasetInput) (idx : Z) : DatasetInput :=
  MkDatasetInput (in_name d) idx (in_useasLabels d) (in_resource d).

Definition AddToRequestedUse (d : DatasetInput) (useas : string) : DatasetInput :=
  MkDatasetInput (in_name d) (in_index d) (in_useasLabels d ++ [useas]) (in_resource d).

Definition SetResource (d : DatasetInput) (ds : Dataset) : DatasetInput :=
  MkDatasetInput (in_name d) (in_index d) (in_useasLabels d) ds.

(** The loop over the dot-separated uses of one [useas] label.  [isPresent] is
    declared before the loop: once a repeated use has set it, it stays set. *)
Fixpoint add_uses (uArray : list string) (isPresent : bool) (d : DatasetInput) :
    DatasetInput :=
  match uArray with
  | [] => d
  | use :: rest =>
      let isPresent :=
        existsb (String.eqb (TrimSpace use)) (in_useasLabels d) || isPresent in
      let d := if isPresent then d else AddToRequestedUse d (TrimSpace use) in
      add_uses rest isPresent d
  end.

(** The two maps the loop over the labels builds: the inputs by index and the
    set of the names seen. *)
Record InputState := MkInputState {
  is_datasets : gmap Z DatasetInput;
  is_unique : gmap string bool }.

(** The body of the loop of [DatasetInputFromPod] for one label. *)
Definition process_label (st : InputState) (kv : string * string) :
    string + InputState :=
  let '(k, v) := kv in
  if HasPrefix k prefixLabels then
    match Split k labelSeparator with
    | [_; idxs; field] =>
        match Atoi idxs with
        | (_, Some _) => inl ("could not convert dataset index " +:+ idxs +:+ " to int")
        | (idx, None) =>
            let dataset := default NewDatasetInput (is_datasets st !! idx) in
            if decide (field = "id") then
              if decide (in_name dataset ≠ "") then
                inl ("repeat declaration of name " +:+ field +:+ " for dataset "
                     +:+ in_name dataset)
              else match is_unique st !! v with
                   | Some _ =>
                       inl ("dataset name " +:+ v +:+ " has been used in a previous label")
                   | None =>
                       inr (MkInputState (<[idx := SetName dataset v]> (is_datasets st))
                              (<[v := true]> (is_unique st)))
                   end
            else if decide (field = "useas") then
              let dataset := add_uses (Split v labelSeparator) false dataset in
              inr (MkInputState (<[idx := dataset]> (is_datasets st)) (is_unique st))
            else inl ("dataset label is in the wrong format " +:+ k)
        end
    | _ => inl ("label " +:+ k +:+ " is not in the right format")
    end
  else inr st.

Fixpoint process_labels (st : InputState) (l : list (string * string)) :
    string + InputState :=
  match l with
  | [] => inr st
  | kv :: l =>
      match process_label st kv with
      | inl e => inl e
      | inr st => process_labels st l
      end
  end.

(** [DatasetInputFromPod] on the labels in the order [order] of the iteration. *)
Definition inputs_of_labels (order : list (string * string)) :
    string + gmap Z DatasetInput :=
  match process_labels (MkInputState ∅ ∅) order with
  | inl e => inl e
  | inr st => inr (is_datasets st)
  end.

Definition DatasetInputFromPod `{MapRange} (pod : Pod) : string + gmap Z DatasetInput :=
  inputs_of_labels (map_range 0 (pod_Labels pod)).

(** ** Looking the datasets up *)

(** The body of [RetrieveDatasetsFromAPIServer]: every input is looked up in the
    namespace of the pod; the first failure ends the loop.  The inputs are shared
    pointers in Go, so the resources end up in the map of the caller. *)
Fixpoint retrieve_loop (ns : string) (l : list (Z * DatasetInput))
    (datasets : gmap Z DatasetInput) : prog Kube (string + gmap Z DatasetInput) :=
  match l with
  | [] => Ret (inr datasets)
  | (idx, dataset) :: l =>
      r ← kget KDataset (MkNamespacedName ns (in_name dataset));
      match r with
      | inl e =>
          if IsNotFound e then
            Ret (inl ("dataset " +:+ in_name dataset +:+ " not found in namespace " +:+ ns))
          else Ret (inl ("dataset " +:+ in_name dataset
                         +:+ " could not be queried successfully"))
      | inr ds => retrieve_loop ns l (<[idx := SetResource dataset ds]> datasets)
      end
  end.

Definition RetrieveDatasetsFromAPIServer `{MapRange} (pod : Pod)
    (datasets : gmap Z DatasetInput) : prog Kube (string + gmap Z DatasetInput) :=
  retrieve_loop (pod_Namespace pod) (map_range 1 datasets) datasets.

(** ** Patches for volumes

    A nil [*DatasetInput] taken from a map makes Go panic: the functions that
    dereference one return [None] in that case. *)

Definition json_name (name : string) : string * json := ("name", JString name).

Definition pvc_json (d : DatasetInput) : json :=
  let claim := ("claimName", JString (in_name d)) in
  match map_get (spec_Local (ds_Spec (in_resource d))) "readonly" with
  | Some readonly =>
      if decide (readonly = "true") then JObject [claim; ("readOnly", JBool true)]
      else JObject [claim]
  | None => JObject [claim]
  end.

Definition volume_patch (vol_id : Z) (d : DatasetInput) : JsonPatchOperation :=
  MkPatch "add" ("/spec/volumes/" +:+ Itoa vol_id)
    (JObject [json_name (in_name d); ("persistentVolumeClaim", pvc_json d)]).

(** The loop over the positions [0 .. len(keys)-1]: the code indexes the map
    with the position and not with the key. *)
Fixpoint volume_patches (datasets : gmap Z DatasetInput) (positions : list Z)
    (vol_id : Z) : option (list JsonPatchOperation) :=
  match positions with
  | [] => Some []
  | d :: positions =>
      dataset ← datasets !! d;
      rest ← volume_patches datasets positions (vol_id + 1);
      Some (volume_patch vol_id dataset :: rest)
  end.

(** [in_array]: is the value in the slice, and at which index ([-1] if not). *)
Fixpoint in_array_from (val : string) (array : list string) (i : Z) : bool * Z :=
  match array with
  | [] => (false, -1)
  | x :: array => if decide (val = x) then (true, i) else in_array_from val array (i + 1)
  end.
Definition in_array (val : string) (array : list string) : bool * Z :=
  in_array_from val array 0.

Definition container_path (container_typ : string) (container_idx : nat) : string :=
  "/spec/" +:+ container_typ +:+ "/" +:+ Itoa (Z.of_nat container_idx).

Definition mount_patch (container_typ : string) (container_idx : nat) (mount_idx : Z)
    (d : DatasetInput) : JsonPatchOperation :=
  MkPatch "add" (container_path container_typ container_idx +:+ "/volumeMounts/"
                 +:+ Itoa mount_idx)
    (JObject [json_name (in_name d);
              ("mountPath", JString ("/mnt/datasets/" +:+ in_name d))]).

Fixpoint mount_patches (container_typ : string) (container_idx : nat)
    (mount_names : list string) (datasets : gmap Z DatasetInput) (positions : list Z)
    (mount_idx : Z) : option (list JsonPatchOperation) :=
  match positions with
  | [] => Some []
  | o :: positions =>
      dataset ← datasets !! o;
      if (in_array (in_name dataset) mount_names).1 then
        mount_patches container_typ container_idx mount_names datasets positions mount_idx
      else
        rest ← mount_patches container_typ container_idx mount_names datasets positions
                 (mount_idx + 1);
        Some (mount_patch container_typ container_idx mount_idx dataset :: rest)
  end.

Definition container_type (init : bool) : string :=
  if init then "initContainers" else "containers".

(** The positions of a slice of length [n]: what [for i := range s] goes through. *)
Definition positions {A} (l : list A) : list Z := Z.of_nat <$> seq 0 (length l).

Fixpoint containers_volumes (container_typ : string) (container_idx : nat)
    (datasets : gmap Z DatasetInput) (order : list Z) (containers : list Container) :
    option (list JsonPatchOperation) :=
  match containers with
  | [] => Some []
  | container :: containers =>
      here ← mount_patches container_typ container_idx (vm_Name <$> c_VolumeMounts container)
               datasets (positions order) (Z.of_nat (length (c_VolumeMounts container)));
      rest ← containers_volumes container_typ (S container_idx) datasets order containers;
      Some (here ++ rest)
  end.

Definition patchContainersWithDatasetVolumes (datasets : gmap Z DatasetInput)
    (order : list Z) (containers : list Container) (init : bool) :
    option (list JsonPatchOperation) :=
  containers_volumes (container_type init) 0 datasets order containers.

(** [sort.Ints]. *)
Definition sort_Ints (l : list Z) : list Z := merge_sort (≤) l.

Definition patchPodSpecWithDatasetPVCs `{MapRange} (pod : Pod)
    (datasets : gmap Z DatasetInput) : option (list JsonPatchOperation) :=
  let keys := sort_Ints ((map_range 3 datasets).*1) in
  patches ← volume_patches datasets (positions keys) (Z.of_nat (length (pod_Volumes pod)));
  init_patches ←
    (if decide (pod_InitContainers pod = []) then Some []
     else patchContainersWithDatasetVolumes datasets keys (pod_InitContainers pod) true);
  main_patches ← patchContainersWithDatasetVolumes datasets keys (pod_Containers pod) false;
  Some (patches ++ init_patches ++ main_patches).

(** ** Patches for ConfigMaps and Secrets *)

Definition configmap_ref (d : string) : json :=
  JObject [("prefix", JString (d +:+ "_")); ("configMapRef", JObject [json_name d])].
Definition secret_ref (d : string) : json :=
  JObject [("prefix", JString (d +:+ "_")); ("secretRef", JObject [json_name d])].

Definition env_refers_to (d : string) (env : EnvFromSource) : bool :=
  bool_decide (env_ConfigMapRef env = Some d) || bool_decide (env_SecretRef env = Some d).

(** A container that has an [envFrom] array: append to it what is missing. *)
Definition env_append_patches (container_typ : string) (container_idx : nat)
    (container : Container) (d : string) : list JsonPatchOperation :=
  if existsb (env_refers_to d) (c_EnvFrom container) then []
  else let path := container_path container_typ container_idx +:+ "/envFrom/-" in
       [MkPatch "add" path (configmap_ref d); MkPatch "add" path (secret_ref d)].

(** The values added for one container without an [envFrom] array. *)
Definition env_values (names : list string) : list json :=
  names ≫= (λ d, [configmap_ref d; secret_ref d]).

(** The loop over the containers.  [values] is declared before the loop and only
    ever appended to; [order i] is the order in which the ConfigMap names are met
    for the container with index [i]. *)
Fixpoint containers_maps (container_typ : string) (container_idx : nat)
    (order : nat → list string) (containers : list Container) (values : list json) :
    list JsonPatchOperation :=
  match containers with
  | [] => []
  | container :: containers =>
      if decide (c_EnvFrom container ≠ []) then
        (order container_idx ≫= env_append_patches container_typ container_idx container)
        ++ containers_maps container_typ (S container_idx) order containers values
      else
        let values := values ++ env_values (order container_idx) in
        MkPatch "add" (container_path container_typ container_idx +:+ "/envFrom")
          (JArray values)
        :: containers_maps container_typ (S container_idx) order containers values
  end.

(** The executions of [range datasets] in [patchContainersWithDatasetMaps]: one
    per container of each call. *)
Definition config_order `{MapRange} (datasets : gmap Z string) (init : bool)
    (container_idx : nat) : list string :=
  (map_range (4 + 2 * container_idx + (if init then 0 else 1)) datasets).*2.

Definition patchContainersWithDatasetMaps `{MapRange} (datasets : gmap Z string)
    (containers : list Container) (init : bool) : list JsonPatchOperation :=
  containers_maps (container_type init) 0 (config_order datasets init) containers [].

(** ** The patch of a pod *)

(** The maps [datasets_tomount] and [configs_toinject] with their counters. *)
Record Collected := MkCollected {
  datasets_tomount : gmap Z DatasetInput;
  count_mount : Z;
  configs_toinject : gmap Z string;
  count_config : Z }.

Definition collect_use (mountedPVCs : gset string) (ds : DatasetInput) (acc : Collected)
    (u : string) : string + Collected :=
  if decide (u = "mount") then
    if decide (in_name ds ∈ mountedPVCs) then inr acc
    else inr (MkCollected (<[count_mount acc := ds]> (datasets_tomount acc))
                (count_mount acc + 1) (configs_toinject acc) (count_config acc))
  else if decide (u = "configmap") then
    inr (MkCollected (datasets_tomount acc) (count_mount acc)
           (<[count_config acc := in_name ds]> (configs_toinject acc))
           (count_config acc + 1))
  else inl "encountered an unknown useas".

Fixpoint collect_uses (mountedPVCs : gset string) (ds : DatasetInput) (uses : list string)
    (acc : Collected) : string + Collected :=
  match uses with
  | [] => inr acc
  | u :: uses =>
      match collect_use mountedPVCs ds acc u with
      | inl e => inl e
      | inr acc => collect_uses mountedPVCs ds uses acc
      end
  end.

Fixpoint collect (mountedPVCs : gset string) (datasets : gmap Z DatasetInput)
    (s_idx : list Z) (acc : Collected) : option (string + Collected) :=
  match s_idx with
  | [] => Some (inr acc)
  | idx :: s_idx =>
      ds ← datasets !! idx;
      match collect_uses mountedPVCs ds (in_useasLabels ds) acc with
      | inl e => Some (inl e)
      | inr acc => collect mountedPVCs datasets s_idx acc
      end
  end.

(** The claims the pod already mounts. *)
Definition mounted_pvcs (pod : Pod) : gset string :=
  list_to_set (fst <$> omap vol_PersistentVolumeClaim (pod_Volumes pod)).

Definition empty_collected : Collected := MkCollected ∅ 0 ∅ 0.

Definition PatchPodWithDatasetLabels `{MapRange} (pod : Pod)
    (datasets : gmap Z DatasetInput) : option (string + list JsonPatchOperation) :=
  if decide (datasets = ∅) then Some (inr [])
  else
    let s_idx := sort_Ints ((map_range 2 datasets).*1) in
    collected ← collect (mounted_pvcs pod) datasets s_idx empty_collected;
    match collected with
    | inl e => Some (inl e)
    | inr acc =>
        patch_ds ←
          (if decide (datasets_tomount acc = ∅) then Some []
           else patchPodSpecWithDatasetPVCs pod (datasets_tomount acc));
        let config_patches :=
          if decide (configs_toinject acc = ∅) then []
          else patchContainersWithDatasetMaps (configs_toinject acc)
                 (pod_InitContainers pod) true
               ++ patchContainersWithDatasetMaps (configs_toinject acc)
                    (pod_Containers pod) false in
        Some (inr (patch_ds ++ config_patches))
    end.

(** ** The admission handler *)

Inductive Operation := OpCreate | OpUpdate | OpDelete | OpConnect.

#[export] Instance Operation_eq_dec : EqDecision Operation.
Proof. solve_decision. Defined.

Definition operation_name (o : Operation) : string :=
  match o with
  | OpCreate => "CREATE" | OpUpdate => "UPDATE" | OpDelete => "DELETE"
  | OpConnect => "CONNECT"
  end.

Record Request := MkRequest { req_Operation : Operation; req_Object : string }.

Inductive Response :=
  | Allowed (msg : string)
  | Errored (code : Z) (msg : string)
  | Patched (msg : string) (patches : list JsonPatchOperation)
  | Panicked.

Definition StatusBadRequest : Z := 400.

Section Handle.
Context `{MapRange}.

(** The decoder of controller-runtime: a pod, or an error message. *)
Context (Decode : Request → string + Pod).

Definition Handle (req : Request) : prog Kube Response :=
  if decide (req_Operation req ≠ OpCreate) then
    Ret (Allowed ("No Pod mutation required for operation "
                  +:+ operation_name (req_Operation req) +:+ "."))
  else match Decode req with
  | inl e => Ret (Errored StatusBadRequest e)
  | inr pod =>
      match DatasetInputFromPod pod with
      | inl e => Ret (Errored StatusBadRequest e)
      | inr datasetInputs =>
          r ← RetrieveDatasetsFromAPIServer pod datasetInputs;
          match r with
          | inl e => Ret (Errored StatusBadRequest e)
          | inr datasetInputs =>
              match PatchPodWithDatasetLabels pod datasetInputs with
              | None => Ret Panicked
              | Some (inl _) =>
                  Ret (Errored StatusBadRequest "useas for this dataset is not recognized")
              | Some (inr []) =>
                  Ret (Allowed ("Pod " +:+ pod_Namespace pod +:+ "/" +:+ pod_Name pod
                                +:+ " does not need to be mutated - skipping" +:+ String "010" ""))
              | Some (inr patchops) =>
                  Ret (Patched "added volumes to Pod in response to dataset" patchops)
              end
          end
      end
  end.
End Handle.
