(* ===== verification/PodLabels.v ===== *)
(** * Reading the labels of a pod: theorems

    About [DatasetInputFromPod] of [PodMutator]: what it builds, that it does not
    depend on the order in which Go iterates over the labels, and the effect of
    the flag [isPresent] that the loop over the uses does not reset. *)

From Stdlib Require Import ZArith Lia Ascii.
From stdpp Require Import options.
From S2P Require Import Prelude GoStd KubeApi PodMutator.

Open Scope Z_scope.

(** ** What a label key asks for *)

Inductive label_kind :=
  | LIgnored
  | LMalformed
  | LId (idx : Z)
  | LUseas (idx : Z).

#[export] Instance label_kind_eq_dec : EqDecision label_kind.
Proof. solve_decision. Defined.

Definition kind_of_label (k : string) : label_kind :=
  if HasPrefix k prefixLabels then
    match Split k labelSeparator with
    | [_; idxs; field] =>
        match Atoi idxs with
        | (_, Some _) => LMalformed
        | (idx, None) =>
            if decide (field = "id") then LId idx
            else if decide (field = "useas") then LUseas idx
            else LMalformed
        end
    | _ => LMalformed
    end
  else LIgnored.

(** Two label keys that may occur together: they do not name the same field of
    the same dataset, as ["dataset.0.id"] and ["dataset.00.id"] would. *)
Definition independent (a b : label_kind) : Prop :=
  a = b → a = LIgnored ∨ a = LMalformed.

Definition unambiguous (keys : list string) : Prop :=
  ∀ k1 k2, k1 ∈ keys → k2 ∈ keys → k1 ≠ k2 →
    independent (kind_of_label k1) (kind_of_label k2).

(** The result without the message of the error. *)
Definition ok {E A} (r : E + A) : option A :=
  match r with inl _ => None | inr a => Some a end.

Definition input_at (st : InputState) (idx : Z) : DatasetInput :=
  default NewDatasetInput (is_datasets st !! idx).

Definition step_id (st : InputState) (idx : Z) (v : string) : option InputState :=
  if decide (in_name (input_at st idx) ≠ "") then None
  else match is_unique st !! v with
       | Some _ => None
       | None => Some (MkInputState (<[idx := SetName (input_at st idx) v]> (is_datasets st))
                         (<[v := true]> (is_unique st)))
       end.

Definition step_useas (st : InputState) (idx : Z) (v : string) : InputState :=
  MkInputState
    (<[idx := add_uses (Split v labelSeparator) false (input_at st idx)]> (is_datasets st))
    (is_unique st).

Definition step_label (st : InputState) (kv : string * string) : option InputState :=
  match kind_of_label kv.1 with
  | LIgnored => Some st
  | LMalformed => None
  | LId idx => step_id st idx kv.2
  | LUseas idx => Some (step_useas st idx kv.2)
  end.

(** The code does what the key asks for. *)
Lemma process_label_step st kv : ok (process_label st kv) = step_label st kv.
Proof.
  destruct kv as [k v]. unfold process_label, step_label, kind_of_label. cbn [fst snd].
  destruct (HasPrefix k prefixLabels); [|done].
  destruct (Split k labelSeparator) as [|? [|idxs [|field [|]]]]; try done.
  destruct (Atoi idxs) as [idx [e|]]; [done|].
  unfold step_id, step_useas, input_at.
  repeat case_decide; try done. by case_match.
Qed.

Lemma process_labels_cons st kv l :
  ok (process_labels st (kv :: l)) =
    step_label st kv ≫= λ st, ok (process_labels st l).
Proof.
  rewrite <-process_label_step. cbn. by destruct (process_label st kv).
Qed.

(** ** Each step touches its own field *)

Lemma add_uses_name l b d : in_name (add_uses l b d) = in_name d.
Proof. revert b d. induction l as [|u l IH]; intros b d; [done|]. cbn. rewrite IH. by case_match. Qed.

Lemma add_uses_SetName l b d v : add_uses l b (SetName d v) = SetName (add_uses l b d) v.
Proof.
  revert b d. induction l as [|u l IH]; intros b d; [done|]. cbn.
  by destruct (existsb _ _ || b); rewrite <-IH.
Qed.

Lemma input_at_insert ds u idx idx' d :
  input_at (MkInputState (<[idx := d]> ds) u) idx' =
    if decide (idx = idx') then d else input_at (MkInputState ds u) idx'.
Proof. unfold input_at. cbn. rewrite lookup_insert. by case_decide. Qed.

Lemma step_id_comm st i j v w :
  i ≠ j → step_id st i v ≫= (λ st, step_id st j w) =
          step_id st j w ≫= (λ st, step_id st i v).
Proof.
  intros Hij. unfold step_id. destruct st as [ds u].
  case_decide as Hi; case_decide as Hj; cbn [is_unique is_datasets];
    destruct (u !! v) eqn:Hv, (u !! w) eqn:Hw; cbn [mbind option_bind is_datasets is_unique];
    rewrite ?input_at_insert, ?decide_False by done; try done;
    repeat (case_decide; [done|]); rewrite ?lookup_insert; repeat case_decide;
    simplify_eq; rewrite ?Hv, ?Hw; try done.
  f_equal. f_equal; apply insert_insert_ne; congruence.
Qed.

Lemma step_useas_comm st i j v w :
  i ≠ j → step_useas (step_useas st i v) j w = step_useas (step_useas st j w) i v.
Proof.
  intros Hij. unfold step_useas. destruct st as [ds u]. cbn.
  rewrite !input_at_insert, !decide_False by done. f_equal. by apply insert_insert_ne.
Qed.

Lemma step_id_useas_comm st i j v w :
  (λ st, step_useas st j w) <$> step_id st i v = step_id (step_useas st j w) i v.
Proof.
  destruct st as [ds u]. unfold step_id, step_useas. cbn [is_unique is_datasets].
  rewrite input_at_insert. destruct (decide (j = i)) as [->|Hji].
  - rewrite add_uses_name. case_decide; [done|]. destruct (u !! v); [done|].
    cbn. do 2 f_equal. rewrite input_at_insert, decide_True by done.
    by rewrite !insert_insert_eq, add_uses_SetName.
  - case_decide; [done|]. destruct (u !! v); [done|]. cbn. do 2 f_equal.
    rewrite input_at_insert, decide_False by done. by apply insert_insert_ne.
Qed.

Lemma step_label_comm st a b :
  independent (kind_of_label a.1) (kind_of_label b.1) →
  step_label st a ≫= (λ st, step_label st b) = step_label st b ≫= (λ st, step_label st a).
Proof.
  unfold step_label, independent. intros Hab.
  destruct (kind_of_label a.1) as [| |i|i] eqn:Ha, (kind_of_label b.1) as [| |j|j] eqn:Hb;
    cbn; try done.
  - by destruct (step_id st j b.2).
  - by destruct (step_id st j b.2).
  - by destruct (step_id st i a.2).
  - by destruct (step_id st i a.2).
  - apply step_id_comm. intros ->. by destruct Hab.
  - rewrite <-(step_id_useas_comm st i j). by destruct (step_id st i a.2).
  - rewrite <-(step_id_useas_comm st j i). by destruct (step_id st j b.2).
  - f_equal. apply step_useas_comm. intros ->. by destruct Hab.
Qed.

Lemma process_labels_fold st l :
  ok (process_labels st l) = fold_opt step_label st l.
Proof.
  revert st. induction l as [|kv l IH]; intros st; [done|].
  rewrite process_labels_cons. cbn. destruct (step_label st kv); [apply IH|done].
Qed.

Lemma inputs_of_labels_fold l :
  ok (inputs_of_labels l) = is_datasets <$> fold_opt step_label (MkInputState ∅ ∅) l.
Proof.
  rewrite <-process_labels_fold. unfold inputs_of_labels. by destruct (process_labels _ l).
Qed.

Lemma fold_label_perm st l1 l2 :
  l1 ≡ₚ l2 → NoDup l1.*1 → unambiguous l1.*1 →
  fold_opt step_label st l1 = fold_opt step_label st l2.
Proof.
  intros Hp Hnd Hu. apply fold_opt_perm; [done|by apply (NoDup_fmap_1 fst)|].
  intros [k1 v1] [k2 v2] s Ha Hb Hne. apply step_label_comm. cbn.
  apply Hu; [apply list_elem_of_fmap; by exists (k1, v1)
            |apply list_elem_of_fmap; by exists (k2, v2)|].
  intros <-. apply Hne. f_equal.
  apply list_elem_of_lookup in Ha as [i Hi], Hb as [j Hj].
  assert (i = j) as <-; [|congruence].
  apply (NoDup_lookup l1.*1 i j k1); [done|by rewrite list_lookup_fmap, Hi
    |by rewrite list_lookup_fmap, Hj].
Qed.

Lemma order_independent_aux (R1 R2 : MapRange) (pod : Pod) :
  unambiguous (map_to_list (pod_Labels pod)).*1 →
  ok (@DatasetInputFromPod R1 pod) = ok (@DatasetInputFromPod R2 pod).
Proof.
  intros Hu. unfold DatasetInputFromPod. rewrite !inputs_of_labels_fold. f_equal.
  pose proof (NoDup_fst_map_to_list (pod_Labels pod)) as Hnd.
  transitivity (fold_opt step_label (MkInputState ∅ ∅) (map_to_list (pod_Labels pod)));
    [symmetry|]; (apply fold_label_perm; [symmetry; apply map_range_perm|done|done]).
Qed.

(** (C23) Go iterates over the labels of a pod in an arbitrary order.  For a pod
    whose labels are unambiguous, [DatasetInputFromPod] builds the same map, or
    fails, whatever the order. *)
Theorem DatasetInputFromPod_order_independent (R1 R2 : MapRange) (pod : Pod) :
  unambiguous (map_to_list (pod_Labels pod)).*1 →
  ok (@DatasetInputFromPod R1 pod) = ok (@DatasetInputFromPod R2 pod).
Proof. apply order_independent_aux. Qed.

(** ** What is built *)

Fixpoint label_value (l : list (string * string)) (kd : label_kind) : option string :=
  match l with
  | [] => None
  | (k, v) :: l => if decide (kind_of_label k = kd) then Some v else label_value l kd
  end.

(** The input declared by an [id] label and a [useas] label. *)
Definition declared (old : option DatasetInput) (id useas : option string) :
    option DatasetInput :=
  match id, useas with
  | None, None => old
  | _, _ =>
      let d := default NewDatasetInput old in
      let d := match id with Some v => SetName d v | None => d end in
      Some (match useas with
            | Some v => add_uses (Split v labelSeparator) false d
            | None => d
            end)
  end.

Lemma label_value_absent k l kd :
  kind_of_label k = kd → kd ≠ LIgnored → kd ≠ LMalformed →
  k ∉ l.*1 → unambiguous (k :: l.*1) → label_value l kd = None.
Proof.
  intros Hk Hi Hm. induction l as [|[k' v'] l IH]; intros Hnin Hu; [done|]. cbn.
  cbn in Hnin. apply not_elem_of_cons in Hnin as [Hkk Hnin]. rewrite decide_False.
  - apply IH; [done|]. intros k1 k2 H1 H2. apply Hu; set_solver.
  - intros Hk'. destruct (Hu k k' ltac:(set_solver) ltac:(set_solver) Hkk) as [?|?];
      congruence.
Qed.

Lemma fold_label_lookup l st st' idx :
  NoDup l.*1 → unambiguous l.*1 → fold_opt step_label st l = Some st' →
  is_datasets st' !! idx =
    declared (is_datasets st !! idx) (label_value l (LId idx)) (label_value l (LUseas idx)).
Proof.
  revert st. induction l as [|[k v] l IH]; intros st Hnd Hu; [by intros [= <-]|].
  cbn [fmap list_fmap fst] in Hnd, Hu. apply NoDup_cons in Hnd as [Hk Hnd].
  assert (unambiguous l.*1) as Hul by (intros k1 k2 H1 H2; apply Hu; set_solver).
  cbn [fold_opt]. destruct (step_label st (k, v)) as [st1|] eqn:Hst; [|done]. cbn.
  intros Hf. rewrite (IH _ Hnd Hul Hf). clear IH Hf.
  unfold step_label in Hst. cbn [fst snd] in Hst.
  destruct (kind_of_label k) as [| |i|i] eqn:Hkind; simplify_eq/=.
  - done.
  - unfold step_id in Hst. case_decide; [done|]. destruct (is_unique st !! v); [done|].
    simplify_eq/=. unfold input_at. destruct (decide (i = idx)) as [->|Hne].
    + rewrite lookup_insert_eq, decide_True, (label_value_absent k) by done.
      by destruct (label_value l (LUseas idx)).
    + by rewrite lookup_insert_ne, decide_False by congruence.
  - unfold input_at. destruct (decide (i = idx)) as [->|Hne].
    + rewrite lookup_insert_eq, decide_True by done.
      rewrite (label_value_absent k l (LUseas idx)) by done.
      destruct (label_value l (LId idx)); [|done]. cbn. by rewrite add_uses_SetName.
    + by rewrite lookup_insert_ne, decide_False by congruence.
Qed.

(** Functional correctness of the label parser: when it succeeds on a pod
    with unambiguous labels, the entry at index [i] carries the name of the label
    [dataset.i.id] and the uses of the label [dataset.i.useas], and there is no
    entry for an index without labels. *)
Theorem DatasetInputFromPod_lookup `{MapRange} (pod : Pod) (m : gmap Z DatasetInput) idx :
  unambiguous (map_to_list (pod_Labels pod)).*1 →
  DatasetInputFromPod pod = inr m →
  m !! idx = declared None (label_value (map_to_list (pod_Labels pod)) (LId idx))
               (label_value (map_to_list (pod_Labels pod)) (LUseas idx)).
Proof.
  intros Hu Hm. unfold DatasetInputFromPod in Hm.
  apply (f_equal ok) in Hm. rewrite inputs_of_labels_fold in Hm. cbn in Hm.
  pose proof (NoDup_fst_map_to_list (pod_Labels pod)) as Hnd.
  rewrite <-(fold_label_perm _ (map_to_list (pod_Labels pod))) in Hm
    by (done || by symmetry; apply map_range_perm).
  destruct (fold_opt _ _ _) as [st|] eqn:Hf; [|done]. simplify_eq/=.
  rewrite (fold_label_lookup _ _ _ idx Hnd Hu Hf). done.
Qed.

(** ** The invariant of the inputs *)

Definition inputs_wf (m : gmap Z DatasetInput) : Prop :=
  (∀ i j d e, m !! i = Some d → m !! j = Some e →
     in_name d = in_name e → in_name d ≠ "" → i = j) ∧
  (∀ i d, m !! i = Some d → NoDup (in_useasLabels d) ∧
     ∀ u, u ∈ in_useasLabels d → TrimSpace u = u).

Definition state_wf (st : InputState) : Prop :=
  inputs_wf (is_datasets st) ∧
  ∀ i d, is_datasets st !! i = Some d → in_name d ≠ "" → is_Some (is_unique st !! in_name d).

Lemma existsb_eqb u l : existsb (String.eqb u) l = true ↔ u ∈ l.
Proof.
  rewrite existsb_exists. setoid_rewrite String.eqb_eq.
  setoid_rewrite <-list_elem_of_In. naive_solver.
Qed.

Lemma add_uses_wf l b d :
  (NoDup (in_useasLabels d) ∧ ∀ u, u ∈ in_useasLabels d → TrimSpace u = u) →
  NoDup (in_useasLabels (add_uses l b d)) ∧
  ∀ u, u ∈ in_useasLabels (add_uses l b d) → TrimSpace u = u.
Proof.
  revert b d. induction l as [|u l IH]; intros b d [Hnd Ht]; [done|]. cbn. apply IH.
  destruct (existsb _ _) eqn:He; [done|]. destruct b; [done|]. cbn.
  assert (TrimSpace u ∉ in_useasLabels d) as Hnin.
  { intros Hin. apply existsb_eqb in Hin. congruence. }
  split.
  - apply NoDup_app. split_and!; [done|set_solver|apply NoDup_singleton].
  - intros w. rewrite elem_of_app, list_elem_of_singleton.
    intros [Hw| ->]; [by apply Ht|apply TrimSpace_idemp].
Qed.

Lemma input_at_wf st idx :
  state_wf st → NoDup (in_useasLabels (input_at st idx)) ∧
    ∀ u, u ∈ in_useasLabels (input_at st idx) → TrimSpace u = u.
Proof.
  intros [[_ Hwf] _]. unfold input_at. destruct (is_datasets st !! idx) eqn:E; [by eapply Hwf|].
  split; [constructor|]. cbn. set_solver.
Qed.

Lemma step_label_wf st kv st' :
  state_wf st → step_label st kv = Some st' → state_wf st'.
Proof.
  intros Hst. pose proof Hst as [[Hname Huse] Huniq]. unfold step_label.
  destruct (kind_of_label kv.1) as [| |i|i]; intros Hs; simplify_eq; [done|..].
  - unfold step_id in Hs. case_decide as Hempty; [done|].
    destruct (is_unique st !! kv.2) eqn:Hu; simplify_eq/=.
    assert (∀ j d, is_datasets st !! j = Some d → in_name d = kv.2 → in_name d ≠ "" → False)
      as Hfresh.
    { intros j d Hj Hd Hne. destruct (Huniq j d Hj Hne). congruence. }
    split; [split|]; cbn.
    + intros a b d e Ha Hb Heq Hne. rewrite lookup_insert in Ha, Hb.
      repeat case_decide; simplify_eq/=;
        first [done | by eapply Hname
              | exfalso; eapply Hfresh; [eassumption|congruence|congruence]].
    + intros a d Ha. rewrite lookup_insert in Ha. case_decide; simplify_eq/=; [|by eapply Huse].
      by apply input_at_wf.
    + intros a d Ha Hne. rewrite lookup_insert in Ha. rewrite lookup_insert.
      case_decide; simplify_eq/=; [by rewrite decide_True by done|].
      case_decide; [done|]. by eapply Huniq.
  - assert (∀ a d, is_datasets (step_useas st i kv.2) !! a = Some d → in_name d ≠ "" →
      ∃ d', is_datasets st !! a = Some d' ∧ in_name d' = in_name d) as Hold.
    { intros a d. cbn. rewrite lookup_insert. case_decide; [|eauto].
      intros [= <-]. rewrite add_uses_name. unfold input_at. subst.
      destruct (is_datasets st !! a); [eauto|done]. }
    split; [split|].
    + intros a b d e Ha Hb Heq Hne.
      destruct (Hold a d Ha Hne) as (d' & Ha' & Hd').
      destruct (Hold b e Hb ltac:(congruence)) as (e' & Hb' & He').
      apply (Hname a b d' e'); congruence.
    + intros a d. cbn. rewrite lookup_insert. case_decide; [|by apply Huse].
      intros [= <-]. by apply add_uses_wf, input_at_wf.
    + intros a d Ha Hne. destruct (Hold a d Ha Hne) as (d' & Ha' & Hd').
      rewrite <-Hd'. apply (Huniq a); congruence.
Qed.

(** Whatever the labels and their order, the inputs that
    [DatasetInputFromPod] returns are well formed: no two of them name the same
    dataset, and the uses of each are trimmed and without repetition. *)
Theorem DatasetInputFromPod_wf (order : list (string * string)) (m : gmap Z DatasetInput) :
  inputs_of_labels order = inr m → inputs_wf m.
Proof.
  intros Hm. apply (f_equal ok) in Hm. rewrite inputs_of_labels_fold in Hm.
  destruct (fold_opt _ _ _) as [st|] eqn:Hf; simplify_eq/=.
  refine (proj1 (fold_opt_inv step_label state_wf _ _ _ step_label_wf _ Hf)).
  split; [split|]; cbn; intros; by rewrite ?lookup_empty in *.
Qed.

(** ** The flag of the loop over the uses *)

(** The uses of the label up to the first one that is already present. *)
Fixpoint fresh_uses (seen : list string) (l : list string) : list string :=
  match l with
  | [] => []
  | u :: l =>
      if decide (TrimSpace u ∈ seen) then []
      else TrimSpace u :: fresh_uses (seen ++ [TrimSpace u]) l
  end.

Lemma add_uses_true l d : add_uses l true d = d.
Proof. revert d. induction l as [|u l IH]; intros d; [done|]. cbn. by rewrite orb_true_r. Qed.

(** The loop over the uses of one label stops taking uses at the first
    repeated one: it keeps exactly the uses that precede it, since the flag
    [isPresent] is not reset from one use to the next. *)
Theorem add_uses_stops_at_repeat (l : list string) (d : DatasetInput) :
  in_useasLabels (add_uses l false d) =
    in_useasLabels d ++ fresh_uses (in_useasLabels d) l.
Proof.
  revert d. induction l as [|u l IH]; intros d; cbn; [by rewrite app_nil_r|].
  case_decide as Hin; destruct (existsb _ _) eqn:E; cbn [orb].
  - by rewrite add_uses_true, app_nil_r.
  - apply existsb_eqb in Hin. congruence.
  - by apply existsb_eqb in E.
  - rewrite IH. cbn. by rewrite <-app_assoc.
Qed.

(** Without a repetition every use is kept, in order. *)
Lemma fresh_uses_all seen l :
  NoDup (seen ++ (TrimSpace <$> l)) → fresh_uses seen l = TrimSpace <$> l.
Proof.
  revert seen. induction l as [|u l IH]; intros seen Hnd; [done|]. cbn in *.
  rewrite decide_False.
  - f_equal. apply IH. by rewrite <-app_assoc.
  - apply NoDup_app in Hnd as (_ & Hnd & _). intros Hin. apply (Hnd _ Hin). set_solver.
Qed.

(** ** Witnesses *)

(** An iteration in the order of the map's own listing. *)
Definition listing_range : MapRange.
Proof. refine {| map_range _ K _ _ V m := map_to_list m |}. reflexivity. Defined.

Definition reverse_range : MapRange.
Proof.
  refine {| map_range _ K _ _ V m := reverse (map_to_list m) |}.
  intros. apply reverse_Permutation.
Defined.

Definition sample_pod : Pod :=
  MkPod "test-1" "test"
    (list_to_map [("dataset.0.id", "testds"); ("dataset.0.useas", "mount.configmap");
                  ("dataset.1.id", "other"); ("app", "demo")])
    [MkVolume "token" None] [] [MkContainer "foo" [MkVolumeMount "token" "/var/run"] []].

#[export] Instance independent_dec a b : Decision (independent a b).
Proof. unfold independent. apply _. Defined.

#[export] Instance unambiguous_dec keys : Decision (unambiguous keys).
Proof.
  refine (cast_if (decide (Forall (λ k1, Forall (λ k2, k1 ≠ k2 →
    independent (kind_of_label k1) (kind_of_label k2)) keys) keys))).
  - intros k1 k2 H1 H2. rewrite Forall_forall in f. specialize (f k1 H1).
    rewrite Forall_forall in f. auto.
  - intros Hu. apply n. apply Forall_forall. intros k1 H1.
    apply Forall_forall. intros k2 H2. by apply Hu.
Defined.

Lemma order_independent_witness :
  unambiguous (map_to_list (pod_Labels sample_pod)).*1 ∧
  ok (@DatasetInputFromPod listing_range sample_pod)
    = ok (@DatasetInputFromPod reverse_range sample_pod).
Proof.
  assert (unambiguous (map_to_list (pod_Labels sample_pod)).*1) as Hu
    by (apply (bool_decide_unpack _); vm_compute; exact I).
  split; [exact Hu|].
  exact (DatasetInputFromPod_order_independent listing_range reverse_range sample_pod Hu).
Defined.

Lemma lookup_witness :
  ∃ m, @DatasetInputFromPod listing_range sample_pod = inr m ∧
    in_useasLabels <$> (m !! 0) = Some ["mount"; "configmap"] ∧
    m !! 0 = declared None (Some "testds") (Some "mount.configmap").
Proof.
  eexists. split; [vm_compute; reflexivity|]. split; [vm_compute; reflexivity|].
  refine (eq_trans (@DatasetInputFromPod_lookup listing_range sample_pod _ 0 _ _) _).
  - apply (bool_decide_unpack _). vm_compute. exact I.
  - vm_compute. reflexivity.
  - vm_compute. reflexivity.
Defined.

Lemma wf_witness :
  ∃ m, inputs_of_labels [("dataset.0.useas", "mount.mount.configmap"); ("dataset.0.id", "a")]
    = inr m ∧ inputs_wf m.
Proof.
  eexists. split; [vm_compute; reflexivity|].
  apply (DatasetInputFromPod_wf
    [("dataset.0.useas", "mount.mount.configmap"); ("dataset.0.id", "a")]).
  vm_compute. reflexivity.
Defined.

(** A use that follows a repeated one is lost. *)
Example uses_lost :
  in_useasLabels (add_uses (Split "mount.mount.configmap" ".") false NewDatasetInput)
  = ["mount"].
Proof. reflexivity. Qed.

(** Two spellings of one index make the result depend on the order. *)
Example ambiguous_labels_order :
  ∃ m1 m2,
    inputs_of_labels [("dataset.0.useas", "mount"); ("dataset.00.useas", "configmap")] = inr m1 ∧
    inputs_of_labels [("dataset.00.useas", "configmap"); ("dataset.0.useas", "mount")] = inr m2 ∧
    in_useasLabels <$> m1 !! 0 = Some ["mount"; "configmap"] ∧
    in_useasLabels <$> m2 !! 0 = Some ["configmap"; "mount"].
Proof. by do 2 eexists; split_and!; [vm_compute; reflexivity..]. Qed.
