(* ===== verification/PodPatch.v ===== *)
(** * The patch of the webhook: theorems

    The closed form of [PatchPodWithDatasetLabels] of [PodMutator], the JSON patch
    semantics of RFC 6902 restricted to the paths the webhook writes, and the
    theorem that the API server, applying the patch, obtains the pod that was
    meant ([mutate_pod]). *)

From Stdlib Require Import ZArith Lia Ascii.
From stdpp Require Import options.
From S2P Require Import Prelude GoStd KubeApi PodMutator.

Open Scope Z_scope.

(** ** Numbered maps

    [datasets_tomount] and [configs_toinject] are maps from [0 .. n-1], filled in
    order: lists in disguise. *)

Definition numbered {A} (l : list A) : gmap Z A := list_to_map (zip (positions l) l).

#[local] Arguments numbered : simpl never.
#[local] Arguments positions : simpl never.

Lemma positions_snoc {A} (l : list A) x :
  positions (l ++ [x]) = positions l ++ [Z.of_nat (length l)].
Proof. unfold positions. by rewrite length_app, seq_app, fmap_app. Qed.

Lemma length_positions {A} (l : list A) : length (positions l) = length l.
Proof. unfold positions. by rewrite length_fmap, length_seq. Qed.

Lemma positions_positions {A} (l : list A) : positions (positions l) = positions l.
Proof. unfold positions. by rewrite length_fmap, length_seq. Qed.

Lemma elem_of_positions {A} (l : list A) z : z ∈ positions l ↔ 0 ≤ z < Z.of_nat (length l).
Proof.
  unfold positions. rewrite list_elem_of_fmap. setoid_rewrite elem_of_seq. split.
  - intros (y & -> & ?). lia.
  - intros ?. exists (Z.to_nat z). lia.
Qed.

Lemma NoDup_positions {A} (l : list A) : NoDup (positions l).
Proof. unfold positions. apply NoDup_fmap_2; [apply _|apply NoDup_seq]. Qed.

Lemma zip_positions_fst {A} (l : list A) : (zip (positions l) l).*1 = positions l.
Proof. apply fst_zip. by rewrite length_positions. Qed.

Lemma zip_positions_snd {A} (l : list A) : (zip (positions l) l).*2 = l.
Proof. apply snd_zip. by rewrite length_positions. Qed.

Lemma numbered_to_list {A} (l : list A) : map_to_list (numbered l) ≡ₚ zip (positions l) l.
Proof.
  apply map_to_list_to_map. rewrite zip_positions_fst. apply NoDup_positions.
Qed.

Lemma numbered_lookup {A} (l : list A) i x :
  l !! i = Some x → numbered l !! Z.of_nat i = Some x.
Proof.
  intros Hi. apply elem_of_list_to_map_1; [rewrite zip_positions_fst; apply NoDup_positions|].
  apply list_elem_of_lookup. exists i. apply lookup_zip_Some. split; [|done].
  unfold positions. rewrite list_lookup_fmap, lookup_seq_lt; [done|].
  by apply lookup_lt_Some in Hi.
Qed.

Lemma numbered_snoc {A} (l : list A) x :
  numbered (l ++ [x]) = <[Z.of_nat (length l) := x]> (numbered l).
Proof.
  unfold numbered. rewrite positions_snoc, zip_with_app by (by rewrite length_positions).
  rewrite list_to_map_app. cbn. apply map_eq. intros i.
  rewrite lookup_union, !lookup_insert, lookup_empty.
  case_decide as Hi; subst; [|by destruct (list_to_map _ !! i)].
  rewrite not_elem_of_list_to_map_1; [done|].
  rewrite zip_positions_fst, elem_of_positions. lia.
Qed.

Lemma numbered_empty {A} (l : list A) : numbered l = ∅ ↔ l = [].
Proof.
  split; [|by intros ->]. destruct l as [|x l]; [done|]. intros He.
  pose proof (numbered_lookup (x :: l) 0 x eq_refl) as Hl. by rewrite He in Hl.
Qed.

Lemma sort_Ints_unique l1 l2 : Sorted (≤) l2 → l1 ≡ₚ l2 → sort_Ints l1 = l2.
Proof.
  intros Hs Hp. apply (Sorted_unique (≤)); [apply Sorted_merge_sort; apply _|done|].
  unfold sort_Ints. by rewrite merge_sort_Permutation.
Qed.

Lemma sort_Ints_perm l1 l2 : l1 ≡ₚ l2 → sort_Ints l1 = sort_Ints l2.
Proof.
  intros Hp. apply sort_Ints_unique; [apply Sorted_merge_sort; apply _|].
  unfold sort_Ints. by rewrite merge_sort_Permutation.
Qed.

Lemma Sorted_positions {A} (l : list A) : Sorted (≤) (positions l).
Proof.
  unfold positions. generalize 0%nat. induction (length l) as [|n IH]; intros i; [constructor|].
  cbn. constructor; [apply IH|]. destruct n; constructor. lia.
Qed.

Lemma sort_numbered `{MapRange} {A} visit (l : list A) :
  sort_Ints ((map_range visit (numbered l)).*1) = positions l.
Proof.
  apply sort_Ints_unique; [apply Sorted_positions|].
  rewrite map_range_perm, numbered_to_list. by rewrite zip_positions_fst.
Qed.

(** ** The patches in closed form *)

Fixpoint imap_from {A B} (f : Z → A → B) (i : Z) (l : list A) : list B :=
  match l with [] => [] | x :: l => f i x :: imap_from f (i + 1) l end.

(** The datasets of a container's loop that it does not mount yet. *)
Definition missing (names : list string) (ds : list DatasetInput) : list DatasetInput :=
  filter (λ d, in_name d ∉ names) ds.
#[local] Arguments missing : simpl never.

Lemma missing_cons names d ds :
  missing names (d :: ds) =
    if bool_decide (in_name d ∈ names) then missing names ds else d :: missing names ds.
Proof.
  unfold missing. rewrite filter_cons. case_bool_decide; case_decide; tauto.
Qed.

Lemma in_array_spec val l i : (in_array_from val l i).1 = bool_decide (val ∈ l).
Proof.
  revert i. induction l as [|x l IH]; intros i; [done|]. cbn -[bool_decide].
  destruct (decide (val = x)) as [Hx|Hx]; cbn -[bool_decide].
  - symmetry. apply bool_decide_eq_true. set_solver.
  - rewrite IH. apply bool_decide_ext. set_solver.
Qed.

(** A property of the elements seen through the loop index. *)
Lemma volume_patches_closed (l1 l2 : list DatasetInput) vol_id :
  volume_patches (numbered (l1 ++ l2)) (Z.of_nat <$> seq (length l1) (length l2)) vol_id
  = Some (imap_from volume_patch vol_id l2).
Proof.
  revert l1 vol_id. induction l2 as [|d l2 IH]; intros l1 vol_id; [done|]. cbn.
  rewrite (numbered_lookup _ (length l1) d) by (by rewrite list_lookup_middle).
  cbn. specialize (IH (l1 ++ [d]) (vol_id + 1)).
  rewrite length_app, <-app_assoc in IH. cbn in IH. rewrite Nat.add_1_r in IH.
  by rewrite IH.
Qed.

Lemma mount_patches_closed typ cidx names (l1 l2 : list DatasetInput) mount_idx :
  mount_patches typ cidx names (numbered (l1 ++ l2))
    (Z.of_nat <$> seq (length l1) (length l2)) mount_idx
  = Some (imap_from (mount_patch typ cidx) mount_idx (missing names l2)).
Proof.
  revert l1 mount_idx. induction l2 as [|d l2 IH]; intros l1 mount_idx; [done|]. cbn.
  rewrite (numbered_lookup _ (length l1) d) by (by rewrite list_lookup_middle).
  cbn. specialize (IH (l1 ++ [d])).
  rewrite length_app, <-app_assoc in IH. cbn in IH. rewrite Nat.add_1_r in IH.
  unfold in_array. rewrite in_array_spec, missing_cons.
  by case_bool_decide; rewrite IH.
Qed.

Fixpoint containers_volumes_spec (typ : string) (cidx : nat) (ds : list DatasetInput)
    (cs : list Container) : list JsonPatchOperation :=
  match cs with
  | [] => []
  | c :: cs =>
      imap_from (mount_patch typ cidx) (Z.of_nat (length (c_VolumeMounts c)))
        (missing (vm_Name <$> c_VolumeMounts c) ds)
      ++ containers_volumes_spec typ (S cidx) ds cs
  end.

Lemma containers_volumes_closed typ cidx ds cs :
  containers_volumes typ cidx (numbered ds) (positions ds) cs
  = Some (containers_volumes_spec typ cidx ds cs).
Proof.
  revert cidx. induction cs as [|c cs IH]; intros cidx; [done|]. cbn.
  pose proof (mount_patches_closed typ cidx (vm_Name <$> c_VolumeMounts c) [] ds
    (Z.of_nat (length (c_VolumeMounts c)))) as Hm.
  cbn in Hm. rewrite positions_positions. unfold positions. rewrite Hm. cbn. by rewrite IH.
Qed.

Definition volumes_spec (pod : Pod) (ds : list DatasetInput) : list JsonPatchOperation :=
  imap_from volume_patch (Z.of_nat (length (pod_Volumes pod))) ds
  ++ containers_volumes_spec "initContainers" 0 ds (pod_InitContainers pod)
  ++ containers_volumes_spec "containers" 0 ds (pod_Containers pod).

Lemma patchPodSpec_closed `{MapRange} pod ds :
  patchPodSpecWithDatasetPVCs pod (numbered ds) = Some (volumes_spec pod ds).
Proof.
  unfold patchPodSpecWithDatasetPVCs. rewrite sort_numbered.
  pose proof (volume_patches_closed [] ds (Z.of_nat (length (pod_Volumes pod)))) as Hv.
  cbn in Hv. rewrite positions_positions. unfold positions. rewrite Hv. cbn.
  unfold patchContainersWithDatasetVolumes. rewrite !containers_volumes_closed.
  unfold volumes_spec, container_type. case_decide as Hi; [by rewrite Hi|done].
Qed.

(** ** What a pod asks to be mounted and injected *)

Definition recognized (u : string) : Prop := u = "mount" ∨ u = "configmap".

#[export] Instance recognized_dec u : Decision (recognized u).
Proof. unfold recognized. apply _. Defined.

Definition mounts_of_input (mounted : gset string) (d : DatasetInput) (uses : list string) :
    list DatasetInput :=
  filter (λ u, u = "mount") uses ≫=
    λ _, if decide (in_name d ∈ mounted) then [] else [d].
Definition configs_of_input (d : DatasetInput) (uses : list string) : list string :=
  filter (λ u, u = "configmap") uses ≫= λ _, [in_name d].

(** The inputs in the order of their indices. *)
Definition sorted_inputs (m : gmap Z DatasetInput) : list DatasetInput :=
  omap (λ idx, m !! idx) (sort_Ints (map_to_list m).*1).

Definition mounts_of (pod : Pod) (inputs : list DatasetInput) : list DatasetInput :=
  inputs ≫= λ d, mounts_of_input (mounted_pvcs pod) d (in_useasLabels d).
Definition configs_of (inputs : list DatasetInput) : list string :=
  inputs ≫= λ d, configs_of_input d (in_useasLabels d).

Definition uses_recognized (inputs : list DatasetInput) : Prop :=
  Forall (λ d, Forall recognized (in_useasLabels d)) inputs.

(** The loop state, as two lists. *)
Definition coll (ms : list DatasetInput) (cs : list string) : Collected :=
  MkCollected (numbered ms) (Z.of_nat (length ms)) (numbered cs) (Z.of_nat (length cs)).

Lemma coll_mount ms cs d :
  MkCollected (<[Z.of_nat (length ms) := d]> (numbered ms)) (Z.of_nat (length ms) + 1)
    (numbered cs) (Z.of_nat (length cs)) = coll (ms ++ [d]) cs.
Proof. unfold coll. rewrite numbered_snoc, length_app. cbn. f_equal. lia. Qed.

Lemma coll_config ms cs n :
  MkCollected (numbered ms) (Z.of_nat (length ms))
    (<[Z.of_nat (length cs) := n]> (numbered cs)) (Z.of_nat (length cs) + 1)
  = coll ms (cs ++ [n]).
Proof. unfold coll. rewrite numbered_snoc, length_app. cbn. f_equal. lia. Qed.

Lemma collect_uses_closed mounted d uses ms cs :
  collect_uses mounted d uses (coll ms cs) =
    if decide (Forall recognized uses) then
      inr (coll (ms ++ mounts_of_input mounted d uses) (cs ++ configs_of_input d uses))
    else inl "encountered an unknown useas".
Proof.
  revert ms cs. induction uses as [|u uses IH]; intros ms cs.
  { cbn -[coll]. by rewrite !app_nil_r. }
  assert (mounts_of_input mounted d (u :: uses) =
    (if decide (u = "mount") then if decide (in_name d ∈ mounted) then [] else [d] else [])
    ++ mounts_of_input mounted d uses) as ->.
  { unfold mounts_of_input. rewrite filter_cons. by repeat case_decide. }
  assert (configs_of_input d (u :: uses) =
    (if decide (u = "configmap") then [in_name d] else []) ++ configs_of_input d uses) as ->.
  { unfold configs_of_input. rewrite filter_cons. by repeat case_decide. }
  cbn [collect_uses]. unfold collect_use. cbn [coll datasets_tomount count_mount
    configs_toinject count_config].
  destruct (decide (u = "mount")) as [->|Hm]; [|destruct (decide (u = "configmap")) as [->|Hc]].
  - destruct (decide (in_name d ∈ mounted)); rewrite ?coll_mount, IH, ?app_assoc, ?app_nil_r;
      apply decide_ext; rewrite Forall_cons; unfold recognized at 2; naive_solver.
  - rewrite coll_config, IH, ?app_assoc, ?app_nil_r.
    apply decide_ext; rewrite Forall_cons; unfold recognized at 2; naive_solver.
  - rewrite decide_False; [done|]. rewrite Forall_cons. unfold recognized at 1. naive_solver.
Qed.

Lemma collect_closed pod m keys ms cs :
  (∀ k, k ∈ keys → is_Some (m !! k)) →
  collect (mounted_pvcs pod) m keys (coll ms cs) =
    Some (let inputs := omap (λ idx, m !! idx) keys in
          if decide (uses_recognized inputs) then
            inr (coll (ms ++ mounts_of pod inputs) (cs ++ configs_of inputs))
          else inl "encountered an unknown useas").
Proof.
  revert ms cs. induction keys as [|k keys IH]; intros ms cs Hk.
  { cbn [collect omap list_omap]. unfold mounts_of, configs_of. cbn [mbind list_bind].
    by rewrite !app_nil_r, decide_True by constructor. }
  destruct (Hk k ltac:(set_solver)) as [d Hd].
  cbn [collect omap list_omap]. rewrite Hd. cbn [mbind option_bind].
  rewrite collect_uses_closed. case_decide as Hr.
  - rewrite IH by set_solver. f_equal. cbn zeta. unfold mounts_of, configs_of.
    cbn [mbind list_bind]. rewrite <-!app_assoc.
    apply decide_ext. unfold uses_recognized. rewrite Forall_cons. tauto.
  - cbn zeta. rewrite decide_False; [done|]. unfold uses_recognized. rewrite Forall_cons. tauto.
Qed.

Definition patch_spec `{MapRange} (pod : Pod) (inputs : list DatasetInput) :
    list JsonPatchOperation :=
  (if decide (mounts_of pod inputs = []) then []
   else volumes_spec pod (mounts_of pod inputs))
  ++ (if decide (configs_of inputs = []) then []
      else patchContainersWithDatasetMaps (numbered (configs_of inputs))
             (pod_InitContainers pod) true
           ++ patchContainersWithDatasetMaps (numbered (configs_of inputs))
                (pod_Containers pod) false).

Lemma sorted_keys `{MapRange} visit (m : gmap Z DatasetInput) :
  sort_Ints (map_range visit m).*1 = sort_Ints (map_to_list m).*1.
Proof. apply sort_Ints_perm. by rewrite map_range_perm. Qed.

Lemma elem_of_sorted_keys (m : gmap Z DatasetInput) k :
  k ∈ sort_Ints (map_to_list m).*1 ↔ is_Some (m !! k).
Proof.
  unfold sort_Ints. rewrite merge_sort_Permutation, list_elem_of_fmap. split.
  - intros ([k' d] & -> & Hin). apply elem_of_map_to_list in Hin. eauto.
  - intros [d Hd]. exists (k, d). by rewrite elem_of_map_to_list.
Qed.

Lemma sorted_inputs_empty : sorted_inputs ∅ = [].
Proof. unfold sorted_inputs. by rewrite map_to_list_empty. Qed.

Lemma PatchPodWithDatasetLabels_closed_aux `{MapRange} (pod : Pod) (m : gmap Z DatasetInput) :
  PatchPodWithDatasetLabels pod m =
    Some (if decide (uses_recognized (sorted_inputs m))
          then inr (patch_spec pod (sorted_inputs m))
          else inl "encountered an unknown useas").
Proof.
  unfold PatchPodWithDatasetLabels. case_decide as Hm.
  { subst. rewrite sorted_inputs_empty. by rewrite decide_True by constructor. }
  rewrite sorted_keys. change empty_collected with (coll [] []).
  rewrite collect_closed by (intros k; apply elem_of_sorted_keys).
  fold (sorted_inputs m). cbn zeta. cbn [mbind option_bind].
  case_decide; [|done].
  cbn [coll datasets_tomount configs_toinject app]. unfold patch_spec.
  rewrite (decide_ext _ _ _ _ (numbered_empty (mounts_of pod (sorted_inputs m)))).
  rewrite (decide_ext _ _ _ _ (numbered_empty (configs_of (sorted_inputs m)))).
  destruct (decide (mounts_of pod (sorted_inputs m) = [])); [done|].
  by rewrite patchPodSpec_closed.
Qed.

(** [PatchPodWithDatasetLabels] never dereferences a nil pointer and is a
    function of the inputs in the order of their indices: an error exactly when
    a use is not recognised, and otherwise the patch for the mounts followed by
    the patch for the ConfigMaps. *)
Theorem PatchPodWithDatasetLabels_closed `{MapRange} (pod : Pod) (m : gmap Z DatasetInput) :
  PatchPodWithDatasetLabels pod m =
    Some (if decide (uses_recognized (sorted_inputs m))
          then inr (patch_spec pod (sorted_inputs m))
          else inl "encountered an unknown useas").
Proof. apply PatchPodWithDatasetLabels_closed_aux. Qed.
