(* ===== verification/PodApply.v ===== *)
(** * Applying the patch of the webhook

    The API server applies the JSON patch of the webhook to the JSON form of the
    pod (RFC 6902).  [PodDoc] is the part of that document the patch can touch,
    [apply_patch] is the [add] operation of the RFC on it, and [mutate_pod] is the
    pod the webhook means to obtain.  The main theorem relates the three. *)

From Stdlib Require Import ZArith Lia Ascii.
From stdpp Require Import options.
From S2P Require Import Prelude GoStd KubeApi PodMutator PodPatch.

Open Scope Z_scope.

(** ** Documents

    An empty list of a pod is left out of its JSON form ([omitempty]): the array
    is absent, which is [None]. *)

Record ContainerDoc := MkContainerDoc {
  cd_volumeMounts : option (list json);
  cd_envFrom : option (list json) }.

Record PodDoc := MkPodDoc {
  pd_volumes : option (list json);
  pd_initContainers : list ContainerDoc;
  pd_containers : list ContainerDoc }.

(** ** The [add] operation *)

(** Index of an array, in the canonical decimal form JSON pointers require. *)
Definition array_index (t : string) : option Z :=
  n ← digits_value t 0; if decide (Itoa n = t) then Some n else None.

(** Insertion at an index that is at most the length, or ["-"] for the end. *)
Definition add_at (t : string) (x : json) (l : list json) : option (list json) :=
  if decide (t = "-") then Some (l ++ [x])
  else
    n ← array_index t;
    if decide (n ≤ Z.of_nat (length l)) then
      Some (take (Z.to_nat n) l ++ x :: drop (Z.to_nat n) l)
    else None.

Definition add_in_container (path : list string) (x : json) (c : ContainerDoc) :
    option ContainerDoc :=
  match path with
  | [field; t] =>
      if decide (field = "volumeMounts") then
        l ← cd_volumeMounts c; l ← add_at t x l; Some (MkContainerDoc (Some l) (cd_envFrom c))
      else if decide (field = "envFrom") then
        l ← cd_envFrom c; l ← add_at t x l; Some (MkContainerDoc (cd_volumeMounts c) (Some l))
      else None
  | [field] =>
      if decide (field = "envFrom") then
        match x with
        | JArray l => Some (MkContainerDoc (cd_volumeMounts c) (Some l))
        | _ => None
        end
      else None
  | _ => None
  end.

Definition add_in_containers (idx : string) (path : list string) (x : json)
    (cs : list ContainerDoc) : option (list ContainerDoc) :=
  n ← array_index idx;
  c ← cs !! Z.to_nat n;
  c ← add_in_container path x c;
  Some (<[Z.to_nat n := c]> cs).

Definition doc_containers (typ : string) (doc : PodDoc) : option (list ContainerDoc) :=
  if decide (typ = "initContainers") then Some (pd_initContainers doc)
  else if decide (typ = "containers") then Some (pd_containers doc)
  else None.

Definition set_doc_containers (typ : string) (cs : list ContainerDoc) (doc : PodDoc) : PodDoc :=
  if decide (typ = "initContainers") then MkPodDoc (pd_volumes doc) cs (pd_containers doc)
  else MkPodDoc (pd_volumes doc) (pd_initContainers doc) cs.

Definition apply_op (doc : PodDoc) (p : JsonPatchOperation) : option PodDoc :=
  if decide (jp_Operation p ≠ "add") then None
  else match Split (jp_Path p) "/" with
  | ["" ; "spec"; "volumes"; t] =>
      l ← pd_volumes doc;
      l ← add_at t (jp_Value p) l;
      Some (MkPodDoc (Some l) (pd_initContainers doc) (pd_containers doc))
  | "" :: "spec" :: typ :: idx :: path =>
      cs ← doc_containers typ doc;
      cs ← add_in_containers idx path (jp_Value p) cs;
      Some (set_doc_containers typ cs doc)
  | _ => None
  end.

Definition apply_patch (ps : list JsonPatchOperation) (doc : PodDoc) : option PodDoc :=
  fold_opt apply_op doc ps.

(** ** The JSON form of a pod *)

Section Marshal.
(** Volumes that are not claims: their form plays no role. *)
Context (other_volume : string → json).

Definition volume_json (v : Volume) : json :=
  match vol_PersistentVolumeClaim v with
  | Some (claim, ro) =>
      JObject [json_name (vol_Name v);
               ("persistentVolumeClaim",
                JObject (("claimName", JString claim)
                         :: if ro : bool then [("readOnly", JBool true)] else []))]
  | None => other_volume (vol_Name v)
  end.

Definition mount_json (m : VolumeMount) : json :=
  JObject [json_name (vm_Name m); ("mountPath", JString (vm_MountPath m))].

Definition env_json (e : EnvFromSource) : json :=
  JObject (("prefix", JString (env_Prefix e))
    :: match env_ConfigMapRef e with
       | Some n => [("configMapRef", JObject [json_name n])] | None => [] end
    ++ match env_SecretRef e with
       | Some n => [("secretRef", JObject [json_name n])] | None => [] end).

Definition omitempty (l : list json) : option (list json) :=
  match l with [] => None | _ => Some l end.

Definition container_doc (c : Container) : ContainerDoc :=
  MkContainerDoc (omitempty (mount_json <$> c_VolumeMounts c))
    (omitempty (env_json <$> c_EnvFrom c)).

Definition pod_doc (pod : Pod) : PodDoc :=
  MkPodDoc (omitempty (volume_json <$> pod_Volumes pod))
    (container_doc <$> pod_InitContainers pod) (container_doc <$> pod_Containers pod).
End Marshal.

(** ** The pod that is meant *)

Definition read_only (d : DatasetInput) : bool :=
  bool_decide (map_get (spec_Local (ds_Spec (in_resource d))) "readonly" = Some "true").

Definition new_volume (d : DatasetInput) : Volume :=
  MkVolume (in_name d) (Some (in_name d, read_only d)).
Definition new_mount (d : DatasetInput) : VolumeMount :=
  MkVolumeMount (in_name d) ("/mnt/datasets/" +:+ in_name d).
Definition new_envs (d : string) : list EnvFromSource :=
  [MkEnvFromSource (d +:+ "_") (Some d) None; MkEnvFromSource (d +:+ "_") None (Some d)].

Definition mount_container (ds : list DatasetInput) (c : Container) : Container :=
  MkContainer (c_Name c)
    (c_VolumeMounts c ++ (new_mount <$> missing (vm_Name <$> c_VolumeMounts c) ds))
    (c_EnvFrom c).

Definition missing_envs (c : Container) (names : list string) : list EnvFromSource :=
  names ≫= λ d, if existsb (env_refers_to d) (c_EnvFrom c) then [] else new_envs d.

(** Containers that have sources get those that are missing; the others get, as
    the code has it, everything that was collected since the first of them. *)
Fixpoint inject_containers (cidx : nat) (order : nat → list string) (cs : list Container)
    (values : list EnvFromSource) : list Container :=
  match cs with
  | [] => []
  | c :: cs =>
      if decide (c_EnvFrom c ≠ []) then
        MkContainer (c_Name c) (c_VolumeMounts c) (c_EnvFrom c ++ missing_envs c (order cidx))
        :: inject_containers (S cidx) order cs values
      else
        let values := values ++ (order cidx ≫= new_envs) in
        MkContainer (c_Name c) (c_VolumeMounts c) values
        :: inject_containers (S cidx) order cs values
  end.

Definition mutate_pod `{MapRange} (pod : Pod) (inputs : list DatasetInput) : Pod :=
  let ds := mounts_of pod inputs in
  let order := config_order (numbered (configs_of inputs)) in
  MkPod (pod_Name pod) (pod_Namespace pod) (pod_Labels pod)
    (pod_Volumes pod ++ (new_volume <$> ds))
    (inject_containers 0 (order true) (mount_container ds <$> pod_InitContainers pod) [])
    (inject_containers 0 (order false) (mount_container ds <$> pod_Containers pod) []).

(** The arrays the patch appends to must exist in the document. *)
Definition patchable (pod : Pod) (ds : list DatasetInput) : Prop :=
  (ds ≠ [] → pod_Volumes pod ≠ []) ∧
  ∀ c, c ∈ pod_InitContainers pod ++ pod_Containers pod →
    missing (vm_Name <$> c_VolumeMounts c) ds ≠ [] → c_VolumeMounts c ≠ [].

(** ** Paths *)

Lemma array_index_Itoa n : 0 ≤ n → array_index (Itoa n) = Some n.
Proof.
  intros Hn. unfold array_index. rewrite (Itoa_nonneg n Hn), digits_value_pretty. cbn.
  rewrite Z2N.id by done. by rewrite (Itoa_nonneg n Hn), decide_True.
Qed.

Lemma Itoa_no_slash n : 0 ≤ n → no_char "/" (Itoa n).
Proof. intros Hn. rewrite Itoa_nonneg by done. by apply no_char_pretty. Qed.

Lemma Itoa_not_dash n : 0 ≤ n → Itoa n ≠ "-".
Proof.
  intros Hn. rewrite Itoa_nonneg by done.
  destruct (pretty_N_head (Z.to_N n)) as (c & t & -> & [d Hd]). intros [= -> ->]. done.
Qed.

Lemma add_at_end l x : add_at (Itoa (Z.of_nat (length l))) x l = Some (l ++ [x]).
Proof.
  unfold add_at. rewrite decide_False by (apply Itoa_not_dash; lia).
  rewrite array_index_Itoa by lia. cbn. rewrite decide_True by lia.
  by rewrite Nat2Z.id, take_ge, drop_ge by lia.
Qed.

Lemma Split_volumes_path t :
  no_char "/" t → Split ("/spec/volumes/" +:+ t) "/" = [""; "spec"; "volumes"; t].
Proof.
  intros Ht. transitivity ("" :: "spec" :: "volumes" :: Split t "/"); [done|].
  by rewrite Split_id.
Qed.

Lemma Split_container_path typ (cidx : nat) rest :
  no_char "/" typ →
  Split (container_path typ cidx +:+ String "/" rest) "/" =
    "" :: "spec" :: typ :: Itoa (Z.of_nat cidx) :: Split rest "/".
Proof.
  intros Ht. unfold container_path. rewrite !str_app_assoc.
  transitivity ("" :: "spec" :: Split (typ +:+ String "/"
    (Itoa (Z.of_nat cidx) +:+ String "/" rest)) "/"); [done|].
  rewrite Split_app_sep by done. by rewrite Split_app_sep by (apply Itoa_no_slash; lia).
Qed.

Definition is_container_type (typ : string) : Prop :=
  typ = "initContainers" ∨ typ = "containers".

Lemma container_type_no_slash typ : is_container_type typ → no_char "/" typ.
Proof. intros [->| ->]; by apply (bool_decide_unpack _). Qed.

(** ** One operation *)

Lemma apply_volume_patch l ics cs d :
  apply_op (MkPodDoc (Some l) ics cs) (volume_patch (Z.of_nat (length l)) d)
  = Some (MkPodDoc (Some (l ++ [jp_Value (volume_patch 0 d)])) ics cs).
Proof.
  unfold apply_op, volume_patch. cbn [jp_Operation jp_Path jp_Value].
  rewrite decide_False by (by intros []).
  rewrite Split_volumes_path by (apply Itoa_no_slash; lia). cbn [pd_volumes mbind option_bind].
  by rewrite add_at_end.
Qed.

(** An operation on the container with index [cidx] of the list of its type. *)
Lemma apply_in_container typ doc pre c post path rest v c' :
  is_container_type typ →
  doc_containers typ doc = Some (pre ++ c :: post) →
  path = container_path typ (length pre) +:+ String "/" rest →
  add_in_container (Split rest "/") v c = Some c' →
  apply_op doc (MkPatch "add" path v)
  = Some (set_doc_containers typ (pre ++ c' :: post) doc).
Proof.
  intros Htyp Hdoc -> Hc. unfold apply_op. cbn [jp_Operation jp_Path jp_Value].
  rewrite decide_False by (by intros []).
  rewrite Split_container_path by (by apply container_type_no_slash).
  assert (add_in_containers (Itoa (Z.of_nat (length pre))) (Split rest "/") v
    (pre ++ c :: post) = Some (pre ++ c' :: post)) as Hadd.
  { unfold add_in_containers. rewrite array_index_Itoa by lia.
    cbn [mbind option_bind]. rewrite Nat2Z.id, list_lookup_middle by done.
    cbn [mbind option_bind]. rewrite Hc. cbn.
    by rewrite insert_app_r_alt, Nat.sub_diag by done. }
  destruct Htyp as [->| ->]; cbn [decide]; rewrite Hdoc; cbn [mbind option_bind];
    rewrite Hadd; reflexivity.
Qed.

(** ** The containers of one type *)

Lemma doc_set typ cs doc :
  is_container_type typ → doc_containers typ (set_doc_containers typ cs doc) = Some cs.
Proof. by intros [->| ->]. Qed.

Lemma set_set typ cs cs' doc :
  set_doc_containers typ cs (set_doc_containers typ cs' doc) = set_doc_containers typ cs doc.
Proof. unfold set_doc_containers. by repeat case_decide. Qed.

Lemma set_same typ cs doc :
  is_container_type typ → doc_containers typ doc = Some cs →
  set_doc_containers typ cs doc = doc.
Proof. intros [->| ->]; destruct doc; cbn; intros [= ->]; done. Qed.

Lemma apply_patch_app p1 p2 doc :
  apply_patch (p1 ++ p2) doc = apply_patch p1 doc ≫= apply_patch p2.
Proof. apply fold_opt_app. Qed.

Section Containers.
Context (typ : string) (Htyp : is_container_type typ).

Lemma apply_mount_patch doc pre l env post d :
  doc_containers typ doc = Some (pre ++ MkContainerDoc (Some l) env :: post) →
  apply_op doc (mount_patch typ (length pre) (Z.of_nat (length l)) d)
  = Some (set_doc_containers typ
      (pre ++ MkContainerDoc (Some (l ++ [mount_json (new_mount d)])) env :: post) doc).
Proof using Htyp.
  intros Hdoc. eapply (apply_in_container typ doc pre _ post _
    ("volumeMounts/" +:+ Itoa (Z.of_nat (length l)))); [done..|].
  transitivity (add_in_container ("volumeMounts" :: Split (Itoa (Z.of_nat (length l))) "/")
      (mount_json (new_mount d)) (MkContainerDoc (Some l) env)); [done|].
  rewrite Split_id by (apply Itoa_no_slash; lia). cbn. by rewrite add_at_end.
Qed.

Lemma apply_mounts doc pre l env post ds :
  doc_containers typ doc = Some (pre ++ MkContainerDoc (Some l) env :: post) →
  apply_patch (imap_from (mount_patch typ (length pre)) (Z.of_nat (length l)) ds) doc
  = Some (set_doc_containers typ
      (pre ++ MkContainerDoc (Some (l ++ (mount_json <$> (new_mount <$> ds)))) env :: post)
      doc).
Proof using Htyp.
  revert doc l. induction ds as [|d ds IH]; intros doc l Hdoc.
  { cbn. rewrite app_nil_r. by rewrite (set_same typ _ doc Htyp Hdoc). }
  unfold apply_patch in *. cbn [imap_from fold_opt].
  rewrite (apply_mount_patch doc pre l env post d Hdoc). cbn [mbind option_bind].
  specialize (IH (set_doc_containers typ
    (pre ++ MkContainerDoc (Some (l ++ [mount_json (new_mount d)])) env :: post) doc)
    (l ++ [mount_json (new_mount d)]) (doc_set _ _ _ Htyp)).
  rewrite length_app in IH. cbn [length] in IH.
  replace (Z.of_nat (length l + 1)) with (Z.of_nat (length l) + 1) in IH by lia.
  by rewrite IH, set_set, <-app_assoc.
Qed.

Lemma container_doc_mount ds c :
  (missing (vm_Name <$> c_VolumeMounts c) ds ≠ [] → c_VolumeMounts c ≠ []) →
  container_doc (mount_container ds c) =
    MkContainerDoc
      (if decide (c_VolumeMounts c = []) then None
       else Some ((mount_json <$> c_VolumeMounts c) ++
                  (mount_json <$> (new_mount <$> missing (vm_Name <$> c_VolumeMounts c) ds))))
      (omitempty (env_json <$> c_EnvFrom c)).
Proof.
  intros Hm. unfold container_doc, mount_container. cbn [c_VolumeMounts c_EnvFrom].
  f_equal. case_decide as He.
  - rewrite He in *. cbn in *. destruct (missing [] ds) eqn:E; [done|].
    exfalso. by apply Hm.
  - rewrite fmap_app. by destruct (c_VolumeMounts c).
Qed.

Lemma apply_containers_volumes doc pre ds cs :
  doc_containers typ doc = Some (pre ++ (container_doc <$> cs)) →
  (∀ c, c ∈ cs → missing (vm_Name <$> c_VolumeMounts c) ds ≠ [] → c_VolumeMounts c ≠ []) →
  apply_patch (containers_volumes_spec typ (length pre) ds cs) doc
  = Some (set_doc_containers typ
            (pre ++ (container_doc <$> (mount_container ds <$> cs))) doc).
Proof using Htyp.
  revert doc pre. induction cs as [|c cs IH]; intros doc pre Hdoc Hcs.
  { cbn in *. by rewrite (set_same typ _ doc Htyp Hdoc). }
  cbn [containers_volumes_spec fmap list_fmap] in *. rewrite apply_patch_app.
  specialize (IH (set_doc_containers typ
    (pre ++ container_doc (mount_container ds c) :: (container_doc <$> cs)) doc)
    (pre ++ [container_doc (mount_container ds c)])).
  rewrite length_app, <-app_assoc in IH. cbn [length] in IH. rewrite Nat.add_1_r in IH.
  specialize (IH (doc_set _ _ _ Htyp) ltac:(set_solver)).
  rewrite container_doc_mount in * by (apply Hcs; set_solver). case_decide as He.
  - assert (missing (vm_Name <$> c_VolumeMounts c) ds = []) as Hnone.
    { destruct (missing _ ds) eqn:E; [done|]. exfalso.
      apply (Hcs c ltac:(set_solver)); [by rewrite E|done]. }
    rewrite Hnone. cbn [imap_from apply_patch fold_opt mbind option_bind].
    assert (container_doc c = MkContainerDoc None (omitempty (env_json <$> c_EnvFrom c)))
      as Hc by (unfold container_doc; by rewrite He).
    rewrite <-Hc in *. rewrite (set_same typ _ doc Htyp Hdoc) in IH.
    by rewrite IH, <-app_assoc.
  - assert (container_doc c = MkContainerDoc (Some (mount_json <$> c_VolumeMounts c))
      (omitempty (env_json <$> c_EnvFrom c))) as Hc
      by (unfold container_doc; by destruct (c_VolumeMounts c)).
    rewrite Hc in Hdoc. pose proof (apply_mounts doc pre _ _ _
      (missing (vm_Name <$> c_VolumeMounts c) ds) Hdoc) as Hm.
    rewrite length_fmap in Hm. rewrite Hm. cbn [mbind option_bind].
    by rewrite IH, set_set, <-app_assoc.
Qed.

Lemma apply_env_append doc pre vm l post v :
  doc_containers typ doc = Some (pre ++ MkContainerDoc vm (Some l) :: post) →
  apply_op doc (MkPatch "add" (container_path typ (length pre) +:+ "/envFrom/-") v)
  = Some (set_doc_containers typ
      (pre ++ MkContainerDoc vm (Some (l ++ [v])) :: post) doc).
Proof using Htyp. intros Hdoc. by eapply (apply_in_container typ doc pre _ post _ "envFrom/-"). Qed.

Lemma apply_env_new doc pre c post l :
  doc_containers typ doc = Some (pre ++ c :: post) →
  apply_op doc (MkPatch "add" (container_path typ (length pre) +:+ "/envFrom") (JArray l))
  = Some (set_doc_containers typ
      (pre ++ MkContainerDoc (cd_volumeMounts c) (Some l) :: post) doc).
Proof using Htyp. intros Hdoc. by eapply (apply_in_container typ doc pre _ post _ "envFrom"). Qed.

Lemma apply_env_appends doc pre vm l post c names :
  doc_containers typ doc = Some (pre ++ MkContainerDoc vm (Some l) :: post) →
  apply_patch (names ≫= env_append_patches typ (length pre) c) doc
  = Some (set_doc_containers typ
      (pre ++ MkContainerDoc vm (Some (l ++ (env_json <$> missing_envs c names))) :: post) doc).
Proof using Htyp.
  revert doc l. induction names as [|d names IH]; intros doc l Hdoc.
  { cbn. rewrite app_nil_r. by rewrite (set_same typ _ doc Htyp Hdoc). }
  unfold missing_envs in *. cbn [mbind list_bind]. rewrite apply_patch_app.
  assert (env_append_patches typ (length pre) c d =
    if existsb (env_refers_to d) (c_EnvFrom c) then [] else
    MkPatch "add" (container_path typ (length pre) +:+ "/envFrom/-") <$>
      [configmap_ref d; secret_ref d]) as -> by done.
  destruct (existsb (env_refers_to d) (c_EnvFrom c)).
  { cbn [app apply_patch fold_opt mbind option_bind]. by apply IH. }
  cbn [apply_patch fold_opt fmap list_fmap].
  rewrite (apply_env_append _ _ _ _ _ (configmap_ref d) Hdoc). cbn [mbind option_bind].
  erewrite apply_env_append by (by apply doc_set). cbn [mbind option_bind].
  erewrite IH by (by apply doc_set). rewrite !set_set, <-!app_assoc, fmap_app. done.
Qed.

Lemma env_json_values names : env_json <$> (names ≫= new_envs) = env_values names.
Proof.
  unfold env_values. induction names as [|d names IH]; [done|].
  cbn [mbind list_bind]. by rewrite fmap_app, IH.
Qed.

Lemma apply_containers_maps doc pre order cs values :
  doc_containers typ doc = Some (pre ++ (container_doc <$> cs)) →
  (∀ i, order i ≠ []) →
  apply_patch (containers_maps typ (length pre) order cs (env_json <$> values)) doc
  = Some (set_doc_containers typ
            (pre ++ (container_doc <$> inject_containers (length pre) order cs values)) doc).
Proof using Htyp.
  intros Hdoc Horder. revert doc pre values Hdoc.
  induction cs as [|c cs IH]; intros doc pre values Hdoc.
  { cbn in *. by rewrite (set_same typ _ doc Htyp Hdoc). }
  assert (∀ values doc c', doc_containers typ doc =
      Some (pre ++ c' :: (container_doc <$> cs)) →
    apply_patch (containers_maps typ (S (length pre)) order cs (env_json <$> values)) doc =
    Some (set_doc_containers typ (pre ++ c' :: (container_doc <$>
      inject_containers (S (length pre)) order cs values)) doc)) as IH'.
  { clear doc values Hdoc. intros values doc c' Hdoc.
    specialize (IH doc (pre ++ [c']) values).
    rewrite length_app, <-!app_assoc in IH. cbn [length] in IH.
    rewrite Nat.add_1_r in IH. by apply IH. }
  cbn [containers_maps inject_containers fmap list_fmap] in *. case_decide as He.
  - rewrite apply_patch_app.
    assert (container_doc c = MkContainerDoc (omitempty (mount_json <$> c_VolumeMounts c))
      (Some (env_json <$> c_EnvFrom c))) as Hc
      by (unfold container_doc; by destruct (c_EnvFrom c)).
    rewrite Hc in Hdoc.
    rewrite (apply_env_appends _ _ _ _ _ c (order (length pre)) Hdoc).
    cbn [mbind option_bind]. erewrite IH' by (by apply doc_set). rewrite set_set.
    do 4 f_equal. cbn [fmap list_fmap]. f_equal. unfold container_doc.
    cbn [c_VolumeMounts c_EnvFrom]. rewrite fmap_app. by destruct (c_EnvFrom c).
  - cbn [apply_patch fold_opt]. rewrite (apply_env_new _ _ _ _ _ Hdoc).
    cbn [mbind option_bind]. rewrite <-env_json_values, <-fmap_app.
    fold (apply_patch (containers_maps typ (S (length pre)) order cs
      (env_json <$> (values ++ (order (length pre) ≫= new_envs))))).
    unfold apply_patch in IH'.
    erewrite IH' by (by apply doc_set). rewrite set_set.
    do 4 f_equal. cbn [fmap list_fmap]. f_equal. unfold container_doc at 2.
    cbn [c_VolumeMounts c_EnvFrom cd_volumeMounts container_doc]. f_equal.
    specialize (Horder (length pre)). destruct (order (length pre)) as [|n ns]; [done|].
    by destruct values.
Qed.

Lemma apply_containers_volumes_0 doc ds cs :
  doc_containers typ doc = Some (container_doc <$> cs) →
  (∀ c, c ∈ cs → missing (vm_Name <$> c_VolumeMounts c) ds ≠ [] → c_VolumeMounts c ≠ []) →
  apply_patch (containers_volumes_spec typ 0 ds cs) doc
  = Some (set_doc_containers typ (container_doc <$> (mount_container ds <$> cs)) doc).
Proof using Htyp. apply (apply_containers_volumes doc []). Qed.

Lemma apply_containers_maps_0 doc order cs :
  doc_containers typ doc = Some (container_doc <$> cs) →
  (∀ i, order i ≠ []) →
  apply_patch (containers_maps typ 0 order cs []) doc
  = Some (set_doc_containers typ (container_doc <$> inject_containers 0 order cs []) doc).
Proof using Htyp. apply (apply_containers_maps doc [] order cs []). Qed.
End Containers.

(** ** The whole patch *)

Definition mount_pod (pod : Pod) (ds : list DatasetInput) : Pod :=
  MkPod (pod_Name pod) (pod_Namespace pod) (pod_Labels pod)
    (pod_Volumes pod ++ (new_volume <$> ds))
    (mount_container ds <$> pod_InitContainers pod)
    (mount_container ds <$> pod_Containers pod).

Definition inject_pod (oi om : nat → list string) (pod : Pod) : Pod :=
  MkPod (pod_Name pod) (pod_Namespace pod) (pod_Labels pod) (pod_Volumes pod)
    (inject_containers 0 oi (pod_InitContainers pod) [])
    (inject_containers 0 om (pod_Containers pod) []).

Lemma mutate_pod_split `{MapRange} pod inputs :
  mutate_pod pod inputs =
    inject_pod (config_order (numbered (configs_of inputs)) true)
      (config_order (numbered (configs_of inputs)) false) (mount_pod pod (mounts_of pod inputs)).
Proof. done. Qed.

Lemma mount_container_nil c : mount_container [] c = c.
Proof. destruct c. unfold mount_container, missing. cbn. by rewrite app_nil_r. Qed.

Lemma mount_containers_nil (cs : list Container) : mount_container [] <$> cs = cs.
Proof. induction cs as [|c cs IH]; [done|]. cbn. by rewrite mount_container_nil, IH. Qed.

Lemma mount_pod_nil pod : mount_pod pod [] = pod.
Proof.
  destruct pod. unfold mount_pod. cbn. rewrite app_nil_r.
  by rewrite !mount_containers_nil.
Qed.

Lemma inject_containers_nil i order cs :
  (∀ i, order i = []) → inject_containers i order cs [] = cs.
Proof.
  intros Ho. revert i. induction cs as [|c cs IH]; intros i; [done|].
  cbn [inject_containers]. rewrite Ho. cbn [mbind list_bind app].
  rewrite !IH. destruct c as [n vm env]. unfold missing_envs. cbn.
  case_decide as He; [by rewrite app_nil_r|]. by destruct env.
Qed.

Lemma config_order_perm `{MapRange} cs init i : config_order (numbered cs) init i ≡ₚ cs.
Proof.
  unfold config_order. rewrite map_range_perm, numbered_to_list. by rewrite zip_positions_snd.
Qed.

Lemma inject_pod_nil `{MapRange} pod :
  inject_pod (config_order (numbered []) true) (config_order (numbered []) false) pod = pod.
Proof.
  unfold inject_pod.
  rewrite !inject_containers_nil by (intros i; apply Permutation_nil_r, config_order_perm).
  by destruct pod.
Qed.

Lemma containers_maps_mount typ i order ds cs values :
  containers_maps typ i order (mount_container ds <$> cs) values =
  containers_maps typ i order cs values.
Proof.
  revert i values. induction cs as [|c cs IH]; intros i values; [done|].
  cbn [containers_maps fmap list_fmap]. by rewrite !IH.
Qed.

Section Apply.
Context (other_volume : string → json).

Lemma volume_json_new d :
  jp_Value (volume_patch 0 d) = volume_json other_volume (new_volume d).
Proof.
  unfold volume_patch, volume_json, new_volume, pvc_json, read_only. cbn -[map_get].
  destruct (map_get _ _) as [r|]; [|done]. case_decide; case_bool_decide; naive_solver.
Qed.

Lemma apply_volume_patches l ics cs ds :
  apply_patch (imap_from volume_patch (Z.of_nat (length l)) ds) (MkPodDoc (Some l) ics cs)
  = Some (MkPodDoc (Some (l ++ (volume_json other_volume <$> (new_volume <$> ds)))) ics cs).
Proof.
  revert l. induction ds as [|d ds IH]; intros l; [cbn; by rewrite app_nil_r|].
  unfold apply_patch in *. cbn [imap_from fold_opt].
  rewrite apply_volume_patch. cbn [mbind option_bind].
  specialize (IH (l ++ [jp_Value (volume_patch 0 d)])). rewrite length_app in IH.
  cbn [length] in IH.
  replace (Z.of_nat (length l + 1)) with (Z.of_nat (length l) + 1) in IH by lia.
  by rewrite IH, <-app_assoc, volume_json_new.
Qed.

Lemma apply_volumes_spec pod ds :
  pod_Volumes pod ≠ [] →
  (∀ c, c ∈ pod_InitContainers pod ++ pod_Containers pod →
    missing (vm_Name <$> c_VolumeMounts c) ds ≠ [] → c_VolumeMounts c ≠ []) →
  apply_patch (volumes_spec pod ds) (pod_doc other_volume pod)
  = Some (pod_doc other_volume (mount_pod pod ds)).
Proof.
  intros Hv Hc. unfold volumes_spec, pod_doc. rewrite apply_patch_app.
  assert (∀ l, pod_Volumes pod ++ l ≠ []) as Hv' by (by destruct (pod_Volumes pod)).
  assert (∀ l, l ≠ [] → omitempty (volume_json other_volume <$> l)
    = Some (volume_json other_volume <$> l)) as Homit by (by intros []).
  rewrite !Homit by (done || apply Hv').
  pose proof (apply_volume_patches (volume_json other_volume <$> pod_Volumes pod)) as Hvp.
  rewrite length_fmap in Hvp. rewrite Hvp. cbn [mbind option_bind].
  rewrite apply_patch_app.
  rewrite (apply_containers_volumes_0 "initContainers" (or_introl eq_refl)) by
    (done || (intros; apply Hc; set_solver)).
  cbn [mbind option_bind].
  rewrite (apply_containers_volumes_0 "containers" (or_intror eq_refl)) by
    (done || (intros; apply Hc; set_solver)).
  cbn [pod_Volumes mount_pod]. by rewrite fmap_app.
Qed.

Lemma apply_config_maps `{MapRange} pod cs :
  cs ≠ [] →
  apply_patch (patchContainersWithDatasetMaps (numbered cs) (pod_InitContainers pod) true
               ++ patchContainersWithDatasetMaps (numbered cs) (pod_Containers pod) false)
    (pod_doc other_volume pod)
  = Some (pod_doc other_volume (inject_pod (config_order (numbered cs) true)
            (config_order (numbered cs) false) pod)).
Proof.
  intros Hcs. rewrite apply_patch_app. unfold patchContainersWithDatasetMaps, container_type.
  assert (∀ init i, config_order (numbered cs) init i ≠ []) as Ho.
  { intros init i Hn. pose proof (config_order_perm cs init i) as Hp.
    rewrite Hn in Hp. by apply Permutation_nil_l in Hp. }
  rewrite (apply_containers_maps_0 "initContainers" (or_introl eq_refl)) by done.
  cbn [mbind option_bind].
  by rewrite (apply_containers_maps_0 "containers" (or_intror eq_refl)).
Qed.

Lemma patch_yields_mutated_pod_aux `{MapRange} (pod : Pod) (m : gmap Z DatasetInput)
    (ops : list JsonPatchOperation) :
  PatchPodWithDatasetLabels pod m = Some (inr ops) →
  patchable pod (mounts_of pod (sorted_inputs m)) →
  apply_patch ops (pod_doc other_volume pod)
  = Some (pod_doc other_volume (mutate_pod pod (sorted_inputs m))).
Proof.
  rewrite PatchPodWithDatasetLabels_closed_aux. case_decide; [|done]. intros [= <-] [Hv Hc].
  rewrite mutate_pod_split. set (inputs := sorted_inputs m) in *.
  unfold patch_spec. rewrite apply_patch_app.
  assert (apply_patch (if decide (mounts_of pod inputs = []) then []
    else volumes_spec pod (mounts_of pod inputs)) (pod_doc other_volume pod)
    = Some (pod_doc other_volume (mount_pod pod (mounts_of pod inputs)))) as ->.
  { case_decide as Hm; [by rewrite Hm, mount_pod_nil|]. by apply apply_volumes_spec; auto. }
  cbn [mbind option_bind]. case_decide as Hcs; [by rewrite Hcs, inject_pod_nil|].
  rewrite <-apply_config_maps by done. f_equal.
  unfold patchContainersWithDatasetMaps. cbn [pod_InitContainers pod_Containers mount_pod].
  by rewrite !containers_maps_mount.
Qed.

(** (C22) The JSON patch of the webhook means what it should: when the arrays it
    appends to exist, the API server can apply every operation of the patch in
    order, and obtains the pod with the claims added to its volumes, to the
    mounts of each container that lacks them, and the ConfigMaps and Secrets
    added to the environment of the containers. *)
Theorem patch_yields_mutated_pod `{MapRange} (pod : Pod) (m : gmap Z DatasetInput)
    (ops : list JsonPatchOperation) :
  PatchPodWithDatasetLabels pod m = Some (inr ops) →
  patchable pod (mounts_of pod (sorted_inputs m)) →
  apply_patch ops (pod_doc other_volume pod)
  = Some (pod_doc other_volume (mutate_pod pod (sorted_inputs m))).
Proof. apply patch_yields_mutated_pod_aux. Qed.
End Apply.

(** A pod without volumes cannot be patched: the first operation adds to
    the position 0 of an array that its JSON form does not have, and the API
    server rejects the patch. *)
Theorem patch_of_pod_without_volumes_rejected `{MapRange} other_volume (pod : Pod)
    (m : gmap Z DatasetInput) (ops : list JsonPatchOperation) :
  PatchPodWithDatasetLabels pod m = Some (inr ops) →
  mounts_of pod (sorted_inputs m) ≠ [] →
  pod_Volumes pod = [] →
  apply_patch ops (pod_doc other_volume pod) = None.
Proof.
  rewrite PatchPodWithDatasetLabels_closed_aux. case_decide; [|done]. intros [= <-] Hm Hv.
  unfold patch_spec. rewrite decide_False by done.
  destruct (mounts_of pod (sorted_inputs m)) as [|d ds]; [done|].
  unfold volumes_spec, pod_doc. rewrite Hv. reflexivity.
Qed.

(** ** Mutating twice *)

Lemma elem_of_mounted_pvcs (d : DatasetInput) (pod : Pod) ds :
  in_name d ∈ mounted_pvcs (mount_pod pod ds) ↔
  in_name d ∈ mounted_pvcs pod ∨ in_name d ∈ in_name <$> ds.
Proof.
  unfold mounted_pvcs. cbn [pod_Volumes mount_pod].
  rewrite omap_app, fmap_app, list_to_set_app_L, elem_of_union, !elem_of_list_to_set.
  assert (fst <$> omap vol_PersistentVolumeClaim (new_volume <$> ds) = in_name <$> ds) as ->;
    [|done]. induction ds as [|e ds IH]; [done|]. cbn in *. by rewrite IH.
Qed.

Lemma elem_of_mounts_of pod d inputs :
  d ∈ inputs → in_name d ∉ mounted_pvcs pod → "mount" ∈ in_useasLabels d →
  d ∈ mounts_of pod inputs.
Proof.
  intros Hd Hn Hu. unfold mounts_of. apply list_elem_of_bind. exists d. split; [|done].
  unfold mounts_of_input. rewrite decide_False by done. apply list_elem_of_bind.
  exists "mount". split; [by apply list_elem_of_singleton|by apply list_elem_of_filter].
Qed.

Lemma mounts_of_mount_pod pod inputs :
  mounts_of (mount_pod pod (mounts_of pod inputs)) inputs = [].
Proof.
  assert (∀ d, d ∉ mounts_of (mount_pod pod (mounts_of pod inputs)) inputs) as Hno.
  { intros d Hin. unfold mounts_of at 1 in Hin.
    apply list_elem_of_bind in Hin as (e & Hin & He). unfold mounts_of_input in Hin.
    apply list_elem_of_bind in Hin as (u & Hin & Hu).
    apply list_elem_of_filter in Hu as [-> Hu].
    case_decide as Hm; [by apply elem_of_nil in Hin|]. apply Hm, elem_of_mounted_pvcs.
    destruct (decide (in_name e ∈ mounted_pvcs pod)) as [?|Hn]; [by left|right].
    apply list_elem_of_fmap. exists e. split; [done|]. by apply elem_of_mounts_of. }
  destruct (mounts_of _ inputs) as [|d ds]; [done|]. exfalso. apply (Hno d). set_solver.
Qed.

Lemma existsb_refers d envs e : e ∈ envs → env_refers_to d e = true →
  existsb (env_refers_to d) envs = true.
Proof. intros He Hd. apply existsb_exists. exists e. by rewrite <-list_elem_of_In. Qed.

Lemma new_envs_refer d names : d ∈ names →
  existsb (env_refers_to d) (names ≫= new_envs) = true.
Proof.
  intros Hd. apply (existsb_refers _ _ (MkEnvFromSource (d +:+ "_") (Some d) None)).
  - apply list_elem_of_bind. exists d. split; [by left|done].
  - unfold env_refers_to. cbn. by rewrite bool_decide_true.
Qed.

Lemma injected_refers i order cs values c d :
  c ∈ inject_containers i order cs values → (∀ j, d ∈ order j) →
  c_EnvFrom c ≠ [] ∧ existsb (env_refers_to d) (c_EnvFrom c) = true.
Proof.
  intros Hc Hd. revert i values Hc. induction cs as [|c' cs IH]; intros i values Hc;
    cbn [inject_containers] in Hc; [by apply elem_of_nil in Hc|].
  assert (∀ l, existsb (env_refers_to d) l = true →
    l ≠ [] ∧ existsb (env_refers_to d) l = true) as Hne by (by intros []).
  case_decide as He; apply elem_of_cons in Hc as [->|Hc]; try (by eapply IH);
    cbn [c_EnvFrom]; apply Hne; rewrite existsb_app.
  - destruct (existsb (env_refers_to d) (c_EnvFrom c')) eqn:E; [done|]. cbn.
    apply (existsb_refers _ _ (MkEnvFromSource (d +:+ "_") (Some d) None)).
    + apply list_elem_of_bind. exists d. rewrite E. split; [by left|done].
    + unfold env_refers_to. cbn. by rewrite bool_decide_true.
  - rewrite new_envs_refer by done. apply orb_true_r.
Qed.

Lemma containers_maps_done typ i order cs values :
  (∀ c, c ∈ cs → c_EnvFrom c ≠ [] ∧
     ∀ j d, d ∈ order j → existsb (env_refers_to d) (c_EnvFrom c) = true) →
  containers_maps typ i order cs values = [].
Proof.
  revert i. induction cs as [|c cs IH]; intros i Hcs; [done|]. cbn [containers_maps].
  destruct (Hcs c ltac:(set_solver)) as [Hne Hr]. rewrite decide_True by done.
  rewrite IH by set_solver. rewrite app_nil_r.
  assert (∀ names, (∀ d, d ∈ names → existsb (env_refers_to d) (c_EnvFrom c) = true) →
    names ≫= env_append_patches typ i c = []) as Happ; [|by apply Happ, Hr].
  induction names as [|d names IHn]; intros Hn; [done|]. cbn [mbind list_bind].
  unfold env_append_patches at 1. rewrite Hn by set_solver. apply IHn. set_solver.
Qed.

Lemma inject_done (R1 R2 : MapRange) cs containers init :
  cs ≠ [] →
  @patchContainersWithDatasetMaps R2 (numbered cs)
    (inject_containers 0 (@config_order R1 (numbered cs) init) containers []) init = [].
Proof.
  intros Hcs. apply containers_maps_done. intros c Hc.
  assert (∀ d, d ∈ cs → c_EnvFrom c ≠ [] ∧ existsb (env_refers_to d) (c_EnvFrom c) = true)
    as Hin.
  { intros d Hd. apply (injected_refers _ _ _ _ _ _ Hc). intros j.
    by rewrite config_order_perm. }
  split.
  - destruct cs as [|d cs]; [done|]. apply (Hin d). set_solver.
  - intros j d. rewrite config_order_perm. by apply Hin.
Qed.

(** (C37) The mutation is idempotent: a pod that has already been mutated for its
    datasets is not patched again, whatever the iteration orders of the two
    calls. *)
Theorem mutate_pod_idempotent (R1 R2 : MapRange) (pod : Pod) (m : gmap Z DatasetInput) :
  uses_recognized (sorted_inputs m) →
  @PatchPodWithDatasetLabels R2 (@mutate_pod R1 pod (sorted_inputs m)) m = Some (inr []).
Proof.
  intros Hu. rewrite PatchPodWithDatasetLabels_closed_aux, decide_True by done.
  do 2 f_equal. set (inputs := sorted_inputs m). rewrite mutate_pod_split.
  set (pod1 := mount_pod pod (mounts_of pod inputs)). unfold patch_spec.
  assert (∀ oi om, mounts_of (inject_pod oi om pod1) inputs = mounts_of pod1 inputs) as ->
    by done.
  assert (mounts_of pod1 inputs = []) as -> by apply mounts_of_mount_pod.
  rewrite decide_True by done.
  case_decide as Hc; [done|]. cbn [pod_InitContainers pod_Containers inject_pod].
  by rewrite !inject_done.
Qed.

(** ** Accumulation of the environment values *)

(** Containers without sources of their own get more and more copies of the
    references: the container at position [i] gets the two references of every
    dataset [i + 1] times, since the slice of values is shared by the loop. *)
Theorem env_values_accumulate (order : nat → list string) (n i : nat)
    (cs : list Container) (c : Container) :
  (∀ j, length (order j) = n) →
  Forall (λ c, c_EnvFrom c = []) cs →
  inject_containers 0 order cs [] !! i = Some c →
  length (c_EnvFrom c) = (2 * n * S i)%nat.
Proof.
  intros Ho Hcs.
  assert (∀ l, length (l ≫= new_envs) = (2 * length l)%nat) as Hlen.
  { induction l as [|x l IH]; [done|]. rewrite bind_cons, length_app, IH. cbn. lia. }
  enough (∀ k values, inject_containers k order cs values !! i = Some c →
    length (c_EnvFrom c) = (length values + 2 * n * S i)%nat) as H by (apply H).
  revert i. induction Hcs as [|c' cs Hc' Hcs IH]; intros i k values; [done|].
  cbn [inject_containers]. rewrite decide_False by (rewrite Hc'; by intros []).
  destruct i as [|i]; cbn [lookup list_lookup].
  - intros [= <-]. cbn [c_EnvFrom]. rewrite length_app, Hlen, Ho. lia.
  - intros Hi. rewrite (IH _ _ _ Hi), length_app, Hlen, Ho. lia.
Qed.

(** ** Witnesses *)

Definition demo_volume (name : string) : json :=
  JObject [json_name name; ("emptyDir", JObject [])].

Definition demo_range : MapRange.
Proof. refine {| map_range _ K _ _ V m := map_to_list m |}. reflexivity. Defined.

Definition demo_input (name : string) (uses : list string) : DatasetInput :=
  MkDatasetInput name 0 uses empty_dataset.

Definition demo_inputs : gmap Z DatasetInput :=
  <[0 := demo_input "ds0" ["mount"; "configmap"]]> (<[1 := demo_input "ds1" ["mount"]]> ∅).

Definition demo_pod : Pod :=
  MkPod "test-1" "test" ∅ [MkVolume "token" None] []
    [MkContainer "foo" [MkVolumeMount "token" "/var/run"] [];
     MkContainer "bar" [MkVolumeMount "token" "/var/run"; MkVolumeMount "ds0" "/data"]
       [MkEnvFromSource "" (Some "settings") None]].

Definition demo_ops : list JsonPatchOperation :=
  match @PatchPodWithDatasetLabels demo_range demo_pod demo_inputs with
  | Some (inr ops) => ops
  | _ => []
  end.

Lemma patch_yields_witness :
  length demo_ops = 8%nat ∧
  apply_patch demo_ops (pod_doc demo_volume demo_pod)
  = Some (pod_doc demo_volume (@mutate_pod demo_range demo_pod (sorted_inputs demo_inputs))).
Proof.
  split; [vm_compute; reflexivity|].
  apply (@patch_yields_mutated_pod demo_volume demo_range demo_pod demo_inputs demo_ops).
  - vm_compute. reflexivity.
  - split; [by intros|]. intros c. rewrite list_elem_of_In. cbn [pod_InitContainers
      pod_Containers demo_pod app In]. by intros [<-|[<-|[]]].
Defined.

Definition bare_pod : Pod := MkPod "test-1" "test" ∅ [] [] [MkContainer "foo" [] []].

Definition bare_ops : list JsonPatchOperation :=
  match @PatchPodWithDatasetLabels demo_range bare_pod demo_inputs with
  | Some (inr ops) => ops
  | _ => []
  end.

Lemma rejected_witness :
  length bare_ops = 5%nat ∧ apply_patch bare_ops (pod_doc demo_volume bare_pod) = None.
Proof.
  split; [vm_compute; reflexivity|].
  apply (@patch_of_pod_without_volumes_rejected demo_range demo_volume bare_pod demo_inputs
    bare_ops).
  - vm_compute. reflexivity.
  - vm_compute. discriminate.
  - reflexivity.
Defined.

Lemma idempotent_witness :
  uses_recognized (sorted_inputs demo_inputs) ∧
  @PatchPodWithDatasetLabels demo_range
    (@mutate_pod demo_range demo_pod (sorted_inputs demo_inputs)) demo_inputs = Some (inr []).
Proof.
  assert (uses_recognized (sorted_inputs demo_inputs)) as Hu
    by (apply (bool_decide_unpack _); vm_compute; exact I).
  split; [exact Hu|].
  exact (mutate_pod_idempotent demo_range demo_range demo_pod demo_inputs Hu).
Defined.

Lemma accumulate_witness :
  ∃ c, inject_containers 0 (λ _, ["ds"]) [MkContainer "a" [] []; MkContainer "b" [] []] [] !! 1%nat
         = Some c ∧ length (c_EnvFrom c) = 4%nat.
Proof.
  eexists. split; [reflexivity|].
  refine (env_values_accumulate (λ _, ["ds"]) 1 1
    [MkContainer "a" [] []; MkContainer "b" [] []] _ _ _ _).
  - reflexivity.
  - repeat constructor.
  - reflexivity.
Defined.
