(* ===== verification/PodHandle.v ===== *)
(** * The admission handler: theorems

    About [Handle] and [RetrieveDatasetsFromAPIServer] of [PodMutator]. *)

From Stdlib Require Import ZArith Lia Ascii.
From stdpp Require Import options.
From S2P Require Import Prelude GoStd KubeApi PodMutator PodPatch PodApply.

Open Scope Z_scope.

(** ** Safety, for every API server *)

(** The only operation issued is a read of a Dataset of the namespace. *)
Definition dataset_read (ns : string) (o : kube_op) : Prop :=
  ∃ name, o = Get KDataset (MkNamespacedName ns name).

Lemma retrieve_loop_reads ns l m tr (Q : list kube_op → string + gmap Z DatasetInput → Prop) :
  (∀ tr' r, Forall (dataset_read ns) tr' → Q (tr ++ tr') r) →
  always_from (retrieve_loop ns l m) tr Q.
Proof.
  revert m tr. induction l as [|[idx d] l IH]; intros m tr HQ.
  - cbn. rewrite <-(app_nil_r tr). by apply HQ.
  - cbn [retrieve_loop kget call mbind prog_mbind prog_bind always_from]. intros [e|ds].
    + case_match; cbn; (apply HQ; constructor; [by eexists|done]).
    + apply IH. intros tr' r Htr. rewrite <-app_assoc. apply HQ.
      constructor; [by eexists|done].
Qed.

Definition response_ok (r : Response) : Prop :=
  match r with
  | Allowed _ => True
  | Errored code _ => code = StatusBadRequest
  | Patched _ ops => ops ≠ [] ∧ Forall (λ p, jp_Operation p = "add") ops
  | Panicked => False
  end.

Lemma containers_maps_add typ i order cs values :
  Forall (λ p, jp_Operation p = "add") (containers_maps typ i order cs values).
Proof.
  revert i values. induction cs as [|c cs IH]; intros i values; [constructor|]. cbn.
  case_decide; [|by constructor]. apply Forall_app. split; [|done].
  induction (order i) as [|d ds IHd]; [constructor|]. cbn. apply Forall_app. split; [|done].
  unfold env_append_patches. case_match; by repeat constructor.
Qed.

Lemma imap_from_add {A} (f : Z → A → JsonPatchOperation) i l :
  (∀ i x, jp_Operation (f i x) = "add") →
  Forall (λ p, jp_Operation p = "add") (imap_from f i l).
Proof. intros Hf. revert i. induction l; intros i; cbn; by constructor. Qed.

Lemma containers_volumes_add typ i ds cs :
  Forall (λ p, jp_Operation p = "add") (containers_volumes_spec typ i ds cs).
Proof.
  revert i. induction cs as [|c cs IH]; intros i; cbn; [constructor|].
  apply Forall_app. split; [by apply imap_from_add|done].
Qed.

Lemma patch_spec_add `{MapRange} pod inputs :
  Forall (λ p, jp_Operation p = "add") (patch_spec pod inputs).
Proof.
  unfold patch_spec. apply Forall_app; split; case_decide; try constructor.
  - unfold volumes_spec. rewrite !Forall_app. split_and!; try apply containers_volumes_add.
    by apply imap_from_add.
  - apply Forall_app. split; apply containers_maps_add.
Qed.

(** (C36) Whatever the request and whatever the API server answers, the webhook
    does not panic, rejects with status 400 when it rejects, patches with [add]
    operations only, and issues no call but reads of Datasets in the namespace of
    the pod: it has no side effect on the cluster. *)
Theorem Handle_safe `{MapRange} (Decode : Request → string + Pod) (req : Request) :
  always (Handle Decode req) (λ tr r, response_ok r ∧
    match Decode req with
    | inr pod => Forall (dataset_read (pod_Namespace pod)) tr
    | inl _ => tr = []
    end ∧ (req_Operation req ≠ OpCreate → tr = [])).
Proof.
  unfold always, Handle. case_decide as Hop; [by cbn; case_match|].
  destruct (Decode req) as [e|pod]; [done|].
  destruct (DatasetInputFromPod pod) as [e|m]; [by cbn|].
  apply always_from_bind. unfold RetrieveDatasetsFromAPIServer. apply retrieve_loop_reads.
  intros tr' [e|m'] Htr; [by cbn|].
  rewrite PatchPodWithDatasetLabels_closed_aux. case_decide; [|by cbn].
  pose proof (patch_spec_add pod (sorted_inputs m')) as Hadd.
  destruct (patch_spec pod (sorted_inputs m')) as [|p ps]; by cbn.
Qed.

(** ** The functional behaviour on a stable cluster *)

Section Stable.
Context `{MapRange} {S : Type} (h : handler Kube S) (s : S).
Context (f : ∀ k, NamespacedName → goerr + Object k) (Hf : stable_reads h s f).

Definition resource_of (ns : string) (d : DatasetInput) : Dataset :=
  match f KDataset (MkNamespacedName ns (in_name d)) with
  | inr ds => ds
  | inl _ => in_resource d
  end.

Definition dataset_exists (ns : string) (d : DatasetInput) : Prop :=
  is_Some (match f KDataset (MkNamespacedName ns (in_name d)) with
           | inr ds => Some ds | inl _ => None end).

Definition with_resources (ns : string) (m : gmap Z DatasetInput) : gmap Z DatasetInput :=
  (λ d, SetResource d (resource_of ns d)) <$> m.

Lemma retrieve_loop_found ns l m :
  Forall (λ p, dataset_exists ns p.2) l →
  let out := run h (retrieve_loop ns l m) s in
  result out = inr (foldl (λ m p, <[p.1 := SetResource p.2 (resource_of ns p.2)]> m) m l)
  ∧ final out = s.
Proof using Hf.
  intros Hl. revert m. induction Hl as [|[i d] l Hd Hl IH]; intros m; [done|].
  cbn [retrieve_loop kget call mbind prog_mbind prog_bind run]. cbn zeta.
  rewrite (Hf KDataset _). cbn [fst snd result final].
  unfold dataset_exists in Hd. cbn [snd] in Hd. cbn [foldl fst snd].
  unfold resource_of at 2. destruct (f KDataset _) as [e|ds]; [by destruct Hd|].
  specialize (IH (<[i := SetResource d ds]> m)). exact IH.
Qed.

Lemma retrieve_loop_missing ns l m :
  ¬ Forall (λ p, dataset_exists ns p.2) l →
  ∃ e, result (run h (retrieve_loop ns l m) s) = inl e.
Proof using Hf.
  revert m. induction l as [|[i d] l IH]; intros m Hl; [exfalso; apply Hl; constructor|].
  cbn [retrieve_loop kget call mbind prog_mbind prog_bind run]. cbn zeta.
  rewrite (Hf KDataset _). cbn [fst snd result final].
  rewrite Forall_cons in Hl. unfold dataset_exists at 1 in Hl. cbn [snd] in Hl.
  destruct (f KDataset _) as [e|ds]; [by case_match; eexists|].
  apply IH. intros Hall. by apply Hl.
Qed.

Lemma foldl_insert_lookup (g : DatasetInput → DatasetInput) l (m : gmap Z DatasetInput) i :
  NoDup l.*1 →
  foldl (λ m p, <[p.1 := g p.2]> m) m l !! i =
    match (list_to_map l : gmap Z DatasetInput) !! i with
    | Some d => Some (g d)
    | None => m !! i
    end.
Proof.
  revert m. induction l as [|[j d] l IH]; intros m Hnd; [done|].
  cbn [fmap list_fmap fst] in Hnd. apply NoDup_cons in Hnd as [Hj Hnd].
  rewrite list_to_map_cons. cbn [foldl fst snd]. rewrite (IH _ Hnd).
  destruct (decide (j = i)) as [->|Hij].
  - rewrite !lookup_insert_eq. by rewrite not_elem_of_list_to_map_1.
  - by rewrite !lookup_insert_ne.
Qed.

Lemma retrieve_found pod m :
  (∀ i d, m !! i = Some d → dataset_exists (pod_Namespace pod) d) →
  let out := run h (RetrieveDatasetsFromAPIServer pod m) s in
  result out = inr (with_resources (pod_Namespace pod) m) ∧ final out = s.
Proof using Hf.
  intros Hm. unfold RetrieveDatasetsFromAPIServer. cbn zeta.
  pose proof (map_range_perm 1 m) as Hp.
  destruct (retrieve_loop_found (pod_Namespace pod) (map_range 1 m) m) as [Hr Hs].
  - rewrite Hp. apply Forall_forall. intros [i d] Hin. apply elem_of_map_to_list in Hin.
    by eapply Hm.
  - split; [|exact Hs]. rewrite Hr. f_equal. apply map_eq. intros i.
    rewrite (foldl_insert_lookup (λ d, SetResource d (resource_of (pod_Namespace pod) d)))
      by (rewrite Hp; apply NoDup_fst_map_to_list).
    rewrite (list_to_map_proper (map_range 1 m) (map_to_list m)) by (done || rewrite Hp; apply NoDup_fst_map_to_list).
    rewrite list_to_map_to_list. unfold with_resources. rewrite lookup_fmap.
    by destruct (m !! i).
Qed.

Lemma retrieve_missing pod m :
  ¬ (∀ i d, m !! i = Some d → dataset_exists (pod_Namespace pod) d) →
  ∃ e, result (run h (RetrieveDatasetsFromAPIServer pod m) s) = inl e.
Proof using Hf.
  intros Hm. unfold RetrieveDatasetsFromAPIServer. apply retrieve_loop_missing.
  rewrite (map_range_perm 1 m), Forall_forall. intros Hall. apply Hm. intros i d Hid.
  apply (Hall (i, d)). by apply elem_of_map_to_list.
Qed.

(** The answer the webhook owes to the creation of [pod] when [m] are the
    datasets its labels name, with the resources found in the cluster. *)
Definition answer (pod : Pod) (m : gmap Z DatasetInput) : Response :=
  if decide (uses_recognized (sorted_inputs m)) then
    match patch_spec pod (sorted_inputs m) with
    | [] => Allowed ("Pod " +:+ pod_Namespace pod +:+ "/" +:+ pod_Name pod
                     +:+ " does not need to be mutated - skipping" +:+ String "010" "")
    | ops => Patched "added volumes to Pod in response to dataset" ops
    end
  else Errored StatusBadRequest "useas for this dataset is not recognized".

Lemma Handle_on_stable_cluster_aux (Decode : Request → string + Pod) req pod m :
  req_Operation req = OpCreate → Decode req = inr pod →
  DatasetInputFromPod pod = inr m →
  let r := result (run h (Handle Decode req) s) in
  ((∀ i d, m !! i = Some d → dataset_exists (pod_Namespace pod) d) →
     r = answer pod (with_resources (pod_Namespace pod) m)) ∧
  (¬ (∀ i d, m !! i = Some d → dataset_exists (pod_Namespace pod) d) →
     ∃ e, r = Errored StatusBadRequest e).
Proof using Hf.
  intros Hop Hdec Hm. unfold Handle. rewrite decide_False by (rewrite Hop; auto).
  rewrite Hdec, Hm, run_bind. cbn zeta. split; intros Hall; cbn [result].
  - destruct (retrieve_found pod m Hall) as [-> ->].
    rewrite PatchPodWithDatasetLabels_closed_aux. unfold answer. case_decide; [|done].
    by destruct (patch_spec pod _).
  - destruct (retrieve_missing pod m Hall) as [e ->]. by eexists.
Qed.
End Stable.

(** (C24) On a cluster whose Datasets do not change while the request is served,
    the webhook answers the creation of a pod whose labels parse as it should: if
    every dataset named in the labels exists in the namespace of the pod, the
    answer is the patch specified by [patch_spec] computed with the resources found
    in the cluster (or [Allowed] when that patch is empty, and an error with status
    400 for an unknown use); if one is missing or cannot be read, the pod is
    rejected with status 400. *)
Theorem Handle_on_stable_cluster `{MapRange} {S : Type} (h : handler Kube S) (s : S)
    (f : ∀ k, NamespacedName → goerr + Object k) (Hf : stable_reads h s f)
    (Decode : Request → string + Pod) (req : Request) (pod : Pod) (m : gmap Z DatasetInput)
    (Hop : req_Operation req = OpCreate) (Hdec : Decode req = inr pod)
    (Hm : DatasetInputFromPod pod = inr m) :
  let r := result (run h (Handle Decode req) s) in
  ((∀ i d, m !! i = Some d → dataset_exists f (pod_Namespace pod) d) →
     r = answer pod (with_resources f (pod_Namespace pod) m)) ∧
  (¬ (∀ i d, m !! i = Some d → dataset_exists f (pod_Namespace pod) d) →
     ∃ e, r = Errored StatusBadRequest e).
Proof. by apply Handle_on_stable_cluster_aux. Qed.


(** ** Witness *)

Definition demo_cluster (k : Kind) (n : NamespacedName) : goerr + Object k :=
  match k return goerr + Object k with
  | KDataset =>
      if decide (n = MkNamespacedName "test" "ds0") then inr empty_dataset else inl NotFound
  | _ => inl NotFound
  end.

Definition reading_handler : handler Kube unit := λ o s,
  match o return kube_reply o * unit with
  | Get k n => (demo_cluster k n, s)
  | Create _ _ | Update _ _ | StatusUpdate _ _ | Delete _ _ => (None, s)
  | ListPods _ => (inr [], s)
  | ListEvents _ _ | ListNodes _ | ListCephClusters _ => (inr [], s)
  | Getenv _ => ("", s)
  | NewUUID => ("", s)
  | SetControllerReference k _ o => (inr o, s)
  end.

Definition labelled_pod (name : string) : Pod :=
  MkPod "test-1" "test"
    (<["dataset.0.id" := name]> (<["dataset.0.useas" := "mount"]> ∅))
    [MkVolume "token" None] [] [MkContainer "foo" [] []].

Definition named_inputs (name : string) : gmap Z DatasetInput :=
  {[ 0 := MkDatasetInput name 0 ["mount"] empty_dataset ]}.

Lemma stable_cluster_witness :
  let req := MkRequest OpCreate "pod" in
  let r name := result (run reading_handler
    (@Handle demo_range (λ _, inr (labelled_pod name)) req) tt) in
  (r "ds0" = @answer demo_range (labelled_pod "ds0")
     (with_resources demo_cluster "test" (named_inputs "ds0")) ∧
   ∃ ops, r "ds0" = Patched "added volumes to Pod in response to dataset" ops) ∧
  (∃ e, r "absent" = Errored StatusBadRequest e).
Proof.
  split.
  - split; [|eexists; vm_compute; reflexivity].
    refine (proj1 (@Handle_on_stable_cluster demo_range unit reading_handler tt
      demo_cluster _ _ _ (labelled_pod "ds0") (named_inputs "ds0") _ _ _) _);
      [by intros k n|done|done|vm_compute; reflexivity|].
    unfold named_inputs. intros i d Hid. apply lookup_singleton_Some in Hid as [<- <-].
    unfold dataset_exists. apply (bool_decide_unpack _). vm_compute. exact I.
  - refine (proj2 (@Handle_on_stable_cluster demo_range unit reading_handler tt
      demo_cluster _ _ _ (labelled_pod "absent") (named_inputs "absent") _ _ _) _);
      [by intros k n|done|done|vm_compute; reflexivity|].
    intros Hall. specialize (Hall 0 _ (lookup_singleton_eq _ _)).
    revert Hall. apply (bool_decide_unpack _). vm_compute. exact I.
Defined.
