(* ===== verification/PodTests.v ===== *)
(** * The test suite of the webhook

    Model of [dataset-operator/testing/wrapper.go], the builders of the objects of tests,
    and of the tables of [admissioncontroller/mutatingwebhook_test.go]: the model of the
    webhook passes the tests of the repository, whatever the iteration order of maps.
    A wrapper is the object it wraps; the methods change it in place and return it, here
    they return the changed object.  The kind and version of an object are left out. *)

From Stdlib Require Import ZArith Lia Ascii.
From stdpp Require Import options.
From S2P Require Import Prelude GoStd KubeApi PodMutator PodLabels PodPatch PodHandle.

Open Scope Z_scope.

(** ** Builders of objects *)

Definition MakePVC (name namespace : string) : PersistentVolumeClaim :=
  MkPVC (new_meta name namespace None) [] "" "" None None ClaimPhaseEmpty.

Definition MakeSecret (name namespace : string) : Secret :=
  MkSecret (new_meta name namespace None) None None.

Definition MakeDataset (name namespace : string) : Dataset :=
  MkDataset (new_meta name namespace None) empty_spec empty_status.

(** The specification that [ToS3Dataset] and [ToS3DatasetInternal] set. *)
Definition s3_spec (bucket endpoint secret : string) (readonly : bool) : DatasetSpec :=
  MkDatasetSpec
    (Some (list_to_map [("type", "COS"); ("bucket", bucket); ("endpoint", endpoint);
                        ("secret-name", secret); ("readonly", FormatBool readonly)]))
    None "" "" "" "".

Definition ToS3Dataset (d : Dataset) (bucket endpoint secret : string) (readonly : bool) : Dataset :=
  MkDataset (ds_Meta d) (s3_spec bucket endpoint secret readonly) (ds_Status d).

Definition MakeDatasetInternal (name namespace : string) : DatasetInternal :=
  MkDatasetInternal (new_meta name namespace None) empty_spec empty_placement.

Definition InternalFromDataset (d : Dataset) : DatasetInternal :=
  MkDatasetInternal (new_meta (om_Name (ds_Meta d)) (om_Namespace (ds_Meta d)) None)
    (ds_Spec d) empty_placement.

Definition ToS3DatasetInternal (di : DatasetInternal) (bucket endpoint secret : string)
    (readonly : bool) : DatasetInternal :=
  MkDatasetInternal (di_Meta di) (s3_spec bucket endpoint secret readonly) (di_Placements di).

(** ** Builders of pods *)

Definition MakeContainer (name : string) : Container := MkContainer name [] [].

Definition AddVolumeMount (c : Container) (mountPath name : string) : Container :=
  MkContainer (c_Name c) (c_VolumeMounts c ++ [MkVolumeMount name mountPath]) (c_EnvFrom c).

Definition AddEnvFromConfigToContainer (c : Container) (source : string) : Container :=
  MkContainer (c_Name c) (c_VolumeMounts c)
    (c_EnvFrom c ++ [MkEnvFromSource (source +:+ "_") (Some source) None]).

Definition AddEnvFromSecretToContainer (c : Container) (source : string) : Container :=
  MkContainer (c_Name c) (c_VolumeMounts c)
    (c_EnvFrom c ++ [MkEnvFromSource (source +:+ "_") None (Some source)]).

Definition MakePod (name ns : string) : Pod := MkPod name ns ∅ [] [] [].

Definition PodLabels (p : Pod) (labels : gmap string string) : Pod :=
  MkPod (pod_Name p) (pod_Namespace p) labels (pod_Volumes p) (pod_InitContainers p)
    (pod_Containers p).

(** A label that is there is kept. *)
Definition AddLabelToPodMetadata (p : Pod) (key value : string) : Pod :=
  match pod_Labels p !! key with
  | Some _ => p
  | None => PodLabels p (<[key := value]> (pod_Labels p))
  end.

Definition AddContainerToPod (p : Pod) (container : Container) : Pod :=
  MkPod (pod_Name p) (pod_Namespace p) (pod_Labels p) (pod_Volumes p) (pod_InitContainers p)
    (pod_Containers p ++ [container]).

Definition AddVolumeToPod (p : Pod) (volume : string) : Pod :=
  MkPod (pod_Name p) (pod_Namespace p) (pod_Labels p)
    (pod_Volumes p ++ [MkVolume volume (Some (volume, false))]) (pod_InitContainers p)
    (pod_Containers p).

(** ** Builders of patches *)

(** An operation whose value may be nil. *)
Record JSONPatchOperationWrapper := MkWrapper {
  jw_Operation : string;
  jw_Path : string;
  jw_Value : option json }.

Definition MakeJSONPatchOperation : JSONPatchOperationWrapper := MkWrapper "" "" None.

Definition SetOperation (j : JSONPatchOperationWrapper) (operation : string) :=
  MkWrapper operation (jw_Path j) (jw_Value j).

Definition set_path (j : JSONPatchOperationWrapper) (path : string) :=
  MkWrapper (jw_Operation j) path (jw_Value j).

Definition set_value (j : JSONPatchOperationWrapper) (value : json) :=
  MkWrapper (jw_Operation j) (jw_Path j) (Some value).

Definition SetVolumeasPath (j : JSONPatchOperationWrapper) (id : Z) :=
  set_path j ("/spec/volumes/" +:+ Itoa id).

Definition SetVolumeMountasPath (j : JSONPatchOperationWrapper) (cont_typ : string)
    (cont_idx mount_idx : Z) :=
  set_path j ("/spec/" +:+ cont_typ +:+ "/" +:+ Itoa cont_idx +:+ "/volumeMounts/" +:+ Itoa mount_idx).

Definition SetPVCasValue (j : JSONPatchOperationWrapper) (pvc : string) :=
  set_value j (JObject [("name", JString pvc);
                        ("persistentVolumeClaim", JObject [("claimName", JString pvc)])]).

Definition SetVolumeMountasValue (j : JSONPatchOperationWrapper) (dataset : string) :=
  set_value j (JObject [("name", JString dataset);
                        ("mountPath", JString ("/mnt/datasets/" +:+ dataset))]).

Definition SetNewConfigMapRefasPath (j : JSONPatchOperationWrapper) (cont_typ : string) (cont_idx : Z) :=
  set_path j ("/spec/" +:+ cont_typ +:+ "/" +:+ Itoa cont_idx +:+ "/envFrom").

Definition AddToConfigMapRefasPath (j : JSONPatchOperationWrapper) (cont_typ : string) (cont_idx : Z) :=
  set_path j ("/spec/" +:+ cont_typ +:+ "/" +:+ Itoa cont_idx +:+ "/envFrom-").

(** The [switch] on the value: nil, an array, or anything else, which is kept. *)
Definition append_refs (j : JSONPatchOperationWrapper) (ref : list json) :=
  match jw_Value j with
  | None => set_value j (JArray ref)
  | Some (JArray x) => set_value j (JArray (x ++ ref))
  | Some _ => j
  end.

Definition AddConfigMapRefsToValue (j : JSONPatchOperationWrapper) (configmap_names : list string) :=
  append_refs j ((λ c, JObject [("prefix", JString (c +:+ "_"));
                                ("configMapRef", JObject [("name", JString c)])]) <$> configmap_names).

Definition AddSecretRefsToValue (j : JSONPatchOperationWrapper) (secret_names : list string) :=
  append_refs j ((λ s, JObject [("prefix", JString (s +:+ "_"));
                                ("secretRef", JObject [("name", JString s)])]) <$> secret_names).

(** ** Builders of requests and responses *)

Record AdmissionRequest := MkAdmissionRequest {
  ar_Name : string;
  ar_Namespace : string;
  (** the empty operation is [None] *)
  ar_Operation : option Operation;
  ar_Object : string }.

Definition MakeAdmissionRequest : AdmissionRequest := MkAdmissionRequest "" "" None "".
Definition request_SetName (r : AdmissionRequest) (name : string) : AdmissionRequest :=
  MkAdmissionRequest name (ar_Namespace r) (ar_Operation r) (ar_Object r).
Definition SetNamespace (r : AdmissionRequest) (namespace : string) : AdmissionRequest :=
  MkAdmissionRequest (ar_Name r) namespace (ar_Operation r) (ar_Object r).
Definition request_SetOperation (r : AdmissionRequest) (op : Operation) : AdmissionRequest :=
  MkAdmissionRequest (ar_Name r) (ar_Namespace r) (Some op) (ar_Object r).
Definition SetObject (r : AdmissionRequest) (obj : string) : AdmissionRequest :=
  MkAdmissionRequest (ar_Name r) (ar_Namespace r) (ar_Operation r) obj.

(** What the handler reads of a request whose operation is set. *)
Definition handled (r : AdmissionRequest) : option Request :=
  op ← ar_Operation r; Some (MkRequest op (ar_Object r)).

(** The response of the API ([A]) with the patches; nil and empty patches differ. *)
Record AdmissionResponse (A : Type) := MkAdmissionResponse {
  as_AdmissionResponse : A;
  as_Patches : option (list JsonPatchOperation) }.
Arguments MkAdmissionResponse {A} _ _.
Arguments as_AdmissionResponse {A} _.
Arguments as_Patches {A} _.

Definition MakeAdmissionResponse {A} (zero : A) : AdmissionResponse A := MkAdmissionResponse zero None.
Definition AddPatches {A} (rs : AdmissionResponse A) (patch : JsonPatchOperation) : AdmissionResponse A :=
  MkAdmissionResponse (as_AdmissionResponse rs) (Some (default [] (as_Patches rs) ++ [patch])).
Definition SetAdmissionResponse {A} (rs : AdmissionResponse A) (resp : A) : AdmissionResponse A :=
  MkAdmissionResponse resp (as_Patches rs).

(** ** The tests *)

(** A test of the table: the pod and the operations that are expected. *)
Record testPodLabels := MkTest {
  makeInputPodSpec : Pod;
  makeOutputPatchOperations : list JSONPatchOperationWrapper }.

Definition wrap (p : JsonPatchOperation) : JSONPatchOperationWrapper :=
  MkWrapper (jp_Operation p) (jp_Path p) (Some (jp_Value p)).

(** The body of the table. *)
Definition passes (R : MapRange) (tc : testPodLabels) : Prop :=
  let pod := makeInputPodSpec tc in
  ∃ datasets ops, DatasetInputFromPod pod = inr datasets ∧
    PatchPodWithDatasetLabels pod datasets = Some (inr ops) ∧
    wrap <$> ops = makeOutputPatchOperations tc.

(** A pod with labels, volumes and one container. *)
Definition test_pod (labels : list (string * string)) (volumes : list string) (c : Container) : Pod :=
  let pod := foldl (λ p kv, AddLabelToPodMetadata p kv.1 kv.2) (MakePod "test-1" "test") labels in
  AddContainerToPod (foldl AddVolumeToPod pod volumes) c.

Definition foo : Container := MakeContainer "foo".
Definition op_add : JSONPatchOperationWrapper := SetOperation MakeJSONPatchOperation "add".
Definition add_volume (id : Z) (pvc : string) := SetPVCasValue (SetVolumeasPath op_add id) pvc.
Definition add_mount (idx : Z) (dataset : string) :=
  SetVolumeMountasValue (SetVolumeMountasPath op_add "containers" 0 idx) dataset.
Definition add_refs (name : string) :=
  AddSecretRefsToValue (AddConfigMapRefsToValue (SetNewConfigMapRefasPath op_add "containers" 0) [name]) [name].

(** The entries of the table "Pod is mutated correctly", in their order. *)
Definition pod_tests : list testPodLabels := [
  MkTest (test_pod [("dataset.0.id", "testds"); ("dataset.0.useas", "mount")] [] foo)
    [add_volume 0 "testds"; add_mount 0 "testds"];
  MkTest (test_pod [("dataset.0.id", "testds0"); ("dataset.0.useas", "configmap")] [] foo)
    [add_refs "testds0"];
  MkTest (test_pod [("dataset.0.id", "testds0"); ("dataset.0.useas", "mount");
                    ("dataset.1.id", "testds1"); ("dataset.1.useas", "mount")] [] foo)
    [add_volume 0 "testds0"; add_volume 1 "testds1"; add_mount 0 "testds0"; add_mount 1 "testds1"];
  MkTest (test_pod [("dataset.0.id", "testds0"); ("dataset.0.useas", "mount");
                    ("dataset.1.id", "testds1"); ("dataset.1.useas", "configmap")] [] foo)
    [add_volume 0 "testds0"; add_mount 0 "testds0"; add_refs "testds1"];
  MkTest (test_pod [("dataset.0.id", "testds0"); ("dataset.0.useas", "mount")] ["testds"]
            (AddVolumeMount foo "/mnt/datasets/testds" "testv"))
    [add_volume 1 "testds0"; add_mount 1 "testds0"];
  MkTest (test_pod [("dataset.0.id", "testds"); ("dataset.0.useas", "mount")] ["testds"]
            (AddVolumeMount foo "/mnt/datasets/testds" "testds"))
    [];
  MkTest (test_pod [("dataset.0.id", "testds"); ("dataset.0.useas", "mount")] []
            (AddVolumeMount foo "/mount/testds" "testds"))
    [add_volume 0 "testds"];
  MkTest (test_pod [("dataset.0.id", "testds0"); ("dataset.0.useas", "configmap")] ["testds"]
            (AddVolumeMount foo "/mnt/datasets/testds" "testv"))
    [add_refs "testds0"];
  MkTest (test_pod [("dataset.0.id", "testds"); ("dataset.0.useas", "mount.configmap")] [] foo)
    [add_volume 0 "testds"; add_mount 0 "testds"; add_refs "testds"];
  MkTest (test_pod [("dataset.0.id", "testds"); ("dataset.0.useas", "configmap")] []
            (AddEnvFromConfigToContainer foo "testds"))
    [];
  MkTest (test_pod [("dataset.0.id", "testds"); ("dataset.0.useas", "configmap")] []
            (AddEnvFromSecretToContainer foo "testds"))
    [];
  MkTest (test_pod [("dataset.0.id", "testds"); ("dataset.0.useas", "mount")] ["testds"]
            (AddVolumeMount foo "/mnt/volumes/" "testds"))
    []].

(** ** The order of maps does not matter to the tests *)

Lemma short_permutation {A} (l l' : list A) : l ≡ₚ l' → (length l ≤ 1)%nat → l = l'.
Proof.
  intros Hp Hl. destruct l as [|x [|y l]]; cbn in Hl; [| |lia].
  - by apply Permutation_nil_l in Hp as ->.
  - by apply Permutation_singleton_l in Hp as ->.
Qed.

Lemma config_order_short (R1 R2 : MapRange) m init i :
  (size m ≤ 1)%nat → @config_order R1 m init i = @config_order R2 m init i.
Proof.
  intros Hm. unfold config_order. f_equal. apply short_permutation.
  - etransitivity; [apply (@map_range_perm R1)|symmetry; apply (@map_range_perm R2)].
  - erewrite Permutation_length by apply (@map_range_perm R1). by rewrite length_map_to_list.
Qed.

Lemma containers_maps_ext typ order order' cs :
  (∀ i, order i = order' i) →
  ∀ i values, containers_maps typ i order cs values = containers_maps typ i order' cs values.
Proof.
  intros Ho. induction cs as [|c cs IH]; intros i values; [done|]. cbn [containers_maps].
  by rewrite Ho, !IH.
Qed.

Lemma patch_spec_short (R1 R2 : MapRange) pod inputs :
  (size (numbered (configs_of inputs)) ≤ 1)%nat →
  @patch_spec R1 pod inputs = @patch_spec R2 pod inputs.
Proof.
  intros Hs. unfold patch_spec, patchContainersWithDatasetMaps. f_equal. case_decide; [done|].
  f_equal; apply containers_maps_ext; intros i; by apply config_order_short.
Qed.

(** A test that passes when maps are listed in their canonical order. *)
Definition checks (tc : testPodLabels) : Prop :=
  let pod := makeInputPodSpec tc in
  bool_decide (unambiguous (map_to_list (pod_Labels pod)).*1) = true ∧
  ∃ m, ok (@DatasetInputFromPod listing_range pod) = Some m ∧
    let inputs := sorted_inputs m in
    bool_decide (uses_recognized inputs ∧ (size (numbered (configs_of inputs)) ≤ 1)%nat) = true ∧
    wrap <$> @patch_spec listing_range pod inputs = makeOutputPatchOperations tc.

Lemma checks_passes (R : MapRange) tc : checks tc → passes R tc.
Proof.
  intros (Hu & m & Hm & Hr & Hp). apply bool_decide_eq_true in Hu, Hr as [Hr Hs].
  rewrite (order_independent_aux listing_range R _ Hu) in Hm.
  destruct (@DatasetInputFromPod R _) as [e|datasets] eqn:Hd; [done|]. injection Hm as ->.
  exists m. eexists. split; [exact Hd|]. split.
  - rewrite PatchPodWithDatasetLabels_closed_aux, decide_True by done. reflexivity.
  - by rewrite (patch_spec_short R listing_range) by done.
Qed.

Lemma all_check : Forall checks pod_tests.
Proof.
  repeat constructor; (eexists; split; [vm_compute; reflexivity|split; vm_compute; reflexivity]).
Qed.

Definition delete_test : option Request :=
  handled (request_SetOperation (SetNamespace (request_SetName MakeAdmissionRequest "test") "test") OpDelete).

(** (C32) The webhook passes its tests: for every iteration order of maps, each of the twelve
    entries of the table of pods gets exactly the patch operations that the entry lists, and
    a request to delete is let through with the message that the test expects, without a
    call of the API server, whatever the decoder. *)
Theorem webhook_passes_tests (R : MapRange) (Decode : Request → string + Pod) :
  Forall (passes R) pod_tests ∧
  ∃ r, delete_test = Some r ∧
    ∀ (S : Type) (h : handler Kube S) (s : S), run h (Handle Decode r) s
      = Outcome [] (Allowed "No Pod mutation required for operation DELETE.") s.
Proof.
  split; [eapply Forall_impl; [exact all_check|apply checks_passes]|]. by eexists.
Qed.
