(* ===== verification/DeepCopy.v ===== *)
(** * Deep copies of the custom resources

    Model of [api/v1alpha1/zz_generated.deepcopy.go].  A Go struct holds references to
    maps and slices, which live in a heap; [read] gives the value a struct stands for,
    which is a record of [KubeApi.v].  The deep copies of [ObjectMeta] and [ListMeta]
    belong to apimachinery: they are parameters, with the contract of [Copier]. *)

From Stdlib Require Import ZArith Lia.
From stdpp Require Import options.
From S2P Require Import Prelude GoStd KubeApi PodMutator PodLabels.

Open Scope Z_scope.

Definition loc : Type := positive.

Section Go.
(** The structs of apimachinery, and what they keep on the heap. *)
Context {Meta ListMeta Lib : Type}.

(** ** The Go structs *)

Record TypeMeta := MkTypeMeta { tm_Kind : string; tm_APIVersion : string }.

Record GoDatasetSpec := MkGoDatasetSpec {
  gs_Local : option loc;
  gs_Remote : option loc;
  gs_Type : string;
  gs_Url : string;
  gs_Format : string;
  gs_Extract : string }.

Record GoCachingPlacement := MkGoCachingPlacement {
  gp_Gateways : option loc;
  gp_DataLocations : option loc }.

Record GoDatasetInternalStatusCaching := MkGoStatusCaching {
  gsc_Placements : GoCachingPlacement }.

Record GoDatasetInternalStatus := MkGoInternalStatus {
  gis_Caching : GoDatasetInternalStatusCaching }.

Record GoDataset := MkGoDataset {
  gd_TypeMeta : TypeMeta;
  gd_ObjectMeta : Meta;
  gd_Spec : GoDatasetSpec;
  gd_Status : DatasetStatus }.

Record GoDatasetInternal := MkGoDatasetInternal {
  gi_TypeMeta : TypeMeta;
  gi_ObjectMeta : Meta;
  gi_Spec : GoDatasetSpec;
  gi_Status : GoDatasetInternalStatus }.

Record GoDatasetList := MkGoDatasetList {
  gdl_TypeMeta : TypeMeta;
  gdl_ListMeta : ListMeta;
  gdl_Items : option loc }.

Record GoDatasetInternalList := MkGoDatasetInternalList {
  gil_TypeMeta : TypeMeta;
  gil_ListMeta : ListMeta;
  gil_Items : option loc }.

(** What a reference or a pointer points to: a map, the array of a slice, a struct. *)
Inductive cell :=
  | MapCell (m : gmap string string)
  | InfosCell (l : list CachingPlacementInfo)
  | DatasetsCell (l : list GoDataset)
  | InternalsCell (l : list GoDatasetInternal)
  | InfoBox (x : CachingPlacementInfo)
  | PlacementBox (x : GoCachingPlacement)
  | StatusCachingBox (x : GoDatasetInternalStatusCaching)
  | InternalStatusBox (x : GoDatasetInternalStatus)
  | SpecBox (x : GoDatasetSpec)
  | ConditionBox (x : DatasetStatusCondition)
  | StatusBox (x : DatasetStatus)
  | DatasetBox (x : GoDataset)
  | InternalBox (x : GoDatasetInternal)
  | DatasetListBox (x : GoDatasetList)
  | InternalListBox (x : GoDatasetInternalList)
  | LibCell (x : Lib).

Abbreviation heap := (gmap loc cell).

(** ** Code that allocates

    [None] is a panic: a pointer to nothing, or to something of another type. *)

Definition heapM (A : Type) : Type := heap → option (A * heap).

Definition hret {A} (a : A) : heapM A := λ h, Some (a, h).
Definition hbind {A B} (p : heapM A) (f : A → heapM B) : heapM B :=
  λ h, '(a, h) ← p h; f a h.
Notation "x ⟵ p ; q" := (hbind p (λ x, q))
  (at level 20, p at level 100, q at level 200, only parsing).

Definition fresh_loc (h : heap) : loc := fresh (dom h : gset loc).

Definition new (c : cell) : heapM loc :=
  λ h, let l := fresh_loc h in Some (l, <[l := c]> h).
Definition load (l : loc) : heapM cell := λ h, c ← h !! l; Some (c, h).
Definition from_cell {A} (o : option A) : heapM A := λ h, a ← o; Some (a, h).

(** ** Copies *)

(** [read h a]: the value the Go value [a] stands for in the heap [h].  [copy a]
    returns a Go value of its own cells only: it can be read in the heap without the
    cells that were there before. *)
Class Copier (A V : Type) := {
  read : heap → A → option V;
  copy : A → heapM A;
  read_mono h h' a v : h ⊆ h' → read h a = Some v → read h' a = Some v;
  copy_spec h a v :
    read h a = Some v →
    ∃ a' h', copy a h = Some (a', h') ∧ h ⊆ h' ∧ read (h' ∖ h) a' = Some v }.

(** Values without references. *)
Definition plain_copier (A : Type) : Copier A A.
Proof.
  refine {| read _ a := Some a; copy a := hret a |}; [done|].
  intros h a v [= ->]. exists v, h. by split_and!.
Defined.

(** What a copy may do to the heap, and where its result lives. *)
Definition copied {A V} `{!Copier A V} (h : heap) (p : option (A * heap)) (v : V) : Prop :=
  ∃ a' h', p = Some (a', h') ∧ h ⊆ h' ∧ read (h' ∖ h) a' = Some v.

Lemma difference_mono (h h1 h2 h3 : heap) : h ⊆ h1 → h1 ⊆ h2 → h2 ⊆ h3 → h2 ∖ h1 ⊆ h3 ∖ h.
Proof.
  intros H1 H2 H3. apply map_subseteq_spec. intros l c.
  rewrite !lookup_difference_Some. intros [Hl Hn]. split; [by eapply lookup_weaken|].
  by eapply lookup_weaken_None.
Qed.

(** A value copied on the way can be read at the end. *)
Lemma read_later {A V} `{!Copier A V} (h h1 h2 h3 : heap) a v :
  h ⊆ h1 → h1 ⊆ h2 → h2 ⊆ h3 → read (h2 ∖ h1) a = Some v → read (h3 ∖ h) a = Some v.
Proof. intros H1 H2 H3. apply read_mono. by apply difference_mono. Qed.

Lemma new_fresh (c : cell) (h : heap) :
  let l := fresh_loc h in h ⊆ <[l := c]> h ∧ (<[l := c]> h ∖ h) !! l = Some c.
Proof.
  assert (h !! fresh_loc h = None) as Hf.
  { apply (not_elem_of_dom (D := gset loc)). unfold fresh_loc. apply is_fresh. }
  cbn zeta.
  split; [by apply insert_subseteq|]. apply lookup_difference_Some.
  by rewrite lookup_insert_eq.
Qed.

(** ** References and slices *)

(** Copy the map or the array a reference points to. *)
Definition copy_ref {A} (of_cell : cell → option A) (to_cell : A → cell)
    (copy_contents : A → heapM A) (r : option loc) : heapM (option loc) :=
  match r with
  | None => hret None
  | Some l =>
      c ⟵ load l ;
      x ⟵ from_cell (of_cell c) ;
      y ⟵ copy_contents x ;
      l' ⟵ new (to_cell y) ;
      hret (Some l')
  end.

Definition read_ref {A V} (of_cell : cell → option A) (read_contents : heap → A → option V)
    (h : heap) (r : option loc) : option (option V) :=
  match r with
  | None => Some None
  | Some l => c ← h !! l; x ← of_cell c; Some <$> read_contents h x
  end.

Lemma read_ref_mono {A V} of_cell (rc : heap → A → option V) h h' r v :
  (∀ x w, rc h x = Some w → rc h' x = Some w) →
  h ⊆ h' → read_ref of_cell rc h r = Some v → read_ref of_cell rc h' r = Some v.
Proof using Type.
  intros Hrc Hsub. destruct r as [l|]; [|done]. cbn.
  destruct (h !! l) as [c|] eqn:Hl; [|done]. rewrite (lookup_weaken _ _ _ _ Hl Hsub). cbn.
  destruct (of_cell c) as [x|]; [|done]. cbn.
  destruct (rc h x) as [w|] eqn:Hx; [|done]. by rewrite (Hrc x w Hx).
Qed.

(** References to values that are copied by a copier. *)
Definition ref_copier {A V} (of_cell : cell → option A) (to_cell : A → cell)
    (Hcell : ∀ x, of_cell (to_cell x) = Some x) `{!Copier A V} :
  Copier (option loc) (option V).
Proof using Type.
  refine {| read := read_ref of_cell read; copy := copy_ref of_cell to_cell copy |}.
  - intros h h' r v Hsub. apply read_ref_mono; [|done]. intros x w. by apply read_mono.
  - intros h [l|] v; cbn; [|intros [= <-]; by exists None, h].
    destruct (h !! l) as [c|] eqn:Hl; [|done]. cbn.
    destruct (of_cell c) as [x|] eqn:Hc; [|done]. cbn.
    destruct (read h x) as [w|] eqn:Hx; [|done]. intros [= <-].
    destruct (copy_spec h x w Hx) as (y & h1 & Hcopy & Hsub & Hy).
    destruct (new_fresh (to_cell y) h1) as [Hsub' Hnew].
    exists (Some (fresh_loc h1)), (<[fresh_loc h1 := to_cell y]> h1). split_and!.
    + unfold hbind, load, from_cell. rewrite Hl. cbn. rewrite Hc. cbn. by rewrite Hcopy.
    + by transitivity h1.
    + cbn. assert (<[fresh_loc h1 := to_cell y]> h1 ∖ h1 ⊆ <[fresh_loc h1 := to_cell y]> h1 ∖ h)
        as Hd by (by apply difference_mono).
      rewrite (lookup_weaken _ _ _ _ Hnew Hd). cbn. rewrite Hcell. cbn.
      by rewrite (read_later h h h1 _ y w).
Defined.

(** [for i := range *in { ( *in)[i].DeepCopyInto(&( *out)[i]) }]. *)
Fixpoint copy_items {A} (copy_item : A → heapM A) (l : list A) : heapM (list A) :=
  match l with
  | [] => hret []
  | a :: l =>
      b ⟵ copy_item a ;
      bs ⟵ copy_items copy_item l ;
      hret (b :: bs)
  end.

Definition items_copier {A V} `{!Copier A V} : Copier (list A) (list V).
Proof using Type.
  refine {| read h l := mapM (read h) l; copy := copy_items copy |}.
  - intros h h' l vs Hsub. rewrite !mapM_Some. intros Hl.
    eapply Forall2_impl; [exact Hl|]. intros a v. by apply read_mono.
  - intros h l. revert h. induction l as [|a l IH]; intros h vs Hl.
    { injection Hl as <-. by exists [], h. }
    apply mapM_Some in Hl. inversion Hl as [|? v ? vs' Ha Hl']; subst.
    destruct (copy_spec h a v Ha) as (b & h1 & Hcopy & Hsub & Hb).
    assert (mapM (read h1) l = Some vs') as Hl1.
    { apply mapM_Some. eapply Forall2_impl; [exact Hl'|]. intros x w. by apply read_mono. }
    destruct (IH h1 vs' Hl1) as (bs & h2 & Hcopy2 & Hsub2 & Hbs).
    exists (b :: bs), h2. split_and!; [|by transitivity h1|].
    { cbn [copy_items]. unfold hbind. rewrite Hcopy. cbn. by rewrite Hcopy2. }
    apply mapM_Some. constructor.
    + by eapply (read_later h h h1 h2).
    + apply mapM_Some in Hbs. eapply Forall2_impl; [exact Hbs|]. intros x w.
      by apply (read_later h h1 h2 h2).
Defined.
(** ** Structs *)

Definition copy_both {A B} (copy_a : A → heapM A) (copy_b : B → heapM B) (ab : A * B) :
    heapM (A * B) :=
  a' ⟵ copy_a ab.1 ;
  b' ⟵ copy_b ab.2 ;
  hret (a', b').

Definition pair_copier {A B V W} `{!Copier A V, !Copier B W} : Copier (A * B) (V * W).
Proof using Type.
  refine {| read h ab := v ← read h ab.1; w ← read h ab.2; Some (v, w);
            copy := copy_both copy copy |}.
  - intros h h' [a b] [v w] Hsub. cbn.
    destruct (read h a) as [v'|] eqn:Ha; [|done]. destruct (read h b) as [w'|] eqn:Hb; [|done].
    intros [= <- <-]. by rewrite (read_mono h h' a v'), (read_mono h h' b w').
  - intros h [a b] [v w]. cbn.
    destruct (read h a) as [v'|] eqn:Ha; [|done]. destruct (read h b) as [w'|] eqn:Hb; [|done].
    intros [= -> ->].
    destruct (copy_spec h a v Ha) as (a' & h1 & Hcopy & Hsub & Ha').
    destruct (copy_spec h1 b w (read_mono h h1 b w Hsub Hb)) as (b' & h2 & Hcopy2 & Hsub2 & Hb').
    exists (a', b'), h2. split_and!; [|by transitivity h1|].
    + unfold copy_both, hbind. cbn. rewrite Hcopy. cbn. by rewrite Hcopy2.
    + cbn. rewrite (read_later h h h1 h2 a' v) by done. cbn.
      by rewrite (read_later h h1 h2 h2 b' w).
Defined.

(** A struct is copied field by field: [fields] are its fields, in the order in which
    [copy_struct] copies them. *)
Definition struct_copier {A B V W} `{!Copier B W} (fields : A → B) (build : B → A)
    (value : W → V) (copy_struct : A → heapM A)
    (Hbuild : ∀ b, fields (build b) = b)
    (Hcopy : ∀ a h, copy_struct a h = hbind (copy (fields a)) (λ b, hret (build b)) h) :
  Copier A V.
Proof using Type.
  refine {| read h a := value <$> read h (fields a); copy := copy_struct |}.
  - intros h h' a v Hsub. destruct (read h (fields a)) as [w|] eqn:Hw; [|done].
    intros [= <-]. by rewrite (read_mono h h' _ w Hsub Hw).
  - intros h a v. destruct (read h (fields a)) as [w|] eqn:Hw; [|done]. intros [= <-].
    destruct (copy_spec h _ w Hw) as (b & h1 & Hc & Hsub & Hb).
    exists (build b), h1. rewrite Hcopy. unfold hbind. rewrite Hc, Hbuild. cbn.
    split_and!; [done|done|]. by rewrite Hb.
Defined.

(** ** Maps and slices *)

Context `{MapRange}.

(** [for key, val := range *in { ( *out)[key] = val }]. *)
Definition copy_entries (m : gmap string string) : gmap string string :=
  foldl (λ out kv, <[kv.1 := kv.2]> out) ∅ (map_range 0 m).

Lemma foldl_insert_entries l (out : gmap string string) :
  NoDup l.*1 → foldl (λ out kv, <[kv.1 := kv.2]> out) out l = list_to_map l ∪ out.
Proof.
  revert out. induction l as [|[k v] l IH]; intros out; cbn.
  - intros _. symmetry. apply (left_id_L ∅ (∪)).
  - rewrite NoDup_cons. intros [Hk Hl]. rewrite IH by done.
    rewrite <-insert_union_r by (by apply not_elem_of_list_to_map_1).
    by rewrite insert_union_l.
Qed.

Lemma copy_entries_same m : copy_entries m = m.
Proof using Type*.
  unfold copy_entries. pose proof (map_range_perm 0 m) as Hp.
  assert (NoDup (map_range 0 m).*1) as Hnd by (rewrite Hp; apply NoDup_fst_map_to_list).
  rewrite foldl_insert_entries by done. rewrite (right_id_L ∅ (∪)).
  rewrite (list_to_map_proper _ _ Hnd Hp). apply list_to_map_to_list.
Qed.

(** A map is copied entry by entry, the array of a slice of plain values with [copy]. *)
Definition map_of (c : cell) : option (gmap string string) :=
  match c with MapCell m => Some m | _ => None end.
Definition infos_of (c : cell) : option (list CachingPlacementInfo) :=
  match c with InfosCell l => Some l | _ => None end.
Definition datasets_of (c : cell) : option (list GoDataset) :=
  match c with DatasetsCell l => Some l | _ => None end.
Definition internals_of (c : cell) : option (list GoDatasetInternal) :=
  match c with InternalsCell l => Some l | _ => None end.

Definition copy_map : option loc → heapM (option loc) :=
  copy_ref map_of MapCell (λ m, hret (copy_entries m)).
Definition copy_infos : option loc → heapM (option loc) :=
  copy_ref infos_of InfosCell hret.

Definition entries_copier : Copier (gmap string string) (gmap string string).
Proof using H.
  refine {| read _ m := Some m; copy m := hret (copy_entries m) |}; [done|].
  intros h m v [= ->]. exists v, h. rewrite copy_entries_same. by split_and!.
Defined.

#[local] Instance map_copier : Copier (option loc) gomap :=
  @ref_copier _ _ map_of MapCell (λ _, eq_refl) entries_copier.
#[local] Instance infos_copier : Copier (option loc) (option (list CachingPlacementInfo)) :=
  @ref_copier _ _ infos_of InfosCell (λ _, eq_refl) (plain_copier _).

(** ** The generated functions *)

Definition CachingPlacement_DeepCopyInto (p : GoCachingPlacement) : heapM GoCachingPlacement :=
  gateways ⟵ copy_infos (gp_Gateways p) ;
  locations ⟵ copy_infos (gp_DataLocations p) ;
  hret (MkGoCachingPlacement gateways locations).

Definition CachingPlacementInfo_DeepCopyInto (x : CachingPlacementInfo) :
    heapM CachingPlacementInfo := hret x.

Definition DatasetInternalStatusCaching_DeepCopyInto (x : GoDatasetInternalStatusCaching) :
    heapM GoDatasetInternalStatusCaching :=
  placements ⟵ CachingPlacement_DeepCopyInto (gsc_Placements x) ;
  hret (MkGoStatusCaching placements).

Definition DatasetInternalStatus_DeepCopyInto (x : GoDatasetInternalStatus) :
    heapM GoDatasetInternalStatus :=
  caching ⟵ DatasetInternalStatusCaching_DeepCopyInto (gis_Caching x) ;
  hret (MkGoInternalStatus caching).

Definition DatasetSpec_DeepCopyInto (x : GoDatasetSpec) : heapM GoDatasetSpec :=
  local ⟵ copy_map (gs_Local x) ;
  remote ⟵ copy_map (gs_Remote x) ;
  hret (MkGoDatasetSpec local remote (gs_Type x) (gs_Url x) (gs_Format x) (gs_Extract x)).

Definition DatasetStatusCondition_DeepCopyInto (x : DatasetStatusCondition) :
    heapM DatasetStatusCondition := hret x.

Definition DatasetStatus_DeepCopyInto (x : DatasetStatus) : heapM DatasetStatus :=
  hret (MkDatasetStatus (st_Caching x) (st_Provision x)).

(** The copies of apimachinery. *)
Context {ListMetaValue : Type} `{!Copier Meta ObjectMeta, !Copier ListMeta ListMetaValue}.

Definition Dataset_DeepCopyInto (x : GoDataset) : heapM GoDataset :=
  meta ⟵ copy (gd_ObjectMeta x) ;
  spec ⟵ DatasetSpec_DeepCopyInto (gd_Spec x) ;
  hret (MkGoDataset (gd_TypeMeta x) meta spec (gd_Status x)).

Definition DatasetInternal_DeepCopyInto (x : GoDatasetInternal) : heapM GoDatasetInternal :=
  meta ⟵ copy (gi_ObjectMeta x) ;
  spec ⟵ DatasetSpec_DeepCopyInto (gi_Spec x) ;
  status ⟵ DatasetInternalStatus_DeepCopyInto (gi_Status x) ;
  hret (MkGoDatasetInternal (gi_TypeMeta x) meta spec status).

Definition DatasetList_DeepCopyInto (x : GoDatasetList) : heapM GoDatasetList :=
  meta ⟵ copy (gdl_ListMeta x) ;
  items ⟵ copy_ref datasets_of DatasetsCell (copy_items Dataset_DeepCopyInto) (gdl_Items x) ;
  hret (MkGoDatasetList (gdl_TypeMeta x) meta items).

Definition DatasetInternalList_DeepCopyInto (x : GoDatasetInternalList) :
    heapM GoDatasetInternalList :=
  meta ⟵ copy (gil_ListMeta x) ;
  items ⟵ copy_ref internals_of InternalsCell (copy_items DatasetInternal_DeepCopyInto)
            (gil_Items x) ;
  hret (MkGoDatasetInternalList (gil_TypeMeta x) meta items).

(** The struct a pointer of its type points to. *)
Definition info_of (c : cell) : option CachingPlacementInfo :=
  match c with InfoBox x => Some x | _ => None end.
Definition placement_of (c : cell) : option GoCachingPlacement :=
  match c with PlacementBox x => Some x | _ => None end.
Definition status_caching_of (c : cell) : option GoDatasetInternalStatusCaching :=
  match c with StatusCachingBox x => Some x | _ => None end.
Definition internal_status_of (c : cell) : option GoDatasetInternalStatus :=
  match c with InternalStatusBox x => Some x | _ => None end.
Definition spec_of (c : cell) : option GoDatasetSpec :=
  match c with SpecBox x => Some x | _ => None end.
Definition condition_of (c : cell) : option DatasetStatusCondition :=
  match c with ConditionBox x => Some x | _ => None end.
Definition status_box_of (c : cell) : option DatasetStatus :=
  match c with StatusBox x => Some x | _ => None end.
Definition dataset_of (c : cell) : option GoDataset :=
  match c with DatasetBox x => Some x | _ => None end.
Definition internal_of (c : cell) : option GoDatasetInternal :=
  match c with InternalBox x => Some x | _ => None end.
Definition dataset_list_of (c : cell) : option GoDatasetList :=
  match c with DatasetListBox x => Some x | _ => None end.
Definition internal_list_of (c : cell) : option GoDatasetInternalList :=
  match c with InternalListBox x => Some x | _ => None end.

(** [if in == nil { return nil }; out := new(T); in.DeepCopyInto(out); return out].  The
    model allocates the cell of [out] when its contents are known: nothing else refers to
    it before, and which of the fresh cells it is cannot be observed. *)
Definition CachingPlacement_DeepCopy : option loc → heapM (option loc) :=
  copy_ref placement_of PlacementBox
    CachingPlacement_DeepCopyInto.
Definition CachingPlacementInfo_DeepCopy : option loc → heapM (option loc) :=
  copy_ref info_of InfoBox
    CachingPlacementInfo_DeepCopyInto.
Definition DatasetInternalStatusCaching_DeepCopy : option loc → heapM (option loc) :=
  copy_ref status_caching_of StatusCachingBox
    DatasetInternalStatusCaching_DeepCopyInto.
Definition DatasetInternalStatus_DeepCopy : option loc → heapM (option loc) :=
  copy_ref internal_status_of InternalStatusBox
    DatasetInternalStatus_DeepCopyInto.
Definition DatasetSpec_DeepCopy : option loc → heapM (option loc) :=
  copy_ref spec_of SpecBox
    DatasetSpec_DeepCopyInto.
Definition DatasetStatusCondition_DeepCopy : option loc → heapM (option loc) :=
  copy_ref condition_of ConditionBox
    DatasetStatusCondition_DeepCopyInto.
Definition DatasetStatus_DeepCopy : option loc → heapM (option loc) :=
  copy_ref status_box_of StatusBox
    DatasetStatus_DeepCopyInto.
Definition Dataset_DeepCopy : option loc → heapM (option loc) :=
  copy_ref dataset_of DatasetBox
    Dataset_DeepCopyInto.
Definition DatasetInternal_DeepCopy : option loc → heapM (option loc) :=
  copy_ref internal_of InternalBox
    DatasetInternal_DeepCopyInto.
Definition DatasetList_DeepCopy : option loc → heapM (option loc) :=
  copy_ref dataset_list_of DatasetListBox
    DatasetList_DeepCopyInto.
Definition DatasetInternalList_DeepCopy : option loc → heapM (option loc) :=
  copy_ref internal_list_of InternalListBox
    DatasetInternalList_DeepCopyInto.


(** The dynamic type and the pointer of an interface value, or nil. *)
Inductive object_type := OfDataset | OfDatasetInternal | OfDatasetList | OfDatasetInternalList.
Definition runtime_Object : Type := option (object_type * loc).

(** [if c := in.DeepCopy(); c != nil { return c }; return nil]. *)
Definition as_object (t : object_type) (deep_copy : option loc → heapM (option loc))
    (p : option loc) : heapM runtime_Object :=
  c ⟵ deep_copy p ;
  hret (match c with Some l => Some (t, l) | None => None end).

Definition Dataset_DeepCopyObject : option loc → heapM runtime_Object :=
  as_object OfDataset Dataset_DeepCopy.
Definition DatasetInternal_DeepCopyObject : option loc → heapM runtime_Object :=
  as_object OfDatasetInternal DatasetInternal_DeepCopy.
Definition DatasetList_DeepCopyObject : option loc → heapM runtime_Object :=
  as_object OfDatasetList DatasetList_DeepCopy.
Definition DatasetInternalList_DeepCopyObject : option loc → heapM runtime_Object :=
  as_object OfDatasetInternalList DatasetInternalList_DeepCopy.

(** ** Every struct has a copier *)

Ltac solve_struct :=
  intros; cbn; repeat (unfold copy_both, hbind, hret; cbn);
  repeat match goal with
  | |- context [?x ≫= _] => destruct x as [[??]|]; cbn
  end; try done.

#[local] Instance placement_copier : Copier GoCachingPlacement CachingPlacement.
Proof using Type.
  refine (@struct_copier _ _ _ _ (@pair_copier _ _ _ _ infos_copier infos_copier)
    (λ p, (gp_Gateways p, gp_DataLocations p)) (λ b, MkGoCachingPlacement b.1 b.2)
    (λ w, MkPlacement (default [] w.1) (default [] w.2)) CachingPlacement_DeepCopyInto _ _).
  - by intros [].
  - intros [g l] h. unfold CachingPlacement_DeepCopyInto, copy_infos. solve_struct.
Defined.

#[local] Instance status_caching_copier :
  Copier GoDatasetInternalStatusCaching CachingPlacement.
Proof using Type.
  refine (struct_copier gsc_Placements MkGoStatusCaching id
    DatasetInternalStatusCaching_DeepCopyInto _ _); done.
Defined.

#[local] Instance internal_status_copier : Copier GoDatasetInternalStatus CachingPlacement.
Proof using Type.
  refine (struct_copier gis_Caching MkGoInternalStatus id
    DatasetInternalStatus_DeepCopyInto _ _); done.
Defined.

#[local] Instance status_copier : Copier DatasetStatus DatasetStatus.
Proof using Type.
  refine {| read _ x := Some x; copy := DatasetStatus_DeepCopyInto |}; [done|].
  intros h [c p] v [= <-]. eexists _, h. by split_and!.
Defined.

#[local] Instance spec_copier : Copier GoDatasetSpec DatasetSpec.
Proof using H.
  refine (@struct_copier _ _ _ _
    (@pair_copier _ _ _ _ map_copier
       (@pair_copier _ _ _ _ map_copier (plain_copier (string * string * string * string))))
    (λ x, (gs_Local x, (gs_Remote x, (gs_Type x, gs_Url x, gs_Format x, gs_Extract x))))
    (λ b, let '(t, u, f, e) := b.2.2 in MkGoDatasetSpec b.1 b.2.1 t u f e)
    (λ w, let '(t, u, f, e) := w.2.2 in MkDatasetSpec w.1 w.2.1 t u f e)
    DatasetSpec_DeepCopyInto _ _).
  - by intros (l & r & [[[t u] f] e]).
  - intros [l r t u f e] h. unfold DatasetSpec_DeepCopyInto, copy_map. solve_struct.
Defined.

(** A Dataset stands for its type and a value of [KubeApi.Dataset]. *)
#[local] Instance dataset_copier : Copier GoDataset (TypeMeta * Dataset).
Proof using All.
  refine (@struct_copier _ _ _ _
    (@pair_copier _ _ _ _ (Copier0 : Copier Meta ObjectMeta)
       (@pair_copier _ _ _ _ spec_copier (plain_copier (TypeMeta * DatasetStatus))))
    (λ x, (gd_ObjectMeta x, (gd_Spec x, (gd_TypeMeta x, gd_Status x))))
    (λ b, MkGoDataset b.2.2.1 b.1 b.2.1 b.2.2.2)
    (λ w, (w.2.2.1, MkDataset w.1 w.2.1 w.2.2.2))
    Dataset_DeepCopyInto _ _).
  - by intros (m & sp & [t st]).
  - intros [t m sp st] h. unfold Dataset_DeepCopyInto. solve_struct.
Defined.

#[local] Instance internal_copier : Copier GoDatasetInternal (TypeMeta * DatasetInternal).
Proof using All.
  refine (@struct_copier _ _ _ _
    (@pair_copier _ _ _ _ (Copier0 : Copier Meta ObjectMeta)
       (@pair_copier _ _ _ _ spec_copier
          (@pair_copier _ _ _ _ internal_status_copier (plain_copier TypeMeta))))
    (λ x, (gi_ObjectMeta x, (gi_Spec x, (gi_Status x, gi_TypeMeta x))))
    (λ b, MkGoDatasetInternal b.2.2.2 b.1 b.2.1 b.2.2.1)
    (λ w, (w.2.2.2, MkDatasetInternal w.1 w.2.1 w.2.2.1))
    DatasetInternal_DeepCopyInto _ _).
  - by intros (m & sp & [st t]).
  - intros [t m sp st] h. unfold DatasetInternal_DeepCopyInto. solve_struct.
Defined.

#[local] Instance dataset_list_copier :
  Copier GoDatasetList (TypeMeta * ListMetaValue * list (TypeMeta * Dataset)).
Proof using All.
  refine (@struct_copier _ _ _ _
    (@pair_copier _ _ _ _ (Copier1 : Copier ListMeta ListMetaValue)
       (@pair_copier _ _ _ _
          (@ref_copier _ _ datasets_of DatasetsCell (λ _, eq_refl) (@items_copier _ _ dataset_copier))
          (plain_copier TypeMeta)))
    (λ x, (gdl_ListMeta x, (gdl_Items x, gdl_TypeMeta x)))
    (λ b, MkGoDatasetList b.2.2 b.1 b.2.1)
    (λ w, (w.2.2, w.1, default [] w.2.1))
    DatasetList_DeepCopyInto _ _).
  - by intros (m & i & t).
  - intros [t m i] h. unfold DatasetList_DeepCopyInto. solve_struct.
Defined.

#[local] Instance internal_list_copier :
  Copier GoDatasetInternalList (TypeMeta * ListMetaValue * list (TypeMeta * DatasetInternal)).
Proof using All.
  refine (@struct_copier _ _ _ _
    (@pair_copier _ _ _ _ (Copier1 : Copier ListMeta ListMetaValue)
       (@pair_copier _ _ _ _
          (@ref_copier _ _ internals_of InternalsCell (λ _, eq_refl) (@items_copier _ _ internal_copier))
          (plain_copier TypeMeta)))
    (λ x, (gil_ListMeta x, (gil_Items x, gil_TypeMeta x)))
    (λ b, MkGoDatasetInternalList b.2.2 b.1 b.2.1)
    (λ w, (w.2.2, w.1, default [] w.2.1))
    DatasetInternalList_DeepCopyInto _ _).
  - by intros (m & i & t).
  - intros [t m i] h. unfold DatasetInternalList_DeepCopyInto. solve_struct.
Defined.

(** ** All the types at once *)

Inductive api_type :=
  | TPlacement | TPlacementInfo | TStatusCaching | TInternalStatus | TSpec | TCondition
  | TStatus | TDataset | TDatasetInternal | TDatasetList | TDatasetInternalList.

(** The value a struct of the type stands for. *)
Definition api_value (t : api_type) : Type :=
  match t with
  | TPlacement | TStatusCaching | TInternalStatus => CachingPlacement
  | TPlacementInfo => CachingPlacementInfo
  | TSpec => DatasetSpec
  | TCondition => DatasetStatusCondition
  | TStatus => DatasetStatus
  | TDataset => TypeMeta * Dataset
  | TDatasetInternal => TypeMeta * DatasetInternal
  | TDatasetList => TypeMeta * ListMetaValue * list (TypeMeta * Dataset)
  | TDatasetInternalList => TypeMeta * ListMetaValue * list (TypeMeta * DatasetInternal)
  end.

(** [x.DeepCopy()] for a pointer [x] to a struct of the type. *)
Definition DeepCopy (t : api_type) : option loc → heapM (option loc) :=
  match t with
  | TPlacement => CachingPlacement_DeepCopy
  | TPlacementInfo => CachingPlacementInfo_DeepCopy
  | TStatusCaching => DatasetInternalStatusCaching_DeepCopy
  | TInternalStatus => DatasetInternalStatus_DeepCopy
  | TSpec => DatasetSpec_DeepCopy
  | TCondition => DatasetStatusCondition_DeepCopy
  | TStatus => DatasetStatus_DeepCopy
  | TDataset => Dataset_DeepCopy
  | TDatasetInternal => DatasetInternal_DeepCopy
  | TDatasetList => DatasetList_DeepCopy
  | TDatasetInternalList => DatasetInternalList_DeepCopy
  end.

Definition api_copier (t : api_type) : Copier (option loc) (option (api_value t)) :=
  match t with
  | TPlacement => @ref_copier _ _ placement_of PlacementBox (λ _, eq_refl) placement_copier
  | TPlacementInfo => @ref_copier _ _ info_of InfoBox (λ _, eq_refl) (plain_copier CachingPlacementInfo)
  | TStatusCaching => @ref_copier _ _ status_caching_of StatusCachingBox (λ _, eq_refl) status_caching_copier
  | TInternalStatus => @ref_copier _ _ internal_status_of InternalStatusBox (λ _, eq_refl) internal_status_copier
  | TSpec => @ref_copier _ _ spec_of SpecBox (λ _, eq_refl) spec_copier
  | TCondition => @ref_copier _ _ condition_of ConditionBox (λ _, eq_refl) (plain_copier DatasetStatusCondition)
  | TStatus => @ref_copier _ _ status_box_of StatusBox (λ _, eq_refl) status_copier
  | TDataset => @ref_copier _ _ dataset_of DatasetBox (λ _, eq_refl) dataset_copier
  | TDatasetInternal => @ref_copier _ _ internal_of InternalBox (λ _, eq_refl) internal_copier
  | TDatasetList => @ref_copier _ _ dataset_list_of DatasetListBox (λ _, eq_refl) dataset_list_copier
  | TDatasetInternalList => @ref_copier _ _ internal_list_of InternalListBox (λ _, eq_refl) internal_list_copier
  end.

(** The value behind a pointer of the type. *)
Definition api_read (t : api_type) (h : heap) (p : option loc) : option (option (api_value t)) :=
  @read _ _ (api_copier t) h p.

Lemma api_copy t p h : @copy _ _ (api_copier t) p h = DeepCopy t p h.
Proof using Type. destruct t; reflexivity. Qed.

Lemma read_ref_nil {A V} of_cell (rc : heap → A → option V) h p v :
  read_ref of_cell rc h p = Some v → (v = None ↔ p = None) ∧
  ∀ l, p = Some l → is_Some (h !! l).
Proof using Type.
  destruct p as [l|]; cbn; [|by intros [= <-]].
  destruct (h !! l) as [c|] eqn:Hl; [|done]. cbn. destruct (of_cell c) as [x|]; [|done]. cbn.
  destruct (rc h x) as [w|]; [|done]. intros [= <-]. split; [done|].
  intros l' [= <-]. by eexists.
Qed.

Lemma api_read_nil t h p v :
  api_read t h p = Some v → (v = None ↔ p = None) ∧ ∀ l, p = Some l → is_Some (h !! l).
Proof using Type. destruct t; apply read_ref_nil. Qed.

(** [p'] is a copy of [p], made in [h]: it has the same value, in cells of its own, so
    that no later write to the cells of one is seen through the other. *)
Definition independent_copy (t : api_type) (h h' : heap) (p p' : option loc) : Prop :=
  (p' = None ↔ p = None) ∧ (∀ l, p' = Some l → h !! l = None) ∧ h ⊆ h' ∧
  ∃ v, ∀ h'', (h ⊆ h'' → api_read t h'' p = Some v) ∧
              (h' ∖ h ⊆ h'' → api_read t h'' p' = Some v).

Lemma DeepCopy_independent_aux t h p :
  is_Some (api_read t h p) →
  ∃ p' h', DeepCopy t p h = Some (p', h') ∧ independent_copy t h h' p p'.
Proof using Type.
  intros [v Hv]. unfold api_read in Hv.
  destruct (@copy_spec _ _ (api_copier t) h p v Hv) as (p' & h' & Hc & Hsub & Hr).
  exists p', h'. rewrite api_copy in Hc. split; [done|].
  destruct (api_read_nil t h p v Hv) as [Hn _].
  destruct (api_read_nil t (h' ∖ h) p' v Hr) as [Hn' Hl]. split; [by rewrite <-Hn, <-Hn'|].
  split; [|split; [done|]].
  - intros l Hp. destruct (Hl l Hp) as [c Hlc]. by apply lookup_difference_Some in Hlc as [_ ?].
  - exists v. intros h''. split; intros Hh; unfold api_read.
    + exact (@read_mono _ _ (api_copier t) h h'' p v Hh Hv).
    + exact (@read_mono _ _ (api_copier t) (h' ∖ h) h'' p' v Hh Hr).
Qed.

(** (C31) A deep copy is a copy and is deep: for each of the eleven types of the API and
    each pointer to a well-formed value (references that are nil or lead to data of
    their type), [DeepCopy] does not panic and overwrites nothing; the copy is nil
    exactly when the pointer is, and otherwise stands for the same value in cells that
    did not exist before: whatever is written later to the cells of the original
    leaves the copy as it is, and the other way round, even where the original shared
    maps or slices.  The order in which the loops meet the entries of a map does not
    matter. *)
Theorem DeepCopy_independent (t : api_type) (h : heap) (p : option loc)
    (Hv : is_Some (api_read t h p)) :
  ∃ p' h', DeepCopy t p h = Some (p', h') ∧ independent_copy t h h' p p'.
Proof using Type. by apply DeepCopy_independent_aux. Qed.

(** The types that are runtime objects. *)
Definition api_of (t : object_type) : api_type :=
  match t with
  | OfDataset => TDataset
  | OfDatasetInternal => TDatasetInternal
  | OfDatasetList => TDatasetList
  | OfDatasetInternalList => TDatasetInternalList
  end.

Definition DeepCopyObject (t : object_type) : option loc → heapM runtime_Object :=
  match t with
  | OfDataset => Dataset_DeepCopyObject
  | OfDatasetInternal => DatasetInternal_DeepCopyObject
  | OfDatasetList => DatasetList_DeepCopyObject
  | OfDatasetInternalList => DatasetInternalList_DeepCopyObject
  end.

Lemma DeepCopyObject_as t p h :
  DeepCopyObject t p h = as_object t (DeepCopy (api_of t)) p h.
Proof using Type. by destruct t. Qed.

(** (C34) [DeepCopyObject] preserves the type: the copy of a nil pointer is the nil
    interface (not an interface that holds a nil pointer); any other copy is an
    interface whose dynamic type is the type of the receiver and whose pointer leads to
    a well-formed value of this type, an independent copy of the receiver. *)
Theorem DeepCopyObject_typed (t : object_type) (h : heap) (p : option loc)
    (Hv : is_Some (api_read (api_of t) h p)) :
  ∃ o h', DeepCopyObject t p h = Some (o, h') ∧
    match p with
    | None => o = None ∧ h' = h
    | Some _ => ∃ l, o = Some (t, l) ∧ is_Some (api_read (api_of t) h' (Some l)) ∧
                     independent_copy (api_of t) h h' p (Some l)
    end.
Proof using Type.
  destruct (DeepCopy_independent_aux _ h p Hv) as (p' & h' & Hc & Hi).
  exists (match p' with Some l => Some (t, l) | None => None end), h'. split.
  { rewrite DeepCopyObject_as. unfold as_object, hbind. by rewrite Hc. }
  pose proof Hi as (Hn & _ & _ & v & Hread). destruct p as [l|].
  - destruct p' as [l'|]; [|by discriminate (proj1 Hn eq_refl)]. exists l'.
    split; [done|]. split; [|done]. exists v. apply Hread. apply map_subseteq_spec.
    intros k c [? _]%lookup_difference_Some. done.
  - rewrite (proj2 Hn eq_refl). split; [done|].
    assert (DeepCopy (api_of t) None h = Some (None, h)) as Heq by (by destruct t).
    rewrite Heq in Hc. by injection Hc.
Qed.
End Go.

(** ** Witness *)

(** Metadata with a reference to the labels, and a list of two Datasets that share the
    map of their specification. *)
Record DemoMeta := MkDemoMeta { dm_name : string; dm_labels : option loc }.

#[local] Existing Instance reverse_range.

Definition demo_meta_copy (m : DemoMeta) : @heapM DemoMeta string unit DemoMeta :=
  hbind (copy_map (dm_labels m)) (λ l, hret (MkDemoMeta (dm_name m) l)).

Definition demo_meta_copier : @Copier DemoMeta string unit DemoMeta ObjectMeta.
Proof.
  refine (@struct_copier _ _ _ _ _ _ _
    (@pair_copier _ _ _ _ _ _ _ map_copier (plain_copier string))
    (λ m, (dm_labels m, dm_name m)) (λ b, MkDemoMeta b.2 b.1)
    (λ w, new_meta w.2 "" w.1) demo_meta_copy _ _).
  - by intros [].
  - intros [n l] h. unfold demo_meta_copy, copy_map. cbn. unfold copy_both, hbind, hret. cbn.
    by destruct (copy_ref _ _ _ l h) as [[??]|].
Defined.

#[local] Existing Instance demo_meta_copier.
#[local] Instance demo_list_meta_copier : @Copier DemoMeta string unit string string :=
  plain_copier string.

Definition demo_go_dataset (name : string) : @GoDataset DemoMeta :=
  MkGoDataset (MkTypeMeta "Dataset" "com.ie.ibm.hpsys/v1alpha1")
    (MkDemoMeta name (Some 2%positive))
    (MkGoDatasetSpec (Some 1%positive) None "" "" "" "") empty_status.

Definition demo_heap : gmap loc (@cell DemoMeta string unit) :=
  list_to_map [
    (1%positive, MapCell {[ "type" := "COS"; "bucket" := "books" ]});
    (2%positive, MapCell {[ "remove-on-delete" := "true" ]});
    (3%positive, DatasetsCell [demo_go_dataset "a"; demo_go_dataset "b"]);
    (4%positive, DatasetListBox
       (MkGoDatasetList (MkTypeMeta "DatasetList" "v1") "10" (Some 3%positive)));
    (5%positive, DatasetBox (demo_go_dataset "c")) ].

Lemma deep_copy_witness :
  ∃ p' h', DeepCopy TDatasetList (Some 4%positive) demo_heap = Some (p', h') ∧
    independent_copy TDatasetList demo_heap h' (Some 4%positive) p'.
Proof.
  apply DeepCopy_independent. eexists. vm_compute. reflexivity.
Defined.

Lemma deep_copy_object_witness :
  (∃ h', DeepCopyObject OfDataset None demo_heap = Some (None, h')) ∧
  ∃ l h', DeepCopyObject OfDataset (Some 5%positive) demo_heap
          = Some (Some (OfDataset, l), h') ∧
    independent_copy TDataset demo_heap h' (Some 5%positive) (Some l).
Proof.
  split.
  - destruct (DeepCopyObject_typed OfDataset demo_heap None) as (o & h' & Hc & -> & _);
      [by eexists|]. by exists h'.
  - destruct (DeepCopyObject_typed OfDataset demo_heap (Some 5%positive))
      as (o & h' & Hc & l & -> & _ & Hi); [eexists; vm_compute; reflexivity|].
    by exists l, h'.
Defined.
