(* ===== verification/NameRegex.v ===== *)
(** * The check of dataset names

    [Reconcile] of [controllers/dataset_controller.go] accepts a name when replacing
    every match of [[a-z0-9]([-a-z0-9]*[a-z0-9])?] by nothing leaves nothing.  The
    file models the part of package [regexp] this needs, a leftmost-first matcher
    with greedy operators and [ReplaceAllString], and shows that the check decides
    what its comment says. *)

From Stdlib Require Import ZArith Lia Ascii.
From stdpp Require Import options.
From S2P Require Import Prelude GoStd.

Open Scope Z_scope.

(** ** Regular expressions *)

Inductive regexp :=
  | Class (p : ascii → bool)
  | Cat (r1 r2 : regexp)
  | Opt (r : regexp)
  | Star (r : regexp).

(** [rmatch r s k]: the first way, in the order of preference of a leftmost-first
    engine, in which [r] matches a prefix of [s] and [k] accepts what follows.  One
    iteration of [Star] per character is enough. *)
Fixpoint rmatch (r : regexp) (s : list ascii)
    (k : list ascii → option (list ascii)) : option (list ascii) :=
  match r with
  | Class p =>
      match s with
      | c :: s => if p c then k s else None
      | [] => None
      end
  | Cat r1 r2 => rmatch r1 s (λ s, rmatch r2 s k)
  | Opt r =>
      match rmatch r s k with
      | Some rest => Some rest
      | None => k s
      end
  | Star r =>
      (fix star (n : nat) (s : list ascii) : option (list ascii) :=
         match n with
         | O => k s
         | S n =>
             match rmatch r s (star n) with
             | Some rest => Some rest
             | None => k s
             end
         end) (length s) s
  end.

(** [ReplaceAllString]: the matches are replaced from left to right; an empty match
    next to the preceding match is ignored. *)
Fixpoint replace_all (fuel : nat) (r : regexp) (repl s : list ascii) (abut : bool) :
    list ascii :=
  let skip fuel :=
    match s with
    | [] => []
    | c :: s => c :: replace_all fuel r repl s false
    end in
  match fuel with
  | O => s
  | S fuel =>
      match rmatch r s Some with
      | Some rest =>
          if decide (length rest = length s) then
            (if abut then [] else repl) ++ skip fuel
          else repl ++ replace_all fuel r repl rest true
      | None => skip fuel
      end
  end.

Definition ReplaceAllString (r : regexp) (src repl : string) : string :=
  let s := String.list_ascii_of_string src in
  String.string_of_list_ascii
    (replace_all (S (length s)) r (String.list_ascii_of_string repl) s false).

(** ** The pattern of the controller *)

Definition in_range (lo hi c : ascii) : bool :=
  (nat_of_ascii lo <=? nat_of_ascii c)%nat && (nat_of_ascii c <=? nat_of_ascii hi)%nat.

Definition alnum (c : ascii) : bool := in_range "a" "z" c || in_range "0" "9" c.
Definition dash_alnum (c : ascii) : bool := bool_decide (c = "-"%char) || alnum c.

(** [[a-z0-9]([-a-z0-9]*[a-z0-9])?] *)
Definition name_regexp : regexp :=
  Cat (Class alnum) (Opt (Cat (Star (Class dash_alnum)) (Class alnum))).

(** The test of [Reconcile] that makes it fail the dataset. *)
Definition name_rejected (name : string) : bool :=
  bool_decide (0 < String.length (ReplaceAllString name_regexp name ""))%nat.

Example rejected_names :
  name_rejected <$> ["example-dataset"; "123-dataset"; "Dataset"; "a-"; "-a"; "a.b"; ""]
  = [false; false; true; true; true; true; false].
Proof. vm_compute. reflexivity. Qed.

(** ** What the pattern matches *)

(** The rest after the last alphanumeric character of the run of characters of the
    class that [s] starts with. *)
Fixpoint after_last_alnum (s : list ascii) : option (list ascii) :=
  match s with
  | [] => None
  | c :: s =>
      if dash_alnum c then
        match after_last_alnum s with
        | Some rest => Some rest
        | None => if alnum c then Some s else None
        end
      else None
  end.

Lemma alnum_dash c : alnum c = true → dash_alnum c = true.
Proof. unfold dash_alnum. intros ->. by rewrite orb_true_r. Qed.

Lemma rmatch_star_alnum s :
  rmatch (Cat (Star (Class dash_alnum)) (Class alnum)) s Some = after_last_alnum s.
Proof.
  cbn [rmatch]. induction s as [|c s IH]; [done|]. cbn [length after_last_alnum].
  destruct (dash_alnum c) eqn:Hc.
  - rewrite IH. by destruct (after_last_alnum s).
  - destruct (alnum c) eqn:Ha; [|done]. by rewrite (alnum_dash _ Ha) in Hc.
Qed.

Lemma rmatch_name s :
  rmatch name_regexp s Some =
    match s with
    | c :: s =>
        if alnum c then Some (default s (after_last_alnum s)) else None
    | [] => None
    end.
Proof.
  destruct s as [|c s]; [done|]. unfold name_regexp.
  change (rmatch (Cat (Class alnum) (Opt (Cat (Star (Class dash_alnum)) (Class alnum))))
    (c :: s) Some) with
    (if alnum c then
       match rmatch (Cat (Star (Class dash_alnum)) (Class alnum)) s Some with
       | Some rest => Some rest | None => Some s end
     else None).
  rewrite rmatch_star_alnum. by destruct (alnum c), (after_last_alnum s).
Qed.

Lemma after_last_alnum_length s rest :
  after_last_alnum s = Some rest → (length rest < length s)%nat.
Proof.
  revert rest. induction s as [|c s IH]; intros rest; cbn; [done|].
  destruct (dash_alnum c); [|done]. destruct (after_last_alnum s) as [r|].
  - intros [= <-]. specialize (IH r eq_refl). lia.
  - destruct (alnum c); [|done]. intros [= <-]. lia.
Qed.

(** A match is maximal: no alphanumeric character follows it. *)
Lemma after_last_alnum_maximal s :
  match default s (after_last_alnum s) with
  | d :: _ => alnum d = false
  | [] => True
  end.
Proof.
  induction s as [|c s IH]; [done|]. cbn.
  destruct (dash_alnum c) eqn:Hc.
  - destruct (after_last_alnum s); [exact IH|]. cbn in IH |- *.
    destruct (alnum c) eqn:Ha; cbn; [exact IH|done].
  - cbn. destruct (alnum c) eqn:Ha; [|done]. by rewrite (alnum_dash _ Ha) in Hc.
Qed.

Lemma after_last_alnum_nil s :
  after_last_alnum s = Some [] ↔
    Forall (λ c, dash_alnum c = true) s ∧ ∃ d, last s = Some d ∧ alnum d = true.
Proof.
  induction s as [|c s IH]; cbn [after_last_alnum]; [split; [done|]; intros [_ [d [[=] _]]]|].
  rewrite Forall_cons.
  destruct (dash_alnum c) eqn:Hc; [|split; [done|]; by intros [[? _] _]].
  destruct (after_last_alnum s) as [rest|] eqn:Hs.
  - transitivity (Forall (λ c, dash_alnum c = true) s ∧
      ∃ d, last s = Some d ∧ alnum d = true); [rewrite <-IH; naive_solver|].
    destruct s as [|c' s]; [done|]. change (last (c :: c' :: s)) with (last (c' :: s)).
    naive_solver.
  - destruct (decide (s = [])) as [->|Hne]; cbn.
    + destruct (alnum c) eqn:Ha.
      * split; [|done]. intros _. split; [by split|]. by exists c.
      * split; [done|]. intros [_ (d & [= <-] & Hd)]. congruence.
    + split.
      * destruct (alnum c); [|done]. by intros [= ->].
      * intros [[_ Hall] (d & Hd & Ha)]. exfalso.
        assert (last s = Some d) as Hl by (by destruct s).
        assert (@None (list ascii) = Some []) as Hx; [|done]. apply IH. eauto.
Qed.

(** ** The check *)

Definition alphanumeric_ends (s : list ascii) : Prop :=
  (∃ c, head s = Some c ∧ alnum c = true) ∧ (∃ d, last s = Some d ∧ alnum d = true).

(** The names the comment of the controller describes. *)
Definition valid_name (name : string) : Prop :=
  let s := String.list_ascii_of_string name in
  Forall (λ c, dash_alnum c = true) s ∧ alphanumeric_ends s.

Lemma replace_all_nil fuel s :
  (length s < fuel)%nat → ∀ abut,
  replace_all fuel name_regexp [] s abut = [] ↔
    s = [] ∨ Forall (λ c, dash_alnum c = true) s ∧ alphanumeric_ends s.
Proof.
  destruct fuel as [|fuel]; [lia|]. intros Hlen abut. cbn [replace_all].
  rewrite rmatch_name. destruct s as [|c s]; [by split; [left|]|]. cbn [length] in Hlen.
  destruct (alnum c) eqn:Hc.
  - rewrite decide_False; last first.
    { destruct (after_last_alnum s) as [r|] eqn:Hr; cbn; [|lia].
      apply after_last_alnum_length in Hr. lia. }
    rewrite app_nil_l. pose proof (after_last_alnum_maximal s) as Hmax.
    destruct (default s (after_last_alnum s)) as [|d rest] eqn:Hd.
    + split.
      * intros _. right. destruct (after_last_alnum s) as [r|] eqn:Hr; cbn in Hd; subst.
        -- apply after_last_alnum_nil in Hr as [Hall Hl].
           split; [constructor; [by apply alnum_dash|done]|].
           split; [by eexists|]. destruct s; [by destruct Hl as (?&?&?)|done].
        -- split; [constructor; [by apply alnum_dash|done]|]. split; by eexists.
      * intros _. destruct fuel; [done|]. cbn. done.
    + split.
      * destruct fuel as [|fuel]; [done|]. cbn [replace_all]. rewrite rmatch_name.
        rewrite Hmax. done.
      * intros [?|[Hall [_ Hl]]]; [done|]. apply Forall_cons in Hall as [_ Hall].
        assert (s ≠ []) as Hne.
        { intros ->. cbn in Hd. done. }
        assert (after_last_alnum s = Some []) as Hx.
        { apply after_last_alnum_nil. split; [done|]. by destruct s. }
        by rewrite Hx in Hd.
  - split; [done|]. intros [?|[_ [(d & [= <-] & Hd) _]]]; congruence.
Qed.

Lemma string_length_list l : String.length (String.string_of_list_ascii l) = length l.
Proof. induction l as [|c l IH]; cbn; [done|]. by rewrite IH. Qed.

(** (C38) The name check of the reconciler decides what its comment and its error
    message say: apart from the empty name, a name passes exactly when it consists
    of lower case alphanumeric characters or '-' and starts and ends with an
    alphanumeric character. *)
Theorem name_rejected_spec (name : string) :
  name_rejected name = false ↔ name = "" ∨ valid_name name.
Proof.
  unfold name_rejected. rewrite bool_decide_eq_false. unfold ReplaceAllString.
  rewrite string_length_list.
  pose proof (replace_all_nil (S (length (String.list_ascii_of_string name)))
    (String.list_ascii_of_string name) ltac:(lia) false) as Hr.
  cbn [String.list_ascii_of_string].
  assert (name = "" ↔ String.list_ascii_of_string name = []) as -> by (by destruct name).
  etransitivity; [|exact Hr]. destruct (replace_all _ _ _ _ _); cbn; [|split; [|done]; lia].
  split; [done|]. lia.
Qed.
