(* ===== verification/Base64.v ===== *)
(** * Package [encoding/base64], standard encoding

    The controllers pass the values of Secrets through [StdEncoding.EncodeToString]
    and [StdEncoding.DecodeString].  Both are modelled on strings of bytes, and
    decoding what was encoded is shown to be the identity. *)

From Stdlib Require Import ZArith Lia Ascii.
From stdpp Require Import options.
From S2P Require Import Prelude.

Open Scope Z_scope.

Definition byte_of (c : ascii) : Z := Z.of_N (N_of_ascii c).
Definition of_byte (z : Z) : ascii := ascii_of_N (Z.to_N z).

Lemma of_byte_of c : of_byte (byte_of c) = c.
Proof. unfold of_byte, byte_of. by rewrite N2Z.id, ascii_N_embedding. Qed.

Lemma byte_of_range c : 0 ≤ byte_of c < 256.
Proof. unfold byte_of. pose proof (N_ascii_bounded c). lia. Qed.

Definition alphabet : string :=
  "ABCDEFGHIJKLMNOPQRSTUVWXYZabcdefghijklmnopqrstuvwxyz0123456789+/".

Definition enc6 (z : Z) : ascii := default "="%char (String.get (Z.to_nat z) alphabet).

Fixpoint index_of (c : ascii) (s : string) (i : Z) : option Z :=
  match s with
  | "" => None
  | String d s => if decide (c = d) then Some i else index_of c s (i + 1)
  end.
Definition dec6 (c : ascii) : option Z := index_of c alphabet 0.

Lemma dec6_enc6 z : 0 ≤ z < 64 → dec6 (enc6 z) = Some z.
Proof.
  intros Hz. assert (Forall (λ n, dec6 (enc6 (Z.of_nat n)) = Some (Z.of_nat n)) (seq 0 64))
    as Hall by (apply (bool_decide_unpack _); vm_compute; exact I).
  rewrite Forall_forall in Hall. specialize (Hall (Z.to_nat z)).
  rewrite Z2Nat.id in Hall by lia. apply Hall. apply elem_of_seq. lia.
Qed.

Lemma dec6_padding : dec6 "=" = None.
Proof. reflexivity. Qed.

(** [EncodeToString]: three bytes make four characters; the last group is padded. *)
Fixpoint EncodeToString (s : string) : string :=
  match s with
  | "" => ""
  | String a "" =>
      let v := byte_of a * 65536 in
      String (enc6 (v / 262144)) (String (enc6 (v / 4096 mod 64)) "==")
  | String a (String b "") =>
      let v := byte_of a * 65536 + byte_of b * 256 in
      String (enc6 (v / 262144)) (String (enc6 (v / 4096 mod 64))
        (String (enc6 (v / 64 mod 64)) "="))
  | String a (String b (String c s)) =>
      let v := byte_of a * 65536 + byte_of b * 256 + byte_of c in
      String (enc6 (v / 262144)) (String (enc6 (v / 4096 mod 64))
        (String (enc6 (v / 64 mod 64)) (String (enc6 (v mod 64)) (EncodeToString s))))
  end.

(** The groups of four characters; what was decoded before a corrupt group is
    returned with the error ([true]). *)
Fixpoint decode_quads (s : string) : string * bool :=
  match s with
  | "" => ("", false)
  | String c1 (String c2 (String c3 (String c4 s))) =>
      match dec6 c1, dec6 c2, dec6 c3, dec6 c4 with
      | Some d1, Some d2, Some d3, Some d4 =>
          let v := d1 * 262144 + d2 * 4096 + d3 * 64 + d4 in
          let '(rest, err) := decode_quads s in
          (String (of_byte (v / 65536)) (String (of_byte (v / 256 mod 256))
             (String (of_byte (v mod 256)) rest)), err)
      | Some d1, Some d2, Some d3, None =>
          if decide (c4 = "="%char ∧ s = "") then
            let v := d1 * 262144 + d2 * 4096 + d3 * 64 in
            (String (of_byte (v / 65536)) (String (of_byte (v / 256 mod 256)) ""), false)
          else ("", true)
      | Some d1, Some d2, None, None =>
          if decide (c3 = "="%char ∧ c4 = "="%char ∧ s = "") then
            let v := d1 * 262144 + d2 * 4096 in
            (String (of_byte (v / 65536)) "", false)
          else ("", true)
      | _, _, _, _ => ("", true)
      end
  | _ => ("", true)
  end.

(** Line breaks are ignored. *)
Fixpoint strip_newlines (s : string) : string :=
  match s with
  | "" => ""
  | String c s =>
      if decide (c = "010"%char ∨ c = "013"%char) then strip_newlines s
      else String c (strip_newlines s)
  end.

Definition DecodeString (s : string) : string * bool := decode_quads (strip_newlines s).

Lemma enc6_not_newline z :
  0 ≤ z < 64 → ¬ (enc6 z = "010"%char ∨ enc6 z = "013"%char).
Proof.
  intros Hz [H|H]; pose proof (dec6_enc6 z Hz) as Hd; rewrite H in Hd; discriminate Hd.
Qed.

Lemma strip_enc6 z s :
  0 ≤ z < 64 → strip_newlines (String (enc6 z) s) = String (enc6 z) (strip_newlines s).
Proof. intros Hz. cbn. by rewrite decide_False by (by apply enc6_not_newline). Qed.

Lemma string_ind3 (P : string → Prop) :
  P "" → (∀ a, P (String a "")) → (∀ a b, P (String a (String b ""))) →
  (∀ a b c s, P s → P (String a (String b (String c s)))) → ∀ s, P s.
Proof.
  intros H0 H1 H2 H3. fix IH 1. intros [|a [|b [|c s]]]; [done|done|done|]. apply H3, IH.
Qed.

Lemma encoded_pieces a b c :
  0 ≤ a < 256 → 0 ≤ b < 256 → 0 ≤ c < 256 →
  let v := a * 65536 + b * 256 + c in
  (0 ≤ v / 262144 < 64 ∧ 0 ≤ v / 4096 mod 64 < 64 ∧
   0 ≤ v / 64 mod 64 < 64 ∧ 0 ≤ v mod 64 < 64) ∧
  (v / 262144 * 262144 + v / 4096 mod 64 * 4096 + v / 64 mod 64 * 64 + v mod 64 = v) ∧
  v / 65536 = a ∧ v / 256 mod 256 = b ∧ v mod 256 = c.
Proof. intros Ha Hb Hc v. subst v. split_and!; Z.div_mod_to_equations; lia. Qed.

Lemma DecodeString_EncodeToString s : DecodeString (EncodeToString s) = (s, false).
Proof.
  unfold DecodeString. induction s as [|a|a b|a b c s IH] using string_ind3; [done|..].
  - pose proof (encoded_pieces (byte_of a) 0 0 (byte_of_range a) ltac:(lia) ltac:(lia))
      as ((H1 & H2 & H3 & H4) & Hv & Ha & _).
    cbn [EncodeToString]. rewrite !Z.add_0_r in *. rewrite !strip_enc6 by done.
    change (strip_newlines "==") with "==". cbn [decode_quads].
    rewrite !dec6_enc6 by done. cbn [dec6]. rewrite dec6_padding, decide_True by done.
    cbn zeta. set (v := byte_of a * 65536) in *.
    assert (v / 262144 * 262144 + v / 4096 mod 64 * 4096 = v) as ->.
    { subst v. Z.div_mod_to_equations. lia. }
    by rewrite Ha, of_byte_of.
  - pose proof (encoded_pieces (byte_of a) (byte_of b) 0 (byte_of_range a)
      (byte_of_range b) ltac:(lia)) as ((H1 & H2 & H3 & H4) & Hv & Ha & Hb & _).
    cbn [EncodeToString]. rewrite !Z.add_0_r in *. rewrite !strip_enc6 by done.
    change (strip_newlines "=") with "=". cbn [decode_quads].
    rewrite !dec6_enc6 by done. rewrite dec6_padding, decide_True by done.
    cbn zeta. set (v := byte_of a * 65536 + byte_of b * 256) in *.
    assert (v / 262144 * 262144 + v / 4096 mod 64 * 4096 + v / 64 mod 64 * 64 = v) as ->.
    { subst v. Z.div_mod_to_equations. lia. }
    by rewrite Ha, Hb, !of_byte_of.
  - pose proof (encoded_pieces (byte_of a) (byte_of b) (byte_of c) (byte_of_range a)
      (byte_of_range b) (byte_of_range c)) as ((H1 & H2 & H3 & H4) & Hv & Ha & Hb & Hc).
    cbn [EncodeToString]. cbn zeta in H1, H2, H3, H4, Hv, Ha, Hb, Hc |- *.
    rewrite !strip_enc6 by done. cbn [decode_quads].
    rewrite !dec6_enc6 by done. cbn zeta. rewrite Hv, Ha, Hb, Hc, IH, !of_byte_of. done.
Qed.
