(* ===== verification/Archive.v ===== *)
(** * The download job of an archive dataset

    Model of [controllers/archive_handler.go]: the job that downloads an archive and
    uploads it to a bucket of the operator's object store, named after a fresh UUID. *)

From Stdlib Require Import ZArith Lia Ascii.
From stdpp Require Import options.
From S2P Require Import Prelude GoStd KubeApi.

Open Scope Z_scope.

(** [path.Base]: the last element of a path, trailing slashes removed. *)
Definition path_Base (path : string) : string :=
  if decide (path = "") then "."
  else
    match TrimRight path "/" with
    | "" => "/"
    | stripped => default "/" (last (Split stripped "/"))
    end.

Example path_Base_examples :
  path_Base <$> [""; "/"; "//"; "a"; "/a/b/"; "http://x/y/z.tar.gz"]
  = ["."; "/"; "/"; "a"; "b"; "z.tar.gz"].
Proof. reflexivity. Qed.

Definition download_command (extract : bool) (fileUrl fileName podId : string) :
    list string :=
  if extract then
    ["/bin/sh"; "-c";
     "mkdir -p /data/" +:+ podId +:+ " && " +:+
     "wget " +:+ fileUrl +:+ " -P" +:+ " /tmp && " +:+
     "tar -xf /tmp/" +:+ fileName +:+ " -C /data/" +:+ podId +:+ " && " +:+
     "rm -rf /tmp/" +:+ fileName +:+ " && " +:+
     "aws s3api create-bucket --bucket " +:+ podId +:+ " --endpoint-url $ENDPOINT && " +:+
     "aws s3 cp /data/" +:+ podId +:+ " s3://" +:+ podId
       +:+ " --recursive --endpoint-url $ENDPOINT && " +:+
     "rm -rf /data"]
  else
    ["/bin/sh"; "-c";
     "wget " +:+ fileUrl +:+ " -P" +:+ " /tmp && " +:+
     "aws s3api create-bucket --bucket " +:+ podId +:+ " --endpoint-url $ENDPOINT && " +:+
     "aws s3 cp /tmp/" +:+ fileName +:+ " s3://" +:+ podId
       +:+ " --endpoint-url $ENDPOINT && " +:+
     "rm -rf  /tmp/" +:+ fileName].

(** The job and the bucket it fills.  [podId] is the text of a UUID, 36 characters,
    so the slice [podId[:4]] is in range. *)
Definition getPodDataDownload (dataset : Dataset) (operatorNamespace : string) :
    prog Kube (Job * string) :=
  podId ← new_uuid;
  let fileUrl := spec_Url (ds_Spec dataset) in
  let fileName := path_Base fileUrl in
  let seconds := 1 in
  let extract := (ParseBool (spec_Extract (ds_Spec dataset))).1 in
  let job := {|
    job_Meta := new_meta ("cos-upload-" +:+ str_take 4 podId) operatorNamespace None;
    job_BackoffLimit := seconds;
    job_TTLSecondsAfterFinished := seconds;
    job_RestartPolicy := "Never";
    job_Image := "quay.io/datashim-io/cos-uploader:latest";
    job_ImagePullPolicy := "Always";
    job_ContainerName := "cos-uploader";
    job_Command := download_command extract fileUrl fileName podId;
    job_EnvFromSecret := "minio-conf" |} in
  Ret (job, podId).
