(* ===== verification/DatasetController.v ===== *)
(** * The Dataset reconciler

    Model of [controllers/dataset_controller.go].  [Reconcile] is split, as its
    comments split it, into the caching setup, the creation of the DatasetInternal,
    the provision status and the propagation of the editable labels; a part that may
    return early yields [Some] result.  Logging is left out. *)

From Stdlib Require Import ZArith Lia.
From stdpp Require Import options.
From S2P Require Import Prelude GoStd KubeApi NameRegex Base64 Archive.

Open Scope Z_scope.

Definition NameInvalidCharacters : string :=
  "Name must consist of lower case alphanumeric characters or '-', and must start and "
  +:+ "end with an alphanumeric character (e.g. 'example-dataset',  or '123-dataset')".

(** ** Updates of a Dataset in place *)

Definition set_status (d : Dataset) (s : DatasetStatus) : Dataset :=
  MkDataset (ds_Meta d) (ds_Spec d) s.
Definition set_caching (d : Dataset) (status info : string) : Dataset :=
  set_status d (MkDatasetStatus (MkCondition status info) (st_Provision (ds_Status d))).
Definition set_provision (d : Dataset) (status info : string) : Dataset :=
  set_status d (MkDatasetStatus (st_Caching (ds_Status d)) (MkCondition status info)).

Definition caching_status (d : Dataset) : string := cond_Status (st_Caching (ds_Status d)).
Definition caching_info (d : Dataset) : string := cond_Info (st_Caching (ds_Status d)).
Definition provision_status (d : Dataset) : string :=
  cond_Status (st_Provision (ds_Status d)).
Definition provision_info (d : Dataset) : string :=
  cond_Info (st_Provision (ds_Status d)).

Definition set_labels (m : ObjectMeta) (ls : gomap) : ObjectMeta :=
  MkObjectMeta (om_Name m) (om_Namespace m) (om_UID m) (om_ResourceVersion m) ls
    (om_Annotations m) (om_Finalizers m) (om_OwnerReferences m) (om_DeletionTimestamp m).
Definition set_annotations (m : ObjectMeta) (az : gomap) : ObjectMeta :=
  MkObjectMeta (om_Name m) (om_Namespace m) (om_UID m) (om_ResourceVersion m)
    (om_Labels m) az (om_Finalizers m) (om_OwnerReferences m) (om_DeletionTimestamp m).

(** ** Helpers *)

Definition updateDatasetStatusAndReturn (d : Dataset) : prog Kube reconciled :=
  err ← kstatus_update KDataset d;
  Ret (result_done, err).

Definition updateDatasetAndReturn (d : Dataset) : prog Kube reconciled :=
  err ← kupdate KDataset d;
  Ret (result_done, err).

Definition initializeDatasetStatus (d : Dataset) : bool * Dataset :=
  let '(modified, d) :=
    if decide (provision_status d = StatusEmpty)
    then (true, set_provision d StatusInitial (provision_info d)) else (false, d) in
  if decide (caching_status d = StatusEmpty)
  then (true, set_caching d StatusInitial (caching_info d)) else (modified, d).

Definition has_key (m : gomap) (k : string) : bool := bool_decide (is_Some (map_get m k)).

Definition datasetHasCachingAnnotationsSet (d : Dataset) : string * bool :=
  let az := om_Annotations (ds_Meta d) in
  if forallb (has_key az) ["dlf-plugin-type"; "dlf-plugin-name"]
  then (map_index az "dlf-plugin-name", true)
  else ("", false).

Definition getCachingPlugins : prog Kube (goerr + list PodInfo) :=
  namespace ← getenv "OPERATOR_NAMESPACE";
  @call Kube (ListPods (MkListOptions namespace [("dlf-plugin-type", "caching")]
                          ["dlf-plugin-name"])).

Definition event_selector (pvc : PersistentVolumeClaim) : string :=
  "involvedObject.name=" +:+ om_Name (pvc_Meta pvc) +:+ "," +:+
  "involvedObject.resourceVersion=" +:+ om_ResourceVersion (pvc_Meta pvc) +:+ "," +:+
  "involvedObject.kind=PersistentVolumeClaim," +:+
  "reason=ProvisioningFailed".

Definition readEventsForPVC (pvc : PersistentVolumeClaim) : prog Kube (string * option goerr) :=
  r ← @call Kube (ListEvents (om_Namespace (pvc_Meta pvc)) (event_selector pvc));
  match r with
  | inl e => Ret ("", Some e)
  | inr messages => Ret (default "" (last messages), None)
  end.

(** ** Editable labels *)

Definition editableLabels : list string := ["remove-on-delete"].

(** The body of the loop: the labels of the DatasetInternal and whether they are to
    be written. *)
Definition sync_label (datasetLabels : gomap) (acc : gmap string string * bool)
    (label : string) : gmap string string * bool :=
  let '(internal, should) := acc in
  let '(internal, should) :=
    match map_get datasetLabels label with
    | Some _ => (<[label := map_index datasetLabels label]> internal, true)
    | None => (internal, should)
    end in
  match internal !! label with
  | Some _ =>
      if has_key datasetLabels label then (internal, should)
      else (delete label internal, true)
  | None => (internal, should)
  end.

Definition set_di_meta (d : DatasetInternal) (m : ObjectMeta) : DatasetInternal :=
  MkDatasetInternal m (di_Spec d) (di_Placements d).

Definition checkIfEditableLabelsChangedAndUpdate (dataset : Dataset)
    (datasetInternal : DatasetInternal) : prog Kube (option goerr) :=
  let datasetLabels := om_Labels (ds_Meta dataset) in
  let datasetInternalLabels := default ∅ (om_Labels (di_Meta datasetInternal)) in
  let '(labels, shouldUpdateOrDelete) :=
    foldl (sync_label datasetLabels) (datasetInternalLabels, false) editableLabels in
  if (shouldUpdateOrDelete : bool) then
    kupdate KDatasetInternal
      (set_di_meta datasetInternal (set_labels (di_Meta datasetInternal) (Some labels)))
  else Ret None.

(** ** Reconcile *)

(** The status of a dataset seen for the first time. *)
Definition initial_status_update (d : Dataset) : Dataset :=
  if name_rejected (om_Name (ds_Meta d)) then
    set_caching (set_provision d StatusFail NameInvalidCharacters) StatusFail
      (caching_info d)
  else d.

Definition caching_disabled (d : Dataset) : bool :=
  match ParseBool (map_index (om_Labels (ds_Meta d)) "cache.disable") with
  | (b, None) => b
  | (_, Some _) => false
  end.

Definition annotate (d : Dataset) (az : gomap) : Dataset :=
  MkDataset (set_annotations (ds_Meta d) az) (ds_Spec d) (ds_Status d).

Definition find_plugin (label : string) (pods : list PodInfo) : option PodInfo :=
  head (filter (λ p, map_index (pi_Labels p) "dlf-plugin-name" = label) pods).

(** A dataset without the annotations of a plugin, when there are plugins. *)
Definition assign_plugin (d : Dataset) (first : PodInfo) (rest : list PodInfo) :
    prog Kube reconciled :=
  match map_get (om_Labels (ds_Meta d)) "cache.plugin" with
  | None => updateDatasetAndReturn (annotate d (pi_Labels first))
  | Some cachePluginLabel =>
      match find_plugin cachePluginLabel (first :: rest) with
      | Some plugin => updateDatasetAndReturn (annotate d (pi_Labels plugin))
      | None =>
          updateDatasetStatusAndReturn (set_caching d StatusDisabled
            ("User specified plugin '" +:+ cachePluginLabel
             +:+ "' was not found. Falling back to disabled caching"))
      end
  end.

Definition caching_setup (d : Dataset) : prog Kube reconciled :=
  if caching_disabled d then
    updateDatasetStatusAndReturn
      (set_caching d StatusDisabled "User explicitly disabled caching")
  else
    pluginPods ← getCachingPlugins;
    match pluginPods with
    | inl e => Ret (result_done, Some e)
    | inr [] =>
        updateDatasetStatusAndReturn
          (set_caching d StatusDisabled "No DLF caching plugins are installed")
    | inr (first :: rest) =>
        let '(cachingPluginName, annotationsAreSet) := datasetHasCachingAnnotationsSet d in
        if (annotationsAreSet : bool) then
          updateDatasetStatusAndReturn
            (set_caching d StatusPending
               ("Caching is assigned to " +:+ cachingPluginName +:+ " plugin"))
        else assign_plugin d first rest
    end.

(** A value of the [minio-conf] Secret, encoded and decoded again. *)
Definition secret_value (conf : Secret) (key : string) : string :=
  (DecodeString (EncodeToString (map_index (sec_Data conf) key))).1.

(** The boolean text of [m[key]], or the default when it is absent or malformed. *)
Definition provision_value (local : gomap) : string :=
  match map_get local "provision" with
  | Some provisionValueString =>
      match ParseBool provisionValueString with
      | (provisionBool, None) => FormatBool provisionBool
      | (_, Some _) => "false"
      end
  | None => "false"
  end.

Definition extract_value (spec : DatasetSpec) : string :=
  if decide (0 < String.length (spec_Extract spec))%nat then spec_Extract spec else "false".

(** The specification of the DatasetInternal of an archive: the bucket the download
    job fills. *)
Definition archive_spec (d : Dataset) (minioConf : Secret) (bucket : string) : DatasetSpec :=
  MkDatasetSpec
    (Some (list_to_map [
       ("type", "COS");
       ("accessKeyID", secret_value minioConf "AWS_ACCESS_KEY_ID");
       ("secretAccessKey", secret_value minioConf "AWS_SECRET_ACCESS_KEY");
       ("endpoint", secret_value minioConf "ENDPOINT");
       ("readonly", "true");
       ("bucket", bucket);
       ("extract", extract_value (ds_Spec d));
       ("region", "");
       ("provision", provision_value (spec_Local (ds_Spec d)))]))
    None "" "" "" "".

(** The specification of the DatasetInternal to create: that of the Dataset, or that
    of the download of an archive. *)
Definition internal_spec (d : Dataset) : prog Kube (goerr + DatasetSpec) :=
  if decide (spec_Type (ds_Spec d) = "ARCHIVE") then
    namespace ← getenv "OPERATOR_NAMESPACE";
    job ← getPodDataDownload d namespace;
    let '(podDownloadJob, bucket) := job in
    err ← kcreate KJob podDownloadJob;
    match err with
    | Some e => Ret (inl e)
    | None =>
        namespace ← getenv "OPERATOR_NAMESPACE";
        conf ← kget KSecret (MkNamespacedName namespace "minio-conf");
        match conf with
        | inl e => Ret (inl e)
        | inr minioConf => Ret (inr (archive_spec d minioConf bucket))
        end
    end
  else Ret (inr (ds_Spec d)).

Definition create_internal (req : NamespacedName) (d : Dataset) :
    prog Kube (option reconciled) :=
  r ← kget KDatasetInternal req;
  match r with
  | inr _ => Ret None
  | inl e =>
      if IsNotFound e then
        spec ← internal_spec d;
        match spec with
        | inl e => Ret (Some (result_done, Some e))
        | inr spec =>
            let newDatasetInternalInstance :=
              MkDatasetInternal
                (new_meta (om_Name (ds_Meta d)) (om_Namespace (ds_Meta d))
                   (om_Labels (ds_Meta d)))
                spec empty_placement in
            r ← kset_owner KDatasetInternal (ds_Meta d) newDatasetInternalInstance;
            match r with
            | inl e => Ret (Some (result_done, Some e))
            | inr newDatasetInternalInstance =>
                err ← kcreate KDatasetInternal newDatasetInternalInstance;
                match err with
                | Some e => Ret (Some (result_done, Some e))
                | None => Ret None
                end
            end
        end
      else Ret (Some (result_done, Some e))
  end.

Definition result_retry : ReconcileResult := MkResult true (5 * 10 ^ 9).

(** A pending claim: show the message of the last event. *)
Definition provision_pending (d : Dataset) (foundPVC : PersistentVolumeClaim) :
    prog Kube reconciled :=
  let '(d, statusUpdated) :=
    if decide (provision_status d ≠ StatusPending)
    then (set_provision d StatusPending (provision_info d), true) else (d, false) in
  r ← readEventsForPVC foundPVC;
  let '(lastEvent, err) := r in
  let '(d, statusUpdated) :=
    if decide (err = None ∧ provision_info d ≠ lastEvent)
    then (set_provision d (provision_status d) lastEvent, true)
    else (d, statusUpdated : bool) in
  if (statusUpdated : bool) then updateDatasetStatusAndReturn d
  else Ret (result_retry, None).

Definition provision_setup (req : NamespacedName) (d : Dataset) :
    prog Kube (option reconciled) :=
  if decide (provision_status d ≠ StatusFail ∧ provision_status d ≠ StatusOK) then
    r ← kget KPVC req;
    match r with
    | inl e =>
        if IsNotFound e then
          if decide (provision_status d ≠ StatusPending) then
            Some <$> updateDatasetStatusAndReturn
                       (set_provision d StatusPending (provision_info d))
          else Ret (Some (result_retry, None))
        else Ret (Some (result_done, Some e))
    | inr foundPVC =>
        match pvc_Phase foundPVC with
        | ClaimLost => Ret None
        | ClaimPending => Some <$> provision_pending d foundPVC
        | ClaimBound =>
            if decide (provision_status d ≠ StatusOK) then
              Some <$> updateDatasetStatusAndReturn (set_provision d StatusOK "")
            else Ret None
        | ClaimPhaseEmpty => Ret None
        end
    end
  else Ret None.

Definition propagate_labels (req : NamespacedName) (d : Dataset) : prog Kube reconciled :=
  r ← kget KDatasetInternal req;
  match r with
  | inr datasetInternalInstance =>
      err ← checkIfEditableLabelsChangedAndUpdate d datasetInternalInstance;
      match err with
      | Some e => Ret (result_done, Some e)
      | None => Ret (result_done, None)
      end
  | inl _ => Ret (result_done, None)
  end.

(** [a |? b]: run [b] unless [a] has returned. *)
Definition or_else (a : prog Kube (option reconciled)) (b : prog Kube reconciled) :
    prog Kube reconciled :=
  r ← a;
  match r with
  | Some res => Ret res
  | None => b
  end.

Definition Reconcile (req : NamespacedName) : prog Kube reconciled :=
  r ← kget KDataset req;
  match r with
  | inl e => if IsNotFound e then Ret (result_done, None) else Ret (result_done, Some e)
  | inr datasetInstance =>
      let '(modified, d) := initializeDatasetStatus datasetInstance in
      if (modified : bool) then updateDatasetStatusAndReturn (initial_status_update d)
      else if decide (caching_status d = StatusInitial) then caching_setup d
      else
        or_else
          (if decide (caching_status d = StatusDisabled) then create_internal req d
           else Ret None)
          (or_else (provision_setup req d) (propagate_labels req d))
  end.
