(* ===== verification/DatasetSafety.v ===== *)
(** * The Dataset reconciler: what it may write

    Every write of [Reconcile] is justified by what the API server answered before
    it, for every API server; the lifecycle of the status is a finite state machine. *)

From Stdlib Require Import ZArith Lia.
From stdpp Require Import options.
From S2P Require Import Prelude GoStd KubeApi NameRegex Archive DatasetController.

Open Scope Z_scope.

(** ** The status machine *)

Definition settled (status : string) : Prop := status = StatusFail ∨ status = StatusOK.

(** The changes of the status of a dataset called [name]. *)
Inductive status_step (name : string) : DatasetStatus → DatasetStatus → Prop :=
  | step_initial c p ci pi :
      (c = StatusEmpty ∨ p = StatusEmpty) → name_rejected name = false →
      status_step name (MkDatasetStatus (MkCondition c ci) (MkCondition p pi))
        (MkDatasetStatus
           (MkCondition (if decide (c = StatusEmpty) then StatusInitial else c) ci)
           (MkCondition (if decide (p = StatusEmpty) then StatusInitial else p) pi))
  | step_rejected c p ci pi :
      (c = StatusEmpty ∨ p = StatusEmpty) → name_rejected name = true →
      status_step name (MkDatasetStatus (MkCondition c ci) (MkCondition p pi))
        (MkDatasetStatus (MkCondition StatusFail ci)
           (MkCondition StatusFail NameInvalidCharacters))
  | step_caching_disabled ci ci' p pi :
      p ≠ StatusEmpty →
      status_step name
        (MkDatasetStatus (MkCondition StatusInitial ci) (MkCondition p pi))
        (MkDatasetStatus (MkCondition StatusDisabled ci') (MkCondition p pi))
  | step_caching_assigned ci plugin p pi :
      p ≠ StatusEmpty →
      status_step name
        (MkDatasetStatus (MkCondition StatusInitial ci) (MkCondition p pi))
        (MkDatasetStatus
           (MkCondition StatusPending ("Caching is assigned to " +:+ plugin +:+ " plugin"))
           (MkCondition p pi))
  | step_provision_pending c ci p pi pi' :
      c ≠ StatusEmpty → c ≠ StatusInitial → p ≠ StatusEmpty → ¬ settled p →
      status_step name
        (MkDatasetStatus (MkCondition c ci) (MkCondition p pi))
        (MkDatasetStatus (MkCondition c ci) (MkCondition StatusPending pi'))
  | step_provision_ok c ci p pi :
      c ≠ StatusEmpty → c ≠ StatusInitial → p ≠ StatusEmpty → ¬ settled p →
      status_step name
        (MkDatasetStatus (MkCondition c ci) (MkCondition p pi))
        (MkDatasetStatus (MkCondition c ci) (MkCondition StatusOK "")).

(** ** What may be written *)

Notation told evs o r := (@Ev Kube o r ∈ evs).

(** The dataset a reconciliation starts by reading. *)
Definition read_dataset (req : NamespacedName) (evs : list (event Kube)) (d : Dataset) :
    Prop := ∃ rest, evs = @Ev Kube (Get KDataset req) (inr d) :: rest.
Definition no_internal (req : NamespacedName) (evs : list (event Kube)) : Prop :=
  told evs (Get KDatasetInternal req) (inl NotFound).

(** The plugin a dataset is given: the one its [cache.plugin] label names, the first
    one when it has no such label. *)
Definition chosen_plugin (d : Dataset) (pods : list PodInfo) (plugin : PodInfo) : Prop :=
  match map_get (om_Labels (ds_Meta d)) "cache.plugin" with
  | None => head pods = Some plugin
  | Some name => plugin ∈ pods ∧ map_index (pi_Labels plugin) "dlf-plugin-name" = name
  end.

(** [i] with the label [remove-on-delete] of [d], or without it if [d] has none. *)
Definition relabelled (d : Dataset) (i : DatasetInternal) : DatasetInternal :=
  set_di_meta i (set_labels (di_Meta i)
    (Some (partial_alter (λ _, map_get (om_Labels (ds_Meta d)) "remove-on-delete")
             "remove-on-delete" (default ∅ (om_Labels (di_Meta i)))))).

Inductive permitted (req : NamespacedName) (evs : list (event Kube)) : kube_op → Prop :=
  | permitted_read o : is_write o = false → permitted req evs o
  | permitted_status d s :
      read_dataset req evs d → status_step (om_Name (ds_Meta d)) (ds_Status d) s →
      permitted req evs (StatusUpdate KDataset (set_status d s))
  | permitted_annotations d opts pods plugin :
      read_dataset req evs d → caching_status d = StatusInitial →
      caching_disabled d = false →
      told evs (ListPods opts) (inr pods) → chosen_plugin d pods plugin →
      permitted req evs (Update KDataset (annotate d (pi_Labels plugin)))
  | permitted_job d ns job :
      read_dataset req evs d → spec_Type (ds_Spec d) = "ARCHIVE" →
      no_internal req evs → told evs (Getenv "OPERATOR_NAMESPACE") ns →
      om_Namespace (job_Meta job) = ns →
      permitted req evs (Create KJob job)
  | permitted_internal d spec i :
      read_dataset req evs d → caching_status d = StatusDisabled → no_internal req evs →
      (spec_Type (ds_Spec d) ≠ "ARCHIVE" → spec = ds_Spec d) →
      told evs (SetControllerReference KDatasetInternal (ds_Meta d)
        (MkDatasetInternal (new_meta (om_Name (ds_Meta d)) (om_Namespace (ds_Meta d))
           (om_Labels (ds_Meta d))) spec empty_placement)) (inr i) →
      permitted req evs (Create KDatasetInternal i)
  | permitted_label d i :
      read_dataset req evs d → told evs (Get KDatasetInternal req) (inr i) →
      permitted req evs (Update KDatasetInternal (relabelled d i)).

(** ** The editable labels *)

(** What the loop over the editable labels computes. *)
Lemma sync_label_spec (ls : gomap) (m : gmap string string) (k : string) :
  sync_label ls (m, false) k =
    (partial_alter (λ _, map_get ls k) k m,
     bool_decide (is_Some (map_get ls k) ∨ is_Some (m !! k))).
Proof.
  unfold sync_label, map_index, has_key.
  destruct (map_get ls k) as [v|] eqn:Hv.
  - rewrite (bool_decide_true (_ ∨ _)) by eauto. cbn [default from_option].
    rewrite lookup_insert_eq. rewrite bool_decide_true by eauto. done.
  - destruct (m !! k) as [v|] eqn:Hk.
    + rewrite (bool_decide_false (is_Some None)) by (by intros [? [=]]).
      by rewrite bool_decide_true by eauto.
    + rewrite bool_decide_false by (intros [[? [=]]|[? [=]]]). f_equal.
      pose proof (partial_alter_self m k) as Hself. by rewrite Hk in Hself.
Qed.

(** The propagation of the editable labels computes what it should: the
    DatasetInternal is written exactly when one of the two objects carries the label
    [remove-on-delete], and it is then given the label of the Dataset (none, when the
    Dataset has none); every other label, and the rest of the object, is kept. *)
Theorem checkIfEditableLabelsChangedAndUpdate_spec (d : Dataset) (i : DatasetInternal) :
  checkIfEditableLabelsChangedAndUpdate d i =
    if decide (map_get (om_Labels (ds_Meta d)) "remove-on-delete" = None ∧
               map_get (om_Labels (di_Meta i)) "remove-on-delete" = None) then Ret None
    else kupdate KDatasetInternal (relabelled d i).
Proof.
  assert (∀ ls k, map_get ls k = default ∅ ls !! k) as Hget by (by intros [m|] k).
  rewrite (Hget (om_Labels (di_Meta i))). unfold relabelled.
  unfold checkIfEditableLabelsChangedAndUpdate, editableLabels.
  cbn [foldl]. rewrite sync_label_spec. case_decide as Hd.
  - destruct Hd as [-> ->]. rewrite bool_decide_false; [done|].
    intros [[? [=]]|[? [=]]].
  - rewrite bool_decide_true; [done|].
    destruct (map_get _ _) eqn:Hm; [by left|right].
    destruct (default ∅ _ !! _) eqn:Hi; [done|]. by exfalso; apply Hd.
Qed.

(** ** Justified writes *)

Ltac gsteps :=
  cbn [guarded mbind prog_mbind prog_bind call kget kcreate kupdate kstatus_update
       kset_owner getenv new_uuid fmap prog_fmap].

Lemma read_dataset_app req evs l d : read_dataset req evs d → read_dataset req (evs ++ l) d.
Proof. intros [rest ->]. by eexists. Qed.

Definition dataset_answer (e : event Kube) : option Dataset :=
  match ev_op e as o return kube_reply o → option Dataset with
  | Get KDataset _ => λ r, match r with inr d => Some d | inl _ => None end
  | _ => λ _, None
  end (ev_reply e).

Lemma read_dataset_unique req evs d d' :
  read_dataset req evs d → read_dataset req evs d' → d' = d.
Proof.
  intros [rest ->] [rest' Heq].
  apply (f_equal (λ l, head l ≫= dataset_answer)) in Heq. by injection Heq as ->.
Qed.

Ltac solve_told :=
  unfold no_internal in *;
  first [ eassumption
        | eexists; reflexivity
        | apply read_dataset_app; solve_told
        | apply list_elem_of_singleton; reflexivity
        | apply elem_of_app; right; solve_told
        | apply elem_of_app; left; solve_told ].
Ltac gread := split; [by apply permitted_read|intros ?].

Lemma dataset_eta (d : Dataset) : d = MkDataset (ds_Meta d) (ds_Spec d) (ds_Status d).
Proof. by destruct d. Qed.

Section Permitted.
Context (req : NamespacedName) (d : Dataset).

Definition initialized : Prop := caching_status d ≠ StatusEmpty ∧ provision_status d ≠ StatusEmpty.

Lemma permitted_step evs s :
  read_dataset req evs d → status_step (om_Name (ds_Meta d)) (ds_Status d) s →
  guarded (updateDatasetStatusAndReturn (set_status d s)) evs (permitted req).
Proof. intros Hd Hs. gsteps. split; [by apply permitted_status|done]. Qed.

Lemma caching_setup_guarded evs :
  read_dataset req evs d → initialized → caching_status d = StatusInitial →
  guarded (caching_setup d) evs (permitted req).
Proof.
  intros Hd [Hc Hp] Hi. unfold caching_setup.
  assert (∀ evs info, read_dataset req evs d →
    guarded (updateDatasetStatusAndReturn (set_caching d StatusDisabled info)) evs
      (permitted req)) as Hdisable.
  { intros evs' info Hd'. apply permitted_step; [done|].
    destruct d as [m sp [[c ci] [p pi]]]. cbn in Hi, Hp |- *. subst.
    by apply step_caching_disabled. }
  destruct (caching_disabled d) eqn:Hdis; [by apply Hdisable|].
  unfold getCachingPlugins. gsteps. gread. gread.
  destruct r0 as [e|[|first rest]]; [done|apply Hdisable; solve_told|].
  destruct (datasetHasCachingAnnotationsSet d) as [name []].
  - apply permitted_step; [solve_told|].
    destruct d as [m sp [[c ci] [p pi]]]. cbn in Hi, Hp |- *. subst.
    by apply step_caching_assigned.
  - unfold assign_plugin. destruct (map_get _ "cache.plugin") as [label|] eqn:Hl.
    + unfold find_plugin. destruct (head (filter _ _)) as [plugin|] eqn:Hh; last first.
      { apply Hdisable. solve_told. }
      apply head_Some_elem_of, list_elem_of_filter in Hh as [Hn Hin].
      unfold updateDatasetAndReturn. gsteps. split; [|done].
      eapply permitted_annotations; [solve_told|done|done|solve_told|].
      unfold chosen_plugin. by rewrite Hl.
    + unfold updateDatasetAndReturn. gsteps. split; [|done].
      eapply permitted_annotations; [solve_told|done|done|solve_told|].
      unfold chosen_plugin. by rewrite Hl.
Qed.

Lemma create_internal_guarded evs :
  read_dataset req evs d → caching_status d = StatusDisabled →
  guarded (create_internal req d) evs (permitted req).
Proof.
  intros Hd Hc. unfold create_internal. gsteps. gread.
  destruct r as [e|i]; [|done].
  destruct (IsNotFound e) eqn:He; [|done].
  apply bool_decide_eq_true in He. subst e.
  apply guarded_bind.
  - unfold internal_spec. case_decide as Ht; [|done].
    unfold getPodDataDownload. gsteps. gread. gread. split.
    + eapply permitted_job; [solve_told|done|solve_told| |done]. solve_told.
    + intros [e|]; [done|]. gsteps. gread. gread. by destruct r2.
  - eapply ensures_from_mono with (Q := λ evs' spec, ∃ l,
      evs' = (evs ++ [@Ev Kube (Get KDatasetInternal req) (inl NotFound)]) ++ l ∧
      (spec_Type (ds_Spec d) ≠ "ARCHIVE" → spec = inr (ds_Spec d))).
    + intros evs' [e|spec] (l & -> & Hspec); [done|]. gsteps. gread.
      destruct r as [e|i]; [done|]. gsteps. split; [|by intros []].
      eapply permitted_internal with (spec := spec); [solve_told|done|solve_told| |solve_told].
      intros Ht. by specialize (Hspec Ht) as [= <-].
    + unfold internal_spec. case_decide as Ht.
      * eapply ensures_from_mono; [|apply ensures_from_grows]. intros evs' a [l ->].
        exists l. by split.
      * exists []. by rewrite app_nil_r.
Qed.

Lemma provision_pending_guarded evs pvc :
  read_dataset req evs d → initialized → caching_status d ≠ StatusInitial →
  ¬ settled (provision_status d) →
  guarded (provision_pending d pvc) evs (permitted req).
Proof.
  intros Hd [Hc Hp] Hi Hs. unfold provision_pending.
  assert (∀ evs info, read_dataset req evs d →
    guarded (updateDatasetStatusAndReturn (set_provision d StatusPending info)) evs
      (permitted req)) as Hpending.
  { intros evs' info Hd'. apply permitted_step; [done|].
    destruct d as [m sp [[c ci] [p pi]]]. cbn in *. by apply step_provision_pending. }
  unfold readEventsForPVC. case_decide as Hpend; gsteps; gread; destruct r as [e|ms]; gsteps.
  - rewrite decide_False by naive_solver. apply Hpending. solve_told.
  - case_decide; cbn -[guarded]; apply (Hpending _); solve_told.
  - by rewrite decide_False by naive_solver.
  - assert (provision_status d = StatusPending) as Hpd by (by destruct (decide (provision_status d = StatusPending))).
    case_decide; [|done]. rewrite Hpd. apply Hpending. solve_told.
Qed.

Lemma provision_setup_guarded evs :
  read_dataset req evs d → initialized → caching_status d ≠ StatusInitial →
  guarded (provision_setup req d) evs (permitted req).
Proof.
  intros Hd Hini Hi. unfold provision_setup. case_decide as Hs; [|done].
  assert (¬ settled (provision_status d)) as Hns by (unfold settled; naive_solver).
  assert (∀ evs p evs' A (f : reconciled → A), guarded p evs (permitted req) → evs = evs' →
    guarded (f <$> p) evs' (permitted req)) as Hmap.
  { intros evs1 p ? A f Hp <-. by apply guarded_bind_grow. }
  cbn [mbind prog_mbind prog_bind call kget]. gread. destruct r as [e|pvc].
  - destruct (IsNotFound e); [|done]. case_decide; [|done].
    eapply Hmap; [|done]. apply permitted_step; [solve_told|].
    destruct Hini. destruct d as [m sp [[c ci] [p pi]]]. by apply step_provision_pending.
  - destruct (pvc_Phase pvc); try done.
    + eapply Hmap; [|done]. apply provision_pending_guarded; try done. solve_told.
    + case_decide; [|done]. eapply Hmap; [|done]. apply permitted_step; [solve_told|].
      destruct Hini. destruct d as [m sp [[c ci] [p pi]]]. by apply step_provision_ok.
Qed.

Lemma propagate_labels_guarded evs :
  read_dataset req evs d → guarded (propagate_labels req d) evs (permitted req).
Proof.
  intros Hd. unfold propagate_labels. cbn [mbind prog_mbind prog_bind call kget]. gread.
  destruct r as [e|i]; [done|]. apply guarded_bind_grow.
  - unfold checkIfEditableLabelsChangedAndUpdate, editableLabels. cbn [foldl].
    rewrite sync_label_spec. case_bool_decide; [|done]. gsteps. split; [|done].
    apply (permitted_label _ _ d i); solve_told.
  - by intros l [e|].
Qed.
End Permitted.

Lemma initial_status_update_step d d' :
  initializeDatasetStatus d = (true, d') →
  ∃ s, initial_status_update d' = set_status d s ∧
       status_step (om_Name (ds_Meta d)) (ds_Status d) s.
Proof.
  unfold initializeDatasetStatus, initial_status_update.
  destruct d as [m sp [[c ci] [p pi]]]. unfold provision_status, caching_status. cbn.
  intros Hinit. assert (c = StatusEmpty ∨ p = StatusEmpty) as Hempty.
  { repeat case_decide; simplify_eq/=; auto. }
  destruct (name_rejected (om_Name m)) eqn:Hn.
  - eexists. split; [|by apply step_rejected].
    by repeat case_decide; simplify_eq/=; rewrite Hn.
  - eexists. split; [|by apply step_initial].
    by repeat case_decide; simplify_eq/=; rewrite Hn.
Qed.

Lemma initializeDatasetStatus_unmodified d d' :
  initializeDatasetStatus d = (false, d') → d' = d ∧ initialized d.
Proof.
  unfold initializeDatasetStatus, initialized.
  repeat case_decide; intros; simplify_eq/=; done.
Qed.

Lemma Reconcile_permitted (req : NamespacedName) : guarded (Reconcile req) [] (permitted req).
Proof.
  unfold Reconcile. cbn [mbind prog_mbind prog_bind call kget]. gread.
  rewrite app_nil_l. destruct r as [e|d]; [by case_match|].
  destruct (initializeDatasetStatus d) as [[] d'] eqn:Hinit.
  - apply initial_status_update_step in Hinit as (s & -> & Hs).
    by apply permitted_step; [solve_told|].
  - apply initializeDatasetStatus_unmodified in Hinit as [-> Hini].
    case_decide as Hi; [apply caching_setup_guarded; [solve_told|done|done]|].
    unfold or_else. apply guarded_bind_grow.
    { case_decide; [|done]. apply create_internal_guarded; [solve_told|done]. }
    intros l [res'|]; [done|]. apply guarded_bind_grow.
    { apply provision_setup_guarded; [solve_told|done|done]. }
    intros l' [res'|]; [done|]. apply propagate_labels_guarded. solve_told.
Qed.

Lemma Reconcile_justified_aux (req : NamespacedName) evs res pre o r post :
  behaviour (Reconcile req) evs res → evs = pre ++ Ev o r :: post → permitted req pre o.
Proof.
  intros Hb Hsplit. by apply (guarded_behaviour (Reconcile req) [] (permitted req) evs res
    pre o r post (Reconcile_permitted req)).
Qed.

(** (C20) Whatever the API server answers, every operation of one reconciliation of a
    Dataset is justified by what was read before it: the status moves along the
    status machine only; the annotations are those of the caching plugin the dataset
    chose; the DatasetInternal is created only for a dataset whose caching is
    disabled, after the server has answered that there is none, with the name,
    labels and (unless it is an archive) the specification of the dataset; its only
    later change is the label [remove-on-delete]; nothing is ever deleted. *)
Theorem Reconcile_justified (req : NamespacedName) evs res pre o r post :
  behaviour (Reconcile req) evs res → evs = pre ++ Ev o r :: post → permitted req pre o.
Proof. apply Reconcile_justified_aux. Qed.

(** ** The lifecycle of the status *)

Definition statuses (s : DatasetStatus) : string * string :=
  (cond_Status (st_Caching s), cond_Status (st_Provision s)).

Definition caching_rank (c : string) : nat :=
  if decide (c = StatusEmpty) then 0 else if decide (c = StatusInitial) then 1 else 2.
Definition provision_rank (p : string) : nat :=
  if decide (p = StatusEmpty) then 0
  else if decide (p = StatusFail ∨ p = StatusOK) then 3
  else if decide (p = StatusPending) then 2 else 1.
Definition rank (s : DatasetStatus) : nat :=
  caching_rank (statuses s).1 + provision_rank (statuses s).2.

Lemma rank_bound s : (rank s ≤ 5)%nat.
Proof.
  unfold rank, caching_rank, provision_rank. destruct (statuses s) as [c p]; cbn.
  repeat case_decide; lia.
Qed.

(** A step advances, unless it only shows a new message for a pending claim. *)
Lemma status_step_rank name s s' :
  status_step name s s' → statuses s' = statuses s ∨ (rank s < rank s')%nat.
Proof.
  unfold rank, statuses.
  destruct 1 as [c p ci pi Hcp _|c p ci pi Hcp _|ci ci' p pi Hp|ci plugin p pi Hp
    |c ci p pi pi' Hc Hci Hp Hs|c ci p pi Hc Hci Hp Hs]; cbn.
  - right. unfold caching_rank, provision_rank.
    destruct Hcp; repeat case_decide; simplify_eq/=; lia.
  - right. change (caching_rank StatusFail) with 2%nat.
    change (provision_rank StatusFail) with 3%nat. unfold caching_rank, provision_rank.
    destruct Hcp; repeat case_decide; simplify_eq/=; lia.
  - right. change (caching_rank StatusDisabled) with 2%nat.
    change (caching_rank StatusInitial) with 1%nat. lia.
  - right. change (caching_rank StatusPending) with 2%nat.
    change (caching_rank StatusInitial) with 1%nat. lia.
  - destruct (decide (p = StatusPending)) as [->|Hpp]; [by left|right].
    change (provision_rank StatusPending) with 2%nat. unfold provision_rank.
    rewrite decide_False by done. rewrite decide_False by done.
    rewrite decide_False by done. lia.
  - right. change (provision_rank StatusOK) with 3%nat. unfold provision_rank.
    rewrite decide_False by done. rewrite decide_False by done. case_decide; lia.
Qed.

(** What a status keeps for good: a settled provision status and a caching decision,
    once both statuses are set. *)
Definition lasting_status (s s' : DatasetStatus) : Prop :=
  ((statuses s).1 ≠ StatusEmpty → settled (statuses s).2 →
     (statuses s').2 = (statuses s).2) ∧
  (caching_rank (statuses s).1 = 2%nat → (statuses s).2 ≠ StatusEmpty →
     (statuses s').1 = (statuses s).1).

Definition lasting_step (s s1 : DatasetStatus) : Prop :=
  ((statuses s).1 ≠ StatusEmpty → settled (statuses s).2 →
     (statuses s1).1 ≠ StatusEmpty ∧ (statuses s1).2 = (statuses s).2) ∧
  (caching_rank (statuses s).1 = 2%nat → (statuses s).2 ≠ StatusEmpty →
     (statuses s1).1 = (statuses s).1 ∧ (statuses s1).2 ≠ StatusEmpty).

Lemma status_step_lasting name s s1 : status_step name s s1 → lasting_step s s1.
Proof.
  intros Hstep. split.
  - unfold settled. inversion Hstep; subst; cbn in *; try case_decide; naive_solver.
  - unfold caching_rank. inversion Hstep; subst; cbn in *; repeat case_decide; naive_solver.
Qed.

Lemma rtc_lasting (R : DatasetStatus → DatasetStatus → Prop) s s' :
  (∀ s1 s2, R s1 s2 → lasting_step s1 s2) → rtc R s s' → lasting_status s s'.
Proof.
  intros HR. induction 1 as [|s s1 s' Hstep _ [IHp IHc]]; [done|].
  destruct (HR _ _ Hstep) as [Hp Hc]. split.
  - intros He Hs. destruct (Hp He Hs) as [He1 Heq].
    rewrite IHp by (done || by rewrite Heq). done.
  - intros Hr He. destruct (Hc Hr He) as [Heq He1].
    rewrite IHc by (done || by rewrite Heq). done.
Qed.

(** The change of status a reconciliation makes: it reads a dataset called [name]
    with status [s] and writes the status [s']. *)
Definition reconciler_step (name : string) (s s' : DatasetStatus) : Prop :=
  ∃ req evs res pre d d' r post,
    behaviour (Reconcile req) evs res ∧
    evs = pre ++ @Ev Kube (StatusUpdate KDataset d') r :: post ∧
    read_dataset req pre d ∧ om_Name (ds_Meta d) = name ∧
    ds_Status d = s ∧ ds_Status d' = s'.

Lemma reconciler_step_status name s s' : reconciler_step name s s' → status_step name s s'.
Proof.
  intros (req & evs & res & pre & d & d' & r & post & Hb & Hsplit & Hd & <- & <- & <-).
  pose proof (Reconcile_justified_aux req evs res pre _ r post Hb Hsplit) as Hp.
  remember (StatusUpdate KDataset d') as o eqn:Ho.
  destruct Hp as [o Hw|d0 s0 Hd0 Hs| | | |]; try discriminate Ho; [by subst|].
  assert (d' = set_status d0 s0) as ->.
  { apply (f_equal (λ o, match o with StatusUpdate KDataset x => x | _ => d' end)) in Ho.
    symmetry. exact Ho. }
  by rewrite <-(read_dataset_unique req pre d d0 Hd Hd0).
Qed.

(** A visible change of the status, after any number of changes of its messages. *)
Definition status_change (name : string) (s s' : DatasetStatus) : Prop :=
  ∃ s1, rtc (λ a b, reconciler_step name a b ∧ statuses b = statuses a) s s1 ∧
        reconciler_step name s1 s' ∧ statuses s' ≠ statuses s1.

Lemma status_change_rank name s s' : status_change name s s' → (rank s < rank s')%nat.
Proof.
  intros (s1 & Hrtc & Hstep & Hne). apply reconciler_step_status in Hstep.
  assert (rank s = rank s1) as ->.
  { clear Hstep Hne. induction Hrtc as [|a b c [_ Hab] _ IH]; [done|].
    rewrite <-IH. unfold rank. by rewrite Hab. }
  by destruct (status_step_rank _ _ _ Hstep).
Qed.

(** The lifecycle of a dataset is finite and its outcomes are final: along the
    changes of status that reconciliations make, whatever the API server answers, a
    provision status [OK] or [Failed] is never left, a caching decision is never
    taken back once both statuses are set, and at most five changes of the statuses
    are visible. *)
Theorem status_lifecycle (name : string) (n : nat) (s s' : DatasetStatus) :
  (rtc (reconciler_step name) s s' → lasting_status s s') ∧
  (nsteps (status_change name) n s s' → (n ≤ 5)%nat).
Proof.
  split.
  - intros Hrtc. apply rtc_lasting with (R := reconciler_step name); [|done].
    intros s1 s2 Hs. by eapply status_step_lasting, reconciler_step_status.
  - intros Hn. assert (n + rank s ≤ rank s')%nat as Hle.
    { induction Hn as [|n s s1 s' Hch _ IH]; [lia|].
      apply status_change_rank in Hch. lia. }
    pose proof (rank_bound s'). lia.
Qed.
