(* ===== verification/KubeServer.v ===== *)
(** * A reachable API server

    [ApiServer] states what the Kubernetes API documents about reading and writing
    objects, for a server that answers and that no other client writes to meanwhile:
    a read returns the stored object; a creation stores the object under its name, an
    update replaces it when the resource version is current; the status is a
    subresource; an object that is being deleted goes away with its last finalizer;
    the [stringData] of a Secret is merged into its [data].  [MemServer] is a server
    that satisfies the laws, on which the hypotheses of the theorems are exercised. *)

From Stdlib Require Import ZArith Lia Ascii.
From stdpp Require Import options.
From S2P Require Import Prelude GoStd KubeApi.

Open Scope Z_scope.

#[export] Instance Kind_eq_dec : EqDecision Kind.
Proof. solve_decision. Defined.

(** ** Scope, metadata and status *)

(** PersistentVolumes are not namespaced. *)
Definition scoped (k : Kind) (n : NamespacedName) : NamespacedName :=
  match k with
  | KPV => MkNamespacedName "" (nn_Name n)
  | _ => n
  end.

Definition okey (k : Kind) (o : Object k) : NamespacedName := scoped k (key_of (meta_of k o)).

Definition set_meta (k : Kind) : ObjectMeta → Object k → Object k :=
  match k with
  | KDataset => λ m o, MkDataset m (ds_Spec o) (ds_Status o)
  | KDatasetInternal => λ m o, MkDatasetInternal m (di_Spec o) (di_Placements o)
  | KPVC => λ m o, MkPVC m (pvc_AccessModes o) (pvc_VolumeName o) (pvc_StorageClassName o)
                     (pvc_Requests o) (pvc_Selector o) (pvc_Phase o)
  | KPV => λ m o, MkPV m (pv_StorageClassName o) (pv_AccessModes o) (pv_Storage o) (pv_Source o)
  | KSecret => λ m o, MkSecret m (sec_Data o) (sec_StringData o)
  | KConfigMap => λ m o, MkConfigMap m (cm_Data o)
  | KService => λ m o, MkService m (svc_ClusterIP o) (svc_Ports o)
  | KJob => λ m o, MkJob m (job_BackoffLimit o) (job_TTLSecondsAfterFinished o)
                     (job_RestartPolicy o) (job_Image o) (job_ImagePullPolicy o)
                     (job_ContainerName o) (job_Command o) (job_EnvFromSecret o)
  | KCephObjectStore => λ m o,
      MkCephObjectStore m (cos_MetadataPool o) (cos_DataPool o) (cos_PreservePoolsOnDelete o)
        (cos_GatewayInstances o) (cos_GatewayPort o) (cos_GatewayHost o) (cos_Phase o)
  | KCephObjectStoreUser => λ m o, MkCephObjectStoreUser m (cu_Store o) (cu_DisplayName o)
  end.

Lemma meta_of_set_meta k m o : meta_of k (set_meta k m o) = m.
Proof. by destruct k. Qed.

Definition Status (k : Kind) : Type :=
  match k with
  | KDataset => DatasetStatus
  | KDatasetInternal => CachingPlacement
  | KPVC => ClaimPhase
  | KCephObjectStore => option string
  | _ => unit
  end.

Definition status_of (k : Kind) : Object k → Status k :=
  match k with
  | KDataset => ds_Status
  | KDatasetInternal => di_Placements
  | KPVC => pvc_Phase
  | KCephObjectStore => cos_Phase
  | _ => λ _, tt
  end.

Definition set_status_of (k : Kind) : Status k → Object k → Object k :=
  match k with
  | KDataset => λ s o, MkDataset (ds_Meta o) (ds_Spec o) s
  | KDatasetInternal => λ s o, MkDatasetInternal (di_Meta o) (di_Spec o) s
  | KPVC => λ s o, MkPVC (pvc_Meta o) (pvc_AccessModes o) (pvc_VolumeName o)
                     (pvc_StorageClassName o) (pvc_Requests o) (pvc_Selector o) s
  | KCephObjectStore => λ s o,
      MkCephObjectStore (cos_Meta o) (cos_MetadataPool o) (cos_DataPool o)
        (cos_PreservePoolsOnDelete o) (cos_GatewayInstances o) (cos_GatewayPort o)
        (cos_GatewayHost o) s
  | KPV | KSecret | KConfigMap | KService | KJob | KCephObjectStoreUser => λ _ o, o
  end.

(** The status of an object that has just been created. *)
Definition initial_status (k : Kind) (s : Status k) : Prop :=
  match k return Status k → Prop with
  | KDataset => λ s, s = empty_status
  | KDatasetInternal => λ s, s = empty_placement
  | KPVC => λ s, s = ClaimPhaseEmpty ∨ s = ClaimPending
  | KCephObjectStore => λ s, s = None
  | _ => λ _, True
  end s.

(** The specification of a written object as it is stored. *)
Definition same_spec (k : Kind) (o o' : Object k) : Prop :=
  match k return Object k → Object k → Prop with
  | KDataset => λ o o', ds_Spec o' = ds_Spec o
  | KDatasetInternal => λ o o', di_Spec o' = di_Spec o
  | KPVC => λ o o', pvc_AccessModes o' = pvc_AccessModes o ∧
      pvc_VolumeName o' = pvc_VolumeName o ∧
      pvc_StorageClassName o' = pvc_StorageClassName o ∧
      pvc_Requests o' = pvc_Requests o ∧ pvc_Selector o' = pvc_Selector o
  | KPV => λ o o', pv_StorageClassName o' = pv_StorageClassName o ∧
      pv_AccessModes o' = pv_AccessModes o ∧ pv_Storage o' = pv_Storage o ∧
      pv_Source o' = pv_Source o
  | KSecret => λ o o', sec_StringData o' = None ∧
      ∀ key, map_get (sec_Data o') key =
             match map_get (sec_StringData o) key with
             | Some v => Some v
             | None => map_get (sec_Data o) key
             end
  | KConfigMap => λ o o', cm_Data o' = cm_Data o
  | KService => λ o o', svc_ClusterIP o' = svc_ClusterIP o ∧ svc_Ports o' = svc_Ports o
  | KJob => λ o o', o' = set_meta KJob (job_Meta o') o
  | KCephObjectStore => λ o o',
      set_status_of KCephObjectStore (cos_Phase o) o'
      = set_meta KCephObjectStore (cos_Meta o') o
  | KCephObjectStoreUser => λ o o', o' = set_meta KCephObjectStoreUser (cu_Meta o') o
  end o o'.

(** The metadata of a written object as it is stored: the server chooses the unique
    identifier and the resource version. *)
Record same_meta (k : Kind) (m m' : ObjectMeta) : Prop := {
  sm_key : scoped k (key_of m') = scoped k (key_of m);
  sm_labels : om_Labels m' = om_Labels m;
  sm_annotations : om_Annotations m' = om_Annotations m;
  sm_finalizers : om_Finalizers m' = om_Finalizers m;
  sm_owners : om_OwnerReferences m' = om_OwnerReferences m }.

(** Only the owners differ. *)
Definition owned (k : Kind) (o o' : Object k) : Prop :=
  ∃ refs, let m := meta_of k o in
  o' = set_meta k (MkObjectMeta (om_Name m) (om_Namespace m) (om_UID m)
         (om_ResourceVersion m) (om_Labels m) (om_Annotations m) (om_Finalizers m) refs
         (om_DeletionTimestamp m)) o.

(** ** The laws *)

Section Changes.
Context {S : Type} (view : S → ∀ k, NamespacedName → option (Object k)).

(** [s'] is [s] but for the object [n] of kind [k]. *)
Definition changed (s s' : S) (k : Kind) (n : NamespacedName) (v : option (Object k)) :
    Prop :=
  view s' k n = v ∧
  (∀ n', n' ≠ n → view s' k n' = view s k n') ∧
  (∀ k' n', k' ≠ k → view s' k' n' = view s k' n').
End Changes.

(** The object an operation writes. *)
Definition targets (o : kube_op) (k : Kind) (n : NamespacedName) : Prop :=
  match o with
  | Create k' x | Update k' x | StatusUpdate k' x | Delete k' x => k' = k ∧ okey k' x = n
  | _ => False
  end.

Class ApiServer {S : Type} (h : handler Kube S) := {
  view : S → ∀ k, NamespacedName → option (Object k);
  pods : S → ListOptions → list PodInfo;
  messages : S → string → string → list string;
  environ : S → string → string;
  names : S → list (string * string) → list string;
  clusters : S → string → list string;
  (** what does not depend on the objects *)
  surroundings (s : S) := (pods s, messages s, environ s, names s, clusters s);

  (** A request changes at most the object it writes. *)
  api_frame o s k n : ¬ targets o k n → view (h o s).2 k n = view s k n;
  api_surroundings o s : surroundings (h o s).2 = surroundings s;
  api_get s k n :
    h (Get k n) s =
      (match view s k (scoped k n) with Some o => inr o | None => inl NotFound end, s);
  api_create s k o :
    view s k (okey k o) = None →
    ∃ o' s', h (Create k o) s = (None, s') ∧
      same_meta k (meta_of k o) (meta_of k o') ∧ same_spec k o o' ∧
      om_DeletionTimestamp (meta_of k o') = None ∧ initial_status k (status_of k o') ∧
      changed view s s' k (okey k o) (Some o') ∧ surroundings s' = surroundings s;
  api_update s k o old :
    view s k (okey k o) = Some old →
    om_ResourceVersion (meta_of k o) = om_ResourceVersion (meta_of k old) →
    ∃ o' s', h (Update k o) s = (None, s') ∧
      same_meta k (meta_of k o) (meta_of k o') ∧ same_spec k o o' ∧
      om_DeletionTimestamp (meta_of k o') = om_DeletionTimestamp (meta_of k old) ∧
      status_of k o' = status_of k old ∧
      changed view s s' k (okey k o)
        (if decide (om_DeletionTimestamp (meta_of k old) ≠ None ∧
                    om_Finalizers (meta_of k o) = [])
         then None else Some o') ∧
      surroundings s' = surroundings s;
  api_status_update s k o old :
    view s k (okey k o) = Some old →
    om_ResourceVersion (meta_of k o) = om_ResourceVersion (meta_of k old) →
    ∃ o' s', h (StatusUpdate k o) s = (None, s') ∧
      same_meta k (meta_of k old) (meta_of k o') ∧ same_spec k old o' ∧
      om_DeletionTimestamp (meta_of k o') = om_DeletionTimestamp (meta_of k old) ∧
      status_of k o' = status_of k o ∧
      changed view s s' k (okey k o) (Some o') ∧ surroundings s' = surroundings s;
  api_delete s k o old :
    view s k (okey k o) = Some old →
    ∃ o' s', h (Delete k o) s = (None, s') ∧
      om_DeletionTimestamp (meta_of k o') ≠ None ∧
      same_meta k (meta_of k old) (meta_of k o') ∧
      changed view s s' k (okey k o)
        (if decide (om_Finalizers (meta_of k old) = []) then None else Some o') ∧
      surroundings s' = surroundings s;
  api_pods s opts : h (ListPods opts) s = (inr (pods s opts), s);
  api_events s ns sel : h (ListEvents ns sel) s = (inr (messages s ns sel), s);
  api_nodes s labels : h (ListNodes labels) s = (inr (names s labels), s);
  api_clusters s ns : h (ListCephClusters ns) s = (inr (clusters s ns), s);
  api_getenv s name : h (Getenv name) s = (environ s name, s);
  (** the text of a UUID: digits and dashes *)
  api_uuid s : ∃ u s', h NewUUID s = (u, s') ∧ no_char "/" u ∧
      (∀ k n, view s' k n = view s k n) ∧
      surroundings s' = surroundings s;
  api_set_owner s k owner o : ∃ o', h (SetControllerReference k owner o) s = (inr o', s) ∧
      owned k o o' }.

(** ** A server in memory *)

Record MemServer := MkMemServer {
  mem_view : ∀ k, NamespacedName → option (Object k);
  mem_pods : list PodInfo;
  mem_messages : list string;
  mem_environ : string → string;
  mem_clusters : list string;
  mem_counter : Z }.

Definition put (v : ∀ k, NamespacedName → option (Object k)) (k : Kind)
    (n : NamespacedName) (x : option (Object k)) :
    ∀ k, NamespacedName → option (Object k) :=
  λ k' n',
    match decide (k = k') with
    | left e => if decide (n' = n) then eq_rect k (λ k, option (Object k)) x k' e else v k' n'
    | right _ => v k' n'
    end.

Definition store (s : MemServer) (k : Kind) (n : NamespacedName) (x : option (Object k)) :
    MemServer :=
  MkMemServer (put (mem_view s) k n x) (mem_pods s) (mem_messages s) (mem_environ s)
    (mem_clusters s) (mem_counter s + 1).

Lemma store_changed s k n x : changed mem_view s (store s k n x) k n x.
Proof.
  unfold changed, store, put. cbn. split_and!.
  - destruct (decide (k = k)) as [e|]; [|done]. rewrite decide_True by done.
    by rewrite (proof_irrel e eq_refl).
  - intros n' Hn. destruct (decide (k = k)); [|done]. by rewrite decide_False.
  - intros k' n' Hk. by destruct (decide (k = k')).
Qed.

(** The stored form of an object. *)
Definition normalize (k : Kind) : Object k → Object k :=
  match k with
  | KSecret => λ o,
      MkSecret (sec_Meta o)
        (Some (default ∅ (sec_StringData o) ∪ default ∅ (sec_Data o))) None
  | _ => λ o, o
  end.

Definition server_meta (s : MemServer) (k : Kind) (m : ObjectMeta) (del : option Z) :
    ObjectMeta :=
  MkObjectMeta (om_Name m) (nn_Namespace (scoped k (key_of m))) (om_UID m)
    ("v" +:+ Itoa (mem_counter s)) (om_Labels m) (om_Annotations m) (om_Finalizers m)
    (om_OwnerReferences m) del.

Definition zero_status (k : Kind) : Status k :=
  match k with
  | KDataset => empty_status
  | KDatasetInternal => empty_placement
  | KPVC => ClaimPending
  | KCephObjectStore => None
  | KPV | KSecret | KConfigMap | KService | KJob | KCephObjectStoreUser => tt
  end.

Definition stored (s : MemServer) (k : Kind) (o : Object k) (del : option Z)
    (st : Status k) : Object k :=
  set_meta k (server_meta s k (meta_of k o) del) (set_status_of k st (normalize k o)).

Definition mem_write (s : MemServer) (k : Kind) (o : Object k)
    (f : Object k → Object k * bool) : option goerr * MemServer :=
  match mem_view s k (okey k o) with
  | None => (Some NotFound, s)
  | Some old =>
      if decide (om_ResourceVersion (meta_of k o) = om_ResourceVersion (meta_of k old)) then
        (None, store s k (okey k o) (if (f old).2 then None else Some (f old).1))
      else (Some Conflict, s)
  end.

Definition mem_update (s : MemServer) (k : Kind) (o old : Object k) : Object k * bool :=
  (stored s k o (om_DeletionTimestamp (meta_of k old)) (status_of k old),
   bool_decide (om_DeletionTimestamp (meta_of k old) ≠ None ∧
                om_Finalizers (meta_of k o) = [])).

Definition mem_status_update (s : MemServer) (k : Kind) (o old : Object k) : Object k * bool :=
  (stored s k old (om_DeletionTimestamp (meta_of k old)) (status_of k o), false).

Definition mem_delete (s : MemServer) (k : Kind) (o : Object k) : option goerr * MemServer :=
  match mem_view s k (okey k o) with
  | None => (Some NotFound, s)
  | Some old =>
      (None, store s k (okey k o)
         (if decide (om_Finalizers (meta_of k old) = []) then None
          else Some (stored s k old (Some 0) (status_of k old))))
  end.

Definition add_owner (k : Kind) (owner : ObjectMeta) (o : Object k) : Object k :=
  let m := meta_of k o in
  set_meta k (MkObjectMeta (om_Name m) (om_Namespace m) (om_UID m) (om_ResourceVersion m)
    (om_Labels m) (om_Annotations m) (om_Finalizers m)
    [MkOwnerReference "owner" (om_Name owner) (om_UID owner)] (om_DeletionTimestamp m)) o.

Definition mem_handler : handler Kube MemServer := λ o s,
  match o return kube_reply o * MemServer with
  | Get k n =>
      (match mem_view s k (scoped k n) with Some x => inr x | None => inl NotFound end, s)
  | Create k x =>
      match mem_view s k (okey k x) with
      | Some _ => (Some AlreadyExists, s)
      | None => (None, store s k (okey k x) (Some (stored s k x None (zero_status k))))
      end
  | Update k x => mem_write s k x (mem_update s k x)
  | StatusUpdate k x => mem_write s k x (mem_status_update s k x)
  | Delete k x => mem_delete s k x
  | ListPods _ => (inr (mem_pods s), s)
  | ListEvents _ _ => (inr (mem_messages s), s)
  | ListNodes _ => (inr [], s)
  | ListCephClusters _ => (inr (mem_clusters s), s)
  | Getenv name => (mem_environ s name, s)
  | NewUUID =>
      ("f47ac10b-58cc-0372-8567-0e02b2c3d479", s)
  | SetControllerReference k owner x => (inr (add_owner k owner x), s)
  end.

Lemma stored_meta s k o del st :
  same_meta k (meta_of k o) (meta_of k (stored s k o del st)).
Proof.
  unfold stored. rewrite meta_of_set_meta. unfold server_meta.
  split; try done. by destruct k.
Qed.

Lemma stored_spec s k o del st : same_spec k o (stored s k o del st).
Proof.
  destruct k; cbn; try done; try (split; [done|]).
  - intros key. unfold map_get. cbn. rewrite lookup_union.
    destruct (sec_StringData o) as [m1|], (sec_Data o) as [m2|];
      cbn [default from_option mbind option_bind]; unfold id; rewrite ?lookup_empty;
      try destruct (m1 !! key); try destruct (m2 !! key); done.
Qed.

Lemma stored_deletion s k o del st :
  om_DeletionTimestamp (meta_of k (stored s k o del st)) = del.
Proof. unfold stored. by rewrite meta_of_set_meta. Qed.

Lemma stored_status s k o del st : status_of k (stored s k o del st) = st.
Proof. destruct k; cbn in *; by try destruct st. Qed.

(** What a write of the server in memory does to the object it names. *)
Lemma mem_handler_frame o s k n :
  ¬ targets o k n → mem_view (mem_handler o s).2 k n = mem_view s k n.
Proof.
  assert (∀ k' n' v, ¬ (k' = k ∧ n' = n) → mem_view (store s k' n' v) k n = mem_view s k n) as Hst.
  { intros k' n' v Hne. destruct (store_changed s k' n' v) as (_ & Hn & Hk).
    destruct (decide (k = k')) as [->|?]; [|by apply Hk].
    apply Hn. intros ->. by apply Hne. }
  destruct o as [|k' x|k' x|k' x|k' x| | | | | | |]; cbn; intros Ht; try done.
  - case_match; cbn; [done|by apply Hst].
  - unfold mem_write. case_match; [|done]. case_decide; cbn; [by apply Hst|done].
  - unfold mem_write. case_match; [|done]. case_decide; cbn; [by apply Hst|done].
  - unfold mem_delete. case_match; [|done]. cbn. by apply Hst.
Qed.

Lemma mem_handler_environ o s : mem_environ (mem_handler o s).2 = mem_environ s.
Proof.
  destruct o; cbn; unfold mem_write, mem_delete; repeat case_match; try done.
Qed.

Lemma mem_handler_still o s :
  mem_pods (mem_handler o s).2 = mem_pods s ∧ mem_messages (mem_handler o s).2 = mem_messages s ∧
  mem_clusters (mem_handler o s).2 = mem_clusters s.
Proof. destruct o; cbn; unfold mem_write, mem_delete; repeat case_match; done. Qed.

#[export] Instance mem_api_server : ApiServer mem_handler.
Proof.
  refine {|
    view := mem_view; pods s _ := mem_pods s; messages s _ _ := mem_messages s;
    environ := mem_environ; names _ _ := []; clusters s _ := mem_clusters s |}.
  - apply mem_handler_frame.
  - intros o s. destruct (mem_handler_still o s) as (-> & -> & ->).
    by rewrite mem_handler_environ.
  - done.
  - intros s k o Hv. cbn. rewrite Hv. eexists _, _. split; [done|].
    split_and!; [apply stored_meta|apply stored_spec|apply stored_deletion| |apply store_changed|done].
    rewrite stored_status. destruct k; cbn; auto.
  - intros s k o old Hv Hr. cbn. unfold mem_write. rewrite Hv, decide_True by done.
    eexists (mem_update s k o old).1, _. split; [done|].
    split_and!; [apply stored_meta|apply stored_spec|apply stored_deletion|apply stored_status| |done].
    unfold mem_update at 1. cbn [snd].
    destruct (decide (_ ∧ _)) as [Hd|Hd].
    + rewrite bool_decide_true by done. apply store_changed.
    + rewrite bool_decide_false by done. apply store_changed.
  - intros s k o old Hv Hr. cbn. unfold mem_write. rewrite Hv, decide_True by done.
    eexists (mem_status_update s k o old).1, _. split; [done|].
    split_and!; [apply stored_meta|apply stored_spec|apply stored_deletion|apply stored_status|apply store_changed|done].
  - intros s k o old Hv. cbn. unfold mem_delete. rewrite Hv.
    eexists (stored s k old (Some 0) (status_of k old)), _. split; [done|].
    split_and!; [by rewrite stored_deletion|apply stored_meta| |done].
    case_decide; apply store_changed.
  - done.
  - done.
  - done.
  - done.
  - done.
  - intros s. eexists _, s. done.
  - intros s k owner o. eexists. split; [done|]. by eexists.
Defined.
