(* ===== verification/KubeWp.v ===== *)
(** * Reasoning about handlers on a reachable API server

    Weakest preconditions of programs over the client, with one rule per operation,
    derived from the laws of [ApiServer]. *)

From Stdlib Require Import ZArith Lia Ascii.
From stdpp Require Import options.
From S2P Require Import Prelude GoStd KubeApi KubeServer.

Open Scope Z_scope.

(** What holds of the result and of the final state of a run. *)
Definition wp {E : Sig} {S A} (h : handler E S) (p : prog E A) (s : S) (Q : A → S → Prop) : Prop :=
  Q (result (run h p s)) (final (run h p s)).

Lemma wp_ret {E S A} (h : handler E S) (a : A) s (Q : A → S → Prop) : Q a s → wp h (Ret a) s Q.
Proof. done. Qed.

Lemma wp_bind {E S A B} (h : handler E S) (p : prog E A) (f : A → prog E B) s Q :
  wp h p s (λ a s', wp h (f a) s' Q) → wp h (p ≫= f) s Q.
Proof. unfold wp. by rewrite run_bind. Qed.

Lemma wp_mono {E S A} (h : handler E S) (p : prog E A) s (Q Q' : A → S → Prop) :
  wp h p s Q → (∀ a s', Q a s' → Q' a s') → wp h p s Q'.
Proof. unfold wp. auto. Qed.

Lemma wp_call {E S A} (h : handler E S) o (k : reply E o → prog E A) s Q :
  wp h (k (h o s).1) (h o s).2 Q → wp h (Call o k) s Q.
Proof. done. Qed.

Lemma wp_equiv {E S A} (h : handler E S) (p q : prog E A) s (Q : A → S → Prop) :
  p ≈ₚ q → wp h q s Q → wp h p s Q.
Proof. unfold wp. intros Hpq. by rewrite (Hpq S h s). Qed.

(** A call in tail position. *)
Lemma wp_tail {E S A} (h : handler E S) (p : prog E A) s (Q : A → S → Prop) :
  wp h (p ≫= Ret) s Q → wp h p s Q.
Proof. apply wp_equiv. symmetry. apply bind_ret_r. Qed.

Section Rules.
Context {S : Type} (h : handler Kube S) `{!ApiServer h}.

(** What a creation leaves. *)
Definition created_as (s s' : S) (k : Kind) (o o' : Object k) : Prop :=
  same_meta k (meta_of k o) (meta_of k o') ∧ same_spec k o o' ∧
  om_DeletionTimestamp (meta_of k o') = None ∧ initial_status k (status_of k o') ∧
  changed view s s' k (okey k o) (Some o') ∧ surroundings s' = surroundings s.

Definition updated_as (s s' : S) (k : Kind) (old o o' : Object k) : Prop :=
  same_meta k (meta_of k o) (meta_of k o') ∧ same_spec k o o' ∧
  om_DeletionTimestamp (meta_of k o') = om_DeletionTimestamp (meta_of k old) ∧
  status_of k o' = status_of k old ∧
  changed view s s' k (okey k o)
    (if decide (om_DeletionTimestamp (meta_of k old) ≠ None ∧
                om_Finalizers (meta_of k o) = []) then None else Some o') ∧
  surroundings s' = surroundings s.

Definition status_updated_as (s s' : S) (k : Kind) (old o o' : Object k) : Prop :=
  same_meta k (meta_of k old) (meta_of k o') ∧ same_spec k old o' ∧
  om_DeletionTimestamp (meta_of k o') = om_DeletionTimestamp (meta_of k old) ∧
  status_of k o' = status_of k o ∧
  changed view s s' k (okey k o) (Some o') ∧ surroundings s' = surroundings s.

Definition deleted_as (s s' : S) (k : Kind) (old o o' : Object k) : Prop :=
  om_DeletionTimestamp (meta_of k o') ≠ None ∧
  same_meta k (meta_of k old) (meta_of k o') ∧
  changed view s s' k (okey k o)
    (if decide (om_Finalizers (meta_of k old) = []) then None else Some o') ∧
  surroundings s' = surroundings s.

Lemma wp_kget {B} k n (f : goerr + Object k → prog Kube B) s (Q : B → S → Prop) :
  wp h (f (match view s k (scoped k n) with Some o => inr o | None => inl NotFound end)) s Q →
  wp h (kget k n ≫= f) s Q.
Proof using Type*.
  intros HQ. unfold kget, call, mbind, prog_mbind, prog_bind. apply wp_call.
  rewrite api_get. exact HQ.
Qed.

Lemma wp_kget_some {B} k n (f : goerr + Object k → prog Kube B) s o Q :
  view s k (scoped k n) = Some o → wp h (f (inr o)) s Q → wp h (kget k n ≫= f) s Q.
Proof using Type*. intros Hv HQ. apply wp_kget. by rewrite Hv. Qed.

Lemma wp_kget_none {B} k n (f : goerr + Object k → prog Kube B) s Q :
  view s k (scoped k n) = None → wp h (f (inl NotFound)) s Q → wp h (kget k n ≫= f) s Q.
Proof using Type*. intros Hv HQ. apply wp_kget. by rewrite Hv. Qed.

Lemma wp_kcreate {B} k o (f : option goerr → prog Kube B) s (Q : B → S → Prop) :
  view s k (okey k o) = None →
  (∀ o' s', created_as s s' k o o' → wp h (f None) s' Q) →
  wp h (kcreate k o ≫= f) s Q.
Proof using Type*.
  intros Hv HQ. destruct (api_create s k o Hv) as (o' & s' & Hh & Hc).
  unfold kcreate, call, mbind, prog_mbind, prog_bind. apply wp_call. rewrite Hh.
  by apply (HQ o').
Qed.

Lemma wp_kupdate {B} k o old (f : option goerr → prog Kube B) s (Q : B → S → Prop) :
  view s k (okey k o) = Some old →
  om_ResourceVersion (meta_of k o) = om_ResourceVersion (meta_of k old) →
  (∀ o' s', updated_as s s' k old o o' → wp h (f None) s' Q) →
  wp h (kupdate k o ≫= f) s Q.
Proof using Type*.
  intros Hv Hr HQ. destruct (api_update s k o old Hv Hr) as (o' & s' & Hh & Hc).
  unfold kupdate, call, mbind, prog_mbind, prog_bind. apply wp_call. rewrite Hh.
  by apply (HQ o').
Qed.

Lemma wp_kstatus_update {B} k o old (f : option goerr → prog Kube B) s (Q : B → S → Prop) :
  view s k (okey k o) = Some old →
  om_ResourceVersion (meta_of k o) = om_ResourceVersion (meta_of k old) →
  (∀ o' s', status_updated_as s s' k old o o' → wp h (f None) s' Q) →
  wp h (kstatus_update k o ≫= f) s Q.
Proof using Type*.
  intros Hv Hr HQ. destruct (api_status_update s k o old Hv Hr) as (o' & s' & Hh & Hc).
  unfold kstatus_update, call, mbind, prog_mbind, prog_bind. apply wp_call. rewrite Hh.
  by apply (HQ o').
Qed.

Lemma wp_kdelete {B} k o old (f : option goerr → prog Kube B) s (Q : B → S → Prop) :
  view s k (okey k o) = Some old →
  (∀ o' s', deleted_as s s' k old o o' → wp h (f None) s' Q) →
  wp h (kdelete k o ≫= f) s Q.
Proof using Type*.
  intros Hv HQ. destruct (api_delete s k o old Hv) as (o' & s' & Hh & Hc).
  unfold kdelete, call, mbind, prog_mbind, prog_bind. apply wp_call. rewrite Hh.
  by apply (HQ o').
Qed.

Lemma wp_kset_owner {B} k owner o (f : goerr + Object k → prog Kube B) s (Q : B → S → Prop) :
  (∀ o', owned k o o' → wp h (f (inr o')) s Q) → wp h (kset_owner k owner o ≫= f) s Q.
Proof using Type*.
  intros HQ. destruct (api_set_owner s k owner o) as (o' & Hh & Ho).
  unfold kset_owner, call, mbind, prog_mbind, prog_bind. apply wp_call. rewrite Hh.
  by apply HQ.
Qed.

Lemma wp_getenv {B} name (f : string → prog Kube B) s (Q : B → S → Prop) :
  wp h (f (environ s name)) s Q → wp h (getenv name ≫= f) s Q.
Proof using Type*.
  intros HQ. unfold getenv, call, mbind, prog_mbind, prog_bind. apply wp_call.
  by rewrite api_getenv.
Qed.

Lemma wp_new_uuid {B} (f : string → prog Kube B) s (Q : B → S → Prop) :
  (∀ u s', no_char "/" u → (∀ k n, view s' k n = view s k n) →
     surroundings s' = surroundings s → wp h (f u) s' Q) →
  wp h (new_uuid ≫= f) s Q.
Proof using Type*.
  intros HQ. destruct (api_uuid s) as (u & s' & Hh & Hu & Hv & Hs).
  unfold new_uuid, call, mbind, prog_mbind, prog_bind. apply wp_call. rewrite Hh.
  by apply HQ.
Qed.

Lemma wp_list_pods {B} opts (f : goerr + list PodInfo → prog Kube B) s (Q : B → S → Prop) :
  wp h (f (inr (pods s opts))) s Q → wp h (@call Kube (ListPods opts) ≫= f) s Q.
Proof using Type*.
  intros HQ. unfold call, mbind, prog_mbind, prog_bind. apply wp_call. by rewrite api_pods.
Qed.

Lemma wp_list_events {B} ns sel (f : goerr + list string → prog Kube B) s (Q : B → S → Prop) :
  wp h (f (inr (messages s ns sel))) s Q → wp h (@call Kube (ListEvents ns sel) ≫= f) s Q.
Proof using Type*.
  intros HQ. unfold call, mbind, prog_mbind, prog_bind. apply wp_call. by rewrite api_events.
Qed.

Lemma wp_list_nodes {B} labels (f : goerr + list string → prog Kube B) s (Q : B → S → Prop) :
  wp h (f (inr (names s labels))) s Q → wp h (@call Kube (ListNodes labels) ≫= f) s Q.
Proof using Type*.
  intros HQ. unfold call, mbind, prog_mbind, prog_bind. apply wp_call. by rewrite api_nodes.
Qed.

Lemma wp_list_clusters {B} ns (f : goerr + list string → prog Kube B) s (Q : B → S → Prop) :
  wp h (f (inr (clusters s ns))) s Q → wp h (@call Kube (ListCephClusters ns) ≫= f) s Q.
Proof using Type*.
  intros HQ. unfold call, mbind, prog_mbind, prog_bind. apply wp_call.
  by rewrite api_clusters.
Qed.

(** What a change leaves alone. *)
Lemma changed_here s s' k n v : changed view s s' k n v → view s' k n = v.
Proof. by intros (H & _). Qed.
Lemma changed_kind s s' k n v k' n' :
  changed view s s' k n v → k' ≠ k → view s' k' n' = view s k' n'.
Proof. intros (_ & _ & H). apply H. Qed.
Lemma changed_name s s' k n v n' :
  changed view s s' k n v → n' ≠ n → view s' k n' = view s k n'.
Proof. intros (_ & H & _). apply H. Qed.

(** A program that never writes objects of kind [k] leaves them as they are. *)
Lemma run_spares {A} (p : prog Kube A) k evs s n :
  guarded p evs (λ _ o, ∀ n, ¬ targets o k n) → view (final (run h p s)) k n = view s k n.
Proof using Type*.
  revert evs s. induction p as [a|o kont IH]; intros evs s; [done|]. cbn. intros [Ho Hk].
  rewrite (IH _ _ _ (Hk (h o s).1)). by apply api_frame.
Qed.

Lemma run_surroundings {A} (p : prog Kube A) s :
  surroundings (final (run h p s)) = surroundings s.
Proof using Type*.
  revert s. induction p as [a|o kont IH]; intros s; [done|]. cbn. by rewrite IH, api_surroundings.
Qed.
End Rules.
