(* ===== verification/DatasetProgress.v ===== *)
(** * The Dataset reconciler: progress

    On a reachable API server, without caching plugins and once the claim is bound,
    repeated reconciliation brings a dataset to its final state. *)

From Stdlib Require Import ZArith Lia.
From stdpp Require Import options.
From S2P Require Import Prelude GoStd KubeApi KubeServer KubeWp NameRegex DatasetController DatasetSafety.

Open Scope Z_scope.

Section Progress.
Context {S : Type} (h : handler Kube S) `{!ApiServer h} (req : NamespacedName).

Definition plugin_options (s : S) : ListOptions :=
  MkListOptions (environ s "OPERATOR_NAMESPACE") [("dlf-plugin-type", "caching")]
    ["dlf-plugin-name"].

(** The dataset [d] on its way: it has a valid name, is not an archive, no caching
    plugin is installed and its claim, once there is one, is bound. *)
Record underway (s : S) (d : Dataset) : Prop := {
  uw_stored : view s KDataset req = Some d;
  uw_key : key_of (ds_Meta d) = req;
  uw_name : name_rejected (nn_Name req) = false;
  uw_type : spec_Type (ds_Spec d) ≠ "ARCHIVE";
  uw_caching : caching_status d ∈ [StatusEmpty; StatusInitial; StatusDisabled];
  uw_provision : provision_status d ∈ [StatusEmpty; StatusInitial; StatusPending; StatusOK];
  uw_plugins : pods s (plugin_options s) = [];
  uw_claim pvc : view s KPVC req = Some pvc → pvc_Phase pvc = ClaimBound;
  uw_internal i : view s KDatasetInternal req = Some i →
    di_Spec i = ds_Spec d ∧ key_of (di_Meta i) = req ∧ om_DeletionTimestamp (di_Meta i) = None }.

Definition same_dataset (d d' : Dataset) : Prop :=
  ds_Spec d' = ds_Spec d ∧ om_Labels (ds_Meta d') = om_Labels (ds_Meta d).

(** The DatasetInternal exists and has the editable labels of the dataset. *)
Definition synced (s : S) (d : Dataset) : Prop :=
  ∃ i, view s KDatasetInternal req = Some i ∧
    map_get (om_Labels (di_Meta i)) "remove-on-delete"
    = map_get (om_Labels (ds_Meta d)) "remove-on-delete".

Definition progress (s : S) (d : Dataset) : nat :=
  rank (ds_Status d) + (if view s KDatasetInternal req is Some _ then 1 else 0).

Lemma progress_bound s d : (progress s d ≤ 6)%nat.
Proof using Type*. unfold progress. pose proof (rank_bound (ds_Status d)). case_match; lia. Qed.

Lemma same_surroundings (s s' : S) :
  surroundings s' = surroundings s → pods s' = pods s ∧ environ s' = environ s.
Proof using Type*. unfold surroundings. by intros [= -> _ -> _ _]. Qed.

(** Writing the status. *)
Lemma wp_status s d st :
  underway s d →
  (statuses st).1 ∈ [StatusEmpty; StatusInitial; StatusDisabled] →
  (statuses st).2 ∈ [StatusEmpty; StatusInitial; StatusPending; StatusOK] →
  wp h (updateDatasetStatusAndReturn (set_status d st)) s (λ res s',
    res = (result_done, None) ∧ ∃ d', underway s' d' ∧ same_dataset d d' ∧
    ds_Status d' = st ∧ view s' KDatasetInternal req = view s KDatasetInternal req).
Proof using Type*.
  intros Huw Hc Hp. destruct Huw as [Hs Hk Hn Ht _ _ Hpl Hb Hi].
  unfold updateDatasetStatusAndReturn.
  assert (okey KDataset (set_status d st) = req) as Hok by exact Hk.
  apply (wp_kstatus_update h KDataset _ d); [by rewrite Hok|done|].
  intros d' s' (Hm & Hspec & _ & Hst & Hch & Hsur). apply wp_ret. split; [done|].
  rewrite Hok in Hch. apply same_surroundings in Hsur as [Hpods Henv].
  exists d'. cbn in Hspec, Hst.
  assert (view s' KDatasetInternal req = view s KDatasetInternal req) as Hint
    by (by eapply changed_kind).
  split; [|split; [split; [done|apply Hm]|done]].
  split.
  - by eapply changed_here.
  - rewrite <-Hk. exact (sm_key _ _ _ Hm).
  - done.
  - by rewrite Hspec.
  - unfold caching_status. by rewrite Hst.
  - unfold provision_status. by rewrite Hst.
  - unfold plugin_options. rewrite Hpods, Henv. exact Hpl.
  - intros pvc. erewrite changed_kind; [apply Hb|exact Hch|done].
  - rewrite Hint, Hspec. exact Hi.
Qed.

(** Writing the DatasetInternal. *)
Lemma underway_internal s s' d i :
  underway s d → changed view s s' KDatasetInternal req (Some i) →
  surroundings s' = surroundings s →
  di_Spec i = ds_Spec d → key_of (di_Meta i) = req →
  om_DeletionTimestamp (di_Meta i) = None → underway s' d.
Proof using Type*.
  intros [Hs Hk Hn Ht Hc Hp Hpl Hb Hi] Hch Hsur Hsp Hki Hdel.
  apply same_surroundings in Hsur as [Hpods Henv]. split; try done.
  - erewrite changed_kind; [exact Hs|exact Hch|done].
  - unfold plugin_options. rewrite Hpods, Henv. exact Hpl.
  - intros pvc. erewrite changed_kind; [apply Hb|exact Hch|done].
  - intros i' Hi'. rewrite (changed_here h _ _ _ _ _ Hch) in Hi'. injection Hi' as <-. by split_and!.
Qed.

Definition advanced (s : S) (d : Dataset) (res : reconciled) (s' : S) : Prop :=
  res = (result_done, None) ∧ ∃ d', underway s' d' ∧ same_dataset d d' ∧
  ((progress s d < progress s' d')%nat ∨ progress s' d' = 6%nat ∧ synced s' d').

Lemma wp_status_advances s d st :
  underway s d → (rank (ds_Status d) < rank st)%nat →
  (statuses st).1 ∈ [StatusEmpty; StatusInitial; StatusDisabled] →
  (statuses st).2 ∈ [StatusEmpty; StatusInitial; StatusPending; StatusOK] →
  wp h (updateDatasetStatusAndReturn (set_status d st)) s (advanced s d).
Proof using Type*.
  intros Huw Hr Hc Hp. eapply wp_mono; [by apply wp_status|].
  intros res s' (-> & d' & Huw' & Hsame & Hst & Hint). split; [done|].
  exists d'. split_and!; [done|done|]. left. unfold progress. rewrite Hint, Hst. lia.
Qed.

(** The last part of a reconciliation. *)
Lemma wp_propagate s d :
  underway s d → is_Some (view s KDatasetInternal req) → rank (ds_Status d) = 5%nat →
  wp h (propagate_labels req d) s (λ res s',
    res = (result_done, None) ∧ underway s' d ∧ progress s' d = 6%nat ∧ synced s' d).
Proof using Type*.
  intros Huw [i Hi] Hr. destruct (uw_internal _ _ Huw i Hi) as (Hsp & Hk & Hdel).
  unfold propagate_labels. apply (wp_kget_some h KDatasetInternal req _ s i _ Hi).
  apply wp_bind.
  unfold checkIfEditableLabelsChangedAndUpdate, editableLabels. cbn [foldl].
  rewrite sync_label_spec. case_bool_decide as Hl.
  - set (o := set_di_meta _ _).
    assert (okey KDatasetInternal o = req) as Hok by exact Hk.
    apply wp_tail, (wp_kupdate h KDatasetInternal o i); [by rewrite Hok|done|].
    intros o' s' (Hm & Hspec & Hdel' & _ & Hch & Hsur). rewrite Hok in Hch.
    rewrite decide_False in Hch by (intros [Hx _]; apply Hx; exact Hdel).
    cbn in Hdel', Hspec.
    assert (key_of (di_Meta o') = req) as Hk' by (rewrite <-Hk; exact (sm_key _ _ _ Hm)).
    apply wp_ret, wp_ret. split; [done|]. split; [|split].
    + eapply underway_internal; try done; congruence.
    + unfold progress. by rewrite (changed_here h _ _ _ _ _ Hch), Hr.
    + exists o'. split; [by eapply changed_here|].
      pose proof (sm_labels _ _ _ Hm) as Hlab. cbn in Hlab. rewrite Hlab. cbn.
      by rewrite lookup_partial_alter_eq.
  - apply wp_ret, wp_ret.
    split; [done|]. split; [done|]. split; [by unfold progress; rewrite Hi, Hr|].
    exists i. split; [done|].
    destruct (map_get (om_Labels (ds_Meta d)) _) eqn:Hm; [by exfalso; apply Hl; left|].
    unfold map_get. destruct (om_Labels (di_Meta i)) as [m|] eqn:Hmi; cbn in Hl |- *; [|done].
    apply eq_None_not_Some. tauto.
Qed.

Lemma wp_final s d :
  underway s d → caching_status d = StatusDisabled → provision_status d ≠ StatusEmpty →
  is_Some (view s KDatasetInternal req) → is_Some (view s KPVC req) →
  wp h (or_else (provision_setup req d) (propagate_labels req d)) s (advanced s d).
Proof using Type*.
  intros Huw Hc Hp Hi [pvc Hpvc]. pose proof (uw_claim _ _ Huw pvc Hpvc) as Hb.
  pose proof (uw_provision _ _ Huw) as Hps. unfold or_else, provision_setup.
  case_decide as Hset.
  - apply wp_bind. apply (wp_kget_some h KPVC req _ s pvc _ Hpvc). rewrite Hb.
    rewrite decide_True by apply Hset.
    apply wp_bind. eapply wp_mono; [apply (wp_status_advances s d
      (MkDatasetStatus (st_Caching (ds_Status d)) (MkCondition StatusOK ""))); [done|..]|].
    + unfold rank, statuses. cbn [fst snd st_Caching st_Provision cond_Status].
      change (provision_rank StatusOK) with 3%nat.
      fold (provision_status d). unfold provision_rank.
      rewrite decide_False by done. rewrite (decide_False (P := _ ∨ _)) by tauto.
      case_decide; lia.
    + exact (uw_caching _ _ Huw).
    + set_solver.
    + intros res s' Hadv. apply wp_ret, wp_ret. exact Hadv.
  - apply wp_bind, wp_ret.
    assert (provision_status d = StatusOK) as Hok.
    { rewrite !elem_of_cons in Hps.
      destruct Hps as [?|[Hx|[Hx|[?|[]%not_elem_of_nil]]]]; try done;
        exfalso; apply Hset; rewrite Hx; done. }
    assert (rank (ds_Status d) = 5%nat) as Hr.
    { unfold rank, statuses. cbn [fst snd]. fold (caching_status d) (provision_status d).
      by rewrite Hc, Hok. }
    eapply wp_mono; [by apply wp_propagate|]. intros res s' (-> & Huw' & Hpr & Hsy).
    split; [done|]. exists d. split_and!; [done|done|]. by right.
Qed.

Lemma initialize_unset d :
  caching_status d = StatusEmpty ∨ provision_status d = StatusEmpty →
  ∃ st, initializeDatasetStatus d = (true, set_status d st) ∧
    (rank (ds_Status d) < rank st)%nat ∧
    statuses st =
      (if decide (caching_status d = StatusEmpty) then StatusInitial else caching_status d,
       if decide (provision_status d = StatusEmpty) then StatusInitial
       else provision_status d).
Proof using Type*.
  intros He. unfold initializeDatasetStatus.
  destruct d as [m sp [[c ci] [p pi]]]. unfold caching_status, provision_status in *. cbn in *.
  exists (MkDatasetStatus
    (MkCondition (if decide (c = StatusEmpty) then StatusInitial else c) ci)
    (MkCondition (if decide (p = StatusEmpty) then StatusInitial else p) pi)).
  unfold rank, caching_rank, provision_rank. cbn.
  split; [|split; [|done]]; destruct He; repeat case_decide; simplify_eq/=; (done || lia).
Qed.

Lemma wp_caching s d :
  underway s d → provision_status d ≠ StatusEmpty → caching_status d = StatusInitial →
  wp h (caching_setup d) s (advanced s d).
Proof using Type*.
  intros Huw Hp Hc. unfold caching_setup.
  assert (∀ info, wp h (updateDatasetStatusAndReturn (set_caching d StatusDisabled info)) s
    (advanced s d)) as Hdis.
  { intros info. apply wp_status_advances; [done|..].
    - unfold rank, statuses. cbn [fst snd st_Caching st_Provision cond_Status].
      fold (caching_status d). rewrite Hc. change (caching_rank StatusDisabled) with 2%nat.
      change (caching_rank StatusInitial) with 1%nat. lia.
    - set_solver.
    - exact (uw_provision _ _ Huw). }
  destruct (caching_disabled d); [apply Hdis|].
  unfold getCachingPlugins. apply wp_bind, (wp_getenv h), wp_tail, (wp_list_pods h).
  fold (plugin_options s). rewrite (uw_plugins _ _ Huw). apply wp_ret, Hdis.
Qed.

(** A dataset whose caching is disabled gets its DatasetInternal. *)
Lemma wp_create_internal s d :
  underway s d → caching_status d = StatusDisabled →
  wp h (create_internal req d) s (λ r s',
    r = None ∧ underway s' d ∧ is_Some (view s' KDatasetInternal req) ∧
    (progress s d ≤ progress s' d)%nat ∧ view s' KPVC req = view s KPVC req ∧
    (view s KDatasetInternal req = None → synced s' d)).
Proof using Type*.
  intros Huw Hc. unfold create_internal.
  destruct (view s KDatasetInternal req) as [i|] eqn:Hi.
  { apply (wp_kget_some h KDatasetInternal req _ s i _ Hi). by apply wp_ret; split_and!. }
  apply (wp_kget_none h KDatasetInternal req _ s _ Hi).
  change (IsNotFound NotFound) with true. cbn iota. unfold internal_spec.
  rewrite decide_False by apply (uw_type _ _ Huw). apply wp_bind, wp_ret.
  apply (wp_kset_owner h). intros o [refs ->]. set (o := set_meta _ _ _).
  assert (okey KDatasetInternal o = req) as Hok by exact (uw_key _ _ Huw).
  apply (wp_kcreate h); [by rewrite Hok|].
  intros o' s' (Hm & Hspec & Hdel & _ & Hch & Hsur). rewrite Hok in Hch. apply wp_ret.
  cbn in Hdel, Hspec. pose proof (changed_here h _ _ _ _ _ Hch) as Hv.
  split; [done|]. split_and!.
  - eapply underway_internal; try done. rewrite <-(uw_key _ _ Huw). exact (sm_key _ _ _ Hm).
  - by rewrite Hv.
  - unfold progress. rewrite Hi, Hv. lia.
  - eapply changed_kind; [exact Hch|done].
  - intros _. exists o'. split; [done|].
    pose proof (sm_labels _ _ _ Hm) as Hlab. cbn in Hlab. by rewrite Hlab.
Qed.

Lemma wp_Reconcile s d :
  underway s d → is_Some (view s KPVC req) → wp h (Reconcile req) s (advanced s d).
Proof using Type*.
  intros Huw Hpvc. unfold Reconcile.
  apply (wp_kget_some h KDataset req _ s d _ (uw_stored _ _ Huw)).
  pose proof (uw_caching _ _ Huw) as Hcs. pose proof (uw_provision _ _ Huw) as Hps.
  destruct (decide (caching_status d = StatusEmpty ∨ provision_status d = StatusEmpty)) as [He|He].
  { destruct (initialize_unset d He) as (st & Hinit & Hr & Hst). rewrite Hinit.
    unfold initial_status_update. change (om_Name (ds_Meta (set_status d st)))
      with (nn_Name (key_of (ds_Meta d))). rewrite (uw_key _ _ Huw), (uw_name _ _ Huw).
    apply wp_status_advances; [done|done|..]; rewrite Hst; clear Hst; cbn [fst snd];
      (case_decide; [|done]); rewrite !elem_of_cons; tauto. }
  assert (initializeDatasetStatus d = (false, d)) as ->.
  { unfold initializeDatasetStatus. rewrite (decide_False (P := provision_status d = _)) by tauto.
    by rewrite decide_False by tauto. }
  case_decide as Hc; [apply wp_caching; tauto|].
  assert (caching_status d = StatusDisabled) as Hdis.
  { rewrite !elem_of_cons in Hcs. destruct Hcs as [?|[?|[?|[]%not_elem_of_nil]]]; tauto. }
  rewrite decide_True by done. unfold or_else at 1. apply wp_bind.
  eapply wp_mono; [by apply wp_create_internal|].
  intros r s1 (-> & Huw1 & Hi1 & Hpr & Hp1 & _). cbn beta iota.
  eapply wp_mono; [apply wp_final; [tauto..|by rewrite Hp1]|].
  intros res s' (-> & d' & Huw' & Hsame & Hadv). split; [done|]. exists d'.
  split_and!; [done|done|]. destruct Hadv; [left; lia|by right].
Qed.

(** [n] reconciliations, one after the other. *)
Fixpoint reconciles (n : nat) (s : S) : S :=
  match n with
  | O => s
  | Datatypes.S n => reconciles n (final (run h (Reconcile req) s))
  end.

(** The Dataset reconciler spares what is not its own. *)
Lemma permitted_spares evs o k n :
  permitted req evs o → k ≠ KDataset → k ≠ KDatasetInternal → k ≠ KJob → ¬ targets o k n.
Proof using Type*.
  destruct 1 as [o Hr| | | | |]; [destruct o; try discriminate Hr; cbn; tauto|..];
    cbn; intros ??? [Heq _]; by subst.
Qed.

Lemma Reconcile_spares k s n :
  k ≠ KDataset → k ≠ KDatasetInternal → k ≠ KJob →
  view (final (run h (Reconcile req) s)) k n = view s k n.
Proof using Type*.
  intros. apply (run_spares h) with (evs := []).
  eapply guarded_mono; [|apply Reconcile_permitted].
  intros evs o Ho n'. by apply (permitted_spares evs).
Qed.

Lemma reconciles_spares k m s n :
  k ≠ KDataset → k ≠ KDatasetInternal → k ≠ KJob → view (reconciles m s) k n = view s k n.
Proof using Type*.
  intros. revert s. induction m as [|m IH]; intros s; [done|]. cbn [reconciles].
  by rewrite IH, Reconcile_spares.
Qed.

Lemma reconciles_advance n s d :
  underway s d → is_Some (view s KPVC req) → (6 - progress s d < n)%nat →
  ∃ d', underway (reconciles n s) d' ∧ same_dataset d d' ∧
    progress (reconciles n s) d' = 6%nat ∧ synced (reconciles n s) d'.
Proof using Type*.
  revert s d. induction n as [|n IH]; intros s d Huw Hpvc Hn; [lia|]. cbn [reconciles].
  destruct (wp_Reconcile s d Huw Hpvc) as (_ & d' & Huw' & [Hsp Hls] & Hadv).
  set (s' := final (run h (Reconcile req) s)) in *.
  pose proof (progress_bound s' d').
  destruct (decide (n = 0%nat)) as [->|Hn0].
  - cbn. exists d'. destruct Hadv as [Hlt|[Hpr Hsy]]; [|by split_and!].
    pose proof (progress_bound s d). lia.
  - assert (6 - progress s' d' < n)%nat as Hn' by (destruct Hadv; lia).
    assert (is_Some (view s' KPVC req)) as Hpvc' by (unfold s'; by rewrite Reconcile_spares).
    destruct (IH s' d' Huw' Hpvc' Hn') as (d2 & Huw2 & [Hsp2 Hls2] & Hpr2 & Hsy2).
    exists d2. split_and!; [done| |done|done]. split; congruence.
Qed.
End Progress.

(** The final state of a dataset whose claim is bound. *)
Definition converged {S : Type} (h : handler Kube S) `{!ApiServer h} (req : NamespacedName)
    (d : Dataset) (s' : S) : Prop :=
  ∃ d' i,
    view s' KDataset req = Some d' ∧ ds_Spec d' = ds_Spec d ∧
    caching_status d' = StatusDisabled ∧ provision_status d' = StatusOK ∧
    view s' KDatasetInternal req = Some i ∧ di_Spec i = ds_Spec d ∧
    map_get (om_Labels (di_Meta i)) "remove-on-delete"
    = map_get (om_Labels (ds_Meta d)) "remove-on-delete" ∧
    result (run h (Reconcile req) s') = (result_done, None).

Lemma Reconcile_converges_aux {S : Type} (h : handler Kube S) `{!ApiServer h}
    (req : NamespacedName) (s : S) (d : Dataset) (n : nat) :
  underway h req s d → is_Some (view s KPVC req) → (7 ≤ n)%nat →
  converged h req d (reconciles h req n s).
Proof.
  intros Huw Hpvc Hn.
  destruct (reconciles_advance h req n s d Huw Hpvc ltac:(lia)) as
    (d' & Huw' & [Hsp Hls] & Hpr & (i & Hi & Hl)).
  assert (is_Some (view (reconciles h req n s) KPVC req)) as Hpvc'
    by (by rewrite reconciles_spares).
  exists d', i. pose proof (uw_internal _ _ _ _ Huw' i Hi) as (Hspi & _ & _).
  assert (rank (ds_Status d') = 5%nat) as Hr.
  { unfold progress in Hpr. rewrite Hi in Hpr. lia. }
  unfold rank, statuses in Hr. cbn [fst snd] in Hr.
  fold (caching_status d') (provision_status d') in Hr.
  pose proof (uw_caching _ _ _ _ Huw') as Hc. pose proof (uw_provision _ _ _ _ Huw') as Hp.
  assert (caching_status d' = StatusDisabled ∧ provision_status d' = StatusOK) as [Hcd Hpo].
  { assert (caching_status d' = StatusEmpty ∨ caching_status d' = StatusInitial ∨
      caching_status d' = StatusDisabled) as Hcc by set_solver.
    assert (provision_status d' = StatusEmpty ∨ provision_status d' = StatusInitial ∨
      provision_status d' = StatusPending ∨ provision_status d' = StatusOK) as Hpp
      by set_solver.
    destruct Hcc as [Hx|[Hx|Hx]], Hpp as [Hy|[Hy|[Hy|Hy]]];
      rewrite Hx, Hy in Hr; vm_compute in Hr; done. }
  split_and!; try done; try congruence.
  - apply (uw_stored _ _ _ _ Huw').
  - by destruct (wp_Reconcile h req _ _ Huw' Hpvc') as (-> & _).
Qed.


(** ** Witnesses *)

Definition demo_req : NamespacedName := MkNamespacedName "default" "example-dataset".

Definition demo_dataset : Dataset :=
  MkDataset
    (new_meta "example-dataset" "default"
       (Some {[ "remove-on-delete" := "true" ]}))
    (MkDatasetSpec
       (Some (list_to_map [("type", "COS"); ("endpoint", "http://minio:9000");
                           ("bucket", "books/2024"); ("accessKeyID", "id");
                           ("secretAccessKey", "key")]))
       None "" "" "" "")
    empty_status.

Definition demo_claim : PersistentVolumeClaim :=
  MkPVC (new_meta "example-dataset" "default" None) [ReadWriteMany] "" "csi-s3"
    (Some "5Gi") None ClaimBound.

Definition empty_server : MemServer :=
  MkMemServer (λ _ _, None) [] [] (λ _, "dlf") [] 0.

Definition demo_server : MemServer :=
  store (store empty_server KDataset demo_req (Some demo_dataset)) KPVC demo_req
    (Some demo_claim).

Lemma demo_underway : underway mem_handler demo_req demo_server demo_dataset.
Proof.
  split; try done; [set_solver|set_solver|by intros pvc [= <-]].
Qed.


Lemma justified_witness :
  ∃ pre o r post,
    events mem_handler (Reconcile demo_req) demo_server = pre ++ Ev o r :: post ∧
    is_write o = true ∧ permitted demo_req pre o.
Proof.
  eexists [_], _, _, []. split; [reflexivity|]. split; [reflexivity|].
  eapply (Reconcile_justified demo_req _ _ _ _ _ _
    (run_behaviour mem_handler (Reconcile demo_req) demo_server)).
  reflexivity.
Defined.

Definition pending_status : DatasetStatus :=
  MkDatasetStatus (MkCondition StatusPending "") (MkCondition StatusPending "").
Definition ok_status : DatasetStatus :=
  MkDatasetStatus (MkCondition StatusPending "") (MkCondition StatusOK "").
Definition pending_dataset : Dataset := set_status demo_dataset pending_status.

Definition pending_server : MemServer :=
  store demo_server KDataset demo_req (Some pending_dataset).

Lemma pending_to_ok : reconciler_step "example-dataset" pending_status ok_status.
Proof.
  exists demo_req, (events mem_handler (Reconcile demo_req) pending_server),
    (result (run mem_handler (Reconcile demo_req) pending_server)),
    [Ev (E := Kube) (Get KDataset demo_req) (inr pending_dataset);
     Ev (E := Kube) (Get KPVC demo_req) (inr demo_claim)],
    pending_dataset, (set_status pending_dataset ok_status), None, [].
  split; [apply run_behaviour|].
  split; [vm_compute; reflexivity|]. split; [by eexists|]. by split_and!.
Qed.

Lemma lifecycle_witness :
  (nsteps (status_change "example-dataset") 1 pending_status ok_status ∧ (1 ≤ 5)%nat) ∧
  (statuses ok_status).1 = (statuses pending_status).1.
Proof.
  assert (nsteps (status_change "example-dataset") 1 pending_status ok_status) as Hn.
  { apply nsteps_once. exists pending_status.
    split_and!; [apply rtc_refl|exact pending_to_ok|done]. }
  split.
  - split; [done|]. exact (proj2 (status_lifecycle _ 1 pending_status ok_status) Hn).
  - apply (proj1 (status_lifecycle "example-dataset" 1 pending_status ok_status));
      [by apply rtc_once, pending_to_ok|done|done].
Defined.
