(* ===== verification/Url.v ===== *)
(** * Package [net/url]: [Parse]

    What the program uses of a parsed URL is its scheme, its host, its path and
    whether it could be parsed.  [Parse] follows the standard library: the fragment
    and the query are cut off, the scheme is read, the authority is split into user
    and host, and the host and the path are unescaped.  An error is [None]. *)

From Stdlib Require Import ZArith Lia Ascii.
From stdpp Require Import options.
From S2P Require Import Prelude GoStd.

Open Scope Z_scope.

Record URL := MkURL {
  url_Scheme : string;
  url_Opaque : string;
  url_Host : string;
  url_Path : string }.

(** ** Characters *)

Definition code (c : ascii) : Z := Z.of_nat (nat_of_ascii c).
Definition between (lo hi c : ascii) : bool := (code lo <=? code c) && (code c <=? code hi).
Definition is_letter (c : ascii) : bool := between "a" "z" c || between "A" "Z" c.
Definition is_digit (c : ascii) : bool := between "0" "9" c.

Definition hex_value (c : ascii) : option Z :=
  if is_digit c then Some (code c - 48)
  else if between "a" "f" c then Some (code c - 87)
  else if between "A" "F" c then Some (code c - 55)
  else None.

Definition is_ctl (c : ascii) : bool := (code c <? 32) || (code c =? 127).

Fixpoint string_forall (p : ascii → bool) (s : string) : bool :=
  match s with
  | "" => true
  | String c s => p c && string_forall p s
  end.

Definition char_in (c : ascii) (s : string) : bool :=
  negb (string_forall (λ d, negb (bool_decide (d = c))) s).

(** ** Escapes *)

Inductive encoding := encodePath | encodeZone | encodeHost | encodeUserPassword | encodeFragment.

#[export] Instance encoding_eq_dec : EqDecision encoding.
Proof. solve_decision. Defined.

Definition is_host (mode : encoding) : bool :=
  bool_decide (mode = encodeHost ∨ mode = encodeZone).

(** [shouldEscape] for the characters of a host. *)
Definition host_char (c : ascii) : bool :=
  is_letter c || is_digit c || char_in c "!$&'()*+,;=:[]<>-_.~" || bool_decide (c = "034"%char).

(** [unescape]; in a host only bytes above 127 and [%25] may be escaped. *)
Fixpoint unescape (mode : encoding) (s : string) : option string :=
  match s with
  | "" => Some ""
  | String "%" s =>
      match s with
      | String h1 (String h2 rest) =>
          match hex_value h1, hex_value h2 with
          | Some v1, Some v2 =>
              let v := 16 * v1 + v2 in
              if bool_decide (mode = encodeHost) && (v1 <? 8)
                 && negb (bool_decide (h1 = "2"%char ∧ h2 = "5"%char)) then None
              else if bool_decide (mode = encodeZone)
                 && negb (bool_decide (h1 = "2"%char ∧ h2 = "5"%char))
                 && negb (v =? 32)
                 && negb (host_char (ascii_of_nat (Z.to_nat v)))
              then None
              else
                rest ← unescape mode rest;
                Some (String (ascii_of_nat (Z.to_nat v)) rest)
          | _, _ => None
          end
      | _ => None
      end
  | String c s =>
      if is_host mode && (code c <? 128) && negb (host_char c) then None
      else rest ← unescape mode s; Some (String c rest)
  end.

(** ** Splitting at the last occurrence *)

(** [LastIndex]: the text before and after the last [sep]. *)
Fixpoint cut_last (s : string) (sep : ascii) : option (string * string) :=
  match s with
  | "" => None
  | String c s =>
      match cut_last s sep with
      | Some (b, a) => Some (String c b, a)
      | None => if decide (c = sep) then Some ("", s) else None
      end
  end.

Definition validOptionalPort (port : string) : bool :=
  match port with
  | "" => true
  | String ":" digits => string_forall is_digit digits
  | _ => false
  end.

Definition parseHost (host : string) : option string :=
  if HasPrefix host "[" then
    '(inside, colonPort) ← cut_last host "]";
    if validOptionalPort colonPort then
      match cut_at inside "%25" with
      | Some (addr, zone) =>
          host1 ← unescape encodeHost addr;
          host2 ← unescape encodeZone ("%25" +:+ zone);
          host3 ← unescape encodeHost ("]" +:+ colonPort);
          Some (host1 +:+ host2 +:+ host3)
      | None => unescape encodeHost host
      end
    else None
  else
    match cut_last host ":" with
    | Some (_, port) =>
        if validOptionalPort (":" +:+ port) then unescape encodeHost host else None
    | None => unescape encodeHost host
    end.

Definition validUserinfo (s : string) : bool :=
  string_forall (λ c, is_letter c || is_digit c || char_in c "-._:~!$&'()*+,;=%@") s.

(** The host of an authority; the user information must be well-formed. *)
Definition parseAuthority (authority : string) : option string :=
  match cut_last authority "@" with
  | None => parseHost authority
  | Some (userinfo, hostport) =>
      host ← parseHost hostport;
      if validUserinfo userinfo then
        let '(username, password, _) := Cut userinfo ":" in
        _ ← unescape encodeUserPassword username;
        _ ← unescape encodeUserPassword password;
        Some host
      else None
  end.

(** ** Parse *)

(** [getScheme]: an error, or the scheme and the rest. *)
Fixpoint scheme_loop (raw s : string) (scheme : string) : option (string * string) :=
  match s with
  | "" => Some ("", raw)
  | String c s =>
      if is_letter c then scheme_loop raw s (scheme +:+ String c "")
      else if is_digit c || char_in c "+-." then
        if decide (scheme = "") then Some ("", raw)
        else scheme_loop raw s (scheme +:+ String c "")
      else if bool_decide (c = ":"%char) then
        if decide (scheme = "") then None else Some (scheme, s)
      else Some ("", raw)
  end.
Definition getScheme (rawURL : string) : option (string * string) :=
  scheme_loop rawURL rawURL "".

(** The part of a URL before the query. *)
Definition before_query (rest : string) : string := (Cut rest "?").1.1.

Definition parse (rawURL : string) : option URL :=
  if negb (string_forall (λ c, negb (is_ctl c)) rawURL) then None
  else if decide (rawURL = "*") then Some (MkURL "" "" "" "*")
  else
    '(scheme, rest) ← getScheme rawURL;
    let scheme := ToLower scheme in
    let rest := before_query rest in
    if negb (HasPrefix rest "/") && bool_decide (scheme ≠ "") then
      Some (MkURL scheme rest "" "")
    else if negb (HasPrefix rest "/") && char_in ":" (Cut rest "/").1.1 then None
    else if (bool_decide (scheme ≠ "") || negb (HasPrefix rest "///"))
            && HasPrefix rest "//" then
      let after := str_drop 2 rest in
      let '(authority, path, found) := Cut after "/" in
      host ← parseAuthority authority;
      path ← unescape encodePath (if (found : bool) then "/" +:+ path else "");
      Some (MkURL scheme "" host path)
    else
      path ← unescape encodePath rest;
      Some (MkURL scheme "" "" path).

Definition Parse (rawURL : string) : option URL :=
  let '(u, frag, _) := Cut rawURL "#" in
  url ← parse u;
  _ ← unescape encodeFragment frag;
  Some url.

Example Parse_examples :
  Parse <$> ["s3a://warehouse/db/t"; "https://user:pw@minio:9000/a%20b?x=1#f";
             "http://[fe80::1%25en0]:80/"; "mailto:x@y"; ":9083"; "http://a:b"; "/p";
             "http://a b/"; "a:%zz"; "hdfs://nn:8020/warehouse/%zz"]
  = [Some (MkURL "s3a" "" "warehouse" "/db/t");
     Some (MkURL "https" "" "minio:9000" "/a b");
     Some (MkURL "http" "" "[fe80::1%en0]:80" "/");
     Some (MkURL "mailto" "x@y" "" ""); None; None; Some (MkURL "" "" "" "/p");
     None; Some (MkURL "a" "%zz" "" ""); None].
Proof. vm_compute. reflexivity. Qed.

(** ** Plain URLs *)

(** Bucket and path names without characters that mean something in a URL. *)
Definition plain_char (c : ascii) : bool := is_letter c || is_digit c || char_in c "-_.~".
Definition plain (s : string) : bool := string_forall plain_char s.
Definition plain_path (s : string) : bool :=
  string_forall (λ c, plain_char c || bool_decide (c = "/"%char)) s.

Lemma string_forall_app p s t : string_forall p (s +:+ t) = string_forall p s && string_forall p t.
Proof.
  induction s as [|c s IH]; [done|]. change (String c s +:+ t) with (String c (s +:+ t)).
  cbn. by rewrite IH, andb_assoc.
Qed.

Lemma string_forall_impl (p q : ascii → bool) s :
  (∀ c, p c = true → q c = true) → string_forall p s = true → string_forall q s = true.
Proof.
  intros Hpq. induction s as [|c s IH]; [done|]. cbn. rewrite !andb_true_iff.
  intros [Hc Hs]. auto.
Qed.

(** A fact about every character, checked on all of them. *)
Lemma ascii_all (p : ascii → bool) :
  forallb p (ascii_of_nat <$> seq 0 256) = true → ∀ c, p c = true.
Proof.
  rewrite forallb_forall. intros Hp c. apply Hp. apply list_elem_of_In.
  rewrite <-(ascii_nat_embedding c). apply list_elem_of_fmap. eexists. split; [done|].
  apply elem_of_seq. pose proof (nat_ascii_bounded c). lia.
Qed.

Lemma plain_char_ok c :
  plain_char c = true →
  host_char c = true ∧ is_ctl c = false ∧ c ≠ "%"%char ∧ c ≠ "/"%char ∧ c ≠ ":"%char ∧
  c ≠ "@"%char ∧ c ≠ "?"%char ∧ c ≠ "#"%char ∧ c ≠ "["%char.
Proof.
  intros Hc.
  assert (implb (plain_char c) (host_char c && negb (is_ctl c)
    && forallb (λ d, negb (bool_decide (c = d))) ["%"; "/"; ":"; "@"; "?"; "#"; "["]%char)
    = true) as Hall.
  { revert c Hc. intros c _. revert c. apply ascii_all. vm_compute. reflexivity. }
  rewrite Hc in Hall. cbn [implb forallb] in Hall.
  rewrite !andb_true_iff, !negb_true_iff in Hall. destruct_and!.
  repeat match goal with H : bool_decide _ = false |- _ => apply bool_decide_eq_false in H end.
  by split_and!.
Qed.

Lemma unescape_plain mode s :
  string_forall (λ c, plain_char c || (bool_decide (c = "/"%char) && negb (is_host mode))) s = true →
  unescape mode s = Some s.
Proof.
  induction s as [|c s IH]; [done|]. cbn [string_forall]. rewrite andb_true_iff.
  intros [Hc Hs]. specialize (IH Hs).
  assert (c ≠ "%"%char ∧ (is_host mode = true → host_char c = true)) as [Hp Hh].
  { apply orb_true_iff in Hc as [Hc|Hc].
    - apply plain_char_ok in Hc. tauto.
    - apply andb_true_iff in Hc as [Hc Hm]. apply bool_decide_eq_true in Hc as ->.
      split; [done|]. intros Hx. by rewrite Hx in Hm. }
  assert (unescape mode (String c s) =
    if is_host mode && (code c <? 128) && negb (host_char c) then None
    else rest ← unescape mode s; Some (String c rest)) as ->.
  { destruct c as [[] [] [] [] [] [] [] []]; try reflexivity. by exfalso. }
  rewrite IH. destruct (is_host mode) eqn:Hm; [|done].
  rewrite (Hh eq_refl), andb_false_r. done.
Qed.

Lemma Cut_absent s c : string_forall (λ d, negb (bool_decide (d = c))) s = true → Cut s c = (s, "", false).
Proof.
  induction s as [|d s IH]; [done|]. cbn. rewrite andb_true_iff. intros [Hd Hs].
  apply negb_true_iff, bool_decide_eq_false in Hd. rewrite decide_False by done.
  by rewrite (IH Hs).
Qed.

Lemma Cut_present s c t :
  string_forall (λ d, negb (bool_decide (d = c))) s = true →
  Cut (s +:+ String c t) c = (s, t, true).
Proof.
  induction s as [|d s IH]; [intros _; change ("" +:+ String c t) with (String c t); cbn; by rewrite decide_True|].
  change (String d s +:+ String c t) with (String d (s +:+ String c t)).
  cbn. rewrite andb_true_iff. intros [Hd Hs].
  apply negb_true_iff, bool_decide_eq_false in Hd. rewrite decide_False by done.
  by rewrite (IH Hs).
Qed.

Lemma cut_last_absent s c :
  string_forall (λ d, negb (bool_decide (d = c))) s = true → cut_last s c = None.
Proof.
  induction s as [|d s IH]; [done|]. cbn. rewrite andb_true_iff. intros [Hd Hs].
  apply negb_true_iff, bool_decide_eq_false in Hd. rewrite (IH Hs).
  by rewrite decide_False.
Qed.

Lemma plain_absent s c : plain s = true → plain_char c = false →
  string_forall (λ d, negb (bool_decide (d = c))) s = true.
Proof.
  intros Hs Hc. eapply string_forall_impl; [|exact Hs]. intros d Hd.
  apply negb_true_iff, bool_decide_eq_false. intros ->. congruence.
Qed.

Lemma plain_path_absent s c : plain_path s = true → plain_char c = false → c ≠ "/"%char →
  string_forall (λ d, negb (bool_decide (d = c))) s = true.
Proof.
  intros Hs Hc Hne. eapply string_forall_impl; [|exact Hs]. intros d Hd.
  apply negb_true_iff, bool_decide_eq_false. intros ->.
  apply orb_true_iff in Hd as [Hd|Hd]; [congruence|].
  by apply bool_decide_eq_true in Hd.
Qed.

Lemma plain_not_ctl s : plain s = true → string_forall (λ c, negb (is_ctl c)) s = true.
Proof.
  apply string_forall_impl. intros c Hc. apply plain_char_ok in Hc as (_ & -> & _). done.
Qed.

Lemma plain_path_not_ctl s : plain_path s = true → string_forall (λ c, negb (is_ctl c)) s = true.
Proof.
  apply string_forall_impl. intros c Hc. apply orb_true_iff in Hc as [Hc|Hc].
  - apply plain_char_ok in Hc as (_ & -> & _). done.
  - by apply bool_decide_eq_true in Hc as ->.
Qed.

(** Object store locations with plain names are parsed into their parts. *)
Lemma Parse_plain scheme bucket path :
  scheme ∈ ["s3"; "s3a"; "s3n"; "http"; "https"] → plain bucket = true → plain_path path = true →
  Parse (scheme +:+ "://" +:+ bucket +:+ "/" +:+ path) =
    Some (MkURL scheme "" bucket ("/" +:+ path)).
Proof.
  intros Hsch Hb Hp.
  set (rest := "//" +:+ bucket +:+ "/" +:+ path).
  assert (scheme +:+ "://" +:+ bucket +:+ "/" +:+ path = scheme +:+ String ":" rest) as ->
    by (by subst rest; destruct scheme).
  assert (∀ c, plain_char c = false → c ≠ "/"%char →
    string_forall (λ d, negb (bool_decide (d = c))) rest = true) as Habs.
  { intros c Hc Hne. subst rest. rewrite !string_forall_app. rewrite !andb_true_iff.
    split_and!; [|by apply plain_absent| |by apply plain_path_absent];
      cbn; by rewrite bool_decide_false. }
  assert (string_forall (λ c, negb (is_ctl c)) rest = true) as Hctl.
  { subst rest. rewrite !string_forall_app. rewrite !andb_true_iff.
    split_and!; [done|by apply plain_not_ctl|done|by apply plain_path_not_ctl]. }
  unfold Parse. rewrite Cut_absent; last first.
  { rewrite string_forall_app. apply andb_true_iff. split.
    - rewrite !elem_of_cons in Hsch.
      destruct Hsch as [->|[->|[->|[->|[->|?%not_elem_of_nil]]]]]; done.
    - cbn. by rewrite (Habs "#"%char). }
  cbn [mbind option_bind].
  assert (parse (scheme +:+ String ":" rest) = Some (MkURL scheme "" bucket ("/" +:+ path))) as ->;
    [|done].
  unfold parse. rewrite string_forall_app.
  assert (string_forall (λ c, negb (is_ctl c)) (String ":" rest) = true) as -> by exact Hctl.
  assert (string_forall (λ c, negb (is_ctl c)) scheme = true ∧
    scheme +:+ String ":" rest ≠ "*" ∧
    getScheme (scheme +:+ String ":" rest) = Some (scheme, rest) ∧
    ToLower scheme = scheme ∧ scheme ≠ "") as (-> & Hstar & Hget & Hlow & Hne).
  { rewrite !elem_of_cons in Hsch.
    destruct Hsch as [->|[->|[->|[->|[->|?%not_elem_of_nil]]]]]; done. }
  rewrite decide_False by done. cbn [andb negb]. rewrite Hget. cbn [mbind option_bind].
  rewrite Hlow. unfold before_query. rewrite (Cut_absent rest) by (by apply Habs).
  cbn [fst snd].
  assert (HasPrefix rest "/" = true) as -> by reflexivity.
  assert (HasPrefix rest "//" = true) as -> by (apply HasPrefix_spec; by eexists).
  rewrite (bool_decide_true (scheme ≠ "")) by done. cbn [negb andb orb].
  assert (str_drop 2 rest = bucket +:+ String "/" path) as -> by reflexivity.
  rewrite Cut_present by (by apply plain_absent). cbn [mbind option_bind].
  assert (parseAuthority bucket = Some bucket) as ->.
  { unfold parseAuthority. rewrite cut_last_absent by (by apply plain_absent).
    unfold parseHost.
    assert (HasPrefix bucket "[" = false) as ->.
    { destruct (HasPrefix bucket "[") eqn:E; [|done]. apply HasPrefix_spec in E as [t ->].
      change ("[" +:+ t) with (String "[" t) in Hb. discriminate Hb. }
    rewrite cut_last_absent by (by apply plain_absent).
    apply unescape_plain. eapply string_forall_impl; [|exact Hb]. intros c ->. done. }
  cbn [mbind option_bind].
  rewrite unescape_plain; [done|]. rewrite string_forall_app. apply andb_true_iff. split; [done|].
  eapply string_forall_impl; [|exact Hp]. intros c Hc.
  change (is_host encodePath) with false. cbn [negb]. by rewrite andb_true_r.
Qed.
