(* ===== verification/Metastore.v ===== *)
(** * The client of the Hive metastore

    Model of [controllers/metastore_client.go].  The Thrift client is not part of the
    repository: connecting, looking up tables and partitions are parameters, which
    may fail; a table that is looked up twice may have disappeared in between, so
    each lookup has an index.  [None] is a nil-pointer panic. *)

From Stdlib Require Import ZArith Lia Ascii.
From stdpp Require Import options.
From S2P Require Import Prelude GoStd KubeApi Url.

Open Scope Z_scope.

(** ** The metastore *)

Record HiveTable := MkHiveTable { tbl_Location : string }.

Class Metastore := {
  Client : Type;
  Open : string → Z → option Client;
  GetTable : nat → Client → string → string → option (option HiveTable);
  GetPartitionNames : Client → string → string → Z → option (list string);
  GetPartitionsByNames : Client → string → string → list string → option (list HiveTable) }.

(** ** Parsing the address *)

Definition parseCatalogUri (catalogUri : string) : goerr + string * Z :=
  match Split catalogUri ":" with
  | [host] => inr (host, 9083)
  | [host; port] => inr (host, (Atoi port).1)
  | _ => inl (InternalError "CatalogURI cannot be parsed.. quitting")
  end.

Definition getBucketFromS3Uri (loc : URL) : string :=
  let bucket := Join [url_Host loc; url_Path loc] "" in
  if HasSuffix bucket "/" then TrimRight bucket "/" else bucket.

(** The database and the table of an entry [<db-name>/<table-name>]. *)
Definition split_table (table : string) : option (string * string) :=
  match Split table "/" with
  | [tableName] => Some ("default", tableName)
  | [dbName; tableName] => Some (dbName, tableName)
  | _ => None
  end.

(** The bucket of an unpartitioned table. *)
Definition table_locations (location : string) : list string :=
  match Parse location with
  | None => []
  | Some loc => if HasPrefix (url_Scheme loc) "s3" then [getBucketFromS3Uri loc] else []
  end.

(** The loop over the partitions. *)
Fixpoint partition_locations (parts : list HiveTable) (locations : list string) : list string :=
  match parts with
  | [] => locations
  | part :: parts =>
      let '(proto, bucket) :=
        match Parse (tbl_Location part) with
        | None => ("", tbl_Location part)
        | Some loc => (url_Scheme loc, getBucketFromS3Uri loc)
        end in
      partition_locations parts
        (if HasPrefix proto "s3" then locations ++ [bucket] else locations)
  end.

Section Catalog.
Context `{Metastore}.

Definition processCatalogEntry (catHost : string) (catPort : Z) (table : string) :
    option (goerr + list string) :=
  match Open catHost catPort with
  | None => Some (inl (InternalError ("Cannot connect to the metastore : " +:+ catHost)))
  | Some hiveclient =>
      match split_table table with
      | None => Some (inl (BadRequest "Table name is in incorrect format "))
      | Some (dbName, tableName) =>
          match GetTable 0 hiveclient dbName tableName with
          | None | Some None =>
              Some (inl (BadRequest "Table could not be found in the catalog"))
          | Some (Some _) =>
              match GetPartitionNames hiveclient dbName tableName 256 with
              | None => Some (inl (InternalError "Table partitions could not be retrieved"))
              | Some [] =>
                  match GetTable 1 hiveclient dbName tableName with
                  | None | Some None => None
                  | Some (Some table) => Some (inr (table_locations (tbl_Location table)))
                  end
              | Some tblPartNames =>
                  match GetPartitionsByNames hiveclient dbName tableName tblPartNames with
                  | None => Some (inl (BadRequest "Could not look up Partition info"))
                  | Some tablePartitions => Some (inr (partition_locations tablePartitions []))
                  end
              end
          end
      end
  end.
End Catalog.

(** ** What the catalog lookup returns *)

Lemma partition_locations_app parts acc :
  partition_locations parts acc = acc ++ (parts ≫= λ p, table_locations (tbl_Location p)).
Proof.
  revert acc. induction parts as [|p parts IH]; intros acc; cbn [partition_locations].
  - by rewrite app_nil_r.
  - rewrite bind_cons. unfold table_locations at 1.
    destruct (Parse (tbl_Location p)) as [loc|]; [|by rewrite IH].
    destruct (HasPrefix (url_Scheme loc) "s3"); rewrite IH; [by rewrite <-app_assoc|done].
Qed.

(** A location in an object store. *)
Definition s3_location (scheme bucket path : string) : string :=
  scheme +:+ "://" +:+ bucket +:+ "/" +:+ path.

Lemma TrimRight_no_suffix s c : HasSuffix s (String c "") = false → TrimRight s c = s.
Proof.
  unfold TrimRight. induction s as [|d s IH]; [done|]. cbn [HasSuffix trim_right].
  intros [Hd Hs]%orb_false_iff. rewrite (IH Hs). destruct s; [|done].
  apply bool_decide_eq_false in Hd. rewrite bool_decide_false; [done|]. by intros ->.
Qed.

Lemma getBucketFromS3Uri_trim loc :
  getBucketFromS3Uri loc = TrimRight (url_Host loc +:+ url_Path loc) "/".
Proof.
  unfold getBucketFromS3Uri.
  assert (Join [url_Host loc; url_Path loc] "" = url_Host loc +:+ url_Path loc) as -> by done.
  cbn zeta. destruct (HasSuffix _ "/") eqn:Hs; [done|]. by rewrite TrimRight_no_suffix.
Qed.

Lemma table_locations_plain scheme bucket path :
  scheme ∈ ["s3"; "s3a"; "s3n"] → plain bucket = true → plain_path path = true →
  table_locations (s3_location scheme bucket path) = [TrimRight (bucket +:+ "/" +:+ path) "/"].
Proof.
  intros Hs Hb Hp. unfold table_locations, s3_location.
  rewrite Parse_plain by (done || set_solver). cbn [url_Scheme].
  assert (HasPrefix scheme "s3" = true) as -> by (set_unfold; naive_solver).
  by rewrite getBucketFromS3Uri_trim.
Qed.

(** Names without a slash, as databases and tables have. *)
Definition table_name (db tbl : string) : string := db +:+ "/" +:+ tbl.

Lemma split_table_name db tbl :
  no_char "/" db → no_char "/" tbl → split_table (table_name db tbl) = Some (db, tbl).
Proof.
  intros Hd Ht. unfold split_table, table_name.
  change ("/" +:+ tbl) with (String "/" tbl). rewrite Split_app_sep by done.
  by rewrite Split_id.
Qed.

(** (C39) The catalog lookup of a partitioned table [db/tbl] whose partitions lie at
    plain S3 locations returns the bucket and path of every partition, in the order
    of the metastore and without trailing slashes; it asks for at most 256
    partitions. *)
Theorem processCatalogEntry_partitions `{Metastore} (host : string) (port : Z)
    (client : Client) (db tbl : string) (found : HiveTable) (name : string)
    (names : list string) (locs : list (string * string * string))
    (Hopen : Open host port = Some client)
    (Hdb : no_char "/" db) (Htbl : no_char "/" tbl)
    (Htable : GetTable 0 client db tbl = Some (Some found))
    (Hnames : GetPartitionNames client db tbl 256 = Some (name :: names))
    (Hparts : GetPartitionsByNames client db tbl (name :: names) =
       Some ((λ l, MkHiveTable (s3_location l.1.1 l.1.2 l.2)) <$> locs))
    (Hplain : Forall (λ l, l.1.1 ∈ ["s3"; "s3a"; "s3n"] ∧ plain l.1.2 = true ∧
                           plain_path l.2 = true) locs) :
  processCatalogEntry host port (table_name db tbl) =
    Some (inr ((λ l, TrimRight (l.1.2 +:+ "/" +:+ l.2) "/") <$> locs)).
Proof.
  unfold processCatalogEntry. rewrite Hopen, split_table_name, Htable, Hnames by done.
  rewrite Hparts, partition_locations_app, app_nil_l. do 2 f_equal.
  clear Hparts. induction Hplain as [|[[sch b] p] locs (Hs & Hb & Hp) _ IH]; [done|].
  cbn [fmap list_fmap]. rewrite bind_cons. cbn [tbl_Location fst snd] in *.
  by rewrite table_locations_plain, IH.
Qed.

(** The address of a catalog can be written and read back: [host:port] is parsed
    into the host and the port for every host without a colon and every port a
    machine integer holds, and a host alone gets the standard port 9083. *)
Theorem parseCatalogUri_roundtrip (host : string) (port : Z)
    (Hhost : no_char ":" host) (Hport : minInt64 ≤ port ≤ maxInt64) :
  parseCatalogUri (host +:+ ":" +:+ Itoa port) = inr (host, port) ∧
  parseCatalogUri host = inr (host, 9083).
Proof.
  unfold parseCatalogUri. split.
  - change (":" +:+ Itoa port) with (String ":" (Itoa port)).
    rewrite Split_app_sep by done.
    rewrite Split_id; [by rewrite Atoi_Itoa by done|].
    unfold Itoa. destruct port as [|p|p]; [done|..].
    + apply (no_char_pretty (N.pos p) ":"). reflexivity.
    + change (no_char ":" ("-" +:+ pretty (N.pos p))). apply no_char_app. split; [done|].
      apply (no_char_pretty (N.pos p) ":"). reflexivity.
  - by rewrite Split_id.
Qed.

(** ** Witnesses *)

Definition demo_metastore : Metastore := {|
  Client := unit;
  Open host port := if decide (host = "hive" ∧ port = 9083) then Some tt else None;
  GetTable _ _ db tbl := Some (Some (MkHiveTable "s3a://warehouse/db/t"));
  GetPartitionNames _ _ _ _ := Some ["y=1"; "y=2"];
  GetPartitionsByNames _ _ _ _ :=
    Some [MkHiveTable "s3a://warehouse/db/t/y1"; MkHiveTable "s3://archive/"] |}.

Lemma partitions_witness :
  @processCatalogEntry demo_metastore "hive" 9083 "db/t"
  = Some (inr ["warehouse/db/t/y1"; "archive"]).
Proof.
  apply (@processCatalogEntry_partitions demo_metastore "hive" 9083 tt "db" "t"
    (MkHiveTable "s3a://warehouse/db/t") "y=1" ["y=2"]
    [("s3a", "warehouse", "db/t/y1"); ("s3", "archive", "")]); try reflexivity.
  - by cbn.
  - by cbn.
  - apply (bool_decide_unpack _). vm_compute. exact I.
Defined.

Lemma catalog_uri_witness : parseCatalogUri "hive.example:9999" = inr ("hive.example", 9999).
Proof.
  apply (parseCatalogUri_roundtrip "hive.example" 9999); [by cbn|].
  unfold minInt64, maxInt64. lia.
Defined.
