(* ===== verification/InternalController.v ===== *)
(** * The DatasetInternal reconciler

    Model of [controllers/datasetinternal_controller.go]: one definition per function,
    with the sequence of calls of the client as the code issues it.  A function that
    returns only an error is a program that returns an optional error; [None] of
    [processCatalogEntry] (a nil-pointer panic) ends the reconciliation with [None].
    [controllerutil.AddFinalizer] and [RemoveFinalizer] are parameters with their
    documented effect. *)

From Stdlib Require Import ZArith Lia Ascii.
From stdpp Require Import options.
From S2P Require Import Prelude GoStd KubeApi Base64 Metastore.

Open Scope Z_scope.

(** ** The library of finalizers *)

Class ControllerUtil := {
  AddFinalizer : list string → string → list string;
  RemoveFinalizer : list string → string → list string;
  AddFinalizer_spec l f x : x ∈ AddFinalizer l f ↔ x = f ∨ x ∈ l;
  RemoveFinalizer_spec l f x : x ∈ RemoveFinalizer l f ↔ x ≠ f ∧ x ∈ l }.

Definition set_finalizers (i : DatasetInternal) (fs : list string) : DatasetInternal :=
  let m := di_Meta i in
  MkDatasetInternal
    (MkObjectMeta (om_Name m) (om_Namespace m) (om_UID m) (om_ResourceVersion m)
       (om_Labels m) (om_Annotations m) fs (om_OwnerReferences m) (om_DeletionTimestamp m))
    (di_Spec i) (di_Placements i).

Definition datasetFinalizer : string := "dataset-finalizer".

Fixpoint contains (list : list string) (s : string) : bool :=
  match list with
  | [] => false
  | v :: list => if decide (v = s) then true else contains list s
  end.

Definition di_Name (cr : DatasetInternal) : string := om_Name (di_Meta cr).
Definition di_Namespace (cr : DatasetInternal) : string := om_Namespace (di_Meta cr).
Definition di_Local (cr : DatasetInternal) : gomap := spec_Local (di_Spec cr).
Definition di_Remote (cr : DatasetInternal) : gomap := spec_Remote (di_Spec cr).

(** The labels and the metadata of what is created for a dataset. *)
Definition dataset_labels (cr : DatasetInternal) : gomap := Some {[ "dataset" := di_Name cr ]}.
Definition dataset_meta (cr : DatasetInternal) : ObjectMeta :=
  new_meta (di_Name cr) (di_Namespace cr) (dataset_labels cr).

(** ** Creating what is missing *)

(** [Get], and [Create] if it was not found; another error of [Get] is returned if
    [strict] and ignored otherwise. *)
Definition create_if_missing (k : Kind) (strict : bool) (o : Object k) :
    prog Kube (option goerr) :=
  r ← kget k (key_of (meta_of k o));
  match r with
  | inl e =>
      if IsNotFound e then kcreate k o
      else Ret (if strict then Some e else None)
  | inr _ => Ret None
  end.

(** The same, for an object that the DatasetInternal is made the owner of. *)
Definition own_and_create (cr : DatasetInternal) (k : Kind) (strict : bool) (o : Object k) :
    prog Kube (option goerr) :=
  r ← kset_owner k (di_Meta cr) o;
  match r with
  | inl e => Ret (Some e)
  | inr o => create_if_missing k strict o
  end.

(** A volume and its claim, both owned; the errors of reading the claim are ignored. *)
Definition create_volume_and_claim (cr : DatasetInternal) (pv : PersistentVolume)
    (pvc : PersistentVolumeClaim) : prog Kube reconciled :=
  err ← own_and_create cr KPV true pv;
  match err with
  | Some e => Ret (result_done, Some e)
  | None =>
      err ← own_and_create cr KPVC false pvc;
      Ret (result_done, err)
  end.

Definition permissions_of (local : gomap) : option AccessMode :=
  match map_get local "permissions" with
  | None => Some ReadWriteMany
  | Some perm =>
      if decide (perm = "ReadOnly") then Some ReadOnlyMany
      else if decide (perm = "" ∨ perm = "ReadWrite") then Some ReadWriteMany
      else None
  end.

(** ** H3 *)

Definition h3_volume (cr : DatasetInternal) (uuid : string) : PersistentVolume :=
  MkPV (dataset_meta cr) "h3" [ReadWriteMany] "1Pi"
    (CSISource "csi-h3" (di_Name cr +:+ "-" +:+ str_take 6 uuid)
       (list_to_map [("storageUri", map_index (di_Local cr) "storageUri");
                     ("bucket", map_index (di_Local cr) "bucket")])).

Definition h3_claim (cr : DatasetInternal) (permissions : AccessMode) : PersistentVolumeClaim :=
  MkPVC (dataset_meta cr) [permissions] (di_Name cr) "h3" None
    (Some {[ "name" := di_Name cr ]}) ClaimPhaseEmpty.

Definition processLocalDatasetH3 (cr : DatasetInternal) : prog Kube reconciled :=
  if decide (map_index (di_Local cr) "storageUri" = "") then
    Ret (result_done, Some (BadRequest "storageUri missing or not valid"))
  else match permissions_of (di_Local cr) with
  | None => Ret (result_done, Some (BadRequest "permissions not supported"))
  | Some permissions =>
      uuid ← new_uuid;
      create_volume_and_claim cr (h3_volume cr uuid) (h3_claim cr permissions)
  end.

(** ** NFS *)

Definition nfs_volume (cr : DatasetInternal) (uuid : string) : PersistentVolume :=
  MkPV (dataset_meta cr) "csi-nfs" [ReadWriteMany] "5Gi"
    (CSISource "csi-nfsplugin" (di_Name cr +:+ "-" +:+ str_take 6 uuid)
       (list_to_map [("server", map_index (di_Local cr) "server");
                     ("share", map_index (di_Local cr) "share");
                     ("createDirPVC", default "false" (map_get (di_Local cr) "createDirPVC"))])).

Definition nfs_claim (cr : DatasetInternal) : PersistentVolumeClaim :=
  MkPVC (dataset_meta cr) [ReadWriteMany] (di_Name cr) "csi-nfs" (Some "5Gi") None
    ClaimPhaseEmpty.

Definition processLocalDatasetNFS (cr : DatasetInternal) : prog Kube reconciled :=
  foundPVC ← kget KPVC (MkNamespacedName (di_Namespace cr) (di_Name cr));
  match foundPVC with
  | inr _ => Ret (result_done, None)
  | inl _ =>
      uuid ← new_uuid;
      create_volume_and_claim cr (nfs_volume cr uuid) (nfs_claim cr)
  end.

(** ** HOST *)

Definition host_path_type (local : gomap) : option HostPathType :=
  match map_get local "hostPathType" with
  | None => Some HostPathDirectory
  | Some t =>
      if decide (t = "CreateNew") then Some HostPathDirectoryOrCreate
      else if decide (t = "" ∨ t = "Directory") then Some HostPathDirectory
      else None
  end.

Definition host_volume (cr : DatasetInternal) (permissions : AccessMode)
    (type : HostPathType) : PersistentVolume :=
  MkPV (dataset_meta cr) "hostpath" [permissions] "5Gi"
    (HostPathSource (map_index (di_Local cr) "path") type).

Definition host_claim (cr : DatasetInternal) (permissions : AccessMode) : PersistentVolumeClaim :=
  MkPVC (dataset_meta cr) [permissions] (di_Name cr) "hostpath" (Some "5Gi") None
    ClaimPhaseEmpty.

Definition processLocalDatasetHOST (cr : DatasetInternal) : prog Kube reconciled :=
  if decide (map_index (di_Local cr) "path" = "") then
    Ret (result_done, Some (BadRequest "path missing or not valid"))
  else match permissions_of (di_Local cr) with
  | None => Ret (result_done, Some (BadRequest "permissions not supported"))
  | Some permissions =>
      match host_path_type (di_Local cr) with
      | None => Ret (result_done, Some (BadRequest "HostPath type not supported"))
      | Some type =>
          create_volume_and_claim cr (host_volume cr permissions type)
            (host_claim cr permissions)
      end
  end.

(** ** Object storage *)

(** The boolean text of [mapString[key]], or the default when it is absent or not a
    boolean. *)
Definition getBooleanStringForKeyInMap (defaultValue key : string) (mapString : gomap) : string :=
  match map_get mapString key with
  | None => defaultValue
  | Some valueString =>
      match ParseBool valueString with
      | (valueBool, None) => FormatBool valueBool
      | (_, Some _) => defaultValue
      end
  end.

(** The Secret the dataset refers to, when it may be used: it must lie in the
    namespace of the dataset. *)
Definition usable_secret (cr : DatasetInternal) : option NamespacedName :=
  match map_get (di_Local cr) "secret-name" with
  | None => None
  | Some secretName =>
      match map_get (di_Local cr) "secret-namespace" with
      | None => Some (MkNamespacedName (di_Namespace cr) secretName)
      | Some secretNamespace =>
          if decide (secretNamespace = di_Namespace cr)
          then Some (MkNamespacedName secretNamespace secretName) else None
      end
  end.

Definition no_auth : goerr := BadRequest "No useable secret provided for authentication".

Definition key_pair (m : gomap) : goerr + string * string :=
  match map_get m "accessKeyID", map_get m "secretAccessKey" with
  | Some accessKeyID, Some secretAccessKey => inr (accessKeyID, secretAccessKey)
  | _, _ => inl no_auth
  end.

Definition has_keys (m : gomap) : bool :=
  match key_pair m with inr _ => true | inl _ => false end.

Definition checkAndExtractObjectStorageAccess (cr : DatasetInternal) :
    prog Kube (goerr + string * string) :=
  match usable_secret cr with
  | Some n =>
      cosSecret ← kget KSecret n;
      match cosSecret with
      | inl _ => Ret (inl no_auth)
      | inr cosSecret => Ret (key_pair (sec_Data cosSecret))
      end
  | None => Ret (key_pair (di_Local cr))
  end.

(** [createConfigMapforDataset]. *)
Definition createConfigMapforDataset (configMapData : gomap) (cr : DatasetInternal) :
    prog Kube (option goerr) :=
  own_and_create cr KConfigMap true (MkConfigMap (dataset_meta cr) configMapData).

Definition editable_values : list string := ["remove-on-delete"].

(** The body of the loop of [checkIfEditableValueChangeAndUpdate]. *)
Definition sync_value (updatedSecretData : gomap) (acc : Secret * bool) (label : string) :
    Secret * bool :=
  let '(existing, shouldUpdate) := acc in
  let valueOfExisting :=
    (DecodeString (EncodeToString (map_index (sec_Data existing) label))).1 in
  if decide (valueOfExisting ≠ map_index updatedSecretData label) then
    (MkSecret (sec_Meta existing) (sec_Data existing)
       (Some (<[label := map_index updatedSecretData label]>
                (default ∅ (sec_StringData existing)))), true)
  else (existing, shouldUpdate).

Definition checkIfEditableValueChangeAndUpdate (existingSecret updatedSecret : Secret) :
    prog Kube (option goerr) :=
  let '(existingSecret, shouldUpdate) :=
    foldl (sync_value (sec_StringData updatedSecret)) (existingSecret, false)
      editable_values in
  if (shouldUpdate : bool) then kupdate KSecret existingSecret else Ret None.

Definition cos_provision (cr : DatasetInternal) : string :=
  let provision := getBooleanStringForKeyInMap "false" "provision" (di_Local cr) in
  match map_get (di_Local cr) "provision" with
  | None => provision
  | Some provisionValueString =>
      match ParseBool provisionValueString with
      | (provisionBool, None) => FormatBool provisionBool
      | (_, Some _) => provision
      end
  end.

Definition cos_readonly (cr : DatasetInternal) : string :=
  getBooleanStringForKeyInMap "false" "readonly" (di_Local cr).

Definition cos_extract (cr : DatasetInternal) : string :=
  if decide (0 < String.length (spec_Extract (di_Spec cr)))%nat
  then spec_Extract (di_Spec cr) else "false".

(** The bucket and the folder in it. *)
Definition cos_bucket (cr : DatasetInternal) : string * string :=
  let '(bucket, prefix, _) := Cut (map_index (di_Local cr) "bucket") "/" in (bucket, prefix).

Definition cos_secret (cr : DatasetInternal) (accessKeyID secretAccessKey : string) : Secret :=
  MkSecret (dataset_meta cr) None (Some (list_to_map [
    ("accessKeyID", accessKeyID);
    ("secretAccessKey", secretAccessKey);
    ("endpoint", map_index (di_Local cr) "endpoint");
    ("bucket", (cos_bucket cr).1);
    ("folder", (cos_bucket cr).2);
    ("region", map_index (di_Local cr) "region");
    ("readonly", cos_readonly cr);
    ("extract", cos_extract cr);
    ("provision", cos_provision cr);
    ("remove-on-delete",
     getBooleanStringForKeyInMap "false" "remove-on-delete" (om_Labels (di_Meta cr)))])).

Definition cos_config (cr : DatasetInternal) : gomap :=
  Some (list_to_map [
    ("endpoint", map_index (di_Local cr) "endpoint");
    ("bucket", (cos_bucket cr).1);
    ("folder", (cos_bucket cr).2);
    ("region", map_index (di_Local cr) "region")]).

Definition cos_claim (cr : DatasetInternal) : PersistentVolumeClaim :=
  MkPVC (dataset_meta cr)
    [if decide (cos_readonly cr = "true") then ReadOnlyMany else ReadWriteMany] ""
    "csi-s3" (Some "5Gi") None ClaimPhaseEmpty.

(** The Secret: created, or brought up to date. *)
Definition create_or_update_secret (secretObj : Secret) : prog Kube (option goerr) :=
  r ← kget KSecret (key_of (sec_Meta secretObj));
  match r with
  | inl e => if IsNotFound e then kcreate KSecret secretObj else Ret (Some e)
  | inr foundSecret => checkIfEditableValueChangeAndUpdate foundSecret secretObj
  end.

Definition processLocalDatasetCOS (cr : DatasetInternal) : prog Kube reconciled :=
  access ← checkAndExtractObjectStorageAccess cr;
  match access with
  | inl e => Ret (result_done, Some e)
  | inr (accessKeyID, secretAccessKey) =>
      err ← createConfigMapforDataset (cos_config cr) cr;
      match err with
      | Some e => Ret (result_done, Some e)
      | None =>
          err ← create_if_missing KPVC true (cos_claim cr);
          match err with
          | Some e => Ret (result_done, Some e)
          | None =>
              err ← create_or_update_secret (cos_secret cr accessKeyID secretAccessKey);
              Ret (result_done, err)
          end
      end
  end.

(** ** Remote datasets *)

Definition createPVCforObjectStorage (cr : DatasetInternal) : prog Kube (option goerr) :=
  own_and_create cr KPVC true
    (MkPVC (dataset_meta cr) [ReadWriteOnce] "" "csi-s3" (Some "5Gi") None ClaimPhaseEmpty).

(** The port of the metastore service: the last one called [metastore] or unnamed. *)
Definition service_port (ports : list ServicePort) : Z :=
  foldl (λ catalogPort port,
    if decide (port_Name port = "metastore" ∨ port_Name port = "") then port_Port port
    else catalogPort) 0 ports.

(** Where the catalog is. *)
Definition catalog_address (cr : DatasetInternal) : prog Kube (goerr + string * Z) :=
  match map_get (di_Remote cr) "catalogURI" with
  | None =>
      r ← kget KService (MkNamespacedName (di_Namespace cr) "hivemetastore");
      match r with
      | inl _ => Ret (inl (BadRequest "no catalogURI provided"))
      | inr svc =>
          if decide (svc_ClusterIP svc = "") then
            Ret (inl (BadRequest "Catalog address was not found"))
          else Ret (inr (svc_ClusterIP svc, service_port (svc_Ports svc)))
      end
  | Some catalogUri =>
      match parseCatalogUri catalogUri with
      | inl _ => Ret (inl (BadRequest "CatalogUri in the wrong format"))
      | inr address => Ret (inr address)
      end
  end.

Fixpoint bucket_data (bukits : list string) (i : Z) (data : gmap string string) :
    gmap string string :=
  match bukits with
  | [] => data
  | bkt :: bukits => bucket_data bukits (i + 1) (<["bucket." +:+ Itoa i := bkt]> data)
  end.

Definition catalog_data (host : string) (port : Z) (table : string) (bukits : list string) :
    gmap string string :=
  <["numBuckets" := Itoa (Z.of_nat (length bukits))]>
  (<["table" := table]>
  (<["catalogPort" := Itoa port]>
  (<["catalogHost" := host]> (bucket_data bukits 0 ∅)))).

Definition remote_secret (cr : DatasetInternal) (endpoint : string)
    (bucketData : gmap string string) : Secret :=
  MkSecret (dataset_meta cr) None (Some (list_to_map [
    ("endpoint", endpoint);
    ("accessKeyID", map_index (di_Remote cr) "accessKeyID");
    ("secretAccessKey", map_index (di_Remote cr) "secretAccessKey");
    ("region", map_index (di_Remote cr) "region");
    ("bucket", default "" (bucketData !! "bucket.0"))])).

Definition mount_allowed (remote : gomap) : bool :=
  match map_get remote "mountAllowed" with
  | None => false
  | Some v => match ParseBool v with (b, None) => b | (_, Some _) => false end
  end.

(** What is created for the buckets of a catalog entry. *)
Definition create_remote (cr : DatasetInternal) (endpoint : string)
    (bucketData : gmap string string) : prog Kube reconciled :=
  err ← createConfigMapforDataset (Some bucketData) cr;
  match err with
  | Some _ => Ret (result_done, Some (ServiceUnavailable "Unable to initialise dataset"))
  | None =>
      err ← own_and_create cr KSecret true (remote_secret cr endpoint bucketData);
      match err with
      | Some e => Ret (result_done, Some e)
      | None =>
          if mount_allowed (di_Remote cr) then
            err ← createPVCforObjectStorage cr;
            match err with
            | Some _ =>
                Ret (result_done, Some (ServiceUnavailable "Unable to initialise dataset"))
            | None => Ret (result_done, None)
            end
          else Ret (result_done, None)
      end
  end.

Section Remote.
Context `{Metastore}.

Definition processRemoteDataset (cr : DatasetInternal) : prog Kube (option reconciled) :=
  let fail e := Ret (Some (result_done, Some e)) in
  if decide (map_index (di_Remote cr) "type" = "CatalogEntry") then
    address ← catalog_address cr;
    match address with
    | inl e => fail e
    | inr (catalogHost, catalogPort) =>
        match map_get (di_Remote cr) "table", map_get (di_Remote cr) "endpoint" with
        | None, _ => fail (BadRequest "no table provided for lookup")
        | Some _, None => fail (BadRequest "no endpoints provided for s3 buckets")
        | Some table, Some endpoint =>
            match processCatalogEntry catalogHost catalogPort table with
            | None => Ret None
            | Some (inl _) =>
                fail (BadRequest ("Could not query catalog at address: "
                                  +:+ map_index (di_Remote cr) "catalogURI"))
            | Some (inr []) => fail (BadRequest "No records obtained from the catalog")
            | Some (inr bukits) =>
                Some <$> create_remote cr endpoint
                           (catalog_data catalogHost catalogPort table bukits)
            end
        end
    end
  else fail (BadRequest "Unsupported dataset entry type").

(** ** Reconcile *)

Context `{ControllerUtil}.

Definition addFinalizer (m : DatasetInternal) : prog Kube (option goerr) :=
  kupdate KDatasetInternal
    (set_finalizers m (AddFinalizer (om_Finalizers (di_Meta m)) datasetFinalizer)).

(** The finalizer logic: the claim goes first, then the Secret, then the finalizer. *)
Definition finalize (req : NamespacedName) (instance : DatasetInternal) : prog Kube reconciled :=
  foundPVC ← kget KPVC req;
  match foundPVC with
  | inr foundPVC =>
      delErr ← kdelete KPVC foundPVC;
      Ret (result_requeue, delErr)
  | inl e =>
      if negb (IsNotFound e) then Ret (result_done, Some e)
      else
        found ← kget KSecret req;
        match found with
        | inr found =>
            _ ← kdelete KSecret found;
            Ret (result_requeue, None)
        | inl e =>
            if negb (IsNotFound e) then Ret (result_done, Some e)
            else
              err ← kupdate KDatasetInternal
                      (set_finalizers instance
                         (RemoveFinalizer (om_Finalizers (di_Meta instance)) datasetFinalizer));
              Ret (result_done, err)
        end
  end.

Definition datasetLocalProcessTable (type : string) :
    option (DatasetInternal → prog Kube reconciled) :=
  if decide (type = "COS") then Some processLocalDatasetCOS
  else if decide (type = "NFS") then Some processLocalDatasetNFS
  else if decide (type = "HOST") then Some processLocalDatasetHOST
  else if decide (type = "H3") then Some processLocalDatasetH3
  else None.

(** A reconciliation of an existing, live DatasetInternal. *)
Definition process (instance : DatasetInternal) : prog Kube (option reconciled) :=
  match di_Local instance with
  | Some _ =>
      match datasetLocalProcessTable (map_index (di_Local instance) "type") with
      | Some f =>
          r ← f instance;
          match r with
          | (result, Some _) =>
              Ret (Some (result, Some (BadRequest "Dataset could not be created")))
          | (result, None) => Ret (Some (result, None))
          end
      | None => Ret (Some (result_done, Some (BadRequest "Dataset type not supported")))
      end
  | None =>
      match di_Remote instance with
      | Some _ =>
          r ← processRemoteDataset instance;
          match r with
          | None => Ret None
          | Some (result, Some _) =>
              Ret (Some (result, Some (BadRequest "Could not process remote dataset")))
          | Some (result, None) => Ret (Some (result, None))
          end
      | None => Ret (Some (result_done, Some (BadRequest "Dataset type not supported")))
      end
  end.

Definition needs_finalizer (instance : DatasetInternal) : bool :=
  bool_decide (map_get (di_Local instance) "type" = Some "COS")
  && negb (contains (om_Finalizers (di_Meta instance)) datasetFinalizer).

Definition Reconcile (req : NamespacedName) : prog Kube (option reconciled) :=
  r ← kget KDatasetInternal req;
  match r with
  | inl e => Ret (Some (result_done, Some e))
  | inr instance =>
      if needs_finalizer instance then
        err ← addFinalizer instance;
        Ret (Some (result_done, err))
      else if decide (om_DeletionTimestamp (di_Meta instance) ≠ None) then
        if contains (om_Finalizers (di_Meta instance)) datasetFinalizer then
          Some <$> finalize req instance
        else Ret (Some (result_done, None))
      else process instance
  end.
End Remote.
