(* ===== verification/InternalSafety.v ===== *)
(** * The DatasetInternal reconciler: safety

    What holds for every API server: the reconciler stays in the namespace of the
    dataset, tears down in order, and rejects malformed specifications untouched. *)

From Stdlib Require Import ZArith Lia Ascii.
From stdpp Require Import options.
From S2P Require Import Prelude GoStd KubeApi KubeServer DatasetSafety Metastore InternalController.

Open Scope Z_scope.

(** ** Namespaces *)

(** What the client library guarantees of its answers: a read returns the object
    asked for, and taking ownership of an object changes its owners only. *)
Definition honest (e : event Kube) : Prop :=
  match e with
  | Ev (Get k n) (inr o) => okey k o = scoped k n
  | Ev (SetControllerReference k _ o) (inr o') => owned k o o'
  | _ => True
  end.

(** The namespace an operation acts in. *)
Definition op_namespace (o : kube_op) : option string :=
  match o with
  | Get _ n => Some (nn_Namespace n)
  | Create k o | Update k o | StatusUpdate k o | Delete k o | SetControllerReference k _ o =>
      Some (om_Namespace (meta_of k o))
  | ListPods opts => Some (lo_Namespace opts)
  | ListEvents ns _ | ListCephClusters ns => Some ns
  | ListNodes _ | Getenv _ | NewUUID => None
  end.

Definition within (ns : string) (evs : list (event Kube)) (o : kube_op) : Prop :=
  Forall honest evs → op_namespace o = Some ns ∨ op_namespace o = None.

Lemma owned_namespace k o o' : owned k o o' → key_of (meta_of k o') = key_of (meta_of k o).
Proof. intros [refs ->]. by rewrite meta_of_set_meta. Qed.

(** The last answer is honest when all are. *)
Lemma honest_last (evs : list (event Kube)) e : Forall honest (evs ++ [e]) → honest e.
Proof. rewrite Forall_app, Forall_singleton. tauto. Qed.

Lemma within_now ns evs o : op_namespace o = Some ns → within ns evs o.
Proof. by left. Qed.

Lemma create_if_missing_within ns evs k strict o :
  (Forall honest evs → om_Namespace (meta_of k o) = ns) →
  guarded (create_if_missing k strict o) evs (within ns).
Proof.
  intros Ho. unfold create_if_missing. gsteps. split.
  - intros Hh. left. cbn. by rewrite (Ho Hh).
  - intros [e|x]; [|done]. destruct (IsNotFound e); [|done]. gsteps. split; [|done].
    intros Hh. left. cbn. rewrite Ho; [done|]. by apply Forall_app in Hh as [? _].
Qed.

Lemma own_and_create_within ns evs cr k strict o :
  om_Namespace (meta_of k o) = ns → guarded (own_and_create cr k strict o) evs (within ns).
Proof.
  intros Ho. unfold own_and_create. gsteps. split; [by apply within_now; cbn; rewrite Ho|].
  intros [e|o']; [done|]. apply create_if_missing_within. intros Hh%honest_last.
  apply owned_namespace in Hh. by injection Hh as ->.
Qed.

Lemma create_volume_and_claim_within cr pv pvc evs :
  om_Namespace (pv_Meta pv) = di_Namespace cr → om_Namespace (pvc_Meta pvc) = di_Namespace cr →
  guarded (create_volume_and_claim cr pv pvc) evs (within (di_Namespace cr)).
Proof.
  intros Hpv Hpvc. unfold create_volume_and_claim. apply guarded_bind_grow.
  - by apply own_and_create_within.
  - intros l [e|]; [done|]. apply guarded_bind_grow; [by apply own_and_create_within|done].
Qed.

Section Within.
Context `{Metastore} `{ControllerUtil} (cr : DatasetInternal).
Notation ns := (di_Namespace cr).

Lemma h3_within evs : guarded (processLocalDatasetH3 cr) evs (within ns).
Proof.
  unfold processLocalDatasetH3. case_decide; [done|]. destruct (permissions_of _); [|done].
  gsteps. split; [by right|intros u]. by apply create_volume_and_claim_within.
Qed.

Lemma nfs_within evs : guarded (processLocalDatasetNFS cr) evs (within ns).
Proof.
  unfold processLocalDatasetNFS. gsteps. split; [by left|]. intros [e|o]; [|done].
  gsteps. split; [by right|intros u]. by apply create_volume_and_claim_within.
Qed.

Lemma host_within evs : guarded (processLocalDatasetHOST cr) evs (within ns).
Proof.
  unfold processLocalDatasetHOST. case_decide; [done|]. destruct (permissions_of _); [|done].
  destruct (host_path_type _); [|done]. by apply create_volume_and_claim_within.
Qed.

Lemma access_within evs : guarded (checkAndExtractObjectStorageAccess cr) evs (within ns).
Proof.
  unfold checkAndExtractObjectStorageAccess, usable_secret.
  destruct (map_get _ "secret-name"); [|done].
  destruct (map_get _ "secret-namespace") as [sns|].
  - case_decide as Hns; [|done]. gsteps. split; [by left; subst|by intros []].
  - gsteps. split; [by left|by intros []].
Qed.

Lemma update_secret_within evs found sec :
  (Forall honest evs → om_Namespace (sec_Meta found) = ns) →
  guarded (checkIfEditableValueChangeAndUpdate found sec) evs (within ns).
Proof.
  intros Hf. unfold checkIfEditableValueChangeAndUpdate, editable_values. cbn [foldl sync_value].
  case_decide; [|done]. gsteps. split; [|done]. intros Hh. left. cbn. by rewrite Hf.
Qed.

Lemma cos_within evs : guarded (processLocalDatasetCOS cr) evs (within ns).
Proof.
  unfold processLocalDatasetCOS. apply guarded_bind_grow; [apply access_within|].
  intros l [e|[a k]]; [done|]. apply guarded_bind_grow; [by apply own_and_create_within|].
  intros l' [e|]; [done|]. apply guarded_bind_grow; [by apply create_if_missing_within|].
  intros l'' [e|]; [done|]. apply guarded_bind_grow; [|done].
  unfold create_or_update_secret. gsteps. split; [by left|]. intros [e|found].
  - destruct (IsNotFound e); [|done]. gsteps. split; [by left|done].
  - apply update_secret_within. intros Hh%honest_last. cbn in Hh. by injection Hh as ->.
Qed.

Lemma remote_within evs : guarded (processRemoteDataset cr) evs (within ns).
Proof.
  unfold processRemoteDataset. case_decide; [|done]. apply guarded_bind_grow.
  { unfold catalog_address. destruct (map_get _ "catalogURI").
    - by case_match.
    - gsteps. split; [by left|]. intros [e|svc]; [done|]. by case_decide. }
  intros l [e|[host port]]; [done|].
  destruct (map_get (di_Remote cr) "table"), (map_get (di_Remote cr) "endpoint"); try done.
  destruct (processCatalogEntry _ _ _) as [[e|[|b bs]]|]; try done.
  apply guarded_bind_grow; [|done]. unfold create_remote.
  apply guarded_bind_grow; [by apply own_and_create_within|]. intros l' [e|]; [done|].
  apply guarded_bind_grow; [by apply own_and_create_within|]. intros l'' [e|]; [done|].
  destruct (mount_allowed _); [|done].
  apply guarded_bind_grow; [by apply own_and_create_within|]. by intros ? [].
Qed.

Lemma process_within evs : guarded (process cr) evs (within ns).
Proof.
  unfold process. destruct (di_Local cr).
  - unfold datasetLocalProcessTable.
    repeat (case_decide; [apply guarded_bind_grow; [|by intros ? [? []]]|]); [..|done].
    + apply cos_within.
    + apply nfs_within.
    + apply host_within.
    + apply h3_within.
  - destruct (di_Remote cr); [|done].
    apply guarded_bind_grow; [apply remote_within|by intros ? [[? []]|]].
Qed.
End Within.

Lemma Reconcile_within `{Metastore} `{ControllerUtil} (req : NamespacedName) :
  guarded (Reconcile req) [] (within (nn_Namespace req)).
Proof.
  unfold Reconcile. gsteps. split; [by left|]. intros [e|i]; [done|].
  rewrite app_nil_l.
  destruct (decide (key_of (di_Meta i) = req)) as [Hk|Hk]; last first.
  { apply guarded_mono with (G := λ evs _, ¬ Forall honest evs); [by intros ? ? ? ?|].
    assert (∀ A (p : prog Kube A) l, guarded p (Ev (E := Kube) (Get KDatasetInternal req) (inr i) :: l)
      (λ evs _, ¬ Forall honest evs)) as Hany.
    { intros A p. induction p as [a|o' k IH]; intros l; cbn; [done|].
      split; [|intros r'; apply IH]. rewrite Forall_cons. intros [Hx _]. by cbn in Hx. }
    apply Hany. }
  assert (di_Namespace i = nn_Namespace req) as Hns by (by rewrite <-Hk).
  assert (∀ fs l, within (nn_Namespace req) l (Update KDatasetInternal (set_finalizers i fs))) as Hupd.
  { intros fs l Hl. left. cbn. f_equal. exact Hns. }
  case_match; [unfold addFinalizer; gsteps; split; [apply Hupd|done]|].
  case_decide; [|rewrite <-Hns; apply process_within].
  case_match; [|done]. apply guarded_bind_grow; [|done]. unfold finalize.
  gsteps. split; [by left|]. intros [e|pvc].
  - case_match; [done|]. gsteps. split; [by left|]. intros [e'|sec].
    + case_match; [done|]. gsteps. split; [apply Hupd|done].
    + gsteps. split; [|done]. intros Hl%honest_last. left. cbn. by rewrite <-Hl.
  - gsteps. split; [|done]. intros Hl%honest_last. left. cbn. by rewrite <-Hl.
Qed.


(** ** The order of the teardown *)

(** What a write of a reconciliation may do to the finalizer, the claim and the
    Secret of the dataset. *)
Definition orderly (req : NamespacedName) (evs : list (event Kube)) (o : kube_op) : Prop :=
  match o with
  | Delete k _ =>
      (k = KPVC ∨ k = KSecret ∧ told evs (Get KPVC req) (inl NotFound)) ∧
      ∃ i, told evs (Get KDatasetInternal req) (inr i) ∧
           om_DeletionTimestamp (di_Meta i) ≠ None
  | Update KDatasetInternal i' =>
      ∃ i, told evs (Get KDatasetInternal req) (inr i) ∧
      (datasetFinalizer ∈ om_Finalizers (di_Meta i) →
         datasetFinalizer ∉ om_Finalizers (di_Meta i') →
         om_DeletionTimestamp (di_Meta i) ≠ None ∧
         told evs (Get KPVC req) (inl NotFound) ∧ told evs (Get KSecret req) (inl NotFound)) ∧
      (∀ f, f ≠ datasetFinalizer →
         f ∈ om_Finalizers (di_Meta i') ↔ f ∈ om_Finalizers (di_Meta i)) ∧
      i' = set_finalizers i (om_Finalizers (di_Meta i'))
  | _ => True
  end.

Lemma contains_spec l s : contains l s = true ↔ s ∈ l.
Proof.
  induction l as [|v l IH]; cbn; [split; [done|]; intros []%not_elem_of_nil|].
  rewrite elem_of_cons. case_decide; naive_solver.
Qed.

(** A Secret as it was read, with a new value of [remove-on-delete]. *)
Definition set_remove_on_delete (found : Secret) (v : string) : Secret :=
  MkSecret (sec_Meta found) (sec_Data found)
    (Some (<["remove-on-delete" := v]> (default ∅ (sec_StringData found)))).

(** Programs that create, and update nothing but the value [remove-on-delete] of a
    Secret they have read. *)
Definition mild (evs : list (event Kube)) (o : kube_op) : Prop :=
  match o with
  | Delete _ _ | StatusUpdate _ _ | Create KDataset _ => False
  | Update KSecret x =>
      ∃ n found v, told evs (Get KSecret n) (inr found) ∧ x = set_remove_on_delete found v
  | Update _ _ => False
  | _ => True
  end.

Lemma create_if_missing_mild k strict o evs :
  k ≠ KDataset → guarded (create_if_missing k strict o) evs mild.
Proof.
  intros Hk. unfold create_if_missing. gsteps. split; [done|]. intros [e|x]; [|done].
  destruct (IsNotFound e); [|done]. split; [|done]. by destruct k.
Qed.

Lemma own_and_create_mild cr k strict o evs :
  k ≠ KDataset → guarded (own_and_create cr k strict o) evs mild.
Proof.
  intros Hk. unfold own_and_create. gsteps. split; [done|]. intros [e|x]; [done|].
  by apply create_if_missing_mild.
Qed.

Lemma create_volume_and_claim_mild cr pv pvc evs :
  guarded (create_volume_and_claim cr pv pvc) evs mild.
Proof.
  unfold create_volume_and_claim. apply guarded_bind_grow; [by apply own_and_create_mild|].
  intros l [e|]; [done|]. by apply guarded_bind_grow; [by apply own_and_create_mild|].
Qed.

Lemma process_mild `{Metastore} `{ControllerUtil} cr evs : guarded (process cr) evs mild.
Proof.
  unfold process. destruct (di_Local cr).
  - unfold datasetLocalProcessTable.
    repeat (case_decide; [apply guarded_bind_grow; [|by intros ? [? []]]|]); [..|done].
    + unfold processLocalDatasetCOS. apply guarded_bind_grow.
      { unfold checkAndExtractObjectStorageAccess. destruct (usable_secret cr); [|done].
        gsteps. split; [done|by intros []]. }
      intros l [e|[a k]]; [done|]. apply guarded_bind_grow; [by apply own_and_create_mild|].
      intros l' [e|]; [done|]. apply guarded_bind_grow; [by apply create_if_missing_mild|].
      intros l'' [e|]; [done|]. apply guarded_bind_grow; [|done].
      unfold create_or_update_secret. gsteps. split; [done|]. intros [e|found].
      * by destruct (IsNotFound e).
      * unfold checkIfEditableValueChangeAndUpdate, editable_values. cbn [foldl sync_value].
        case_decide; [|done]. gsteps. split; [|done]. eexists _, found, _.
        split; [|done]. solve_told.
    + unfold processLocalDatasetNFS. gsteps. split; [done|]. intros [e|o]; [|done].
      gsteps. split; [done|intros u]. apply create_volume_and_claim_mild.
    + unfold processLocalDatasetHOST. case_decide; [done|].
      destruct (permissions_of _); [|done].
      destruct (host_path_type _); [|done]. apply create_volume_and_claim_mild.
    + unfold processLocalDatasetH3. case_decide; [done|].
      destruct (permissions_of _); [|done].
      gsteps. split; [done|intros u]. apply create_volume_and_claim_mild.
  - destruct (di_Remote cr); [|done].
    apply guarded_bind_grow; [|by intros ? [[? []]|]].
    unfold processRemoteDataset. case_decide; [|done]. apply guarded_bind_grow.
    { unfold catalog_address. destruct (map_get _ "catalogURI"); [by case_match|].
      gsteps. split; [done|]. intros [e|svc]; [done|]. by case_decide. }
    intros l [e|[host port]]; [done|].
    destruct (map_get (di_Remote cr) "table"), (map_get (di_Remote cr) "endpoint"); try done.
    destruct (processCatalogEntry _ _ _) as [[e|[|b bs]]|]; try done.
    apply guarded_bind_grow; [|done]. unfold create_remote.
    apply guarded_bind_grow; [by apply own_and_create_mild|]. intros l' [e|]; [done|].
    apply guarded_bind_grow; [by apply own_and_create_mild|]. intros l'' [e|]; [done|].
    destruct (mount_allowed _); [|done].
    apply guarded_bind_grow; [by apply own_and_create_mild|]. by intros ? [].
Qed.

Lemma Reconcile_orderly `{Metastore} `{ControllerUtil} (req : NamespacedName) :
  guarded (Reconcile req) [] (orderly req).
Proof.
  unfold Reconcile. gsteps. split; [done|]. intros [e|i]; [done|].
  rewrite app_nil_l.
  destruct (needs_finalizer i) eqn:Hneeds.
  - unfold addFinalizer. gsteps. split; [|done]. exists i.
    split; [solve_told|]. split; [|split; [|done]].
    + intros _ Hno. exfalso. apply Hno. cbn. apply AddFinalizer_spec. by left.
    + intros f Hf. cbn. rewrite AddFinalizer_spec. naive_solver.
  - case_decide as Hdel.
    + case_match eqn:Hc; [|done]. apply guarded_bind_grow; [|done]. unfold finalize.
      gsteps. split; [done|]. intros [e|pvc].
      * destruct (IsNotFound e) eqn:He; [|done]. apply bool_decide_eq_true in He as ->.
        cbn [negb]. gsteps. split; [done|]. intros [e|sec].
        -- destruct (IsNotFound e) eqn:He; [|done]. apply bool_decide_eq_true in He as ->.
           cbn [negb]. gsteps. split; [|done]. exists i. split; [solve_told|].
           split; [|split; [|done]].
           ++ intros _ _. split; [done|]. split; solve_told.
           ++ intros f Hf. cbn. rewrite RemoveFinalizer_spec. naive_solver.
        -- gsteps. split; [|done]. split; [right; split; [done|solve_told]|].
           exists i. split; [solve_told|done].
      * gsteps. split; [|done]. split; [by left|]. exists i. split; [solve_told|done].
    + eapply guarded_mono; [|apply process_mild].
      intros l o' Hm. by destruct o' as [| |[]| | | | | | | | |].
Qed.

(** (C18) The teardown is orderly, whatever the API server answers: nothing is deleted
    unless the DatasetInternal is being deleted; the Secret is deleted only after the
    server has answered that the claim is gone, and the finalizer is taken off only
    after it has answered that both are gone; nothing else of
    the DatasetInternal is touched. *)
Theorem Reconcile_tears_down_in_order `{Metastore} `{ControllerUtil} (req : NamespacedName)
    evs res pre o r post
    (Hb : behaviour (Reconcile req) evs res) (Hsplit : evs = pre ++ Ev o r :: post) :
  orderly req pre o.
Proof.
  apply (guarded_behaviour (Reconcile req) [] (orderly req) evs res pre o r post);
    [apply Reconcile_orderly|done|done].
Qed.

(** ** Malformed specifications *)

(** The specifications that can be rejected without looking at the cluster. *)
Definition spec_rejected (cr : DatasetInternal) : bool :=
  match di_Local cr with
  | Some _ =>
      let local := di_Local cr in
      let type := map_index local "type" in
      if decide (type = "COS") then
        bool_decide (usable_secret cr = None) && negb (has_keys local)
      else if decide (type = "NFS") then false
      else if decide (type = "HOST") then
        bool_decide (map_index local "path" = "") || bool_decide (permissions_of local = None)
        || bool_decide (host_path_type local = None)
      else if decide (type = "H3") then
        bool_decide (map_index local "storageUri" = "")
        || bool_decide (permissions_of local = None)
      else true
  | None =>
      match di_Remote cr with
      | Some _ => bool_decide (map_index (di_Remote cr) "type" ≠ "CatalogEntry")
      | None => true
      end
  end.

Lemma process_rejected `{Metastore} `{ControllerUtil} cr :
  spec_rejected cr = true →
  ∃ msg, process cr = Ret (Some (result_done, Some (BadRequest msg))).
Proof.
  unfold spec_rejected, process. destruct (di_Local cr) as [m|] eqn:Hl.
  - unfold datasetLocalProcessTable. rewrite <-Hl. case_decide as H1.
    { rewrite andb_true_iff, bool_decide_eq_true, negb_true_iff. intros [Hs Hk].
      unfold processLocalDatasetCOS, checkAndExtractObjectStorageAccess. rewrite Hs.
      unfold has_keys in Hk. cbn [mbind prog_mbind prog_bind].
      destruct (key_pair (di_Local cr)) as [e|[a k]] eqn:Hkp; [|done].
      unfold key_pair in Hkp. eexists. cbn.
      by repeat case_match; simplify_eq. }
    case_decide as H2; [done|]. case_decide as H3.
    { rewrite !orb_true_iff, !bool_decide_eq_true. intros Hr.
      unfold processLocalDatasetHOST. eexists.
      case_decide as Hp; [reflexivity|]. destruct Hr as [[Hr|Hr]|Hr]; [done|..].
      - by rewrite Hr.
      - destruct (permissions_of (di_Local cr)); [by rewrite Hr|reflexivity]. }
    case_decide as H4.
    { rewrite !orb_true_iff, !bool_decide_eq_true. intros Hr.
      unfold processLocalDatasetH3. eexists.
      case_decide as Hp; [reflexivity|]. destruct Hr as [Hr|Hr]; [done|]. by rewrite Hr. }
    intros _. by eexists.
  - destruct (di_Remote cr) as [m|] eqn:Hr; [|intros _; by eexists].
    rewrite <-Hr, bool_decide_eq_true. intros Ht. unfold processRemoteDataset.
    rewrite decide_False by done. by eexists.
Qed.

(** A malformed specification is rejected before anything is touched: for an
    unknown type, a HOST dataset without path or with unknown permissions or path
    type, an H3 dataset without storage URI or with unknown permissions, or a COS
    dataset without credentials, the only operation of the reconciliation is the read
    of the DatasetInternal, and its result is a bad request. *)
Theorem Reconcile_rejects_malformed `{Metastore} `{ControllerUtil} {S : Type}
    (h : handler Kube S) (s : S) (req : NamespacedName) (i : DatasetInternal)
    (Hread : (h (Get KDatasetInternal req) s).1 = inr i)
    (Hlive : om_DeletionTimestamp (di_Meta i) = None)
    (Hfin : needs_finalizer i = false) (Hrej : spec_rejected i = true) :
  trace (run h (Reconcile req) s) = [Get KDatasetInternal req] ∧
  ∃ msg, result (run h (Reconcile req) s) = Some (result_done, Some (BadRequest msg)).
Proof.
  destruct (process_rejected i Hrej) as [msg Hproc].
  unfold Reconcile, kget, call, mbind, prog_mbind. cbn [prog_bind run]. cbn zeta.
  cbn [trace result]. rewrite Hread, Hfin, decide_False, Hproc by (intros Hx; by apply Hx).
  split; [done|]. by exists msg.
Qed.

(** ** Volumes and claims *)

(** The conditions under which Kubernetes binds a claim to the volume it names: same
    storage class, the access modes of the claim among those of the volume, and a
    request within the capacity (the capacities compared here are equal or absent). *)
Definition bindable (pv : PersistentVolume) (pvc : PersistentVolumeClaim) : Prop :=
  pvc_VolumeName pvc = om_Name (pv_Meta pv) ∧
  pvc_StorageClassName pvc = pv_StorageClassName pv ∧
  (∀ m, m ∈ pvc_AccessModes pvc → m ∈ pv_AccessModes pv) ∧
  (pvc_Requests pvc = None ∨ pvc_Requests pvc = Some (pv_Storage pv)).

(** The volume and the claim created for an NFS or HOST dataset fit together; for
    an H3 dataset they fit exactly when its permissions are not read-only: the volume
    offers ReadWriteMany only, so the claim of a read-only dataset is never bound. *)
Theorem volumes_bindable (cr : DatasetInternal) (uuid : string) (permissions : AccessMode)
    (type : HostPathType) :
  bindable (nfs_volume cr uuid) (nfs_claim cr) ∧
  bindable (host_volume cr permissions type) (host_claim cr permissions) ∧
  (bindable (h3_volume cr uuid) (h3_claim cr permissions) ↔ permissions = ReadWriteMany).
Proof.
  unfold bindable. split; [|split].
  - split_and!; try done. by right.
  - split_and!; try done. by right.
  - split.
    + intros (_ & _ & Hm & _). specialize (Hm permissions). cbn in Hm.
      rewrite !list_elem_of_singleton in Hm. by apply Hm.
    + intros ->. split_and!; try done. by left.
Qed.

(** ** Flags *)

(** A text that reads as a boolean, in one of the spellings of [ParseBool]. *)
Definition reads_true (m : gomap) (key : string) : Prop :=
  ∃ v, map_get m key = Some v ∧ ParseBool v = (true, None).

Lemma getBoolean_false key m :
  getBooleanStringForKeyInMap "false" key m = "true" ∧ reads_true m key ∨
  getBooleanStringForKeyInMap "false" key m = "false" ∧ ¬ reads_true m key.
Proof.
  unfold getBooleanStringForKeyInMap, reads_true. destruct (map_get m key) as [v|].
  - destruct (ParseBool v) as [[] [e|]] eqn:Hp; [right|left|right|right];
      (split; [done|]); try (by intros (v' & [= <-] & ?); congruence). by eexists.
  - right. split; [done|]. by intros (v' & ? & _).
Qed.

(** The flags a COS dataset hands to the CSI driver are normalised: in the Secret,
    [readonly], [provision] and [remove-on-delete] are ["true"] when the dataset gives
    a text that reads as true, in any spelling, and ["false"] otherwise, and the claim
    is read-only exactly when [readonly] is ["true"]. *)
Theorem cos_flags_normalised (cr : DatasetInternal) (a k : string) :
  let flag name := map_get (sec_StringData (cos_secret cr a k)) name in
  let normal name m := (flag name = Some "true" ∧ reads_true m name) ∨
                       (flag name = Some "false" ∧ ¬ reads_true m name) in
  normal "readonly" (di_Local cr) ∧ normal "provision" (di_Local cr) ∧
  normal "remove-on-delete" (om_Labels (di_Meta cr)) ∧
  (pvc_AccessModes (cos_claim cr) = [ReadOnlyMany] ↔ flag "readonly" = Some "true").
Proof.
  cbn beta zeta.
  assert (map_get (sec_StringData (cos_secret cr a k)) "readonly" = Some (cos_readonly cr))
    as -> by reflexivity.
  assert (map_get (sec_StringData (cos_secret cr a k)) "provision" = Some (cos_provision cr))
    as -> by reflexivity.
  assert (map_get (sec_StringData (cos_secret cr a k)) "remove-on-delete"
    = Some (getBooleanStringForKeyInMap "false" "remove-on-delete" (om_Labels (di_Meta cr))))
    as -> by reflexivity.
  assert (cos_provision cr = getBooleanStringForKeyInMap "false" "provision" (di_Local cr)) as ->.
  { unfold cos_provision, getBooleanStringForKeyInMap.
    destruct (map_get _ _) as [v|]; [|done]. by destruct (ParseBool v) as [? []]. }
  unfold cos_readonly, cos_claim, cos_readonly. cbn [pvc_AccessModes].
  pose proof (getBoolean_false "readonly" (di_Local cr)) as Hr.
  pose proof (getBoolean_false "provision" (di_Local cr)) as Hp.
  pose proof (getBoolean_false "remove-on-delete" (om_Labels (di_Meta cr))) as Hd.
  split_and!.
  - by destruct Hr as [[-> ?]|[-> ?]]; [left|right].
  - by destruct Hp as [[-> ?]|[-> ?]]; [left|right].
  - by destruct Hd as [[-> ?]|[-> ?]]; [left|right].
  - destruct Hr as [[-> _]|[-> _]]; cbn; split; done.
Qed.
