(* ===== verification/InternalProgress.v ===== *)
(** * The DatasetInternal reconciler: progress

    On a reachable API server: a COS dataset is provisioned by one reconciliation and
    further ones change nothing; a dataset that is being deleted is torn down by three
    reconciliations. *)

From Stdlib Require Import ZArith Lia Ascii.
From stdpp Require Import options.
From S2P Require Import Prelude GoStd KubeApi KubeServer KubeWp Base64 Metastore InternalController InternalSafety.

Open Scope Z_scope.

Lemma same_spec_set_meta k m o o' : same_spec k (set_meta k m o) o' → same_spec k o o'.
Proof. by destruct k. Qed.

Section Progress.
Context {S : Type} (h : handler Kube S) `{!ApiServer h}.

(** ** Creating what is missing *)

(** The object is there, unchanged if it was there before. *)
Definition ensured (s s' : S) (k : Kind) (o : Object k) : Prop :=
  match view s k (okey k o) with
  | Some _ => s' = s
  | None =>
      ∃ o', same_spec k o o' ∧ changed view s s' k (okey k o) (Some o') ∧
            surroundings s' = surroundings s
  end.

Lemma wp_create_if_missing s k strict o (Q : option goerr → S → Prop) :
  (∀ s', ensured s s' k o → Q None s') → wp h (create_if_missing k strict o) s Q.
Proof using Type*.
  intros HQ. unfold create_if_missing.
  assert (scoped k (key_of (meta_of k o)) = okey k o) as Hok by done.
  destruct (view s k (okey k o)) as [x|] eqn:Hv.
  - apply (wp_kget_some h k _ _ s x); [by rewrite Hok|]. apply wp_ret, HQ.
    unfold ensured. by rewrite Hv.
  - apply (wp_kget_none h k _ _ s); [by rewrite Hok|].
    change (IsNotFound NotFound) with true. cbn iota.
    apply wp_tail, (wp_kcreate h); [done|]. intros o' s' (_ & Hspec & _ & _ & Hch & Hsur).
    apply wp_ret, HQ. unfold ensured. rewrite Hv. by exists o'.
Qed.

Lemma wp_own_and_create s cr k strict o (Q : option goerr → S → Prop) :
  (∀ s', ensured s s' k o → Q None s') → wp h (own_and_create cr k strict o) s Q.
Proof using Type*.
  intros HQ. unfold own_and_create. apply (wp_kset_owner h). intros o1 Ho.
  apply wp_create_if_missing. intros s' He. apply HQ. revert He. unfold ensured.
  assert (okey k o1 = okey k o) as Hok.
  { unfold okey. by rewrite (owned_namespace _ _ _ Ho). }
  rewrite Hok. destruct (view s k (okey k o)); [done|].
  intros (o' & Hspec & Hch & Hsur). exists o'. split_and!; [|done|done].
  destruct Ho as [refs ->]. by eapply same_spec_set_meta.
Qed.

Lemma ensured_present s s' k o : ensured s s' k o → is_Some (view s' k (okey k o)).
Proof using Type*.
  unfold ensured. destruct (view s k (okey k o)) as [x|] eqn:Hv.
  - intros ->. by rewrite Hv.
  - intros (o' & _ & Hch & _). rewrite (changed_here h _ _ _ _ _ Hch). by eexists.
Qed.

Lemma ensured_kind s s' k o k' n : ensured s s' k o → k' ≠ k → view s' k' n = view s k' n.
Proof using Type*.
  unfold ensured. case_match; [by intros ->|]. intros (o' & _ & Hch & _) Hne.
  by rewrite (changed_kind h _ _ _ _ _ _ _ Hch Hne).
Qed.

Lemma ensured_again s k o : is_Some (view s k (okey k o)) → ∀ s', ensured s s' k o → s' = s.
Proof using Type*. unfold ensured. by intros [x ->]. Qed.

(** ** COS datasets *)

Definition credentials (s : S) (cr : DatasetInternal) : goerr + string * string :=
  match usable_secret cr with
  | Some n =>
      match view s KSecret n with
      | Some sec => key_pair (sec_Data sec)
      | None => inl no_auth
      end
  | None => key_pair (di_Local cr)
  end.

Lemma wp_access s cr (Q : goerr + string * string → S → Prop) :
  Q (credentials s cr) s → wp h (checkAndExtractObjectStorageAccess cr) s Q.
Proof using Type*.
  unfold checkAndExtractObjectStorageAccess, credentials.
  destruct (usable_secret cr) as [n|]; [|done]. intros HQ. apply (wp_kget h).
  change (scoped KSecret n) with n. by destruct (view s KSecret n).
Qed.

Definition remove_flag (cr : DatasetInternal) : string :=
  getBooleanStringForKeyInMap "false" "remove-on-delete" (om_Labels (di_Meta cr)).

(** The Secret hands the current [remove-on-delete] to the CSI driver. *)
Definition current (cr : DatasetInternal) (sec : Secret) : Prop :=
  map_index (sec_Data sec) "remove-on-delete" = remove_flag cr.

(** What the update of the Secret leaves: the other values are kept. *)
Definition refreshed (cr : DatasetInternal) (sec sec' : Secret) : Prop :=
  current cr sec' ∧ sec_StringData sec' = None ∧
  ∀ key, key ≠ "remove-on-delete" → map_get (sec_Data sec') key = map_get (sec_Data sec) key.

Lemma wp_update_secret s cr a k n sec (Q : option goerr → S → Prop) :
  view s KSecret n = Some sec → key_of (sec_Meta sec) = n → sec_StringData sec = None →
  (current cr sec → Q None s) →
  (∀ sec' s', refreshed cr sec sec' → changed view s s' KSecret n
       (if decide (om_DeletionTimestamp (sec_Meta sec) ≠ None ∧
                   om_Finalizers (sec_Meta sec) = []) then None else Some sec') →
     key_of (sec_Meta sec') = n →
     om_DeletionTimestamp (sec_Meta sec') = om_DeletionTimestamp (sec_Meta sec) →
     ¬ current cr sec → Q None s') →
  wp h (checkIfEditableValueChangeAndUpdate sec (cos_secret cr a k)) s Q.
Proof using Type*.
  intros Hv Hk Hsd Hsame Hupd. unfold checkIfEditableValueChangeAndUpdate, editable_values.
  cbn [foldl sync_value]. rewrite DecodeString_EncodeToString. cbn [fst].
  assert (map_index (sec_StringData (cos_secret cr a k)) "remove-on-delete" = remove_flag cr)
    as -> by reflexivity.
  unfold current in *.
  destruct (decide (map_index (sec_Data sec) "remove-on-delete" ≠ remove_flag cr)) as [Hne|Hne]; [|apply Hsame; by apply dec_stable].
  rewrite Hsd. cbn [default]. apply wp_tail, (wp_kupdate h KSecret _ sec).
  - change (view s KSecret (key_of (sec_Meta sec)) = Some sec). by rewrite Hk.
  - done.
  - intros sec' s' (Hm & [Hsd' Hdata] & Hdel & _ & Hch & _). apply wp_ret.
    change (okey KSecret _) with (key_of (sec_Meta sec)) in Hch. rewrite Hk in Hch.
    apply (Hupd sec' s'); [|exact Hch| |exact Hdel|done].
    + split; [|split; [done|]].
      * unfold current, map_index. by rewrite Hdata.
      * intros key Hkey. rewrite Hdata. cbn. by rewrite lookup_insert_ne.
    + rewrite <-Hk. exact (sm_key _ _ _ Hm).
Qed.

Context (req : NamespacedName).

(** A live COS dataset with usable credentials, already protected by the finalizer. *)
Record cos_ready (s : S) (i : DatasetInternal) (a k : string) : Prop := {
  cr_stored : view s KDatasetInternal req = Some i;
  cr_key : key_of (di_Meta i) = req;
  cr_live : om_DeletionTimestamp (di_Meta i) = None;
  cr_finalizer : contains (om_Finalizers (di_Meta i)) datasetFinalizer = true;
  cr_type : map_get (di_Local i) "type" = Some "COS";
  cr_credentials : credentials s i = inr (a, k);
  cr_secret sec : view s KSecret req = Some sec →
    key_of (sec_Meta sec) = req ∧ sec_StringData sec = None ∧
    om_DeletionTimestamp (sec_Meta sec) = None }.

(** The ConfigMap, the claim and an up-to-date Secret exist. *)
Definition cos_provisioned (s : S) (i : DatasetInternal) : Prop :=
  is_Some (view s KConfigMap req) ∧ is_Some (view s KPVC req) ∧
  ∃ sec, view s KSecret req = Some sec ∧ current i sec.

(** What provisioning creates, and what it leaves of a Secret that exists. *)
Definition cos_created (s s' : S) (i : DatasetInternal) (a k : string) : Prop :=
  (view s KConfigMap req = None →
     ∃ cm, view s' KConfigMap req = Some cm ∧ cm_Data cm = cos_config i) ∧
  (view s KPVC req = None →
     ∃ pvc, view s' KPVC req = Some pvc ∧ same_spec KPVC (cos_claim i) pvc) ∧
  ∃ sec', view s' KSecret req = Some sec' ∧
    match view s KSecret req with
    | None => ∀ key, map_get (sec_Data sec') key
                     = map_get (sec_StringData (cos_secret i a k)) key
    | Some sec => ∀ key, key ≠ "remove-on-delete" →
                     map_get (sec_Data sec') key = map_get (sec_Data sec) key
    end.

Lemma key_pair_ext m m' :
  (∀ key, key ≠ "remove-on-delete" → map_get m' key = map_get m key) →
  key_pair m' = key_pair m.
Proof using Type*. intros Hm. unfold key_pair. by rewrite !Hm. Qed.

(** The credentials survive what happens to the Secret of the dataset. *)
Lemma credentials_kept s s' i a k v :
  credentials s i = inr (a, k) → changed view s s' KSecret req v →
  (∀ sec, view s KSecret req = Some sec → ∃ sec', v = Some sec' ∧
     ∀ key, key ≠ "remove-on-delete" → map_get (sec_Data sec') key = map_get (sec_Data sec) key) →
  credentials s' i = inr (a, k).
Proof using Type*.
  unfold credentials. destruct (usable_secret i) as [n|]; [|done]. intros Hc Hch Hv.
  destruct (decide (n = req)) as [->|Hn].
  - rewrite (changed_here h _ _ _ _ _ Hch).
    destruct (view s KSecret req) as [sec|] eqn:Hs; [|done].
    destruct (Hv sec eq_refl) as (sec' & -> & Hkeys). by rewrite (key_pair_ext _ _ Hkeys).
  - by rewrite (changed_name h _ _ _ _ _ _ Hch Hn).
Qed.

Lemma cos_ready_kind s s' i a k k' o :
  ensured s s' k' o → k' ≠ KSecret → k' ≠ KDatasetInternal →
  cos_ready s i a k → cos_ready s' i a k.
Proof using Type*.
  intros He H1 H2 [Hs Hk Hl Hf Ht Hc Hsec].
  assert (∀ n, view s' KSecret n = view s KSecret n) as Hsv.
  { intros n. by apply (ensured_kind s s' k' o). }
  split; try done.
  - rewrite <-Hs. by apply (ensured_kind s s' k' o).
  - rewrite <-Hc. unfold credentials. destruct (usable_secret i); [|done]. by rewrite Hsv.
  - intros sec. rewrite Hsv. apply Hsec.
Qed.

(** The step on the Secret. *)
Lemma wp_secret s i a k (Q : option goerr → S → Prop) :
  cos_ready s i a k →
  (∀ s', cos_ready s' i a k → (∀ k' n, k' ≠ KSecret → view s' k' n = view s k' n) →
     (∃ sec', view s' KSecret req = Some sec' ∧ current i sec' ∧
        match view s KSecret req with
        | None => ∀ key, map_get (sec_Data sec') key
                         = map_get (sec_StringData (cos_secret i a k)) key
        | Some sec => (current i sec → s' = s) ∧ ∀ key, key ≠ "remove-on-delete" →
                         map_get (sec_Data sec') key = map_get (sec_Data sec) key
        end) → Q None s') →
  wp h (create_or_update_secret (cos_secret i a k)) s Q.
Proof using Type*.
  intros Hr HQ. destruct (Hr) as [Hs Hk Hl Hf Ht Hc Hsec]. unfold create_or_update_secret.
  assert (key_of (dataset_meta i) = req) as Hkey by (rewrite <-Hk; done).
  change (key_of (sec_Meta (cos_secret i a k))) with (key_of (dataset_meta i)). rewrite Hkey.
  destruct (view s KSecret req) as [sec|] eqn:Hv.
  - apply (wp_kget_some h KSecret req _ s sec _ Hv).
    destruct (Hsec sec eq_refl) as (Hsk & Hsd & Hdel).
    apply (wp_update_secret s i a k req sec); [done|done|done|..].
    + intros Hcur. apply HQ; [done|done|]. exists sec. by split_and!.
    + intros sec' s' (Hcur & Hsd' & Hkeys) Hch Hk' Hdel' Hnc.
      rewrite decide_False in Hch by (intros [Hx _]; by apply Hx).
      assert (view s' KSecret req = Some sec') as Hv' by exact (changed_here h _ _ _ _ _ Hch).
      assert (∀ k' n, k' ≠ KSecret → view s' k' n = view s k' n) as Hother
        by (intros k' n Hne; exact (changed_kind h _ _ _ _ _ _ _ Hch Hne)).
      apply HQ; [|done|].
      * split; try done.
        -- by rewrite Hother.
        -- eapply credentials_kept; [done|exact Hch|]. intros sec0 Hs0. rewrite Hv in Hs0.
           injection Hs0 as <-. by exists sec'.
        -- intros sec0 Hs0. rewrite Hv' in Hs0. injection Hs0 as <-.
           by rewrite Hdel'.
      * exists sec'. by split_and!.
  - apply (wp_kget_none h KSecret req _ s _ Hv). change (IsNotFound NotFound) with true.
    cbn iota. apply wp_tail, (wp_kcreate h).
    { change (okey KSecret _) with (key_of (dataset_meta i)). by rewrite Hkey. }
    intros sec' s' (Hm & [Hsd' Hdata] & Hdel & _ & Hch & _). apply wp_ret.
    change (okey KSecret _) with (key_of (dataset_meta i)) in Hch. rewrite Hkey in Hch.
    assert (view s' KSecret req = Some sec') as Hv' by exact (changed_here h _ _ _ _ _ Hch).
    assert (∀ k' n, k' ≠ KSecret → view s' k' n = view s k' n) as Hother
      by (intros k' n Hne; exact (changed_kind h _ _ _ _ _ _ _ Hch Hne)).
    assert (∀ key, map_get (sec_Data sec') key = map_get (sec_StringData (cos_secret i a k)) key)
      as Hkeys.
    { intros key. rewrite Hdata. by destruct (map_get _ key). }
    apply HQ; [|done|].
    + split; try done.
      * by rewrite Hother.
      * eapply credentials_kept; [done|exact Hch|]. intros sec0 Hs0. congruence.
      * intros sec0 Hs0. rewrite Hv' in Hs0. injection Hs0 as <-. split_and!; [|done|done].
        rewrite <-Hkey. exact (sm_key _ _ _ Hm).
    + exists sec'. split_and!; [done| |done].
      unfold current, map_index. rewrite Hkeys. reflexivity.
Qed.

Lemma wp_cos s i a k :
  cos_ready s i a k →
  wp h (processLocalDatasetCOS i) s (λ res s',
    res = (result_done, None) ∧ cos_ready s' i a k ∧ cos_provisioned s' i ∧
    cos_created s s' i a k ∧ (cos_provisioned s i → s' = s)).
Proof using Type*.
  intros Hr. unfold processLocalDatasetCOS.
  assert (key_of (dataset_meta i) = req) as Hkey by (rewrite <-(cr_key _ _ _ _ Hr); done).
  apply wp_bind, wp_access. rewrite (cr_credentials _ _ _ _ Hr).
  apply wp_bind, wp_own_and_create. intros s1 He1. cbn beta iota.
  apply wp_bind, wp_create_if_missing. intros s2 He2. cbn beta iota.
  assert (cos_ready s1 i a k) as Hr1 by (by eapply cos_ready_kind).
  assert (cos_ready s2 i a k) as Hr2 by (by eapply cos_ready_kind).
  apply wp_bind, wp_secret with (1 := Hr2). intros s3 Hr3 Hother (sec & Hv & Hcur & Hsec).
  apply wp_ret. split; [done|]. split; [done|].
  assert (view s1 KSecret req = view s KSecret req) as Hsv1 by (by apply (ensured_kind _ _ _ _ _ _ He1)).
  assert (view s2 KSecret req = view s1 KSecret req) as Hsv2 by (by apply (ensured_kind _ _ _ _ _ _ He2)).
  assert (view s2 KConfigMap req = view s1 KConfigMap req) as Hcv2
    by (by apply (ensured_kind _ _ _ _ _ _ He2)).
  assert (view s1 KPVC req = view s KPVC req) as Hpv1 by (by apply (ensured_kind _ _ _ _ _ _ He1)).
  assert (okey KConfigMap (MkConfigMap (dataset_meta i) (cos_config i)) = req) as Hck by exact Hkey.
  assert (okey KPVC (cos_claim i) = req) as Hpk by exact Hkey.
  pose proof (ensured_present _ _ _ _ He1) as Hc1. rewrite Hck in Hc1.
  pose proof (ensured_present _ _ _ _ He2) as Hp2. rewrite Hpk in Hp2.
  split; [|split].
  - unfold cos_provisioned. rewrite !Hother by done. rewrite Hcv2. split_and!; [done|done|].
    by exists sec.
  - unfold cos_created. rewrite !Hother by done. split; [|split].
    + intros Hn. unfold ensured in He1. rewrite Hck, Hn in He1.
      destruct He1 as (cm & Hspec & Hch & _). exists cm. split; [|exact Hspec].
      rewrite Hcv2. exact (changed_here h _ _ _ _ _ Hch).
    + intros Hn. unfold ensured in He2. rewrite Hpk, Hpv1, Hn in He2.
      destruct He2 as (pvc & Hspec & Hch & _). exists pvc. split; [|exact Hspec].
      exact (changed_here h _ _ _ _ _ Hch).
    + exists sec. split; [done|]. rewrite <-Hsv1, <-Hsv2.
      destruct (view s2 KSecret req); [apply Hsec|exact Hsec].
  - intros (Hcm & Hpvc & sec0 & Hsec0 & Hcur0).
    assert (s1 = s) as -> by (apply (ensured_again _ _ _ ltac:(by rewrite Hck) _ He1)).
    assert (s2 = s) as -> by (apply (ensured_again _ _ _ ltac:(by rewrite Hpk) _ He2)).
    rewrite Hsec0 in Hsec. by apply Hsec.
Qed.

Section Theorems.
Context `{Metastore} `{ControllerUtil}.

Lemma wp_Reconcile_cos s i a k :
  cos_ready s i a k →
  wp h (Reconcile req) s (λ res s',
    res = Some (result_done, None) ∧ cos_ready s' i a k ∧ cos_provisioned s' i ∧
    cos_created s s' i a k ∧ (cos_provisioned s i → s' = s)).
Proof using Type*.
  intros Hr. unfold Reconcile.
  apply (wp_kget_some h KDatasetInternal req _ s i _ (cr_stored _ _ _ _ Hr)).
  unfold needs_finalizer. rewrite (cr_finalizer _ _ _ _ Hr), andb_false_r.
  rewrite decide_False by (intros Hx; apply Hx, (cr_live _ _ _ _ Hr)).
  unfold process. pose proof (cr_type _ _ _ _ Hr) as Ht.
  destruct (di_Local i) as [m|] eqn:Hl; [|done]. unfold map_index. rewrite Ht.
  cbn [default from_option]. unfold datasetLocalProcessTable. rewrite decide_True by done.
  apply wp_bind. eapply wp_mono; [by apply wp_cos|].
  intros res s' (-> & Hr' & Hp & Hcr & Hsame). by apply wp_ret.
Qed.
End Theorems.
End Progress.


(** ** Teardown *)

Section Teardown.
Context {S : Type} (h : handler Kube S) `{!ApiServer h} `{Metastore} `{ControllerUtil}.
Context (req : NamespacedName).

(** A dataset that is being deleted and waits for nothing but its own finalizer; its
    claim and its Secret, where they exist, are not protected by finalizers. *)
Record dying (s : S) (i : DatasetInternal) : Prop := {
  dy_stored : view s KDatasetInternal req = Some i;
  dy_key : key_of (di_Meta i) = req;
  dy_deleted : om_DeletionTimestamp (di_Meta i) ≠ None;
  dy_finalizer : ∀ f, f ∈ om_Finalizers (di_Meta i) ↔ f = datasetFinalizer;
  dy_claim pvc : view s KPVC req = Some pvc →
    key_of (pvc_Meta pvc) = req ∧ om_Finalizers (pvc_Meta pvc) = [];
  dy_secret sec : view s KSecret req = Some sec →
    key_of (sec_Meta sec) = req ∧ om_Finalizers (sec_Meta sec) = [] }.

(** The objects other than the three that are torn down. *)
Definition others_kept (s s' : S) : Prop :=
  ∀ k n, (k, n) ∉ [(KPVC, req); (KSecret, req); (KDatasetInternal, req)] →
    view s' k n = view s k n.

Fixpoint internal_rounds (n : nat) (s : S) : S :=
  match n with
  | O => s
  | Datatypes.S n => internal_rounds n (final (run h (Reconcile req) s))
  end.

Lemma wp_Reconcile_dying s i (Q : option reconciled → S → Prop) :
  dying s i → wp h (Some <$> finalize req i) s Q → wp h (Reconcile req) s Q.
Proof using Type*.
  intros Hd HQ. unfold Reconcile.
  apply (wp_kget_some h KDatasetInternal req _ s i _ (dy_stored _ _ Hd)).
  assert (contains (om_Finalizers (di_Meta i)) datasetFinalizer = true) as Hc.
  { apply contains_spec. by apply (dy_finalizer _ _ Hd). }
  unfold needs_finalizer. rewrite Hc, andb_false_r.
  by rewrite decide_True by apply (dy_deleted _ _ Hd).
Qed.

Lemma others_kept_changed s s' k v :
  k ∈ [KPVC; KSecret; KDatasetInternal] → changed view s s' k req v → others_kept s s'.
Proof using Type*.
  intros Hk Hch k' n Hn. destruct (decide (k' = k)) as [->|Hne].
  - apply (changed_name h _ _ _ _ _ _ Hch). intros ->. apply Hn. set_solver.
  - by apply (changed_kind h _ _ _ _ _ _ _ Hch).
Qed.

Lemma teardown_claim s i pvc :
  dying s i → view s KPVC req = Some pvc →
  let s' := final (run h (Reconcile req) s) in
  result (run h (Reconcile req) s) = Some (result_requeue, None) ∧
  dying s' i ∧ view s' KPVC req = None ∧ view s' KSecret req = view s KSecret req ∧
  others_kept s s'.
Proof using Type*.
  intros Hd Hv. cbn zeta.
  apply (wp_Reconcile_dying s i (λ res s', res = Some (result_requeue, None) ∧ dying s' i ∧
    view s' KPVC req = None ∧ view s' KSecret req = view s KSecret req ∧ others_kept s s'));
    [done|].
  unfold finalize. apply wp_bind, (wp_kget_some h KPVC req _ s pvc _ Hv).
  destruct (dy_claim _ _ Hd pvc Hv) as [Hk Hf].
  assert (okey KPVC pvc = req) as Hok by exact Hk.
  apply (wp_kdelete h KPVC pvc pvc); [by rewrite Hok|].
  intros o' s' (_ & _ & Hch & _). rewrite Hok, decide_True in Hch by exact Hf.
  apply wp_ret, wp_ret.
  pose proof (changed_here h _ _ _ _ _ Hch) as Hnone.
  assert (∀ k n, k ≠ KPVC → view s' k n = view s k n) as Hother
    by (intros k n Hne; exact (changed_kind h _ _ _ _ _ _ _ Hch Hne)).
  split; [done|]. split; [|split_and!; [done|by apply Hother|]].
  - destruct Hd as [H1 H2 H3 H4 H5 H6]. split; try done.
    + by rewrite Hother.
    + intros pvc'. by rewrite Hnone.
    + intros sec. rewrite Hother by done. apply H6.
  - apply (others_kept_changed s s' KPVC None); [set_solver|done].
Qed.

Lemma teardown_secret s i sec :
  dying s i → view s KPVC req = None → view s KSecret req = Some sec →
  let s' := final (run h (Reconcile req) s) in
  result (run h (Reconcile req) s) = Some (result_requeue, None) ∧
  dying s' i ∧ view s' KPVC req = None ∧ view s' KSecret req = None ∧ others_kept s s'.
Proof using Type*.
  intros Hd Hp Hv. cbn zeta.
  apply (wp_Reconcile_dying s i (λ res s', res = Some (result_requeue, None) ∧ dying s' i ∧
    view s' KPVC req = None ∧ view s' KSecret req = None ∧ others_kept s s')); [done|].
  unfold finalize. apply wp_bind, (wp_kget_none h KPVC req _ s _ Hp).
  change (IsNotFound NotFound) with true. cbn [negb].
  apply (wp_kget_some h KSecret req _ s sec _ Hv).
  destruct (dy_secret _ _ Hd sec Hv) as [Hk Hf].
  assert (okey KSecret sec = req) as Hok by exact Hk.
  apply (wp_kdelete h KSecret sec sec); [by rewrite Hok|].
  intros o' s' (_ & _ & Hch & _). rewrite Hok, decide_True in Hch by exact Hf.
  apply wp_ret, wp_ret.
  pose proof (changed_here h _ _ _ _ _ Hch) as Hnone.
  assert (∀ k n, k ≠ KSecret → view s' k n = view s k n) as Hother
    by (intros k n Hne; exact (changed_kind h _ _ _ _ _ _ _ Hch Hne)).
  assert (view s' KPVC req = None) as Hp' by (rewrite <-Hp; by apply Hother).
  split; [done|]. split; [|split_and!; [done|done|]].
  - destruct Hd as [H1 H2 H3 H4 H5 H6]. split; try done.
    + by rewrite Hother.
    + intros pvc'. by rewrite Hp'.
    + intros sec'. by rewrite Hnone.
  - apply (others_kept_changed s s' KSecret None); [set_solver|done].
Qed.

Lemma teardown_finalizer s i :
  dying s i → view s KPVC req = None → view s KSecret req = None →
  let s' := final (run h (Reconcile req) s) in
  result (run h (Reconcile req) s) = Some (result_done, None) ∧
  view s' KPVC req = None ∧ view s' KSecret req = None ∧
  view s' KDatasetInternal req = None ∧ others_kept s s'.
Proof using Type*.
  intros Hd Hp Hv. cbn zeta.
  apply (wp_Reconcile_dying s i (λ res s', res = Some (result_done, None) ∧
    view s' KPVC req = None ∧ view s' KSecret req = None ∧
    view s' KDatasetInternal req = None ∧ others_kept s s')); [done|].
  unfold finalize. apply wp_bind, (wp_kget_none h KPVC req _ s _ Hp).
  change (IsNotFound NotFound) with true. cbn [negb].
  apply (wp_kget_none h KSecret req _ s _ Hv).
  change (IsNotFound NotFound) with true. cbn [negb].
  set (o := set_finalizers i _).
  assert (om_Finalizers (di_Meta o) = []) as Hnil.
  { subst o. cbn. destruct (RemoveFinalizer _ _) as [|f fs] eqn:Hf; [done|].
    assert (f ∈ RemoveFinalizer (om_Finalizers (di_Meta i)) datasetFinalizer) as Hin
      by (rewrite Hf; set_solver).
    apply RemoveFinalizer_spec in Hin as [Hne Hin]. by apply (dy_finalizer _ _ Hd) in Hin. }
  assert (okey KDatasetInternal o = req) as Hok by exact (dy_key _ _ Hd).
  apply (wp_kupdate h KDatasetInternal o i); [rewrite Hok; apply (dy_stored _ _ Hd)|done|].
  intros o' s' (_ & _ & _ & _ & Hch & _).
  rewrite Hok, decide_True in Hch by (split; [exact (dy_deleted _ _ Hd)|exact Hnil]).
  apply wp_ret, wp_ret.
  assert (∀ k n, k ≠ KDatasetInternal → view s' k n = view s k n) as Hother
    by (intros k n Hne; exact (changed_kind h _ _ _ _ _ _ _ Hch Hne)).
  split_and!; [done| | |exact (changed_here h _ _ _ _ _ Hch)|].
  - rewrite <-Hp. by apply Hother.
  - rewrite <-Hv. by apply Hother.
  - apply (others_kept_changed s s' KDatasetInternal None); [set_solver|done].
Qed.

Lemma others_kept_trans s1 s2 s3 : others_kept s1 s2 → others_kept s2 s3 → others_kept s1 s3.
Proof using Type*. intros H1 H2 k n Hn. by rewrite H2, H1. Qed.
End Teardown.

(** Termination of the teardown: on a reachable API server, a DatasetInternal that
    is being deleted, and that only the finalizer of this controller holds, is gone
    after at most three reconciliations, its claim and its Secret with it, and no
    other object of the cluster has changed. *)
Theorem teardown_completes {S : Type} (h : handler Kube S) `{!ApiServer h}
    `{Metastore} `{ControllerUtil} (req : NamespacedName) (s : S) (i : DatasetInternal)
    (Hd : dying h req s i) :
  ∃ n, (n ≤ 3)%nat ∧
    let s' := internal_rounds h req n s in
    view s' KDatasetInternal req = None ∧ view s' KPVC req = None ∧
    view s' KSecret req = None ∧ others_kept h req s s'.
Proof.
  assert (∀ s, dying h req s i → view s KPVC req = None → ∃ n, (n ≤ 2)%nat ∧
    let s' := internal_rounds h req n s in
    view s' KDatasetInternal req = None ∧ view s' KPVC req = None ∧
    view s' KSecret req = None ∧ others_kept h req s s') as Hrest.
  { intros s1 Hd1 Hp1. destruct (view s1 KSecret req) as [sec|] eqn:Hv.
    - destruct (teardown_secret h req s1 i sec Hd1 Hp1 Hv) as (_ & Hd2 & Hp2 & Hv2 & Hk2).
      destruct (teardown_finalizer h req _ i Hd2 Hp2 Hv2) as (_ & Hp3 & Hv3 & Hi3 & Hk3).
      exists 2%nat. split; [done|]. split_and!; try done. by eapply others_kept_trans.
    - destruct (teardown_finalizer h req s1 i Hd1 Hp1 Hv) as (_ & Hp3 & Hv3 & Hi3 & Hk3).
      exists 1%nat. split; [lia|]. by split_and!. }
  destruct (view s KPVC req) as [pvc|] eqn:Hv.
  - destruct (teardown_claim h req s i pvc Hd Hv) as (_ & Hd1 & Hp1 & _ & Hk1).
    destruct (Hrest _ Hd1 Hp1) as (n & Hn & Hi & Hp & Hs & Hk).
    exists (Datatypes.S n). split; [lia|]. cbn [internal_rounds]. split_and!; try done.
    by eapply others_kept_trans.
  - destruct (Hrest s Hd Hv) as (n & Hn & Hall). exists n. split; [lia|done].
Qed.
