(* ===== verification/InternalWitness.v ===== *)
(** * The DatasetInternal reconciler: witnesses

    The hypotheses of the theorems about the DatasetInternal reconciler hold on the
    server in memory, for concrete datasets. *)

From Stdlib Require Import ZArith Lia Ascii.
From stdpp Require Import options.
From S2P Require Import Prelude GoStd KubeApi KubeServer KubeWp Metastore InternalController InternalSafety InternalProgress.

Open Scope Z_scope.

Definition list_finalizers : ControllerUtil.
Proof.
  refine {|
    AddFinalizer l f := if decide (f ∈ l) then l else l ++ [f];
    RemoveFinalizer l f := filter (λ x, x ≠ f) l |}.
  - intros l f x. case_decide as Hf.
    + split; [by right|]. intros [->|?]; done.
    + rewrite elem_of_app, list_elem_of_singleton. tauto.
  - intros l f x. by rewrite list_elem_of_filter.
Defined.

Definition witness_req : NamespacedName := MkNamespacedName "default" "books".

Definition witness_meta (finalizers : list string) (deleted : option Z) : ObjectMeta :=
  MkObjectMeta "books" "default" "u1" "1" (Some {[ "remove-on-delete" := "true" ]}) None
    finalizers [] deleted.

Definition cos_spec : DatasetSpec :=
  MkDatasetSpec
    (Some (list_to_map [("type", "COS"); ("endpoint", "http://minio:9000");
                        ("bucket", "books/2024"); ("accessKeyID", "id");
                        ("secretAccessKey", "key"); ("readonly", "1")]))
    None "" "" "" "".

Definition cos_dataset (finalizers : list string) (deleted : option Z) : DatasetInternal :=
  MkDatasetInternal (witness_meta finalizers deleted) cos_spec empty_placement.

Definition blank : MemServer := MkMemServer (λ _ _, None) [] [] (λ _, "dlf") [] 0.

Definition server_with (i : DatasetInternal) : MemServer :=
  store blank KDatasetInternal witness_req (Some i).

(** ** Progress *)

Definition provisioned_server : MemServer :=
  final (run mem_handler (@Reconcile demo_metastore list_finalizers witness_req)
    (server_with (cos_dataset ["dataset-finalizer"] None))).


Definition dying_server : MemServer :=
  store provisioned_server KDatasetInternal witness_req
    (Some (cos_dataset ["dataset-finalizer"] (Some 1))).

Lemma teardown_witness :
  (∃ pvc sec, mem_view dying_server KPVC witness_req = Some pvc ∧
     mem_view dying_server KSecret witness_req = Some sec) ∧
  ∃ n, (n ≤ 3)%nat ∧
    let s' := @internal_rounds _ mem_handler demo_metastore list_finalizers witness_req n
                dying_server in
    @view _ mem_handler _ s' KDatasetInternal witness_req = None ∧
    @view _ mem_handler _ s' KPVC witness_req = None ∧
    @view _ mem_handler _ s' KSecret witness_req = None ∧
    others_kept mem_handler witness_req dying_server s'.
Proof.
  split; [eexists _, _; split; vm_compute; reflexivity|].
  apply (@teardown_completes _ mem_handler mem_api_server demo_metastore list_finalizers
    witness_req dying_server (cos_dataset ["dataset-finalizer"] (Some 1))).
  split.
  - vm_compute. reflexivity.
  - reflexivity.
  - done.
  - intros f. cbn. set_solver.
  - intros pvc Hv. vm_compute in Hv. injection Hv as <-. by split.
  - intros sec Hv. vm_compute in Hv. injection Hv as <-. by split.
Defined.

(** ** Safety *)

Definition fresh_server : MemServer := server_with (cos_dataset [] None).

Definition fresh_events : list (event Kube) :=
  events mem_handler (@Reconcile demo_metastore list_finalizers witness_req) fresh_server.

Lemma fresh_behaviour :
  behaviour (@Reconcile demo_metastore list_finalizers witness_req) fresh_events
    (result (run mem_handler (@Reconcile demo_metastore list_finalizers witness_req)
       fresh_server)).
Proof. apply run_behaviour. Qed.

Definition first_read : event Kube :=
  Ev (E := Kube) (Get KDatasetInternal witness_req) (inr (cos_dataset [] None)).

Definition first_update : kube_op :=
  Update KDatasetInternal (set_finalizers (cos_dataset [] None) ["dataset-finalizer"]).


Lemma order_witness :
  (∃ r, fresh_events = [first_read; Ev (E := Kube) first_update r]) ∧
  orderly witness_req [first_read] first_update.
Proof.
  split; [by eexists|].
  refine (@Reconcile_tears_down_in_order demo_metastore list_finalizers witness_req
    fresh_events _ [first_read] first_update None [] fresh_behaviour _).
  reflexivity.
Defined.

Definition unknown_dataset : DatasetInternal :=
  MkDatasetInternal (witness_meta [] None)
    (MkDatasetSpec (Some {[ "type" := "TAPE" ]}) None "" "" "" "") empty_placement.

Lemma malformed_witness :
  trace (run mem_handler (@Reconcile demo_metastore list_finalizers witness_req)
           (server_with unknown_dataset)) = [Get KDatasetInternal witness_req].
Proof.
  apply (@Reconcile_rejects_malformed demo_metastore list_finalizers _ mem_handler
    (server_with unknown_dataset) witness_req unknown_dataset); reflexivity.
Defined.
