(* ===== verification/CephCache.v ===== *)
(** * The Ceph cache plugin

    Model of [plugins/ceph-cache-plugin/pkg/controller/dataset]: the reconciler that
    gives a dataset a Ceph object store as a cache ([dataset_controller.go]), the
    objects it creates ([ceph_related_objects.go]) and its teardown
    ([dataset_finalizer.go]).  A stage of [Reconcile] either returns ([inl] a result)
    or passes on what it has read ([inr]). *)

From Stdlib Require Import ZArith Lia Ascii.
From stdpp Require Import options.
From S2P Require Import Prelude GoStd KubeApi DatasetController InternalController.

Open Scope Z_scope.

Definition datasetsFinalizer : string := "hpsys.ibm.ie.com".

Definition stage (A : Type) : Type := prog Kube (reconciled + A).

Definition then_stage {A B} (p : prog Kube (reconciled + A))
    (f : A → prog Kube (reconciled + B)) : stage B :=
  r ← p;
  match r with
  | inl res => Ret (inl res)
  | inr a => f a
  end.
Notation "x ⇐ p ; q" := (then_stage p (λ x, q))
  (at level 20, p at level 100, q at level 200, only parsing) : prog_scope.

Definition return_early {A} (res : reconciled) : prog Kube (reconciled + A) :=
  Ret (inl res).

Definition ds_Name (d : Dataset) : string := om_Name (ds_Meta d).
Definition ds_Local (d : Dataset) : gomap := spec_Local (ds_Spec d).

Definition rook_namespace : prog Kube string := getenv "ROOK_NAMESPACE".

(** ** Objects of a dataset *)

Definition ceph_labels (d : Dataset) : gomap :=
  Some (list_to_map [("dataset", ds_Name d); ("dataset-namespace", om_Namespace (ds_Meta d));
                     ("dataset-uid", om_UID (ds_Meta d))]).

Definition isSameCephObject (labels : gomap) (d : Dataset) : bool :=
  match labels with
  | None => false
  | Some _ =>
      bool_decide (map_index labels "dataset" = ds_Name d)
      && bool_decide (map_index labels "dataset-namespace" = om_Namespace (ds_Meta d))
      && bool_decide (map_index labels "dataset-uid" = om_UID (ds_Meta d))
  end.

Definition config_map_name (name : string) : string := "rook-ceph-rgw-" +:+ name +:+ "-custom".
Definition user_secret_name (name : string) : string :=
  "rook-ceph-object-user-" +:+ name +:+ "-" +:+ name.

Definition rados_config (d : Dataset) : string :=
  newline +:+ "[global]" +:+ newline +:+ "rgw frontends = civetweb port=8000" +:+ newline
  +:+ "admin socket = /tmp/radosgw.8000.asok" +:+ newline +:+ "remote s3 = "
  +:+ map_index (ds_Local d) "endpoint" +:+ newline +:+ "remote bucket = "
  +:+ map_index (ds_Local d) "bucket" +:+ newline +:+ "remote id = "
  +:+ map_index (ds_Local d) "accessKeyID" +:+ newline +:+ "remote secret = "
  +:+ map_index (ds_Local d) "secretAccessKey" +:+ newline +:+ "remote region = "
  +:+ map_index (ds_Local d) "region" +:+ newline.

Definition createCustomConfigMapForRados (d : Dataset) : prog Kube (option goerr) :=
  ns ← rook_namespace;
  kcreate KConfigMap
    (MkConfigMap (new_meta (config_map_name (ds_Name d)) ns (ceph_labels d))
       (Some {[ "config" := rados_config d ]})).

(** The host the gateway is to run on: the one the dataset asks for, if it exists. *)
Definition gateway_node (d : Dataset) : prog Kube (option string) :=
  match map_get (om_Labels (ds_Meta d)) "cache.hostname" with
  | None => Ret None
  | Some rgwNode =>
      nodes ← @call Kube (ListNodes [("kubernetes.io/hostname", rgwNode)]);
      match nodes with
      | inr (_ :: _) => Ret (Some rgwNode)
      | _ => Ret None
      end
  end.

Definition createCephObjectStore (d : Dataset) : prog Kube (option goerr) :=
  ns ← rook_namespace;
  host ← gateway_node d;
  kcreate KCephObjectStore
    (MkCephObjectStore (new_meta (ds_Name d) ns (ceph_labels d)) (MkPoolSpec "host" 1)
       (MkPoolSpec "host" 1) false 1 80 host None).

Definition createCephObjectStoreUser (d : Dataset) : prog Kube (option goerr) :=
  ns ← rook_namespace;
  kcreate KCephObjectStoreUser
    (MkCephObjectStoreUser (new_meta (ds_Name d) ns (ceph_labels d)) (ds_Name d) "Ceph User").

(** [getExactlyOneObject(..., name, os.Getenv("ROOK_NAMESPACE"))]. *)
Definition getExactlyOneObject (k : Kind) (name : string) : prog Kube (goerr + Object k) :=
  ns ← rook_namespace;
  kget k (MkNamespacedName ns name).

Definition addErrorToDataset (errorString : string) (d : Dataset) : prog Kube (option goerr) :=
  kstatus_update KDataset (set_caching d (caching_status d) errorString).

(** ** Teardown *)

(** Delete an object of the dataset if it exists.  [on_error] is the error returned
    when reading it fails for another reason than its absence. *)
Definition delete_if_present (k : Kind) (name : string) (on_error : goerr → option goerr) :
    prog Kube (option goerr + option goerr) :=
  r ← getExactlyOneObject k name;
  match r with
  | inl e => if IsNotFound e then Ret (inr (Some e)) else Ret (inl (on_error e))
  | inr o =>
      errDelete ← kdelete k o;
      match errDelete with
      | Some e => Ret (inl (Some e))
      | None => Ret (inr None)
      end
  end.

(** [finalizeDataset].  [inl] is a return; [inr err] goes on with the error, [nil] or
    not found, of the last read.  The variable [err] holds the error of reading the
    user, later that of reading the Secret: it is what the function returns when
    reading the store or the ConfigMap fails. *)
Definition finalizeDataset (m : Dataset) : prog Kube (option goerr) :=
  user ← delete_if_present KCephObjectStoreUser (ds_Name m) Some;
  match user with
  | inl ret => Ret ret
  | inr err =>
      store ← delete_if_present KCephObjectStore (ds_Name m) (λ _, err);
      match store with
      | inl ret => Ret ret
      | inr _ =>
          secret ← delete_if_present KSecret (user_secret_name (ds_Name m)) Some;
          match secret with
          | inl ret => Ret ret
          | inr err =>
              config ← delete_if_present KConfigMap (config_map_name (ds_Name m)) (λ _, err);
              match config with
              | inl ret => Ret ret
              | inr _ => Ret None
              end
          end
      end
  end.

Definition set_ds_finalizers (d : Dataset) (fs : list string) : Dataset :=
  let m := ds_Meta d in
  MkDataset
    (MkObjectMeta (om_Name m) (om_Namespace m) (om_UID m) (om_ResourceVersion m)
       (om_Labels m) (om_Annotations m) fs (om_OwnerReferences m) (om_DeletionTimestamp m))
    (ds_Spec d) (ds_Status d).

(** ** Placements *)

Definition rgw_pods (name : string) : prog Kube (goerr + list PodInfo) :=
  ns ← rook_namespace;
  @call Kube (ListPods (MkListOptions ns [("app", "rook-ceph-rgw"); ("rgw", name)] [])).
Definition osd_pods : prog Kube (goerr + list PodInfo) :=
  ns ← rook_namespace;
  @call Kube (ListPods (MkListOptions ns [("app", "rook-ceph-osd")] [])).

Definition placement_info (p : PodInfo) : CachingPlacementInfo :=
  MkPlacementInfo "kubernetes.io/hostname" (pi_NodeName p).

Definition set_placements (i : DatasetInternal) (g l : list CachingPlacementInfo) :
    DatasetInternal :=
  MkDatasetInternal (di_Meta i) (di_Spec i) (MkPlacement g l).

Definition needs_placements (d : Dataset) (i : DatasetInternal) : bool :=
  bool_decide (map_index (om_Annotations (ds_Meta d)) "dlf-plugin-name" = "ceph-cache-plugin")
  && (bool_decide (cp_Gateways (di_Placements i) = [])
      || bool_decide (cp_DataLocations (di_Placements i) = [])).

(** [updateCachingPlacements]: whether the status is to be written, the
    DatasetInternal as it was changed in place, and the error. *)
Definition updateCachingPlacements (req : NamespacedName) (d : Dataset) (i : DatasetInternal) :
    prog Kube (bool * DatasetInternal * option goerr) :=
  if needs_placements d i then
    rgwPods ← rgw_pods (nn_Name req);
    match rgwPods with
    | inl e => Ret (true, i, Some e)
    | inr [] => Ret (true, i, Some (OtherError "error rgw pod not found"))
    | inr rgwPods =>
        let i := set_placements i (cp_Gateways (di_Placements i) ++ (placement_info <$> rgwPods))
                   (cp_DataLocations (di_Placements i)) in
        osdPods ← osd_pods;
        match osdPods with
        | inl e => Ret (true, i, Some e)
        | inr [] => Ret (true, i, Some (OtherError "error osd pods not found"))
        | inr osdPods =>
            Ret (true,
                 set_placements i (cp_Gateways (di_Placements i))
                   (cp_DataLocations (di_Placements i) ++ (placement_info <$> osdPods)),
                 None)
        end
    end
  else Ret (false, i, None).

(** ** Reconcile *)

(** The DatasetInternal exists: keep its placements up to date; or it does not. *)
Definition internal_stage (req : NamespacedName) (d : Dataset) : stage unit :=
  existing ← kget KDatasetInternal req;
  match existing with
  | inr existingDatasetInternal =>
      r ← updateCachingPlacements req d existingDatasetInternal;
      match r with
      | (needToUpdateStatus, i, None) =>
          if (needToUpdateStatus : bool) then
            err ← kstatus_update KDatasetInternal i;
            return_early (result_done, err)
          else return_early (result_done, None)
      | (_, _, Some e) => return_early (result_done, Some e)
      end
  | inl e => if IsNotFound e then Ret (inr tt) else return_early (result_done, Some e)
  end.

Definition clusters_stage (d : Dataset) : stage unit :=
  ns ← rook_namespace;
  clusterList ← @call Kube (ListCephClusters ns);
  match clusterList with
  | inl e =>
      errAdd ← addErrorToDataset "cannot lookup ceph clusters" d;
      return_early (result_done, Some (default e errAdd))
  | inr [] =>
      errAdd ← addErrorToDataset "no ceph clusters available" d;
      return_early (result_done, Some (default (BadRequest "no ceph clusters available") errAdd))
  | inr _ => Ret (inr tt)
  end.

Definition other_dataset : goerr := BadRequest "rgw exists, but belongs to different dataset".

(** An object of the dataset: created, or read and checked to belong to the dataset. *)
Definition object_stage (k : Kind) (name : string) (d : Dataset)
    (create : prog Kube (option goerr)) : stage (Object k) :=
  r ← getExactlyOneObject k name;
  match r with
  | inl e =>
      if IsNotFound e then
        errCreation ← create;
        match errCreation with
        | Some e => return_early (result_done, Some e)
        | None => return_early (result_requeue, None)
        end
      else return_early (result_done, Some e)
  | inr o =>
      if isSameCephObject (om_Labels (meta_of k o)) d then Ret (inr o)
      else return_early (result_done, Some other_dataset)
  end.

(** The object store must be connected and have a gateway pod. *)
Definition ready_stage (req : NamespacedName) (store : CephObjectStore) : stage unit :=
  if decide (cos_Phase store = Some "Connected") then
    rgwPods ← rgw_pods (nn_Name req);
    match rgwPods with
    | inl e => return_early (result_done, Some e)
    | inr [] => return_early (result_requeue, None)
    | inr _ => Ret (inr tt)
    end
  else return_early (result_requeue, None).

(** An object Rook creates: wait for it. *)
Definition wait_stage (k : Kind) (name : string) : stage (Object k) :=
  r ← getExactlyOneObject k name;
  match r with
  | inl e =>
      if IsNotFound e then return_early (result_requeue, None)
      else return_early (result_done, Some e)
  | inr o => Ret (inr o)
  end.

Definition foreign_service (service : Service) (store : CephObjectStore) : bool :=
  match om_OwnerReferences (svc_Meta service) with
  | owner :: _ => bool_decide (or_UID owner ≠ om_UID (cos_Meta store))
  | [] => false
  end.

Definition cached_internal (d : Dataset) (secret : Secret) (service : Service) :
    DatasetInternal :=
  MkDatasetInternal
    (new_meta (ds_Name d) (om_Namespace (ds_Meta d))
       (Some (<["dlf-plugin-name" := "ceph-cache-plugin"]>
              (<["dlf-plugin-type" := "caching"]> (default ∅ (om_Labels (ds_Meta d)))))))
    (MkDatasetSpec
       (Some (list_to_map [
          ("type", "COS");
          ("accessKeyID", map_index (sec_Data secret) "AccessKey");
          ("secretAccessKey", map_index (sec_Data secret) "SecretKey");
          ("endpoint", "http://" +:+ svc_ClusterIP service);
          ("bucket", map_index (ds_Local d) "bucket");
          ("provision", map_index (ds_Local d) "provision");
          ("region", map_index (ds_Local d) "region")]))
       None "" "" "" "")
    empty_placement.

Section Reconcile.
Context `{ControllerUtil}.

Definition addFinalizer (m : Dataset) : prog Kube (option goerr) :=
  kupdate KDataset
    (set_ds_finalizers m (AddFinalizer (om_Finalizers (ds_Meta m)) datasetsFinalizer)).

(** The dataset is being deleted. *)
Definition deletion (d : Dataset) : prog Kube reconciled :=
  if contains (om_Finalizers (ds_Meta d)) datasetsFinalizer then
    err ← finalizeDataset d;
    match err with
    | Some e => Ret (result_done, Some e)
    | None =>
        err ← kupdate KDataset
                (set_ds_finalizers d
                   (RemoveFinalizer (om_Finalizers (ds_Meta d)) datasetsFinalizer));
        Ret (result_done, err)
    end
  else Ret (result_done, None).

(** The DatasetInternal of the cached dataset, then the finalizer. *)
Definition internal_creation (d : Dataset) (secret : Secret) (service : Service) :
    stage unit :=
  r ← kset_owner KDatasetInternal (ds_Meta d) (cached_internal d secret service);
  match r with
  | inl e => return_early (result_done, Some e)
  | inr internalDataset =>
      err ← kcreate KDatasetInternal internalDataset;
      match err with
      | Some e => return_early (result_done, Some e)
      | None =>
          if contains (om_Finalizers (ds_Meta d)) datasetsFinalizer then Ret (inr tt)
          else
            err ← addFinalizer d;
            match err with
            | Some e => return_early (result_done, Some e)
            | None => Ret (inr tt)
            end
      end
  end.

Definition provision (req : NamespacedName) (d : Dataset) : stage unit :=
  _ ⇐ internal_stage req d;
  _ ⇐ clusters_stage d;
  _ ⇐ object_stage KConfigMap (config_map_name (nn_Name req)) d
        (createCustomConfigMapForRados d);
  store ⇐ object_stage KCephObjectStore (nn_Name req) d (createCephObjectStore d);
  _ ⇐ ready_stage req store;
  _ ⇐ object_stage KCephObjectStoreUser (nn_Name req) d (createCephObjectStoreUser d);
  secret ⇐ wait_stage KSecret (user_secret_name (ds_Name d));
  service ⇐ wait_stage KService ("rook-ceph-rgw-" +:+ ds_Name d);
  if foreign_service service store then return_early (result_requeue, None)
  else internal_creation d secret service.

Definition Reconcile (req : NamespacedName) : prog Kube reconciled :=
  r ← kget KDataset req;
  match r with
  | inl e => if IsNotFound e then Ret (result_done, None) else Ret (result_done, Some e)
  | inr datasetInstance =>
      if decide (om_DeletionTimestamp (ds_Meta datasetInstance) ≠ None) then
        deletion datasetInstance
      else
        r ← provision req datasetInstance;
        match r with
        | inl res => Ret res
        | inr _ => Ret (result_done, None)
        end
  end.
End Reconcile.
