(* ===== verification/CephSafety.v ===== *)
(** * The Ceph cache plugin: safety

    What the reconciler has seen before it creates a DatasetInternal, and a read error
    that its teardown loses, whatever the API server answers. *)

From Stdlib Require Import ZArith Lia Ascii.
From stdpp Require Import options.
From S2P Require Import Prelude GoStd KubeApi KubeServer KubeWp DatasetController DatasetSafety InternalController InternalSafety CephCache.

Open Scope Z_scope.

(** ** The DatasetInternal comes last *)

(** An object of the dataset that was read. *)
Definition read_own (evs : list (event Kube)) (d : Dataset) (k : Kind) (name : string)
    (o : Object k) : Prop :=
  ∃ ns, told evs (Get k (MkNamespacedName ns name)) (inr o) ∧
        isSameCephObject (om_Labels (meta_of k o)) d = true.

Definition read_any (evs : list (event Kube)) (k : Kind) (name : string) (o : Object k) : Prop :=
  ∃ ns, told evs (Get k (MkNamespacedName ns name)) (inr o).

(** Everything the cached dataset stands on has been seen. *)
Definition backed (req : NamespacedName) (evs : list (event Kube)) (i : DatasetInternal) : Prop :=
  ∃ d config store user secret service,
    read_dataset req evs d ∧ om_DeletionTimestamp (ds_Meta d) = None ∧
    no_internal req evs ∧
    read_own evs d KConfigMap (config_map_name (nn_Name req)) config ∧
    read_own evs d KCephObjectStore (nn_Name req) store ∧
    cos_Phase store = Some "Connected" ∧
    read_own evs d KCephObjectStoreUser (nn_Name req) user ∧
    read_any evs KSecret (user_secret_name (ds_Name d)) secret ∧
    read_any evs KService ("rook-ceph-rgw-" +:+ ds_Name d) service ∧
    foreign_service service store = false ∧
    told evs (SetControllerReference KDatasetInternal (ds_Meta d)
                (cached_internal d secret service)) (inr i).

Definition creates_backed (req : NamespacedName) (evs : list (event Kube)) (o : kube_op) : Prop :=
  match o with
  | Create KDatasetInternal i => backed req evs i
  | _ => True
  end.

(** Programs that create no DatasetInternal. *)
Definition no_creation (_ : list (event Kube)) (o : kube_op) : Prop :=
  match o with
  | Create KDatasetInternal _ => False
  | _ => True
  end.

(** What a stage establishes when it goes on. *)
Definition establishes {A} (p : prog Kube (reconciled + A))
    (P : list (event Kube) → A → Prop) : Prop :=
  ∀ evs, guarded p evs no_creation ∧
    ensures_from p evs (λ evs' r, (∃ l, evs' = evs ++ l) ∧
      match r with inl _ => True | inr a => P evs' a end).

(** A fact about the past stays true. *)
Definition lasting {A} (P : list (event Kube) → A → Prop) : Prop :=
  ∀ evs l a, P evs a → P (evs ++ l) a.

Lemma told_app evs l o r : told evs o r → told (evs ++ l) o r.
Proof. intros H. apply elem_of_app. by left. Qed.

Lemma guarded_then {A B} req (p : prog Kube (reconciled + A))
    (f : A → prog Kube (reconciled + B)) P evs :
  establishes p P →
  (∀ l a, P (evs ++ l) a → guarded (f a) (evs ++ l) (creates_backed req)) →
  guarded (then_stage p f) evs (creates_backed req).
Proof.
  intros Hp Hf. destruct (Hp evs) as [Hg He]. apply guarded_bind.
  - eapply guarded_mono; [|exact Hg]. by intros ? [| []| | | | | | | | | |].
  - eapply ensures_from_mono; [|exact He]. intros evs' [res|a] [[l ->] HP]; [done|].
    by apply Hf.
Qed.

(** ** The stages *)

Lemma establishes_intro {A} (p : prog Kube (reconciled + A)) P :
  (∀ evs, guarded p evs no_creation) →
  (∀ evs, ensures_from p evs (λ evs' r, match r with inl _ => True | inr a => P evs' a end)) →
  establishes p P.
Proof.
  intros Hg He evs. split; [done|].
  pose proof (proj1 (ensures_from_behaviour _ _ _) (He evs)) as H1.
  pose proof (proj1 (ensures_from_behaviour _ _ _) (ensures_from_grows p evs)) as H2.
  apply ensures_from_behaviour. intros evs' a Hb. split; [|by apply H1].
  by apply (H2 evs' a).
Qed.

Ltac esteps :=
  cbn [guarded ensures_from mbind prog_mbind prog_bind call kget kcreate kupdate
       kstatus_update kset_owner getenv new_uuid rook_namespace getExactlyOneObject
       return_early fmap prog_fmap].

Lemma internal_stage_establishes req d :
  establishes (internal_stage req d) (λ evs _, no_internal req evs).
Proof.
  apply establishes_intro; intros evs; unfold internal_stage; esteps.
  - split; [done|]. intros [e|i]; [by destruct (IsNotFound e)|].
    apply guarded_bind_grow.
    + unfold updateCachingPlacements. destruct (needs_placements d i); [|done].
      unfold rgw_pods, osd_pods. esteps. split; [done|intros ns].
      split; [done|]. intros [e|[|p ps]]; [done|done|]. esteps. split; [done|intros ns'].
      split; [done|]. by intros [e|[|q qs]].
    + intros l [[needs i'] [e|]]; [done|]. destruct needs; [|done]. esteps. by split.
  - intros [e|i].
    + destruct (IsNotFound e) eqn:He; [|done]. apply bool_decide_eq_true in He as ->.
      cbn. solve_told.
    + apply ensures_from_bind. eapply ensures_from_mono; [|apply ensures_from_grows].
      intros evs' [[needs i'] [e|]] _; [done|]. by destruct needs; cbn.
Qed.

Lemma clusters_stage_establishes d : establishes (clusters_stage d) (λ _ _, True).
Proof.
  apply establishes_intro; intros evs; unfold clusters_stage, addErrorToDataset; esteps.
  - split; [done|intros ns]. split; [done|]. by intros [e|[|c cs]].
  - intros ns [e|[|c cs]]; esteps; done.
Qed.

Lemma object_stage_establishes k name d create :
  (∀ evs, guarded create evs no_creation) →
  establishes (object_stage k name d create) (λ evs o, read_own evs d k name o).
Proof.
  intros Hc. apply establishes_intro; intros evs; unfold object_stage; esteps.
  - split; [done|intros ns]. split; [done|]. intros [e|o].
    + destruct (IsNotFound e); [|done]. apply guarded_bind_grow; [apply Hc|by intros ? []].
    + by destruct (isSameCephObject _ _).
  - intros ns [e|o].
    + destruct (IsNotFound e); [|done]. apply ensures_from_bind.
      eapply ensures_from_mono; [|apply ensures_from_grows]. by intros evs' [e'|] _.
    + destruct (isSameCephObject _ _) eqn:Hs; [|done]. exists ns. split; [solve_told|done].
Qed.

Lemma config_map_mild d evs : guarded (createCustomConfigMapForRados d) evs no_creation.
Proof. unfold createCustomConfigMapForRados. esteps. by split. Qed.

Lemma object_store_mild d evs : guarded (createCephObjectStore d) evs no_creation.
Proof.
  unfold createCephObjectStore. esteps. split; [done|intros ns].
  apply guarded_bind_grow; [|by intros; esteps].
  unfold gateway_node. destruct (map_get _ _); [|done]. esteps. split; [done|].
  by intros [|[]].
Qed.

Lemma object_user_mild d evs : guarded (createCephObjectStoreUser d) evs no_creation.
Proof. unfold createCephObjectStoreUser. esteps. by split. Qed.

Lemma ready_stage_establishes req store :
  establishes (ready_stage req store) (λ _ _, cos_Phase store = Some "Connected").
Proof.
  apply establishes_intro; intros evs; unfold ready_stage, rgw_pods;
    (case_decide; [|done]); esteps.
  - split; [done|intros ns]. split; [done|]. by intros [e|[|p ps]].
  - by intros ns [e|[|p ps]].
Qed.

Lemma wait_stage_establishes k name :
  establishes (wait_stage k name) (λ evs o, read_any evs k name o).
Proof.
  apply establishes_intro; intros evs; unfold wait_stage; esteps.
  - split; [done|intros ns]. split; [done|]. intros [e|o]; [|done]. by destruct (IsNotFound e).
  - intros ns [e|o]; [by destruct (IsNotFound e)|]. exists ns. solve_told.
Qed.

Lemma read_own_app evs l d k name o : read_own evs d k name o → read_own (evs ++ l) d k name o.
Proof. intros (ns & Ht & Hs). exists ns. split; [by apply told_app|done]. Qed.
Lemma read_any_app evs l k name o : read_any evs k name o → read_any (evs ++ l) k name o.
Proof. intros (ns & Ht). exists ns. by apply told_app. Qed.

(** The teardown creates nothing. *)
Lemma delete_if_present_mild k name f evs : guarded (delete_if_present k name f) evs no_creation.
Proof.
  unfold delete_if_present. esteps. split; [done|intros ns]. split; [done|].
  intros [e|o]; [by destruct (IsNotFound e)|]. unfold kdelete. esteps. split; [done|].
  by intros [].
Qed.

Lemma finalizeDataset_mild d evs : guarded (finalizeDataset d) evs no_creation.
Proof.
  unfold finalizeDataset.
  repeat (apply guarded_bind_grow; [apply delete_if_present_mild|intros ? [ret|?]; [done|]]).
  done.
Qed.

(** (C26) The cache plugin hands a dataset over last: whatever the API server answers,
    a DatasetInternal is created only after the server has answered that there is
    none, and after the gateway configuration, the connected object store and its
    user, all labelled with the name, the namespace and the UID of this dataset, the
    credentials and the gateway service have been read; it carries these credentials
    and this endpoint. *)
Theorem Ceph_internal_backed `{ControllerUtil} (req : NamespacedName) evs res pre i r post
    (Hb : behaviour (CephCache.Reconcile req) evs res)
    (Hsplit : evs = pre ++ Ev (E := Kube) (Create KDatasetInternal i) r :: post) :
  backed req pre i.
Proof.
  apply (guarded_behaviour (CephCache.Reconcile req) [] (creates_backed req) evs res pre
    (Create KDatasetInternal i) r post); [|done|done].
  unfold CephCache.Reconcile. esteps. split; [done|]. intros [e|d]; [by destruct (IsNotFound e)|].
  rewrite app_nil_l. case_decide as Hdel.
  { eapply guarded_mono with (G := no_creation); [by intros ? [| []| | | | | | | | | |]|].
    unfold deletion. case_match; [|done]. apply guarded_bind_grow; [apply finalizeDataset_mild|].
    intros l [e|]; [done|]. esteps. by split. }
  assert (om_DeletionTimestamp (ds_Meta d) = None) as Hlive by by destruct (om_DeletionTimestamp (ds_Meta d)).
  apply guarded_bind_grow; [|by intros ? []].
  set (evs0 := [_]). assert (read_dataset req evs0 d) as Hd by (by eexists). clearbody evs0.
  unfold provision.
  eapply guarded_then; [apply internal_stage_establishes|]. intros l1 [] Hno. cbn beta in Hno.
  eapply guarded_then; [apply clusters_stage_establishes|]. intros l2 [] _.
  eapply guarded_then; [apply object_stage_establishes, config_map_mild|]. intros l3 config Hconfig.
  eapply guarded_then; [apply object_stage_establishes, object_store_mild|]. intros l4 store Hstore.
  eapply guarded_then; [apply ready_stage_establishes|]. intros l5 [] Hphase.
  eapply guarded_then; [apply object_stage_establishes, object_user_mild|]. intros l6 user Huser.
  eapply guarded_then; [apply wait_stage_establishes|]. intros l7 secret Hsecret.
  eapply guarded_then; [apply wait_stage_establishes|]. intros l8 service Hservice.
  destruct (foreign_service service store) eqn:Hf; [done|].
  unfold internal_creation. esteps. split; [done|]. intros [e|i']; [done|]. esteps. split.
  - exists d, config, store, user, secret, service.
    split_and!; try done;
      repeat first [ assumption | apply read_own_app; assumption | apply read_any_app; assumption
        | solve_told | apply read_own_app | apply read_any_app ].
  - intros [e|]; [done|]. case_match; [done|]. unfold CephCache.addFinalizer. esteps.
    split; [done|]. by intros [].
Qed.

(** The update that lets the dataset go. *)
Definition finalizer_dropped `{ControllerUtil} (d : Dataset) : kube_op :=
  Update KDataset
    (set_ds_finalizers d (RemoveFinalizer (om_Finalizers (ds_Meta d)) datasetsFinalizer)).

(** A read error is lost in the teardown: when the user of the object store was
    found and deleted, and reading the object store then fails, [finalizeDataset]
    returns the error of the first read, which is none; the finalizer is removed from
    the dataset although its object store was not deleted. *)
Theorem Ceph_teardown_loses_error `{ControllerUtil} {S : Type} (h : handler Kube S)
    (req : NamespacedName) (s s1 s2 s3 s4 s5 s6 : S)
    (d : Dataset) (u : CephObjectStoreUser) (ns ns' : string) (e : goerr)
    (Hdel : om_DeletionTimestamp (ds_Meta d) ≠ None)
    (Hfin : contains (om_Finalizers (ds_Meta d)) datasetsFinalizer = true)
    (He : IsNotFound e = false)
    (H1 : h (Get KDataset req) s = (inr d, s1))
    (H2 : h (Getenv "ROOK_NAMESPACE") s1 = (ns, s2))
    (H3 : h (Get KCephObjectStoreUser (MkNamespacedName ns (ds_Name d))) s2 = (inr u, s3))
    (H4 : h (Delete KCephObjectStoreUser u) s3 = (None, s4))
    (H5 : h (Getenv "ROOK_NAMESPACE") s4 = (ns', s5))
    (H6 : h (Get KCephObjectStore (MkNamespacedName ns' (ds_Name d))) s5 = (inl e, s6)) :
  trace (run h (CephCache.Reconcile req) s) =
    [Get KDataset req; Getenv "ROOK_NAMESPACE";
     Get KCephObjectStoreUser (MkNamespacedName ns (ds_Name d));
     Delete KCephObjectStoreUser u; Getenv "ROOK_NAMESPACE";
     Get KCephObjectStore (MkNamespacedName ns' (ds_Name d)); finalizer_dropped d] ∧
  result (run h (CephCache.Reconcile req) s) = (result_done, (h (finalizer_dropped d) s6).1).
Proof.
  unfold CephCache.Reconcile. cbn. rewrite H1. cbn.
  rewrite decide_True by done. unfold deletion. rewrite Hfin. cbn.
  rewrite H2. cbn. rewrite H3. cbn. rewrite H4. cbn. rewrite H5. cbn. rewrite H6. cbn.
  rewrite He. cbn. done.
Qed.
