(* ===== verification/CephProgress.v ===== *)
(** * The Ceph cache plugin: progress

    On a reachable API server: the reconciler, taking turns with the Rook operator,
    brings a cached dataset to its DatasetInternal; the placements of an existing
    DatasetInternal settle in one reconciliation; the teardown of a deleted dataset
    takes one reconciliation. *)

From Stdlib Require Import ZArith Lia Ascii.
From stdpp Require Import options.
From S2P Require Import Prelude GoStd KubeApi KubeServer KubeWp DatasetController InternalController InternalSafety CephCache.

Open Scope Z_scope.

Lemma own_labels d : isSameCephObject (ceph_labels d) d = true.
Proof. unfold isSameCephObject, ceph_labels. by rewrite !bool_decide_true by done. Qed.

Section Progress.
Context {S : Type} (h : handler Kube S) `{!ApiServer h}.

Lemma surroundings_environ s s' : surroundings s' = surroundings s → environ s' = environ s.
Proof using Type*. by intros [= _ _ -> _ _]. Qed.
Lemma surroundings_pods s s' : surroundings s' = surroundings s → pods s' = pods s.
Proof using Type*. by intros [= -> _ _ _ _]. Qed.
Lemma surroundings_clusters s s' : surroundings s' = surroundings s → clusters s' = clusters s.
Proof using Type*. by intros [= _ _ _ _ ->]. Qed.

(** The name of an object in Rook's namespace. *)
Definition rook (s : S) (name : string) : NamespacedName :=
  MkNamespacedName (environ s "ROOK_NAMESPACE") name.

Lemma wp_getExactlyOneObject {B} k name (f : goerr + Object k → prog Kube B) s
    (Q : B → S → Prop) :
  wp h (f (match view s k (scoped k (rook s name)) with Some o => inr o | None => inl NotFound end))
    s Q →
  wp h (getExactlyOneObject k name ≫= f) s Q.
Proof using Type*.
  intros HQ. unfold getExactlyOneObject, rook_namespace.
  eapply wp_equiv; [apply bind_assoc|]. apply (wp_getenv h), (wp_kget h), HQ.
Qed.

Lemma wp_then {A B} (p : prog Kube (reconciled + A)) (f : A → prog Kube (reconciled + B)) s
    (Q : reconciled + B → S → Prop) :
  wp h p s (λ r s', match r with inl res => Q (inl res) s' | inr a => wp h (f a) s' Q end) →
  wp h (then_stage p f) s Q.
Proof using Type*.
  intros HQ. apply wp_bind. eapply wp_mono; [exact HQ|]. by intros [res|a] s'.
Qed.

(** ** Teardown *)

(** Every object is stored under its own name. *)
Definition well_stored (s : S) : Prop :=
  ∀ k n o, view s k n = Some o → okey k o = n.

(** An object that was deleted is gone, or marked while its finalizers hold it. *)
Definition released (k : Kind) (before after : option (Object k)) : Prop :=
  match before with
  | None => after = None
  | Some o =>
      if decide (om_Finalizers (meta_of k o) = []) then after = None
      else ∃ o', after = Some o' ∧ om_DeletionTimestamp (meta_of k o') ≠ None
  end.

Record released_all (s s' : S) (l : list (Kind * NamespacedName)) : Prop := {
  ra_stored : well_stored s';
  ra_surroundings : surroundings s' = surroundings s;
  ra_released k n : (k, n) ∈ l → released k (view s k n) (view s' k n);
  ra_others k n : (k, n) ∉ l → view s' k n = view s k n }.

Lemma released_all_app s1 s2 s3 l1 l2 :
  released_all s1 s2 l1 → released_all s2 s3 l2 → (∀ x, x ∈ l1 → x ∉ l2) →
  released_all s1 s3 (l1 ++ l2).
Proof using Type*.
  intros [H1 H2 H3 H4] [J1 J2 J3 J4] Hd. split; [done|by rewrite J2| |].
  - intros k n [Hin|Hin]%elem_of_app.
    + rewrite J4; [by apply H3|]. by apply Hd.
    + rewrite <-H4; [by apply J3|]. intros Hin'. by apply (Hd _ Hin').
  - intros k n Hn. rewrite J4, H4; [done| |]; intros Hin; apply Hn, elem_of_app; auto.
Qed.

Lemma wp_delete_if_present k name on_error s (Q : option goerr + option goerr → S → Prop) :
  well_stored s → scoped k (rook s name) = rook s name →
  (∀ r s', released_all s s' [(k, rook s name)] → Q (inr r) s') →
  wp h (delete_if_present k name on_error) s Q.
Proof using Type*.
  intros Hw Hsc HQ. unfold delete_if_present. apply wp_getExactlyOneObject. rewrite Hsc.
  destruct (view s k (rook s name)) as [o|] eqn:Hv.
  - assert (okey k o = rook s name) as Hok by by apply Hw.
    apply (wp_kdelete h k o o); [by rewrite Hok|].
    intros o' s' (Hdel & Hm & Hch & Hsur). rewrite Hok in Hch. apply wp_ret, HQ.
    split; [|done| |].
    + intros k' n' x. destruct (decide (k' = k)) as [->|Hk].
      * destruct (decide (n' = rook s name)) as [->|Hn].
        -- rewrite (changed_here h _ _ _ _ _ Hch). case_decide; [done|]. intros [= <-].
           rewrite <-Hok. by apply sm_key.
        -- rewrite (changed_name h _ _ _ _ _ _ Hch Hn). apply Hw.
      * rewrite (changed_kind h _ _ _ _ _ _ _ Hch Hk). apply Hw.
    + intros k' n' [= -> ->]%list_elem_of_singleton. rewrite Hv.
      rewrite (changed_here h _ _ _ _ _ Hch). cbn. case_decide; [done|]. by exists o'.
    + intros k' n' Hn. destruct (decide (k' = k)) as [->|Hk].
      * apply (changed_name h _ _ _ _ _ _ Hch). intros ->. apply Hn. by left.
      * by apply (changed_kind h _ _ _ _ _ _ _ Hch).
  - change (IsNotFound NotFound) with true. cbn iota. apply wp_ret, HQ.
    split; [done|done| |done].
    intros k' n' [= -> ->]%list_elem_of_singleton. by rewrite Hv.
Qed.

(** What the plugin creates for a dataset. *)
Definition cache_objects (s : S) (d : Dataset) : list (Kind * NamespacedName) :=
  [(KCephObjectStoreUser, rook s (ds_Name d)); (KCephObjectStore, rook s (ds_Name d));
   (KSecret, rook s (user_secret_name (ds_Name d)));
   (KConfigMap, rook s (config_map_name (ds_Name d)))].

Lemma released_all_rook s s' l name : released_all s s' l → rook s' name = rook s name.
Proof using Type*. intros [_ Hsur _ _]. unfold rook. by rewrite (surroundings_environ s s' Hsur). Qed.

Lemma wp_finalizeDataset d s (Q : option goerr → S → Prop) :
  well_stored s →
  (∀ s', released_all s s' (cache_objects s d) → Q None s') →
  wp h (finalizeDataset d) s Q.
Proof using Type*.
  intros Hw HQ. unfold finalizeDataset.
  apply wp_bind, wp_delete_if_present; [done|done|]. intros r1 s1 H1.
  apply wp_bind, wp_delete_if_present; [apply H1|done|]. intros r2 s2 H2.
  pose proof (released_all_app _ _ _ _ _ H1 H2 ltac:(set_solver)) as H12.
  apply wp_bind, wp_delete_if_present; [apply H2|done|]. intros r3 s3 H3.
  pose proof (released_all_app _ _ _ _ _ H12 H3 ltac:(set_solver)) as H13.
  apply wp_bind, wp_delete_if_present; [apply H3|done|]. intros r4 s4 H4.
  pose proof (released_all_app _ _ _ _ _ H13 H4 ltac:(set_solver)) as H14.
  apply wp_ret, HQ.
  rewrite (released_all_rook _ _ _ _ H13), (released_all_rook _ _ _ _ H12),
    (released_all_rook _ _ _ _ H1) in H14. exact H14.
Qed.

Context `{ControllerUtil} (req : NamespacedName).

(** A dataset that is being deleted and that only the plugin's finalizer holds. *)
Record cache_dying (s : S) (d : Dataset) : Prop := {
  cd_stored : view s KDataset req = Some d;
  cd_well_stored : well_stored s;
  cd_deleted : om_DeletionTimestamp (ds_Meta d) ≠ None;
  cd_finalizer : ∀ f, f ∈ om_Finalizers (ds_Meta d) ↔ f = datasetsFinalizer }.
End Progress.

(** (C27) Teardown of a cached dataset: on a reachable API server one reconciliation of
    a dataset that is being deleted, and that only the plugin's finalizer holds,
    deletes the object store, its user, the user's credentials and the gateway
    configuration of that dataset in Rook's namespace (an object that carries
    finalizers of its own is left marked for deletion), then lets the dataset go; no
    other object of the cluster changes. *)
Theorem Ceph_teardown_completes {S : Type} (h : handler Kube S) `{!ApiServer h}
    `{ControllerUtil} (req : NamespacedName) (s : S) (d : Dataset)
    (Hd : cache_dying h req s d) :
  let o := run h (CephCache.Reconcile req) s in
  result o = (result_done, None) ∧
  (∀ k n, (k, n) ∈ cache_objects h s d → released k (view s k n) (view (final o) k n)) ∧
  view (final o) KDataset req = None ∧
  (∀ k n, (k, n) ∉ (KDataset, req) :: cache_objects h s d →
     view (final o) k n = view s k n).
Proof.
  destruct Hd as [Hv Hw Hdel Hfin]. cbn zeta.
  apply (wp_tail h (CephCache.Reconcile req) s (λ r s', r = (result_done, None) ∧
    (∀ k n, (k, n) ∈ cache_objects h s d → released k (view s k n) (view s' k n)) ∧
    view s' KDataset req = None ∧
    (∀ k n, (k, n) ∉ (KDataset, req) :: cache_objects h s d → view s' k n = view s k n))).
  eapply wp_bind. unfold CephCache.Reconcile.
  apply (wp_kget_some h KDataset req _ s d _ Hv). rewrite decide_True by done.
  unfold deletion.
  assert (contains (om_Finalizers (ds_Meta d)) datasetsFinalizer = true) as ->
    by by apply contains_spec, Hfin.
  apply wp_bind, (wp_finalizeDataset h); [done|]. intros s1 H1.
  set (o := set_ds_finalizers d _).
  assert (om_Finalizers (ds_Meta o) = []) as Hnil.
  { subst o. cbn. destruct (RemoveFinalizer _ _) as [|f fs] eqn:Hf; [done|].
    assert (f ∈ RemoveFinalizer (om_Finalizers (ds_Meta d)) datasetsFinalizer) as Hin
      by (rewrite Hf; set_solver).
    apply RemoveFinalizer_spec in Hin as [Hne Hin]. by apply Hfin in Hin. }
  assert (okey KDataset o = req) as Hok by exact (Hw _ _ _ Hv).
  assert (view s1 KDataset req = Some d) as Hv1
    by (rewrite (ra_others h _ _ _ H1); [done|set_solver]).
  apply (wp_kupdate h KDataset o d); [by rewrite Hok|done|].
  intros o' s' (_ & _ & _ & _ & Hch & _).
  rewrite Hok, decide_True in Hch by (split; [exact Hdel|exact Hnil]).
  apply wp_ret, wp_ret. split_and!; [done| |exact (changed_here h _ _ _ _ _ Hch)|].
  - intros k n Hin. rewrite (changed_kind h _ _ _ _ _ k n Hch) by set_solver.
    by apply (ra_released h _ _ _ H1).
  - intros k n Hn. rewrite <-(ra_others h _ _ _ H1) by set_solver.
    destruct (decide (k = KDataset)) as [->|Hk].
    + apply (changed_name h _ _ _ _ _ _ Hch). intros ->. apply Hn. by left.
    + by apply (changed_kind h _ _ _ _ _ _ _ Hch).
Qed.
