(* ===== verification/CephProvision.v ===== *)
(** * The Ceph cache plugin: provisioning and placements

    The reconciler takes turns with the Rook operator: [connects] and [delivers] state
    what Rook documents about an object store and a user that were created (the store
    connects and gets gateway pods; the user gets credentials and the store a
    service). *)

From Stdlib Require Import ZArith Lia Ascii.
From stdpp Require Import options.
From S2P Require Import Prelude GoStd KubeApi KubeServer KubeWp DatasetController InternalController InternalSafety CephCache CephProgress.

Open Scope Z_scope.

Section Provision.
Context {S : Type} (h : handler Kube S) `{!ApiServer h} `{ControllerUtil}.
Context (req : NamespacedName) (d : Dataset).

(** A dataset to be cached, on a cluster where Rook runs. *)
Record to_cache (s : S) : Prop := {
  tc_stored : view s KDataset req = Some d;
  tc_key : key_of (ds_Meta d) = req;
  tc_live : om_DeletionTimestamp (ds_Meta d) = None;
  tc_finalizer : datasetsFinalizer ∉ om_Finalizers (ds_Meta d);
  tc_internal : view s KDatasetInternal req = None;
  tc_cluster : clusters s (environ s "ROOK_NAMESPACE") ≠ [] }.

Definition cm_name (s : S) : NamespacedName := rook h s (config_map_name (nn_Name req)).
Definition store_name (s : S) : NamespacedName := rook h s (nn_Name req).
Definition secret_name (s : S) : NamespacedName := rook h s (user_secret_name (ds_Name d)).
Definition service_name (s : S) : NamespacedName := rook h s ("rook-ceph-rgw-" +:+ ds_Name d).
Definition gateway_pods (s : S) : list PodInfo :=
  pods s (MkListOptions (environ s "ROOK_NAMESPACE")
            [("app", "rook-ceph-rgw"); ("rgw", nn_Name req)] []).

(** [o'] is [o] as the server stores it, and nothing else changes. *)
Definition made (s s' : S) (k : Kind) (o : Object k) : Prop :=
  ∃ o', same_meta k (meta_of k o) (meta_of k o') ∧ same_spec k o o' ∧
        changed view s s' k (okey k o) (Some o') ∧ surroundings s' = surroundings s.

(** ** The stages *)

Definition chain : stage unit :=
  _ ⇐ object_stage KConfigMap (config_map_name (nn_Name req)) d
        (createCustomConfigMapForRados d);
  store ⇐ object_stage KCephObjectStore (nn_Name req) d (createCephObjectStore d);
  _ ⇐ ready_stage req store;
  _ ⇐ object_stage KCephObjectStoreUser (nn_Name req) d (createCephObjectStoreUser d);
  secret ⇐ wait_stage KSecret (user_secret_name (ds_Name d));
  service ⇐ wait_stage KService ("rook-ceph-rgw-" +:+ ds_Name d);
  if foreign_service service store then return_early (result_requeue, None)
  else internal_creation d secret service.

Lemma wp_Reconcile_chain s (Q : reconciled → S → Prop) :
  to_cache s →
  wp h chain s (λ r s', match r with inl res => Q res s' | inr _ => Q (result_done, None) s' end) →
  wp h (CephCache.Reconcile req) s Q.
Proof using Type*.
  intros Ht HQ. unfold CephCache.Reconcile.
  apply (wp_kget_some h KDataset req _ s d _ (tc_stored _ Ht)).
  rewrite decide_False by (rewrite (tc_live _ Ht); intros []; done).
  apply wp_bind. unfold provision.
  apply (wp_then h). unfold internal_stage.
  apply (wp_kget_none h KDatasetInternal req _ s _ (tc_internal _ Ht)).
  change (IsNotFound NotFound) with true. cbn iota. apply wp_ret.
  apply (wp_then h). unfold clusters_stage, rook_namespace.
  apply (wp_getenv h), (wp_list_clusters h). destruct (clusters _ _) eqn:Hc.
  - by destruct (tc_cluster _ Ht).
  - apply wp_ret. eapply wp_mono; [exact HQ|]. by intros [res|[]] s'.
Qed.

Lemma wp_object_missing k name create s (Q : reconciled + Object k → S → Prop) :
  view s k (scoped k (rook h s name)) = None →
  wp h create s (λ e s', match e with
                         | Some e => Q (inl (result_done, Some e)) s'
                         | None => Q (inl (result_requeue, None)) s'
                         end) →
  wp h (object_stage k name d create) s Q.
Proof using Type*.
  intros Hv HQ. unfold object_stage. apply (wp_getExactlyOneObject h). rewrite Hv.
  change (IsNotFound NotFound) with true. cbn iota. apply wp_bind.
  eapply wp_mono; [exact HQ|]. intros [e|] s'; by apply wp_ret.
Qed.

Lemma wp_object_present k name create s o (Q : reconciled + Object k → S → Prop) :
  view s k (scoped k (rook h s name)) = Some o →
  isSameCephObject (om_Labels (meta_of k o)) d = true →
  Q (inr o) s → wp h (object_stage k name d create) s Q.
Proof using Type*.
  intros Hv Hs HQ. unfold object_stage. apply (wp_getExactlyOneObject h). rewrite Hv, Hs.
  by apply wp_ret.
Qed.

Lemma wp_wait_present k name s o (Q : reconciled + Object k → S → Prop) :
  view s k (scoped k (rook h s name)) = Some o → Q (inr o) s → wp h (wait_stage k name) s Q.
Proof using Type*.
  intros Hv HQ. unfold wait_stage. apply (wp_getExactlyOneObject h). rewrite Hv.
  by apply wp_ret.
Qed.

Lemma wp_ready_stage s store (Q : reconciled + unit → S → Prop) :
  cos_Phase store = Some "Connected" → gateway_pods s ≠ [] → Q (inr tt) s →
  wp h (ready_stage req store) s Q.
Proof using Type*.
  intros Hp Hg HQ. unfold ready_stage, rgw_pods, rook_namespace. rewrite decide_True by done.
  eapply wp_equiv; [apply bind_assoc|]. apply (wp_getenv h), (wp_list_pods h).
  unfold gateway_pods in Hg. destruct (pods s _); [done|]. by apply wp_ret.
Qed.

Lemma wp_make k o s (Q : option goerr → S → Prop) :
  view s k (okey k o) = None → (∀ s', made s s' k o → Q None s') → wp h (kcreate k o) s Q.
Proof using Type*.
  intros Hv HQ. apply wp_tail, (wp_kcreate h); [done|].
  intros o' s' (Hm & Hs & _ & _ & Hch & Hsur). apply wp_ret, HQ. by exists o'.
Qed.

(** ** Rounds *)

Definition round (s : S) : S := final (run h (CephCache.Reconcile req) s).
Definition round_result (s : S) : reconciled := result (run h (CephCache.Reconcile req) s).

Definition config_map (s : S) : ConfigMap :=
  MkConfigMap
    (new_meta (config_map_name (ds_Name d)) (environ s "ROOK_NAMESPACE") (ceph_labels d))
    (Some {[ "config" := rados_config d ]}).

Definition gateway_host (s : S) : option string :=
  match map_get (om_Labels (ds_Meta d)) "cache.hostname" with
  | None => None
  | Some node =>
      match names s [("kubernetes.io/hostname", node)] with [] => None | _ => Some node end
  end.

Definition object_store (s : S) : CephObjectStore :=
  MkCephObjectStore (new_meta (ds_Name d) (environ s "ROOK_NAMESPACE") (ceph_labels d))
    (MkPoolSpec "host" 1) (MkPoolSpec "host" 1) false 1 80 (gateway_host s) None.

Definition object_user (s : S) : CephObjectStoreUser :=
  MkCephObjectStoreUser (new_meta (ds_Name d) (environ s "ROOK_NAMESPACE") (ceph_labels d))
    (ds_Name d) "Ceph User".

Definition owned_there (s : S) (k : Kind) (n : NamespacedName) : Prop :=
  ∃ o, view s k n = Some o ∧ isSameCephObject (om_Labels (meta_of k o)) d = true.

Definition connected_there (s : S) (store : CephObjectStore) : Prop :=
  view s KCephObjectStore (store_name s) = Some store ∧
  isSameCephObject (om_Labels (cos_Meta store)) d = true ∧
  cos_Phase store = Some "Connected" ∧ gateway_pods s ≠ [].

Lemma req_name s : to_cache s → nn_Name req = ds_Name d.
Proof using Type*. intros Ht. by rewrite <-(tc_key _ Ht). Qed.

Lemma round_config_map s :
  to_cache s → view s KConfigMap (cm_name s) = None →
  round_result s = (result_requeue, None) ∧ made s (round s) KConfigMap (config_map s).
Proof using Type*.
  intros Ht Hv.
  apply (wp_Reconcile_chain s (λ r s', r = (result_requeue, None) ∧
    made s s' KConfigMap (config_map s)) Ht).
  unfold chain. apply (wp_then h), wp_object_missing; [exact Hv|].
  unfold createCustomConfigMapForRados, rook_namespace. apply (wp_getenv h), wp_make.
  - by rewrite <-(req_name _ Ht).
  - by intros s' Hm.
Qed.

Lemma wp_gateway_node s (Q : option string → S → Prop) :
  Q (gateway_host s) s → wp h (gateway_node d) s Q.
Proof using Type*.
  unfold gateway_node, gateway_host. intros HQ. destruct (map_get _ _); [|by apply wp_ret].
  apply (wp_list_nodes h). by destruct (names s _); apply wp_ret.
Qed.

Lemma round_store s :
  to_cache s → owned_there s KConfigMap (cm_name s) →
  view s KCephObjectStore (store_name s) = None →
  round_result s = (result_requeue, None) ∧ made s (round s) KCephObjectStore (object_store s).
Proof using Type*.
  intros Ht (cm & Hcm & Hl) Hv.
  apply (wp_Reconcile_chain s (λ r s', r = (result_requeue, None) ∧
    made s s' KCephObjectStore (object_store s)) Ht).
  unfold chain. apply (wp_then h), (wp_object_present KConfigMap _ _ s cm); [done|done|].
  apply (wp_then h), wp_object_missing; [exact Hv|].
  unfold createCephObjectStore, rook_namespace. apply (wp_getenv h).
  apply wp_bind, wp_gateway_node, wp_make.
  - by cbn; rewrite <-(req_name _ Ht).
  - by intros s' Hm.
Qed.

Lemma round_user s store :
  to_cache s → owned_there s KConfigMap (cm_name s) → connected_there s store →
  view s KCephObjectStoreUser (store_name s) = None →
  round_result s = (result_requeue, None) ∧
  made s (round s) KCephObjectStoreUser (object_user s).
Proof using Type*.
  intros Ht (cm & Hcm & Hl) (Hst & Hsl & Hph & Hpods) Hv.
  apply (wp_Reconcile_chain s (λ r s', r = (result_requeue, None) ∧
    made s s' KCephObjectStoreUser (object_user s)) Ht).
  unfold chain. apply (wp_then h), (wp_object_present KConfigMap _ _ s cm); [done|done|].
  apply (wp_then h), (wp_object_present KCephObjectStore _ _ s store); [done|done|].
  apply (wp_then h), (wp_ready_stage s store); [done|done|].
  apply (wp_then h), wp_object_missing; [exact Hv|].
  unfold createCephObjectStoreUser, rook_namespace. apply (wp_getenv h), wp_make.
  - by cbn; rewrite <-(req_name _ Ht).
  - by intros s' Hm.
Qed.

(** Only objects of the kinds [ks] have changed. *)
Record elsewhere (ks : list Kind) (s s' : S) : Prop := {
  el_view k n : k ∉ ks → view s' k n = view s k n;
  el_environ : environ s' = environ s;
  el_clusters : clusters s' = clusters s }.

(** The dataset is cached: its DatasetInternal points at the gateway, and the plugin's
    finalizer protects it. *)
Definition cached_there (s : S) (secret : Secret) (service : Service) : Prop :=
  ∃ i d', view s KDatasetInternal req = Some i ∧
    key_of (di_Meta i) = req ∧ om_DeletionTimestamp (di_Meta i) = None ∧
    di_Spec i = di_Spec (cached_internal d secret service) ∧
    om_Labels (di_Meta i) = om_Labels (di_Meta (cached_internal d secret service)) ∧
    view s KDataset req = Some d' ∧ ds_Spec d' = ds_Spec d ∧
    ds_Status d' = ds_Status d ∧ key_of (ds_Meta d') = req ∧
    (∀ f, f ∈ om_Finalizers (ds_Meta d') ↔
          f = datasetsFinalizer ∨ f ∈ om_Finalizers (ds_Meta d)).

Lemma wp_internal_creation s secret service (Q : reconciled + unit → S → Prop) :
  to_cache s → (∀ s', cached_there s' secret service → elsewhere [KDataset; KDatasetInternal] s s' →
    Q (inr tt) s') →
  wp h (internal_creation d secret service) s Q.
Proof using Type*.
  intros Ht HQ. unfold internal_creation.
  apply (wp_kset_owner h). intros o [refs Ho].
  assert (okey KDatasetInternal o = req) as Hok by (rewrite Ho; exact (tc_key _ Ht)).
  apply (wp_kcreate h); [rewrite Hok; apply (tc_internal _ Ht)|].
  intros i s1 (Hm & Hsp & Hdel & _ & Hch & Hsur). rewrite Hok in Hch.
  assert (contains (om_Finalizers (ds_Meta d)) datasetsFinalizer = false) as ->.
  { apply not_true_is_false. intros Hc%contains_spec. by apply (tc_finalizer _ Ht). }
  unfold CephCache.addFinalizer.
  apply (wp_kupdate h KDataset _ d).
  - change (view s1 KDataset (key_of (ds_Meta d)) = Some d). rewrite (tc_key _ Ht).
    rewrite (changed_kind h _ _ _ _ _ _ _ Hch) by done. apply (tc_stored _ Ht).
  - done.
  - intros d' s2 (Hm' & Hsp' & _ & Hst' & Hch' & Hsur').
    change (okey KDataset _) with (key_of (ds_Meta d)) in Hch'.
    rewrite (tc_key _ Ht), decide_False in Hch' by (cbn; rewrite (tc_live _ Ht); tauto).
    assert (surroundings s2 = surroundings s) as Hsame by congruence.
    apply wp_ret, HQ; [exists i, d'; split_and!|].
    + rewrite (changed_kind h _ _ _ _ _ _ _ Hch') by done. apply (changed_here h _ _ _ _ _ Hch).
    + rewrite <-Hok. exact (sm_key _ _ _ Hm).
    + exact Hdel.
    + rewrite Ho in Hsp. exact Hsp.
    + pose proof (sm_labels _ _ _ Hm) as Hl. by rewrite Ho in Hl.
    + apply (changed_here h _ _ _ _ _ Hch').
    + exact Hsp'.
    + exact Hst'.
    + rewrite <-(tc_key _ Ht). exact (sm_key _ _ _ Hm').
    + intros f. pose proof (sm_finalizers _ _ _ Hm') as Hfs. cbn in Hfs. rewrite Hfs.
      apply AddFinalizer_spec.
    + split; [|by apply (surroundings_environ h)|by apply (surroundings_clusters h)].
      intros k n Hk.
      rewrite (changed_kind h _ _ _ _ _ _ _ Hch'), (changed_kind h _ _ _ _ _ _ _ Hch);
        set_solver.
Qed.

Lemma round_internal s store secret service :
  to_cache s → owned_there s KConfigMap (cm_name s) → connected_there s store →
  owned_there s KCephObjectStoreUser (store_name s) →
  view s KSecret (secret_name s) = Some secret →
  view s KService (service_name s) = Some service →
  foreign_service service store = false →
  round_result s = (result_done, None) ∧ cached_there (round s) secret service ∧
  elsewhere [KDataset; KDatasetInternal] s (round s).
Proof using Type*.
  intros Ht (cm & Hcm & Hl) (Hst & Hsl & Hph & Hpods) (user & Hu & Hul) Hsec Hsvc Hf.
  apply (wp_Reconcile_chain s (λ r s', r = (result_done, None) ∧
    cached_there s' secret service ∧ elsewhere [KDataset; KDatasetInternal] s s') Ht).
  unfold chain. apply (wp_then h), (wp_object_present KConfigMap _ _ s cm); [done|done|].
  apply (wp_then h), (wp_object_present KCephObjectStore _ _ s store); [done|done|].
  apply (wp_then h), (wp_ready_stage s store); [done|done|].
  apply (wp_then h), (wp_object_present KCephObjectStoreUser _ _ s user); [done|done|].
  apply (wp_then h), (wp_wait_present KSecret _ s secret); [done|].
  apply (wp_then h), (wp_wait_present KService _ s service); [done|].
  rewrite Hf. apply wp_internal_creation; [done|by intros s' Hc He].
Qed.

(** ** Taking turns with Rook *)

(** Rook connects the store that was created and starts its gateway. *)
Record connects (s s' : S) (store : CephObjectStore) : Prop := {
  co_elsewhere : elsewhere [KCephObjectStore] s s';
  co_store : view s' KCephObjectStore (store_name s') = Some store;
  co_labels before : view s KCephObjectStore (store_name s) = Some before →
    om_Labels (cos_Meta store) = om_Labels (cos_Meta before);
  co_phase : cos_Phase store = Some "Connected";
  co_pods : gateway_pods s' ≠ [] }.

(** Rook generates the credentials of the user that was created, and the store has its
    service. *)
Record delivers (s s' : S) (store : CephObjectStore) (secret : Secret) (service : Service) :
    Prop := {
  de_elsewhere : elsewhere [KSecret; KService] s s';
  de_secrets n : n ≠ secret_name s' → view s' KSecret n = view s KSecret n;
  de_pods : pods s' = pods s;
  de_secret : view s' KSecret (secret_name s') = Some secret;
  de_service : view s' KService (service_name s') = Some service;
  de_owner : foreign_service service store = false }.

Lemma made_elsewhere s s' k o : made s s' k o → elsewhere [k] s s' ∧ pods s' = pods s.
Proof using Type*.
  intros (o' & _ & _ & Hch & Hsur). split.
  - split; [|by apply (surroundings_environ h)|by apply (surroundings_clusters h)].
    intros k' n Hk. apply (changed_kind h _ _ _ _ _ _ _ Hch). set_solver.
  - by apply (surroundings_pods h).
Qed.

Lemma elsewhere_rook ks s s' name : elsewhere ks s s' → rook h s' name = rook h s name.
Proof using Type*. intros He. unfold rook. by rewrite (el_environ _ _ _ He). Qed.

Lemma elsewhere_trans ks ks' s s' s'' :
  elsewhere ks s s' → elsewhere ks' s' s'' → elsewhere (ks ++ ks') s s''.
Proof using Type.
  intros [V E C] [V' E' C']. split; [|congruence..].
  intros k n [Hk Hk']%not_elem_of_app. by rewrite V', V.
Qed.

Lemma to_cache_elsewhere ks s s' :
  elsewhere ks s s' → KDataset ∉ ks → KDatasetInternal ∉ ks → to_cache s → to_cache s'.
Proof using Type*.
  intros He H1 H2 [T1 T2 T3 T4 T5 T6]. split; try done.
  - by rewrite (el_view _ _ _ He).
  - by rewrite (el_view _ _ _ He).
  - by rewrite (el_environ _ _ _ He), (el_clusters _ _ _ He).
Qed.

Lemma owned_elsewhere ks s s' k name :
  elsewhere ks s s' → k ∉ ks → owned_there s k (rook h s name) →
  owned_there s' k (rook h s' name).
Proof using Type*.
  intros He Hk (o & Ho & Hl). exists o. split; [|done].
  by rewrite (elsewhere_rook _ _ _ _ He), (el_view _ _ _ He).
Qed.

Lemma absent_elsewhere ks s s' k name :
  elsewhere ks s s' → k ∉ ks → view s k (rook h s name) = None →
  view s' k (rook h s' name) = None.
Proof using Type*. intros He Hk. by rewrite (elsewhere_rook _ _ _ _ He), (el_view _ _ _ He). Qed.

Lemma made_owned s s' k o name :
  made s s' k o → om_Labels (meta_of k o) = ceph_labels d → okey k o = rook h s name →
  owned_there s' k (rook h s' name).
Proof using Type*.
  intros Hm Hl Hn. pose proof (proj1 (made_elsewhere _ _ _ _ Hm)) as He.
  destruct Hm as (o' & Hmeta & _ & Hch & _). exists o'. split.
  - rewrite (elsewhere_rook _ _ _ _ He), <-Hn. apply (changed_here h _ _ _ _ _ Hch).
  - rewrite (sm_labels _ _ _ Hmeta), Hl. apply own_labels.
Qed.

(** The rounds before Rook has anything to do. *)
Lemma first_rounds s0 :
  to_cache s0 → view s0 KConfigMap (cm_name s0) = None →
  view s0 KCephObjectStore (store_name s0) = None →
  view s0 KCephObjectStoreUser (store_name s0) = None →
  let s1 := round s0 in let s2 := round s1 in
  round_result s0 = (result_requeue, None) ∧ made s0 s1 KConfigMap (config_map s0) ∧
  round_result s1 = (result_requeue, None) ∧ made s1 s2 KCephObjectStore (object_store s1) ∧
  to_cache s2 ∧ owned_there s2 KConfigMap (cm_name s2) ∧
  owned_there s2 KCephObjectStore (store_name s2) ∧
  view s2 KCephObjectStoreUser (store_name s2) = None ∧
  elsewhere [KConfigMap; KCephObjectStore] s0 s2.
Proof using Type*.
  intros Ht Hcm Hst Hu. cbn zeta. pose proof (req_name _ Ht) as Hn.
  destruct (round_config_map s0 Ht Hcm) as [Hr1 Hm1].
  set (s1 := round s0) in *. destruct (made_elsewhere _ _ _ _ Hm1) as [He1 _].
  pose proof (made_owned _ _ _ _ (config_map_name (ds_Name d)) Hm1 eq_refl eq_refl) as Ho1.
  rewrite <-Hn in Ho1.
  pose proof (to_cache_elsewhere _ _ _ He1 ltac:(set_solver) ltac:(set_solver) Ht) as Ht1.
  destruct (round_store s1 Ht1 Ho1
    (absent_elsewhere _ _ _ KCephObjectStore _ He1 ltac:(set_solver) Hst)) as [Hr2 Hm2].
  destruct (made_elsewhere _ _ _ _ Hm2) as [He2 _].
  pose proof (made_owned _ _ _ _ (ds_Name d) Hm2 eq_refl eq_refl) as Ho2.
  rewrite <-Hn in Ho2. split_and!; try done.
  - by apply (to_cache_elsewhere _ s1 _ He2); [set_solver|set_solver|].
  - by apply (owned_elsewhere _ s1 _ _ _ He2); [set_solver|].
  - apply (absent_elsewhere _ s1 _ _ _ He2); [set_solver|].
    by apply (absent_elsewhere _ s0 _ _ _ He1); [set_solver|].
  - by apply (elsewhere_trans [_] [_] _ s1).
Qed.

(** A dataset is never named like the Secret that Rook writes for its user. *)
Lemma secret_is_new s s' : to_cache s → req ≠ secret_name s'.
Proof using Type*.
  intros Ht%req_name Hreq. apply (f_equal nn_Name) in Hreq. rewrite Ht in Hreq.
  apply (f_equal String.length) in Hreq. cbn [nn_Name secret_name rook] in Hreq.
  unfold user_secret_name in Hreq. rewrite !str_app_length in Hreq. cbn in Hreq. lia.
Qed.
End Provision.

Lemma Ceph_cache_provisioned_aux {S : Type} (h : handler Kube S) `{!ApiServer h}
    `{ControllerUtil} (req : NamespacedName) (d : Dataset)
    (s0 s3 s5 : S) (store : CephObjectStore) (secret : Secret) (service : Service)
    (Ht : to_cache h req d s0)
    (Hcm : view s0 KConfigMap (cm_name h req s0) = None)
    (Hst : view s0 KCephObjectStore (store_name h req s0) = None)
    (Hu : view s0 KCephObjectStoreUser (store_name h req s0) = None)
    (Hc : connects h req (round h req (round h req s0)) s3 store)
    (Hd : delivers h d (round h req s3) s5 store secret service) :
  let s1 := round h req s0 in
  round_result h req s0 = (result_requeue, None) ∧ made h s0 s1 KConfigMap (config_map h d s0) ∧
  round_result h req s1 = (result_requeue, None) ∧
  made h s1 (round h req s1) KCephObjectStore (object_store h d s1) ∧
  round_result h req s3 = (result_requeue, None) ∧
  made h s3 (round h req s3) KCephObjectStoreUser (object_user h d s3) ∧
  round_result h req s5 = (result_done, None) ∧
  cached_there h req d (round h req s5) secret service ∧
  elsewhere h [KDataset; KDatasetInternal] s5 (round h req s5) ∧
  (∀ n, view s5 KPVC n = view s0 KPVC n) ∧ view s5 KSecret req = view s0 KSecret req.
Proof.
  cbn zeta. pose proof (req_name _ _ _ _ Ht) as Hn.
  destruct (first_rounds h req d s0 Ht Hcm Hst Hu)
    as (Hr1 & Hm1 & Hr2 & Hm2 & Ht2 & Ho2 & (before & Hb & Hbl) & Hu2 & He2).
  do 4 (split; [done|]).
  destruct Hc as [He3 Hst3 Hl3 Hph Hpods].
  pose proof (owned_elsewhere h d _ _ _ KConfigMap _ He3 ltac:(set_solver) Ho2) as Ho3.
  pose proof (to_cache_elsewhere _ _ _ _ _ _ He3 ltac:(set_solver) ltac:(set_solver) Ht2) as Ht3.
  assert (connected_there h req d s3 store) as Hc3.
  { split_and!; try done. by rewrite (Hl3 before). }
  pose proof (absent_elsewhere h _ _ _ KCephObjectStoreUser _ He3 ltac:(set_solver) Hu2) as Hu3.
  destruct (round_user h req d s3 store Ht3 Ho3 Hc3 Hu3) as [Hr3 Hm3].
  split; [done|]. split; [done|]. set (s4 := round h req s3) in *.
  destruct (made_elsewhere _ _ _ _ _ Hm3) as [He4 Hp4].
  pose proof (made_owned h d _ _ _ _ (ds_Name d) Hm3 eq_refl eq_refl) as Ho4.
  rewrite <-Hn in Ho4.
  destruct Hd as [He5 Hs5 Hp5 Hsec Hsvc Hown].
  pose proof (elsewhere_trans _ _ _ _ _ _ He2 (elsewhere_trans _ _ _ _ _ _ He3 He4)) as He04.
  enough (round_result h req s5 = (result_done, None) ∧
    cached_there h req d (round h req s5) secret service ∧
    elsewhere h [KDataset; KDatasetInternal] s5 (round h req s5)) as (H1 & H2 & H3).
  { split_and!; [done..| |].
    - intros n. rewrite (el_view h _ _ _ He5), (el_view h _ _ _ He04); set_solver.
    - rewrite Hs5 by by apply (secret_is_new h req d s0).
      apply (el_view h _ _ _ He04). set_solver. }
  apply (round_internal h req d s5 store secret service); try done.
  - apply (to_cache_elsewhere h _ _ _ s4 _ He5); [set_solver|set_solver|].
    by apply (to_cache_elsewhere h _ _ _ s3 _ He4); [set_solver|set_solver|].
  - apply (owned_elsewhere h d _ s4 _ _ _ He5); [set_solver|].
    by apply (owned_elsewhere h d _ s3 _ _ _ He4); [set_solver|].
  - destruct Hc3 as (H1 & H2 & H3 & H4). split_and!; [|done|done|].
    + unfold store_name. rewrite (elsewhere_rook h _ _ _ _ He5), (elsewhere_rook h _ _ _ _ He4).
      rewrite (el_view h _ _ _ He5), (el_view h _ _ _ He4) by set_solver. exact H1.
    + unfold gateway_pods. rewrite Hp5, Hp4, (el_environ h _ _ _ He5), (el_environ h _ _ _ He4).
      exact H4.
  - by apply (owned_elsewhere h d _ s4 _ _ _ He5); [set_solver|].
Qed.

(** (C25) Provisioning of a cached dataset: on a reachable API server where Rook runs,
    and where nothing exists yet for the dataset, three reconciliations create the
    gateway configuration, the object store and, once Rook has connected the store,
    its user, each asking to be run again; once Rook has delivered the credentials
    and the service, a fourth creates the DatasetInternal, with these credentials and
    this endpoint, and protects the dataset with the plugin's finalizer. *)
Theorem Ceph_cache_provisioned {S : Type} (h : handler Kube S) `{!ApiServer h}
    `{ControllerUtil} (req : NamespacedName) (d : Dataset)
    (s0 s3 s5 : S) (store : CephObjectStore) (secret : Secret) (service : Service)
    (Ht : to_cache h req d s0)
    (Hcm : view s0 KConfigMap (cm_name h req s0) = None)
    (Hst : view s0 KCephObjectStore (store_name h req s0) = None)
    (Hu : view s0 KCephObjectStoreUser (store_name h req s0) = None)
    (Hc : connects h req (round h req (round h req s0)) s3 store)
    (Hd : delivers h d (round h req s3) s5 store secret service) :
  let s1 := round h req s0 in
  round_result h req s0 = (result_requeue, None) ∧ made h s0 s1 KConfigMap (config_map h d s0) ∧
  round_result h req s1 = (result_requeue, None) ∧
  made h s1 (round h req s1) KCephObjectStore (object_store h d s1) ∧
  round_result h req s3 = (result_requeue, None) ∧
  made h s3 (round h req s3) KCephObjectStoreUser (object_user h d s3) ∧
  round_result h req s5 = (result_done, None) ∧
  cached_there h req d (round h req s5) secret service.
Proof.
  pose proof (Ceph_cache_provisioned_aux h req d s0 s3 s5 store secret service
    Ht Hcm Hst Hu Hc Hd) as Hall. cbn zeta in *. tauto.
Qed.

(** ** Placements *)

Section Placements.
Context {S : Type} (h : handler Kube S) `{!ApiServer h} `{ControllerUtil}.
Context (req : NamespacedName) (d : Dataset) (i : DatasetInternal).

Definition data_pods (s : S) : list PodInfo :=
  pods s (MkListOptions (environ s "ROOK_NAMESPACE") [("app", "rook-ceph-osd")] []).

(** A cached dataset whose DatasetInternal has no placements yet. *)
Record unplaced (s : S) : Prop := {
  up_dataset : view s KDataset req = Some d;
  up_live : om_DeletionTimestamp (ds_Meta d) = None;
  up_internal : view s KDatasetInternal req = Some i;
  up_key : key_of (di_Meta i) = req;
  up_plugin : map_index (om_Annotations (ds_Meta d)) "dlf-plugin-name" = "ceph-cache-plugin";
  up_empty : di_Placements i = empty_placement;
  up_gateways : gateway_pods h req s ≠ [];
  up_data : data_pods s ≠ [] }.

Definition full_placement (s : S) : CachingPlacement :=
  MkPlacement (placement_info <$> gateway_pods h req s) (placement_info <$> data_pods s).

Definition placed (s s' : S) : Prop :=
  ∃ i', di_Placements i' = full_placement s ∧ di_Spec i' = di_Spec i ∧
    changed view s s' KDatasetInternal req (Some i') ∧ surroundings s' = surroundings s.

Lemma wp_updateCachingPlacements s (Q : bool * DatasetInternal * option goerr → S → Prop) :
  unplaced s →
  Q (true, set_placements i (cp_Gateways (full_placement s)) (cp_DataLocations (full_placement s)),
     None) s →
  wp h (updateCachingPlacements req d i) s Q.
Proof using Type*.
  intros Hu HQ. unfold updateCachingPlacements, needs_placements.
  rewrite (up_plugin _ Hu), (up_empty _ Hu), bool_decide_true by done. cbn [andb orb].
  change (bool_decide _ || _) with true. cbn iota. unfold rgw_pods, osd_pods, rook_namespace.
  eapply wp_equiv; [apply bind_assoc|]. apply (wp_getenv h), (wp_list_pods h).
  pose proof (up_gateways _ Hu) as Hg. pose proof (up_data _ Hu) as Hd.
  unfold full_placement, gateway_pods in *. unfold data_pods in *. cbn in HQ.
  destruct (pods s _) as [|g gs]; [done|].
  eapply wp_equiv; [apply bind_assoc|]. apply (wp_getenv h), (wp_list_pods h).
  destruct (pods s _) as [|o os]; [done|]. by apply wp_ret.
Qed.

(** A round, as a weakest precondition. *)
Lemma round_wp s r0 (P : S → Prop) :
  wp h (CephCache.Reconcile req) s (λ r s', r = r0 ∧ P s') →
  round_result h req s = r0 ∧ P (round h req s).
Proof using Type. intros Hwp. exact Hwp. Qed.

Lemma round_places s :
  unplaced s → round_result h req s = (result_done, None) ∧ placed s (round h req s).
Proof using Type*.
  intros Hu.
  apply (round_wp s _ (placed s)). unfold CephCache.Reconcile.
  apply (wp_kget_some h KDataset req _ s d _ (up_dataset _ Hu)).
  rewrite decide_False by (rewrite (up_live _ Hu); intros []; done).
  apply wp_bind. unfold provision. apply (wp_then h). unfold internal_stage.
  apply (wp_kget_some h KDatasetInternal req _ s i _ (up_internal _ Hu)).
  apply wp_bind, wp_updateCachingPlacements; [done|]. set (i1 := set_placements _ _ _).
  assert (okey KDatasetInternal i1 = req) as Hok by exact (up_key _ Hu).
  apply (wp_kstatus_update h KDatasetInternal i1 i); [rewrite Hok; apply (up_internal _ Hu)|done|].
  intros i' s' (_ & Hsp & _ & Hst & Hch & Hsur). rewrite Hok in Hch.
  do 2 apply wp_ret. split; [done|]. by exists i'.
Qed.

Lemma round_settled s i' :
  view s KDataset req = Some d → om_DeletionTimestamp (ds_Meta d) = None →
  view s KDatasetInternal req = Some i' →
  cp_Gateways (di_Placements i') ≠ [] → cp_DataLocations (di_Placements i') ≠ [] →
  round_result h req s = (result_done, None) ∧ round h req s = s.
Proof using Type*.
  intros Hd Hlive Hi Hg Hl.
  apply (round_wp s _ (λ s', s' = s)). unfold CephCache.Reconcile.
  apply (wp_kget_some h KDataset req _ s d _ Hd).
  rewrite decide_False by (rewrite Hlive; intros []; done).
  apply wp_bind. unfold provision. apply (wp_then h). unfold internal_stage.
  apply (wp_kget_some h KDatasetInternal req _ s i' _ Hi).
  unfold updateCachingPlacements, needs_placements.
  rewrite (bool_decide_false (cp_Gateways _ = [])), (bool_decide_false (cp_DataLocations _ = []))
    by done.
  by rewrite andb_false_r.
Qed.
End Placements.

