(* ===== verification/CephWitness.v ===== *)
(** * The Ceph cache plugin: witnesses

    The hypotheses of the theorems about the plugin hold on the server in memory. *)

From Stdlib Require Import ZArith Lia Ascii.
From stdpp Require Import options.
From S2P Require Import Prelude GoStd KubeApi KubeServer KubeWp DatasetController DatasetSafety InternalController InternalWitness CephCache CephSafety CephProgress CephProvision.

Open Scope Z_scope.

#[local] Existing Instance list_finalizers.

Definition cached_dataset (finalizers : list string) (deleted : option Z) : Dataset :=
  MkDataset
    (MkObjectMeta "books" "default" "u1" "1" None
       (Some {[ "dlf-plugin-name" := "ceph-cache-plugin" ]}) finalizers [] deleted)
    cos_spec empty_status.

(** A server with Rook's operator, a cluster and the dataset. *)
Definition rook_server (d : Dataset) (pods : list PodInfo) : MemServer :=
  store (MkMemServer (λ _ _, None) pods [] (λ _, "rook-ceph") ["cluster"] 0)
    KDataset witness_req (Some d).

Definition rgw_pod : PodInfo := MkPodInfo (Some {[ "app" := "rook-ceph-rgw" ]}) "node-1".

Definition with_pods (s : MemServer) (pods : list PodInfo) : MemServer :=
  MkMemServer (mem_view s) pods (mem_messages s) (mem_environ s) (mem_clusters s)
    (mem_counter s).

Notation ceph_round := (@round _ mem_handler list_finalizers witness_req).

(** ** Provisioning *)

Definition cache_start : MemServer := rook_server (cached_dataset [] None) [].
Definition cache_second : MemServer := ceph_round (ceph_round cache_start).

Definition connected_store : CephObjectStore :=
  MkCephObjectStore (new_meta "books" "rook-ceph" (ceph_labels (cached_dataset [] None)))
    (MkPoolSpec "host" 1) (MkPoolSpec "host" 1) false 1 80 None (Some "Connected").

Definition cache_connected : MemServer :=
  with_pods (store cache_second KCephObjectStore (MkNamespacedName "rook-ceph" "books")
    (Some connected_store)) [rgw_pod].

Definition rook_secret : Secret :=
  MkSecret (new_meta (user_secret_name "books") "rook-ceph" None)
    (Some (list_to_map [("AccessKey", "id"); ("SecretKey", "key")])) None.

Definition rook_service : Service :=
  MkService (new_meta "rook-ceph-rgw-books" "rook-ceph" None) "10.0.0.7" [].

Definition cache_delivered : MemServer :=
  store
    (store (ceph_round cache_connected) KSecret
       (MkNamespacedName "rook-ceph" (user_secret_name "books")) (Some rook_secret))
    KService (MkNamespacedName "rook-ceph" "rook-ceph-rgw-books") (Some rook_service).

Lemma cache_start_ready : to_cache mem_handler witness_req (cached_dataset [] None) cache_start.
Proof. split; try reflexivity; cbn; [set_solver|done]. Qed.

Lemma store_other s k n x k' n' : k' ≠ k → mem_view (store s k n x) k' n' = mem_view s k' n'.
Proof. intros Hk. by apply (store_changed s k n x). Qed.

Lemma rook_connects : connects mem_handler witness_req cache_second cache_connected connected_store.
Proof.
  split.
  - split; [|reflexivity|reflexivity]. intros k n Hk.
    exact (store_other cache_second KCephObjectStore _ _ k n ltac:(set_solver)).
  - vm_compute. reflexivity.
  - intros before Hb. vm_compute in Hb. injection Hb as <-. reflexivity.
  - reflexivity.
  - done.
Qed.

Lemma rook_delivers :
  delivers mem_handler (cached_dataset [] None) (ceph_round cache_connected) cache_delivered
    connected_store rook_secret rook_service.
Proof.
  split.
  - split; [|reflexivity|reflexivity]. intros k n Hk.
    etrans; [exact (store_other _ KService _ _ k n ltac:(set_solver))|].
    exact (store_other (ceph_round cache_connected) KSecret _ _ k n ltac:(set_solver)).
  - intros n Hn. etrans; [exact (store_other _ KService _ _ KSecret n ltac:(done))|].
    destruct (store_changed (ceph_round cache_connected) KSecret
      (MkNamespacedName "rook-ceph" (user_secret_name "books")) (Some rook_secret)) as (_ & H & _).
    apply H. exact Hn.
  - reflexivity.
  - vm_compute. reflexivity.
  - vm_compute. reflexivity.
  - reflexivity.
Qed.

Lemma cache_provisioned_witness :
  round_result mem_handler witness_req cache_delivered = (result_done, None) ∧
  cached_there mem_handler witness_req (cached_dataset [] None) (ceph_round cache_delivered)
    rook_secret rook_service.
Proof.
  refine (_ (@Ceph_cache_provisioned _ mem_handler mem_api_server list_finalizers witness_req
    (cached_dataset [] None) cache_start cache_connected cache_delivered connected_store
    rook_secret rook_service cache_start_ready _ _ _ rook_connects rook_delivers)).
  - intros (_ & _ & _ & _ & _ & _ & H). exact H.
  - vm_compute. reflexivity.
  - vm_compute. reflexivity.
  - vm_compute. reflexivity.
Defined.

(** ** Placements *)

Definition unplaced_internal : DatasetInternal := cos_dataset [] None.

Definition unplaced_server : MemServer :=
  store (rook_server (cached_dataset [datasetsFinalizer] None) [rgw_pod])
    KDatasetInternal witness_req (Some unplaced_internal).


(** ** Teardown *)

Definition dying_cached : Dataset := cached_dataset [datasetsFinalizer] (Some 1).

Definition dying_cache : MemServer :=
  store (rook_server dying_cached []) KConfigMap
    (MkNamespacedName "rook-ceph" (config_map_name "books"))
    (Some (MkConfigMap (new_meta (config_map_name "books") "rook-ceph" None) None)).

Lemma put_inv v k n x k' n' o :
  put v k n (Some x) k' n' = Some o →
  v k' n' = Some o ∨ ∃ e : k = k', n' = n ∧ eq_rect k Object x k' e = o.
Proof.
  unfold put. destruct (decide (k = k')) as [e|]; [|by left]. destruct (decide (n' = n)); [|by left].
  intros Hx. right. exists e. split; [done|]. destruct e. by injection Hx.
Qed.

Lemma dying_cache_stored : well_stored mem_handler dying_cache.
Proof.
  intros k n o Hv. change (mem_view dying_cache k n = Some o) in Hv. apply put_inv in Hv as [Hv|(e & -> & Ho)]; [|by destruct e, Ho].
  apply put_inv in Hv as [Hv|(e & -> & Ho)]; [done|by destruct e, Ho].
Qed.

Lemma cache_teardown_witness :
  is_Some (mem_view dying_cache KConfigMap
             (MkNamespacedName "rook-ceph" (config_map_name "books"))) ∧
  let o := run mem_handler (@CephCache.Reconcile list_finalizers witness_req) dying_cache in
  result o = (result_done, None) ∧
  (∀ k n, (k, n) ∈ cache_objects mem_handler dying_cache dying_cached →
     released k (@view _ mem_handler _ dying_cache k n) (@view _ mem_handler _ (final o) k n)) ∧
  @view _ mem_handler _ (final o) KDataset witness_req = None ∧
  (∀ k n, (k, n) ∉ (KDataset, witness_req) :: cache_objects mem_handler dying_cache dying_cached →
     @view _ mem_handler _ (final o) k n = @view _ mem_handler _ dying_cache k n).
Proof.
  split; [by eexists|].
  apply (@Ceph_teardown_completes _ mem_handler mem_api_server list_finalizers witness_req
    dying_cache dying_cached).
  split; [reflexivity|exact dying_cache_stored|done|].
  intros f. cbn. set_solver.
Defined.

(** A server on which reading the object store fails. *)
Definition failing_handler : handler Kube MemServer := λ o s,
  match o return kube_reply o * MemServer with
  | Get KCephObjectStore n => (inl (OtherError "timeout"), s)
  | o => mem_handler o s
  end.

Definition store_user : CephObjectStoreUser :=
  MkCephObjectStoreUser (new_meta "books" "rook-ceph" None) "books" "Ceph User".

Definition failing_server : MemServer :=
  store (rook_server dying_cached []) KCephObjectStoreUser
    (MkNamespacedName "rook-ceph" "books") (Some store_user).

Definition failing_deleted : MemServer :=
  (failing_handler (Delete KCephObjectStoreUser store_user) failing_server).2.

Lemma loses_error_witness :
  let out := run failing_handler (@CephCache.Reconcile list_finalizers witness_req)
               failing_server in
  trace out =
    [Get KDataset witness_req; Getenv "ROOK_NAMESPACE";
     Get KCephObjectStoreUser (MkNamespacedName "rook-ceph" "books");
     Delete KCephObjectStoreUser store_user; Getenv "ROOK_NAMESPACE";
     Get KCephObjectStore (MkNamespacedName "rook-ceph" "books");
     finalizer_dropped dying_cached] ∧
  result out = (result_done, (failing_handler (finalizer_dropped dying_cached) failing_deleted).1).
Proof.
  refine (@Ceph_teardown_loses_error list_finalizers _ failing_handler witness_req
    failing_server failing_server failing_server failing_server failing_deleted failing_deleted
    failing_deleted dying_cached store_user "rook-ceph" "rook-ceph" (OtherError "timeout")
    _ _ _ _ _ _ _ _ _); try reflexivity. done.
Defined.

(** ** Safety *)

Definition delivered_program := @CephCache.Reconcile list_finalizers witness_req.
Definition delivered_events : list (event Kube) :=
  events mem_handler delivered_program cache_delivered.

Definition creates_internal (e : event Kube) : option DatasetInternal :=
  match ev_op e with
  | Create KDatasetInternal i => Some i
  | _ => None
  end.

(** The interaction split at the creation of the DatasetInternal. *)
Fixpoint split_creation (evs : list (event Kube)) :
    option (list (event Kube) * DatasetInternal * event Kube * list (event Kube)) :=
  match evs with
  | [] => None
  | e :: evs =>
      match creates_internal e with
      | Some i => Some ([], i, e, evs)
      | None =>
          match split_creation evs with
          | Some (pre, i, e', post) => Some (e :: pre, i, e', post)
          | None => None
          end
      end
  end.

Lemma split_creation_spec evs pre i e post :
  split_creation evs = Some (pre, i, e, post) →
  ∃ r, evs = pre ++ Ev (E := Kube) (Create KDatasetInternal i) r :: post.
Proof.
  revert pre. induction evs as [|e' evs IH]; intros pre; [done|]. cbn.
  destruct (creates_internal e') as [i'|] eqn:He.
  - intros [= <- -> <- <-]. destruct e' as [[] r]; try done. destruct k; try done.
    injection He as ->. by exists r.
  - destruct (split_creation evs) as [[[[pre' i''] e''] post']|]; [|done].
    intros [= <- -> -> ->]. destruct (IH pre' eq_refl) as [r ->]. by exists r.
Qed.

Lemma internal_backed_witness :
  ∃ pre i, is_Some (split_creation delivered_events) ∧
    (split_creation delivered_events ≫= λ x, Some x.1.1.2) = Some i ∧
    backed witness_req pre i.
Proof.
  destruct (split_creation delivered_events) as [[[[pre i] e] post]|] eqn:Hs.
  - exists pre, i. split; [by eexists|]. split; [reflexivity|].
    destruct (split_creation_spec _ _ _ _ _ Hs) as [r Hr].
    exact (@Ceph_internal_backed list_finalizers witness_req delivered_events _ pre i r post
      (run_behaviour mem_handler delivered_program cache_delivered) Hr).
  - exfalso. revert Hs. vm_compute. discriminate.
Defined.
