(* ===== verification/Path.v ===== *)
(** * Packages [path] and [path/filepath]: [Clean] and [Join]

    Slash-separated paths, lexically cleaned component by component. *)

From Stdlib Require Import ZArith Lia Ascii.
From stdpp Require Import options.
From S2P Require Import Prelude GoStd.

Open Scope Z_scope.

(** One component; [out] holds the components kept, last first. *)
Definition clean_step (rooted : bool) (out : list string) (c : string) : list string :=
  if decide (c = "" ∨ c = ".") then out
  else if decide (c = "..") then
    match out with
    | c' :: out' => if decide (c' = "..") then c :: out else out'
    | [] => if rooted then out else [c]
    end
  else c :: out.

Definition clean_components (rooted : bool) (l : list string) : list string :=
  rev (foldl (clean_step rooted) [] l).

Definition Clean (path : string) : string :=
  match path with
  | "" => "."
  | _ =>
      let rooted := HasPrefix path "/" in
      match clean_components rooted (Split path "/"), rooted with
      | [], true => "/"
      | [], false => "."
      | l, true => "/" +:+ Join l "/"
      | l, false => Join l "/"
      end
  end.

(** [path.Join] of two elements. *)
Definition path_Join (a b : string) : string :=
  if decide (a = "") then (if decide (b = "") then "" else Clean b)
  else Clean (a +:+ "/" +:+ b).

Example Clean_examples :
  (Clean "/a//b/./c/..", Clean "a/../../b", Clean "/..", Clean "", path_Join "/tmp/x" "vol",
   path_Join "10.0.0.1:/" "vol", path_Join "10.0.0.1:/exports" "../etc")
  = ("/a/b", "../b", "/", ".", "/tmp/x/vol", "10.0.0.1:/vol", "10.0.0.1:/etc").
Proof. vm_compute. reflexivity. Qed.

(** A component that stays where it is put. *)
Definition plain_component (c : string) : Prop :=
  c ≠ "" ∧ c ≠ "." ∧ c ≠ ".." ∧ no_char "/" c.

#[export] Instance plain_component_dec c : Decision (plain_component c).
Proof. unfold plain_component. apply _. Defined.

Lemma foldl_clean_plain rooted out l :
  Forall plain_component l → foldl (clean_step rooted) out l = rev l ++ out.
Proof.
  intros Hl. revert out. induction Hl as [|c l (H1 & H2 & H3 & _) Hl IH]; intros out; [done|].
  cbn. rewrite IH. unfold clean_step. rewrite decide_False by tauto.
  rewrite decide_False by done. by rewrite <-app_assoc.
Qed.

(** Cleaning keeps a path whose components are plain. *)
Lemma Clean_plain l : l ≠ [] → Forall plain_component l → Clean (Join l "/") = Join l "/".
Proof.
  intros Hne Hl. assert (Forall (no_char "/") l) as Hn
    by (eapply Forall_impl; [exact Hl|]; by intros c (_ & _ & _ & H)).
  assert (HasPrefix (Join l "/") "/" = false) as Hp.
  { destruct l as [|[|a w] ws]; [done| |].
    - apply Forall_cons in Hl as [(H & _) _]. done.
    - apply Forall_cons in Hn as [[Ha _] _]. assert (∀ s, HasPrefix (String a s) "/" = false)
        as Hall by (intros s; unfold HasPrefix; cbn; by case_match; subst).
      destruct ws; apply Hall. }
  assert (Join l "/" ≠ "") as Hj.
  { destruct l as [|[|a w] [|w' ws]]; try done; apply Forall_cons in Hl as [(H & _) _]; done. }
  unfold Clean. rewrite Hp. destruct (Join l "/") as [|a s] eqn:E; [done|].
  rewrite <-E. rewrite Split_Join by done. unfold clean_components.
  rewrite foldl_clean_plain, app_nil_r, rev_involutive by done. by destruct l.
Qed.
