(* ===== verification/Sha1.v ===== *)
(** * [crypto/sha1] and [encoding/hex]

    The standard library functions that [sanitizeVolumeID] uses, on byte strings: the
    message is padded, cut into blocks of sixteen 32-bit words, and each block is
    folded into the five words of the digest. *)

From Stdlib Require Import ZArith Lia Ascii.
From stdpp Require Import options.
From S2P Require Import Prelude GoStd.

Open Scope Z_scope.

Definition w32 (x : Z) : Z := x mod 2 ^ 32.
Definition add32 (x y : Z) : Z := w32 (x + y).
Definition not32 (x : Z) : Z := 2 ^ 32 - 1 - w32 x.
Definition rotl (n x : Z) : Z := Z.lor (w32 (Z.shiftl x n)) (Z.shiftr (w32 x) (32 - n)).

Definition bytes_of (s : string) : list Z :=
  (λ c, Z.of_nat (nat_of_ascii c)) <$> String.list_ascii_of_string s.

(** The big-endian bytes of [x], [n] of them. *)
Fixpoint be_bytes (n : nat) (x : Z) : list Z :=
  match n with
  | O => []
  | S n => be_bytes n (x / 256) ++ [x mod 256]
  end.

(** A one bit, zeros up to 8 bytes before the end of a block, and the length in bits. *)
Definition pad (msg : list Z) : list Z :=
  let len := Z.of_nat (length msg) in
  msg ++ [128] ++ replicate (Z.to_nat ((55 - len) mod 64)) 0 ++ be_bytes 8 (8 * len).

Fixpoint words (l : list Z) : list Z :=
  match l with
  | a :: b :: c :: d :: l => (((a * 256 + b) * 256 + c) * 256 + d) :: words l
  | _ => []
  end.

(** The message schedule, newest word first. *)
Fixpoint schedule (n : nat) (w : list Z) : list Z :=
  match n with
  | O => w
  | S n =>
      let x i := nth i w 0 in
      schedule n (rotl 1 (Z.lxor (Z.lxor (x 2%nat) (x 7%nat)) (Z.lxor (x 13%nat) (x 15%nat))) :: w)
  end.

Definition digest : Type := Z * Z * Z * Z * Z.

Definition round_function (t : nat) (b c d : Z) : Z * Z :=
  if (t <? 20)%nat then (Z.lor (Z.land b c) (Z.land (not32 b) d), 1518500249)
  else if (t <? 40)%nat then (Z.lxor (Z.lxor b c) d, 1859775393)
  else if (t <? 60)%nat then
    (Z.lor (Z.lor (Z.land b c) (Z.land b d)) (Z.land c d), 2400959708)
  else (Z.lxor (Z.lxor b c) d, 3395469782).

Definition sha1_step (s : digest) (tw : nat * Z) : digest :=
  let '(a, b, c, d, e) := s in
  let '(f, k) := round_function tw.1 b c d in
  (add32 (add32 (add32 (add32 (rotl 5 a) f) e) k) tw.2, a, rotl 30 b, c, d).

Definition block (s : digest) (w : list Z) : digest :=
  let ws := rev (schedule 64 (rev w)) in
  let '(a, b, c, d, e) := foldl sha1_step s (imap (λ i x, (i, x)) ws) in
  let '(a0, b0, c0, d0, e0) := s in
  (add32 a0 a, add32 b0 b, add32 c0 c, add32 d0 d, add32 e0 e).

(** Fold the blocks of sixteen words; one unit of fuel per block. *)
Fixpoint blocks (fuel : nat) (s : digest) (w : list Z) : digest :=
  match fuel, w with
  | O, _ | _, [] => s
  | S fuel, w => blocks fuel (block s (take 16 w)) (drop 16 w)
  end.

(** [h := sha1.New(); io.WriteString(h, s); h.Sum(nil)]. *)
Definition Sum (s : string) : list Z :=
  let w := words (pad (bytes_of s)) in
  let '(a, b, c, d, e) :=
    blocks (length w) (1732584193, 4023233417, 2562383102, 271733878, 3285377520) w in
  be_bytes 4 a ++ be_bytes 4 b ++ be_bytes 4 c ++ be_bytes 4 d ++ be_bytes 4 e.

Definition hex_digit (x : Z) : ascii :=
  default "0"%char (String.get (Z.to_nat x) "0123456789abcdef").

(** [hex.EncodeToString]. *)
Fixpoint hex_encode (l : list Z) : string :=
  match l with
  | [] => ""
  | b :: l => String (hex_digit (b / 16)) (String (hex_digit (b mod 16)) (hex_encode l))
  end.

Example sha1_abc : hex_encode (Sum "abc") = "a9993e364706816aba3e25717850c26c9cd0d89d".
Proof. vm_compute. reflexivity. Qed.
Example sha1_two_blocks :
  hex_encode (Sum "abcdbcdecdefdefgefghfghighijhijkijkljklmklmnlmnomnopnopq")
  = "84983e441c3bd26ebaae4aa1f95129e5e54670f1".
Proof. vm_compute. reflexivity. Qed.

(** ** Lengths and characters *)

Lemma be_bytes_length n x : length (be_bytes n x) = n.
Proof. revert x. induction n as [|n IH]; intros x; [done|]. cbn. rewrite length_app, IH. cbn. lia. Qed.

Lemma Sum_length s : length (Sum s) = 20%nat.
Proof.
  unfold Sum. destruct (blocks _ _ _) as [[[[a b] c] d] e].
  by rewrite !length_app, !be_bytes_length.
Qed.

Lemma hex_encode_length l : String.length (hex_encode l) = (2 * length l)%nat.
Proof. induction l as [|b l IH]; [done|]. cbn [hex_encode String.length length]. lia. Qed.

Lemma hex_digit_lower x : lower (hex_digit x) = hex_digit x.
Proof.
  unfold hex_digit. generalize (Z.to_nat x). intros n.
  do 16 (destruct n as [|n]; [done|]). by destruct n.
Qed.

(** A digest in hexadecimal is in lower case. *)
Lemma hex_encode_lower l : ToLower (hex_encode l) = hex_encode l.
Proof. induction l as [|b l IH]; [done|]. cbn [hex_encode ToLower]. by rewrite !hex_digit_lower, IH. Qed.
