(* ===== verification/NodeApi.v ===== *)
(** * What the CSI drivers call

    The operating system, the mount library of Kubernetes and the MinIO client of the
    object store are not part of the repository: they are the operations of the
    signature [Node].  [errno] is a Go error of these calls, of which the sources ask
    whether it says that a file does not exist, or that permission is missing, and
    what its message is.  [rpcerr] is the error of a gRPC handler. *)

From Stdlib Require Import ZArith Lia.
From stdpp Require Import options.
From S2P Require Import Prelude GoStd.

Open Scope Z_scope.

Record errno := MkErrno {
  err_not_exist : bool;
  err_permission : bool;
  err_message : string }.

Inductive code := InvalidArgument | Internal | NotFound | PermissionDenied | Unimplemented | Unavailable.

#[export] Instance code_eq_dec : EqDecision code.
Proof. solve_decision. Defined.

(** [status.Error(c, m)], or an error of another kind ([fmt.Errorf], an error passed
    through). *)
Inductive rpcerr :=
  | StatusError (c : code) (m : string)
  | OtherRpc (m : string).

(** The client of an object store: what [minio.NewWithRegion] was given. *)
Record Minio := MkMinio {
  mc_Endpoint : string;
  mc_AccessKeyID : string;
  mc_SecretAccessKey : string;
  mc_SSL : bool;
  mc_Region : string }.

Inductive open_flag := O_APPEND | O_CREATE | O_WRONLY | O_RDWR | O_TRUNC.

#[export] Instance open_flag_eq_dec : EqDecision open_flag.
Proof. solve_decision. Defined.

Inductive node_op :=
  (* the mount library *)
  | IsLikelyNotMountPoint (path : string)
  | IsNotMountPoint (path : string)
  | DoMount (source target fstype : string) (options : list string)
  | DoUnmount (path : string)
  | CleanupMountPoint (path : string)
  | GetDiskFormat (device : string)
  (* the operating system *)
  | OsMkdirAll (path : string) (perm : Z)
  | OsMkdir (path : string) (perm : Z)
  | OsStat (path : string)
  | OsTempDir
  | OsGetenv (name : string)
  | OsSetenv (name value : string)
  | OsOpenFile (name : string) (flags : list open_flag) (perm : Z)
  | OsWriteString (fd : Z) (text : string)
  | OsClose (fd : Z)
  | OsCommand (command : string) (args : list string)
  | OsProcesses
  | OsReadCmdline (pid : Z)
  | OsFindProcess (pid : Z)
  | OsSignal0 (pid : Z)
  | OsSleep (milliseconds : Z)
  (* the object store *)
  | NewWithRegion (client : Minio)
  | BucketExists (client : Minio) (bucket : string)
  | MakeBucket (client : Minio) (bucket region : string)
  | RemoveBucket (client : Minio) (bucket : string)
  | ListObjects (client : Minio) (bucket : string)
  | RemoveObjects (client : Minio) (bucket : string) (keys : list string)
  (* the scheduler of the Go runtime: has the other goroutine run yet *)
  | Scheduled
  (* the CSI library *)
  | ValidateControllerServiceRequest.

Definition node_reply (o : node_op) : Type :=
  match o with
  | IsLikelyNotMountPoint _ | IsNotMountPoint _ | BucketExists _ _ => errno + bool
  | GetDiskFormat _ | OsTempDir | OsReadCmdline _ => errno + string
  | OsOpenFile _ _ _ => errno + Z
  | OsProcesses => errno + list Z
  | OsGetenv _ => string
  | OsClose _ | OsSleep _ => unit
  | OsSetenv _ _ => unit
  | ListObjects _ _ => list (errno + string)
  | RemoveObjects _ _ _ => list errno
  | Scheduled => bool
  | ValidateControllerServiceRequest => option rpcerr
  | _ => option errno
  end.

Definition Node : Sig := MkSig node_op node_reply.

Definition do (o : node_op) : prog Node (node_reply o) := @call Node o.

(** ** Results of handlers *)

Abbreviation rpc A := (prog Node (rpcerr + A)).

Definition fail {A} (e : rpcerr) : prog Node (rpcerr + A) := Ret (inl e).
Definition succeed {A} (a : A) : prog Node (rpcerr + A) := Ret (inr a).

(** [if err := p; err != nil { return nil, wrap(err) }; k]. *)
Definition or_fail {A} (p : prog Node (option errno)) (wrap : errno → rpcerr) (k : rpc A) : rpc A :=
  p ≫= λ err, match err with
              | Some e => fail (wrap e)
              | None => k
              end.

(** An error handed to the caller as it is, and with [codes.Internal]. *)
Definition as_is (e : errno) : rpcerr := OtherRpc (err_message e).
Definition internal (e : errno) : rpcerr := StatusError Internal (err_message e).
