(* ===== verification/S3Client.v ===== *)
(** * The object store client of the S3 driver

    Model of [csi-s3/pkg/s3/s3-client.go] and [config.go], and of [sanitizeVolumeID]
    of [controllerserver.go]. *)

From Stdlib Require Import ZArith Lia Ascii.
From stdpp Require Import options.
From S2P Require Import Prelude GoStd Url Sha1 NodeApi.

Open Scope Z_scope.

Record Config := MkConfig {
  cfg_AccessKeyID : string;
  cfg_SecretAccessKey : string;
  cfg_Region : string;
  cfg_Endpoint : string;
  cfg_Mounter : string;
  cfg_Bucket : string;
  cfg_Folder : string;
  cfg_RemoveOnDelete : bool;
  cfg_Readonly : bool;
  cfg_Provision : bool }.

Record s3Client := MkS3Client { cfg : Config; minio : Minio }.

Record bucket := MkBucket { bkt_Name : string; bkt_Folder : string; bkt_Mounter : string }.

(** ** [net/url]: the host and the port of a URL *)

Definition splitHostPort (hostPort : string) : string * string :=
  let '(host, port) :=
    match cut_last hostPort ":" with
    | Some (host, port) =>
        if validOptionalPort (String ":" port) then (host, port) else (hostPort, "")
    | None => (hostPort, "")
    end in
  let host :=
    if HasPrefix host "[" && HasSuffix host "]"
    then str_take (String.length host - 2) (str_drop 1 host) else host in
  (host, port).

Definition Hostname (u : URL) : string := (splitHostPort (url_Host u)).1.
Definition Port (u : URL) : string := (splitHostPort (url_Host u)).2.

(** ** Clients *)

(** The client [newS3Client] asks for. *)
Definition minio_of (c : Config) (u : URL) : Minio :=
  MkMinio (if decide (Port u ≠ "") then Hostname u +:+ ":" +:+ Port u else Hostname u)
    (cfg_AccessKeyID c) (cfg_SecretAccessKey c) (bool_decide (url_Scheme u = "https"))
    (cfg_Region c).

Definition parse_error (rawURL : string) : errno :=
  MkErrno false false ("parse " +:+ rawURL).

Definition newS3Client (c : Config) : prog Node (errno + s3Client) :=
  match Parse (cfg_Endpoint c) with
  | None => Ret (inl (parse_error (cfg_Endpoint c)))
  | Some u =>
      err ← do (NewWithRegion (minio_of c u));
      match err with
      | Some e => Ret (inl e)
      | None => Ret (inr (MkS3Client c (minio_of c u)))
      end
  end.

(** The error of [ParseBool] is ignored: its value is then [false]. *)
Definition config_of_secrets (secrets : gomap) : Config :=
  let readonly := (ParseBool (map_index secrets "readonly")).1 in
  let provision := (ParseBool (map_index secrets "provision")).1 in
  let removeOnDelete := (ParseBool (map_index secrets "remove-on-delete")).1 in
  MkConfig (map_index secrets "accessKeyID") (map_index secrets "secretAccessKey")
    (map_index secrets "region") (map_index secrets "endpoint") ""
    (map_index secrets "bucket") (map_index secrets "folder")
    removeOnDelete readonly provision.

Definition newS3ClientFromSecrets (secrets : gomap) : prog Node (errno + s3Client) :=
  newS3Client (config_of_secrets secrets).

Definition bucketExists (c : s3Client) (bucketName : string) : prog Node (errno + bool) :=
  do (BucketExists (minio c) bucketName).

Definition createBucket (c : s3Client) (bucketName : string) : prog Node (option errno) :=
  do (MakeBucket (minio c) bucketName (cfg_Region (cfg c))).

(** ** Emptying a bucket *)

(** What the listing goroutine sends: the keys up to the first error. *)
Fixpoint sent_keys (l : list (errno + string)) : list string :=
  match l with
  | inr key :: l => key :: sent_keys l
  | _ => []
  end.

(** The error the goroutine can have stored before its first key is received: it
    blocks on the unbuffered channel as soon as it has a key to send. *)
Definition early_error (l : list (errno + string)) : option errno :=
  match l with
  | inl e :: _ => Some e
  | _ => None
  end.

(** [emptyBucket].  [listErr] is read while the goroutine may not have run yet:
    [Scheduled] answers whether it has.  The errors of the removal are logged while
    [errorCh] is drained; [len(errorCh)] is the length of a channel that is closed
    and empty. *)
Definition emptyBucket (c : s3Client) (bucketName : string) : prog Node (option errno) :=
  objects ← do (ListObjects (minio c) bucketName);
  ran ← do Scheduled;
  let listErr := if (ran : bool) then early_error objects else None in
  match listErr with
  | Some e => Ret (Some e)
  | None =>
      errorCh ← do (RemoveObjects (minio c) bucketName (sent_keys objects));
      let drained := drop (length errorCh) errorCh in
      if decide (length drained ≠ 0%nat)
      then Ret (Some (MkErrno false false ("Failed to remove all objects of bucket " +:+ bucketName)))
      else Ret None
  end.

Definition removeBucket (c : s3Client) (bucketName : string) : prog Node (option errno) :=
  err ← emptyBucket c bucketName;
  match err with
  | Some e => Ret (Some e)
  | None => do (RemoveBucket (minio c) bucketName)
  end.

(** ** Volume identifiers *)

Definition sanitizeVolumeID (volumeID : string) : string :=
  let volumeID := ToLower volumeID in
  if (63 <? String.length volumeID)%nat then hex_encode (Sum volumeID) else volumeID.

Lemma sanitize_short name : (String.length name ≤ 63)%nat → sanitizeVolumeID name = ToLower name.
Proof.
  intros H. unfold sanitizeVolumeID. rewrite ToLower_length.
  by rewrite (proj2 (Nat.ltb_ge _ _)) by lia.
Qed.

Lemma sanitize_long name :
  (63 < String.length name)%nat → sanitizeVolumeID name = hex_encode (Sum (ToLower name)).
Proof.
  intros H. unfold sanitizeVolumeID. rewrite ToLower_length.
  by rewrite (proj2 (Nat.ltb_lt _ _)) by lia.
Qed.

Lemma sanitize_empty name : sanitizeVolumeID name = "" ↔ name = "".
Proof.
  split; [|by intros ->]. pose proof (ToLower_length name) as Hl.
  destruct (le_lt_dec (String.length name) 63) as [Hshort|Hlong].
  - rewrite (sanitize_short name) by done. intros H. rewrite H in Hl. by destruct name.
  - rewrite (sanitize_long name) by lia. intros H.
    pose proof (f_equal String.length H) as Hd. by rewrite hex_encode_length, Sum_length in Hd.
Qed.

Lemma digest_length s : String.length (hex_encode (Sum s)) = 40%nat.
Proof. by rewrite hex_encode_length, Sum_length. Qed.

