(* ===== verification/S3Mounter.v ===== *)
(** * The mounters of the S3 driver

    Model of [csi-s3/pkg/s3]: [util.go] and [mounter.go] (waiting for a mount and for
    a FUSE process) and the four mounters, [mounter_goofys.go], [mounter_s3fs.go],
    [mounter_s3backer.go] and [mounter_rclone.go].  A [Mounter] is a record of its
    three methods, as the Go interface is. *)

From Stdlib Require Import ZArith Lia Ascii.
From stdpp Require Import options.
From S2P Require Import Prelude GoStd Url Path NodeApi S3Client.

Open Scope Z_scope.

Record Mounter := MkMounter {
  Stage : string → prog Node (option errno);
  Unstage : string → prog Node (option errno);
  Mount : string → string → prog Node (option errno) }.

Definition error (m : string) : errno := MkErrno false false m.

(** ** Waiting *)

(** [waitForMount]: one check every 10 ms until [timeout], in milliseconds.  The loop
    has been waiting for [elapsed]; [fuel] bounds the number of checks, [None] is out
    of fuel. *)
Fixpoint waitForMount_loop (fuel : nat) (path : string) (timeout elapsed : Z) :
    prog Node (option (option errno)) :=
  match fuel with
  | O => Ret None
  | S fuel =>
      r ← do (IsNotMountPoint path);
      match r with
      | inl e => Ret (Some (Some e))
      | inr false => Ret (Some None)
      | inr true =>
          _ ← do (OsSleep 10);
          let elapsed := elapsed + 10 in
          if timeout <=? elapsed then Ret (Some (Some (error "Timeout waiting for mount")))
          else waitForMount_loop fuel path timeout elapsed
      end
  end.

Definition wait_fuel (timeout : Z) : nat := Datatypes.S (Z.to_nat (timeout / 10)).

Definition waitForMount (path : string) (timeout : Z) : prog Node (option (option errno)) :=
  waitForMount_loop (wait_fuel timeout) path timeout 0.

(** [waitForProcess(p, backoff)] calls itself with [backoff + 1] until [backoff] is 20;
    [calls] is how many calls are left. *)
Fixpoint waitForProcess (calls : nat) (pid : Z) (backoff : Z) : prog Node (option errno) :=
  match calls with
  | O => Ret (Some (error ("Timeout waiting for PID " +:+ Itoa pid +:+ " to end")))
  | S calls =>
      cmdLine ← do (OsReadCmdline pid);
      match cmdLine with
      | inl _ => Ret None
      | inr "" => Ret None
      | inr _ =>
          err ← do (OsSignal0 pid);
          match err with
          | Some _ => Ret None
          | None =>
              _ ← do (OsSleep (backoff * 100));
              waitForProcess calls pid (backoff + 1)
          end
      end
  end.

(** The first process whose command line contains the path. *)
Fixpoint find_process (pids : list Z) (path : string) : prog Node (errno + option Z) :=
  match pids with
  | [] => Ret (inr None)
  | pid :: pids =>
      cmdLine ← do (OsReadCmdline pid);
      match cmdLine with
      | inl _ => find_process pids path
      | inr cmdLine =>
          if Contains cmdLine path then
            err ← do (OsFindProcess pid);
            match err with
            | Some e => Ret (inl e)
            | None => Ret (inr (Some pid))
            end
          else find_process pids path
      end
  end.

Definition findFuseMountProcess (path : string) : prog Node (errno + option Z) :=
  processes ← do OsProcesses;
  match processes with
  | inl e => Ret (inl e)
  | inr pids => find_process pids path
  end.

Definition createLoopDevice (device : string) : prog Node (option errno) :=
  err ← do (OsStat device);
  match err with
  | Some e =>
      if err_not_exist e then
        err ← do (OsCommand "mknod" [device; "b"; "7"; "0"]);
        match err with
        | Some _ => Ret (Some (error "Error configuring loop device"))
        | None => Ret None
        end
      else Ret None
  | None => Ret None
  end.

(** ** FUSE *)

(** A result of [waitForMount]: out of fuel is not possible ([waitForMount_total]). *)
Definition settled (r : option (option errno)) : option errno :=
  default (Some (error "out of fuel")) r.

Definition fuseMount (path command : string) (args : list string) : prog Node (option errno) :=
  err ← do (OsCommand command args);
  match err with
  | Some _ => Ret (Some (error "Error fuseMount command"))
  | None =>
      r ← waitForMount path 10000;
      Ret (settled r)
  end.

Definition fuseUnmount (path : string) : prog Node (option errno) :=
  err ← do (DoUnmount path);
  match err with
  | Some e => Ret (Some e)
  | None =>
      process ← findFuseMountProcess path;
      match process with
      | inl _ => Ret None
      | inr None => Ret None
      | inr (Some pid) => waitForProcess 19 pid 1
      end
  end.

(** ** Password files *)

(** [f.WriteString] after an [os.OpenFile] whose error is returned: the file is not
    closed when the write fails. *)
Definition write_file (name : string) (flags : list open_flag) (perm : Z) (text : string) :
    prog Node (option errno) :=
  f ← do (OsOpenFile name flags perm);
  match f with
  | inl e => Ret (Some e)
  | inr fd =>
      err ← do (OsWriteString fd text);
      match err with
      | Some e => Ret (Some e)
      | None => _ ← do (OsClose fd); Ret None
      end
  end.

Definition writes3fsPass (pwFileContent : string) : prog Node (option errno) :=
  home ← do (OsGetenv "HOME");
  write_file (home +:+ "/.passwd-s3fs") [O_RDWR; O_CREATE] 384 pwFileContent.

Definition writePasswd (accessKeyID secretAccessKey : string) : prog Node (option errno) :=
  home ← do (OsGetenv "HOME");
  write_file (home +:+ "/.s3backer_passwd") [O_RDWR; O_CREATE] 384
    (accessKeyID +:+ ":" +:+ secretAccessKey).

Definition credentials_text (volumeID accessKeyID secretAccessKey : string) : string :=
  "[" +:+ volumeID +:+ "]" +:+ newline +:+ "aws_access_key_id = " +:+ accessKeyID +:+ newline
  +:+ "aws_secret_access_key =" +:+ secretAccessKey +:+ newline.

(** [writes3fsPassGoofy]: errors of opening and writing are logged only. *)
Definition writes3fsPassGoofy (volumeID accessKeyID secretAccessKey : string) :
    prog Node (option errno) :=
  home ← do (OsGetenv "HOME");
  err ← do (OsStat (home +:+ "/.aws"));
  mkdir_err ←
    match err with
    | Some e => if err_not_exist e then do (OsMkdir (home +:+ "/.aws") 448) else Ret None
    | None => Ret None
    end;
  match (mkdir_err : option errno) with
  | Some e => Ret (Some e)
  | None =>
      home ← do (OsGetenv "HOME");
      f ← do (OsOpenFile (home +:+ "/.aws/credentials") [O_APPEND; O_CREATE; O_WRONLY] 420);
      match f with
      | inl _ => Ret None
      | inr fd =>
          _ ← do (OsWriteString fd (credentials_text volumeID accessKeyID secretAccessKey));
          _ ← do (OsClose fd);
          Ret None
      end
  end.

(** ** goofys *)

Definition goofys_args (b : bucket) (c : Config) (volumeID target : string) : list string :=
  ["--endpoint=" +:+ cfg_Endpoint c; "--type-cache-ttl"; "1s"; "--stat-cache-ttl"; "1s";
   "--dir-mode"; "0777"; "--file-mode"; "0777"; "--http-timeout"; "5m"; "-o"; "allow_other"]
  ++ (if decide (cfg_AccessKeyID c ≠ "" ∧ cfg_SecretAccessKey c ≠ "")
      then ["--profile=" +:+ volumeID] else [])
  ++ (if decide (cfg_Region c ≠ "") then ["--region"; cfg_Region c] else [])
  ++ (if cfg_Readonly c then ["-o"; "ro"] else [])
  ++ (if decide (bkt_Folder b = "") then [bkt_Name b; target]
      else [bkt_Name b +:+ ":" +:+ bkt_Folder b; target]).

Definition newGoofysMounter (b : bucket) (c : Config) (volume : string) : Mounter :=
  MkMounter (λ _, Ret None) (λ _, Ret None)
    (λ _ target,
      err ← writes3fsPassGoofy volume (cfg_AccessKeyID c) (cfg_SecretAccessKey c);
      match err with
      | Some e => Ret (Some e)
      | None => fuseMount target "goofys" (goofys_args b c volume target)
      end).

(** ** s3fs *)

Definition s3fs_args (b : bucket) (c : Config) (target : string) : list string :=
  [bkt_Name b; target; "-o"; "use_path_request_style"; "-o"; "url=" +:+ cfg_Endpoint c;
   "-o"; "endpoint=" +:+ cfg_Region c; "-o"; "allow_other"; "-o"; "umask=0000"]
  ++ (if cfg_Readonly c then ["-o"; "ro"] else []).

Definition s3fs_password (c : Config) : string :=
  cfg_AccessKeyID c +:+ ":" +:+ cfg_SecretAccessKey c.

Definition newS3fsMounter (b : bucket) (c : Config) : Mounter :=
  MkMounter (λ _, Ret None) (λ _, Ret None)
    (λ _ target,
      err ← writes3fsPass (s3fs_password c);
      match err with
      | Some e => Ret (Some e)
      | None => fuseMount target "s3fs" (s3fs_args b c target)
      end).

(** ** rclone *)

Definition rclone_args (b : bucket) (c : Config) (target : string) : list string :=
  ["mount"; ":s3:" +:+ bkt_Name b +:+ "/" +:+ "/"; target; "--daemon"; "--s3-provider=AWS";
   "--s3-env-auth=true"; "--s3-region=" +:+ cfg_Region c; "--s3-endpoint=" +:+ cfg_Endpoint c;
   "--allow-other"; "--vfs-cache-mode=writes"].

Definition newRcloneMounter (b : bucket) (c : Config) : Mounter :=
  MkMounter (λ _, Ret None) (λ _, Ret None)
    (λ _ target,
      _ ← do (OsSetenv "AWS_ACCESS_KEY_ID" (cfg_AccessKeyID c));
      _ ← do (OsSetenv "AWS_SECRET_ACCESS_KEY" (cfg_SecretAccessKey c));
      fuseMount target "rclone" (rclone_args b c target)).

(** ** s3backer *)

Definition formatFs (fsType device : string) : prog Node (option errno) :=
  format ← do (GetDiskFormat device);
  match format with
  | inl e => Ret (Some e)
  | inr "" =>
      err ← do (OsCommand ("mkfs." +:+ fsType) [device]);
      match err with
      | Some _ => Ret (Some (error "Error formatting disk"))
      | None => Ret None
      end
  | inr _ => Ret None
  end.

Definition s3backer_args (b : bucket) (c : Config) (ssl : bool) (path : string) : list string :=
  ["--blockSize=128k"; "--listBlocks"; bkt_Name b; path]
  ++ (if decide (cfg_Region c ≠ "") then ["--region=" +:+ cfg_Region c]
      else ["--baseURL=" +:+ cfg_Endpoint c +:+ "/"])
  ++ (if ssl then ["--ssl"] else []).


Definition s3backer_Stage (b : bucket) (c : Config) (ssl : bool) (stageTarget : string) :
    prog Node (option errno) :=
  err ← createLoopDevice "/dev/loop0";
  match err with
  | Some e => Ret (Some e)
  | None =>
      err ← fuseMount stageTarget "s3backer" (s3backer_args b c ssl stageTarget);
      match err with
      | Some e => Ret (Some e)
      | None =>
          err ← formatFs "xfs" (path_Join stageTarget "file");
          match err with
          | Some e => _ ← fuseUnmount stageTarget; Ret (Some e)
          | None => Ret None
          end
      end
  end.

Definition s3backer_Mount (source target : string) : prog Node (option errno) :=
  err ← do (DoMount (path_Join source "file") target "xfs" []);
  match err with
  | Some e => _ ← fuseUnmount target; Ret (Some e)
  | None => Ret None
  end.

(** The constructor writes the password file. *)
Definition newS3backerMounter (b : bucket) (c : Config) : prog Node (errno + Mounter) :=
  match Parse (cfg_Endpoint c) with
  | None => Ret (inl (parse_error (cfg_Endpoint c)))
  | Some url =>
      err ← writePasswd (cfg_AccessKeyID c) (cfg_SecretAccessKey c);
      match err with
      | Some e => Ret (inl e)
      | None =>
          Ret (inr (MkMounter (s3backer_Stage b c (bool_decide (url_Scheme url = "https")))
                      fuseUnmount s3backer_Mount))
      end
  end.

(** ** The choice of a mounter *)

Definition mounter_type (b : bucket) (c : Config) : string :=
  if decide (bkt_Mounter b = "") then cfg_Mounter c else bkt_Mounter b.

Definition newMounter (b : bucket) (c : Config) (volumeId : string) :
    prog Node (errno + Mounter) :=
  let mounter := mounter_type b c in
  if decide (mounter = "s3fs") then Ret (inr (newS3fsMounter b c))
  else if decide (mounter = "goofys") then Ret (inr (newGoofysMounter b c volumeId))
  else if decide (mounter = "s3backer") then newS3backerMounter b c
  else if decide (mounter = "rclone") then Ret (inr (newRcloneMounter b c))
  else Ret (inr (newS3fsMounter b c)).
