(* ===== verification/S3Server.v ===== *)
(** * The gRPC servers of the S3 driver

    Model of [csi-s3/pkg/s3/controllerserver.go] and [nodeserver.go].  Of the CSI
    messages the fields the handlers read are kept; the getters of the generated code
    return the zero value for an absent field. *)

From Stdlib Require Import ZArith Lia Ascii.
From stdpp Require Import options.
From S2P Require Import Prelude GoStd Url Path NodeApi S3Client S3Mounter.

Open Scope Z_scope.

Inductive AccessMode :=
  | UNKNOWN | SINGLE_NODE_WRITER | SINGLE_NODE_READER_ONLY | MULTI_NODE_READER_ONLY
  | MULTI_NODE_SINGLE_WRITER | MULTI_NODE_MULTI_WRITER.

#[export] Instance AccessMode_eq_dec : EqDecision AccessMode.
Proof. solve_decision. Defined.

Record VolumeCapability := MkVolumeCapability {
  vc_AccessMode : option AccessMode;
  vc_MountFlags : list string }.

Definition mode_of (c : VolumeCapability) : AccessMode := default UNKNOWN (vc_AccessMode c).

Record Volume := MkVolume {
  vol_VolumeId : string;
  vol_CapacityBytes : Z;
  vol_VolumeContext : gomap }.

(** ** Controller *)

Record CreateVolumeRequest := MkCreateVolumeRequest {
  cv_Name : string;
  cv_VolumeCapabilities : option (list VolumeCapability);
  cv_Parameters : gomap;
  cv_Secrets : gomap }.

Definition client_error (e : errno) : rpcerr :=
  OtherRpc ("failed to initialize S3 client: " +:+ err_message e).
Definition exists_error (bucketName : string) (e : errno) : rpcerr :=
  OtherRpc ("failed to check if bucket " +:+ bucketName +:+ " exists: " +:+ err_message e).
Definition create_error (volumeID : string) (e : errno) : rpcerr :=
  OtherRpc ("failed to create volume " +:+ volumeID +:+ ": " +:+ err_message e).

Definition ControllerPublishVolume : rpc unit := fail (StatusError Unimplemented "").
Definition ControllerUnpublishVolume : rpc unit := fail (StatusError Unimplemented "").
Definition ControllerGetVolume : rpc unit := fail (StatusError Unimplemented "").
Definition ControllerExpandVolume : rpc unit :=
  fail (StatusError Unimplemented "ControllerExpandVolume is not implemented").

(** The bucket of a volume: the one its secrets name, else the volume's own. *)
Definition bucket_of (c : s3Client) (volumeID : string) : string :=
  if decide (cfg_Bucket (cfg c) ≠ "") then cfg_Bucket (cfg c) else volumeID.

(** The bucket exists, or is created when provisioning was asked for. *)
Definition ensure_bucket (c : s3Client) (bucketName volumeID : string) : rpc unit :=
  r ← bucketExists c bucketName;
  match r with
  | inl e => fail (exists_error bucketName e)
  | inr true => succeed tt
  | inr false =>
      if cfg_Provision (cfg c) then
        or_fail (createBucket c bucketName) (create_error volumeID) (succeed tt)
      else fail (OtherRpc ("s3 bucket: " +:+ bucketName +:+ " does not exist"))
  end.

Definition CreateVolume (req : CreateVolumeRequest) : rpc Volume :=
  let volumeID := sanitizeVolumeID (cv_Name req) in
  err ← do ValidateControllerServiceRequest;
  match (err : option rpcerr) with
  | Some e => fail e
  | None =>
      if decide (volumeID = "") then
        fail (StatusError InvalidArgument "Name missing in request")
      else if decide (cv_VolumeCapabilities req = None) then
        fail (StatusError InvalidArgument "Volume Capabilities missing in request")
      else
        r ← newS3ClientFromSecrets (cv_Secrets req);
        match r with
        | inl e => fail (client_error e)
        | inr s3 =>
            r ← ensure_bucket s3 (bucket_of s3 volumeID) volumeID;
            match r with
            | inl e => fail e
            | inr _ => succeed (MkVolume volumeID 10000000000000 (cv_Parameters req))
            end
        end
  end.

Record DeleteVolumeRequest := MkDeleteVolumeRequest {
  dv_VolumeId : string;
  dv_Secrets : gomap }.

Definition DeleteVolume (req : DeleteVolumeRequest) : rpc unit :=
  let volumeID := dv_VolumeId req in
  if decide (volumeID = "") then
    fail (StatusError InvalidArgument "Volume ID missing in request")
  else
    err ← do ValidateControllerServiceRequest;
    match (err : option rpcerr) with
    | Some e => fail e
    | None =>
        r ← newS3ClientFromSecrets (dv_Secrets req);
        match r with
        | inl e => fail (client_error e)
        | inr s3 =>
            let bucketName := bucket_of s3 volumeID in
            r ← bucketExists s3 bucketName;
            match r with
            | inl e => fail (as_is e)
            | inr present =>
                if present && cfg_RemoveOnDelete (cfg s3) then
                  or_fail (removeBucket s3 bucketName) as_is (succeed tt)
                else succeed tt
            end
        end
    end.

Record ValidateVolumeCapabilitiesRequest := MkValidateVolumeCapabilitiesRequest {
  vv_VolumeId : string;
  vv_VolumeCapabilities : option (list VolumeCapability);
  vv_Secrets : gomap }.

(** The response: confirmed, or a message. *)
Inductive Validation := Confirmed (mode : AccessMode) | Message (m : string).

Definition ValidateVolumeCapabilities (req : ValidateVolumeCapabilitiesRequest) :
    rpc Validation :=
  if decide (vv_VolumeId req = "") then
    fail (StatusError InvalidArgument "Volume ID missing in request")
  else
    match vv_VolumeCapabilities req with
    | None => fail (StatusError InvalidArgument "Volume capabilities missing in request")
    | Some capabilities =>
        r ← newS3ClientFromSecrets (vv_Secrets req);
        match r with
        | inl e => fail (client_error e)
        | inr s3 =>
            r ← bucketExists s3 (vv_VolumeId req);
            match r with
            | inl e => fail (as_is e)
            | inr false =>
                fail (StatusError NotFound
                        ("Volume with id " +:+ vv_VolumeId req +:+ " does not exist"))
            | inr true =>
                if existsb (λ c, bool_decide (mode_of c ≠ SINGLE_NODE_WRITER)) capabilities
                then succeed (Message "Only single node writer is supported")
                else succeed (Confirmed SINGLE_NODE_WRITER)
            end
        end
    end.

(** [createVolume], which serves ephemeral volumes; [s3args] is changed in place, the
    arguments as they were left come with the result. *)
Record s3Volume := MkS3Volume { s3v_VolName : string; s3v_VolID : string; s3v_Bucket : string }.

Definition createVolume (volumeID : string) (s3args : gomap) : rpc (s3Volume * gomap) :=
  let volID := sanitizeVolumeID volumeID in
  let '(provision, _) := ParseBool (map_index s3args "provision") in
  let named :=
    if decide (map_index s3args "bucket" = "") then
      if provision then Some (Some (<["bucket" := volID]> (default ∅ s3args))) else None
    else Some s3args in
  match named with
  | None => fail (OtherRpc "Neither existing bucket provided nor provisioning requested")
  | Some s3args =>
      r ← newS3ClientFromSecrets s3args;
      match r with
      | inl e => fail (client_error e)
      | inr s3 =>
          r ← ensure_bucket s3 (map_index s3args "bucket") volumeID;
          match r with
          | inl e => fail e
          | inr _ => succeed (MkS3Volume volumeID volumeID (map_index s3args "bucket"), s3args)
          end
      end
  end.

(** ** Node *)

Record NodePublishVolumeRequest := MkNodePublishVolumeRequest {
  np_VolumeId : string;
  np_TargetPath : string;
  np_StagingTargetPath : string;
  np_VolumeCapability : option VolumeCapability;
  np_Readonly : bool;
  np_VolumeContext : gomap;
  np_Secrets : gomap }.

(** [checkMount]: is the path not a mount point; a missing directory is created. *)
Definition checkMount (targetPath : string) : prog Node (errno + bool) :=
  r ← do (IsLikelyNotMountPoint targetPath);
  match r with
  | inr notMnt => Ret (inr notMnt)
  | inl e =>
      if err_not_exist e then
        err ← do (OsMkdirAll targetPath 488);
        match (err : option errno) with
        | Some e => Ret (inl e)
        | None => Ret (inr true)
        end
      else Ret (inl e)
  end.

Definition invalid {A} (m : string) : rpc A := fail (StatusError InvalidArgument m).

(** The part of [NodePublishVolume] for a target that is not mounted yet.  Ephemeral
    volumes are disabled in the source: [ephemeralVolume] is the constant [false], and
    that branch is left out. *)
Definition mount_volume (req : NodePublishVolumeRequest) : rpc unit :=
  if decide (np_StagingTargetPath req = "") then
    invalid "Staging Target path missing in request"
  else
    r ← newS3ClientFromSecrets (np_Secrets req);
    match r with
    | inl e => fail (client_error e)
    | inr s3 =>
        if decide (cfg_Bucket (cfg s3) = "") then
          invalid "Bucket name not provided for mounting"
        else
          let b := MkBucket (cfg_Bucket (cfg s3)) (cfg_Folder (cfg s3))
                     (map_index (np_VolumeContext req) "mounter") in
          r ← newMounter b (cfg s3) (np_VolumeId req);
          match r with
          | inl e => fail (as_is e)
          | inr mounter =>
              or_fail (Mount mounter (np_StagingTargetPath req) (np_TargetPath req)) as_is
                (succeed tt)
          end
    end.

Definition NodePublishVolume (req : NodePublishVolumeRequest) : rpc unit :=
  if decide (np_VolumeCapability req = None) then invalid "Volume capability missing in request"
  else if decide (np_VolumeId req = "") then invalid "Volume ID missing in request"
  else if decide (np_TargetPath req = "") then invalid "Target path missing in request"
  else
    r ← checkMount (np_TargetPath req);
    match r with
    | inl e => fail (internal e)
    | inr false => succeed tt
    | inr true => mount_volume req
    end.

Definition NodeUnpublishVolume (volumeID targetPath : string) : rpc unit :=
  if decide (volumeID = "") then invalid "Volume ID missing in request"
  else if decide (targetPath = "") then invalid "Target path missing in request"
  else or_fail (fuseUnmount targetPath) internal (succeed tt).

Record NodeStageVolumeRequest := MkNodeStageVolumeRequest {
  ng_VolumeId : string;
  ng_StagingTargetPath : string;
  ng_VolumeCapability : option VolumeCapability;
  ng_Secrets : gomap }.

(** The part of [NodeStageVolume] for a path where nothing is staged yet. *)
Definition stage_volume (req : NodeStageVolumeRequest) : rpc unit :=
  r ← newS3ClientFromSecrets (ng_Secrets req);
  match r with
  | inl e => fail (client_error e)
  | inr s3 =>
      let b := MkBucket (bucket_of s3 (ng_VolumeId req)) "" "" in
      r ← newMounter b (cfg s3) (ng_VolumeId req);
      match r with
      | inl e => fail (as_is e)
      | inr mounter => or_fail (Stage mounter (ng_StagingTargetPath req)) as_is (succeed tt)
      end
  end.

Definition NodeStageVolume (req : NodeStageVolumeRequest) : rpc unit :=
  if decide (ng_VolumeId req = "") then invalid "Volume ID missing in request"
  else if decide (ng_StagingTargetPath req = "") then invalid "Target path missing in request"
  else if decide (ng_VolumeCapability req = None) then
    invalid "NodeStageVolume Volume Capability must be provided"
  else
    r ← checkMount (ng_StagingTargetPath req);
    match r with
    | inl e => fail (internal e)
    | inr false => succeed tt
    | inr true => stage_volume req
    end.

Definition NodeUnstageVolume (volumeID stagingTargetPath : string) : rpc unit :=
  if decide (volumeID = "") then invalid "Volume ID missing in request"
  else if decide (stagingTargetPath = "") then invalid "Target path missing in request"
  else succeed tt.

Inductive NodeServiceCapability := STAGE_UNSTAGE_VOLUME.

Definition NodeGetCapabilities : rpc (list NodeServiceCapability) :=
  succeed [STAGE_UNSTAGE_VOLUME].

Definition NodeExpandVolume : rpc unit :=
  fail (StatusError Unimplemented "NodeExpandVolume is not implemented").
