(* ===== verification/S3Safety.v ===== *)
(** * The S3 driver: theorems

    What the driver does to the object store and to the node, whatever these answer. *)

From Stdlib Require Import ZArith Lia Ascii.
From stdpp Require Import options.
From S2P Require Import Prelude GoStd Url Path NodeApi S3Client S3Mounter S3Server.

Open Scope Z_scope.

(** The interaction contains the call [o] with the answer [r]. *)
Notation heard evs o r := (@Ev Node o r ∈ evs).

Ltac nsteps :=
  cbn [guarded ensures_from mbind prog_mbind prog_bind call do fail succeed or_fail invalid
       fmap prog_fmap newS3ClientFromSecrets bucketExists createBucket].

Ltac solve_heard :=
  first [ eassumption
        | apply list_elem_of_singleton; reflexivity
        | apply elem_of_app; right; solve_heard
        | apply elem_of_app; left; solve_heard ].

(** ** Data is destroyed only on request *)

(** The bucket of an object store an operation removes, or removes objects from. *)
Definition destroys (o : node_op) : option (Minio * string) :=
  match o with
  | RemoveBucket c b => Some (c, b)
  | RemoveObjects c b _ => Some (c, b)
  | _ => None
  end.

(** The object store and the bucket that secrets name for a volume. *)
Definition designates (secrets : gomap) (volumeID : string) (c : Minio) (b : string) : Prop :=
  ∃ u, Parse (map_index secrets "endpoint") = Some u ∧
       c = minio_of (config_of_secrets secrets) u ∧
       b = if decide (map_index secrets "bucket" ≠ "") then map_index secrets "bucket"
           else volumeID.

Definition flag (secrets : gomap) (key : string) : bool := (ParseBool (map_index secrets key)).1.

(** The client of secrets, as a program uses it. *)
Definition client_of (secrets : gomap) (u : URL) : s3Client :=
  MkS3Client (config_of_secrets secrets) (minio_of (config_of_secrets secrets) u).

Lemma guarded_client {B} secrets (k : errno + s3Client → prog Node B) evs G :
  (∀ l m, G (evs ++ l) (NewWithRegion m)) →
  (∀ l e, guarded (k (inl e)) (evs ++ l) G) →
  (∀ l u, Parse (map_index secrets "endpoint") = Some u →
     guarded (k (inr (client_of secrets u))) (evs ++ l) G) →
  guarded (newS3ClientFromSecrets secrets ≫= k) evs G.
Proof.
  intros Hn He Hk. unfold newS3ClientFromSecrets, newS3Client.
  cbn [cfg_Endpoint config_of_secrets]. destruct (Parse _) as [u|] eqn:Hu.
  - nsteps. split; [rewrite <-(app_nil_r evs); apply Hn|]. intros [e|]; nsteps; [apply He|].
    by apply Hk.
  - nsteps. rewrite <-(app_nil_r evs). apply He.
Qed.

Lemma ensures_client {B} secrets (k : errno + s3Client → prog Node B) evs Q :
  (∀ l e, ensures_from (k (inl e)) (evs ++ l) Q) →
  (∀ l u, Parse (map_index secrets "endpoint") = Some u →
     ensures_from (k (inr (client_of secrets u))) (evs ++ l) Q) →
  ensures_from (newS3ClientFromSecrets secrets ≫= k) evs Q.
Proof.
  intros He Hk. unfold newS3ClientFromSecrets, newS3Client.
  cbn [cfg_Endpoint config_of_secrets]. destruct (Parse _) as [u|] eqn:Hu.
  - nsteps. intros [e|]; nsteps; [apply He|]. by apply Hk.
  - nsteps. rewrite <-(app_nil_r evs). apply He.
Qed.

Definition authorised (req : DeleteVolumeRequest) (evs : list (event Node)) (o : node_op) : Prop :=
  match destroys o with
  | None => True
  | Some (c, b) =>
      designates (dv_Secrets req) (dv_VolumeId req) c b ∧
      flag (dv_Secrets req) "remove-on-delete" = true ∧
      heard evs (BucketExists c b) (inr true)
  end.

#[local] Arguments authorised : simpl never.

Lemma removeBucket_authorised req evs c b :
  (∀ l o, destroys o = Some (minio c, b) → authorised req (evs ++ l) o) →
  guarded (removeBucket c b) evs (authorised req).
Proof.
  intros Ha. unfold removeBucket, emptyBucket. nsteps.
  split; [done|intros objects]. split; [done|intros ran].
  destruct (if ran then _ else _) as [e|]; [done|]. nsteps. split.
  - rewrite <-app_assoc. by apply Ha.
  - intros errs. rewrite drop_all. rewrite decide_False by (intros Hn; by apply Hn). cbn.
    rewrite <-!app_assoc. split; [by apply Ha|done].
Qed.

Lemma DeleteVolume_authorised_aux (req : DeleteVolumeRequest) evs res pre o r post c b
    (Hb : behaviour (DeleteVolume req) evs res)
    (Hsplit : evs = pre ++ Ev (E := Node) o r :: post)
    (Hd : destroys o = Some (c, b)) :
  designates (dv_Secrets req) (dv_VolumeId req) c b ∧
  flag (dv_Secrets req) "remove-on-delete" = true ∧
  heard pre (BucketExists c b) (inr true).
Proof.
  assert (authorised req pre o) as Ha; [|by unfold authorised in Ha; rewrite Hd in Ha].
  apply (guarded_behaviour (DeleteVolume req) [] (authorised req) evs res pre o r post);
    [|done|done].
  unfold DeleteVolume. case_decide; [done|]. nsteps. split; [done|intros [e|]; [done|]].
  apply guarded_client; [done|done|]. intros l u Hu. nsteps.
  split; [done|intros [e|present]; [done|]].
  destruct (present && _) eqn:Hf; [|done]. apply andb_true_iff in Hf as [-> Hf].
  apply guarded_bind_grow; [|by intros ? [e|]].
  apply removeBucket_authorised. intros l' o' Ho. unfold authorised. rewrite Ho.
  split_and!; [by exists u|exact Hf|solve_heard].
Qed.

(** (C21) The driver destroys data only when it was asked to: whatever the object
    store answers, [DeleteVolume] removes a bucket, or objects from a bucket, only
    when the volume's secrets say [remove-on-delete], only after the store has said
    that the bucket exists, and only the bucket these secrets name (the volume's own
    when they name none), on the endpoint and with the credentials they give. *)
Theorem DeleteVolume_authorised (req : DeleteVolumeRequest) evs res pre o r post c b
    (Hb : behaviour (DeleteVolume req) evs res)
    (Hsplit : evs = pre ++ Ev (E := Node) o r :: post)
    (Hd : destroys o = Some (c, b)) :
  designates (dv_Secrets req) (dv_VolumeId req) c b ∧
  flag (dv_Secrets req) "remove-on-delete" = true ∧
  heard pre (BucketExists c b) (inr true).
Proof. by eapply DeleteVolume_authorised_aux. Qed.

(** ** What success means *)

Definition last_is (evs : list (event Node)) (o : node_op) (r : node_reply o) : Prop :=
  last evs = Some (Ev (E := Node) o r).
Arguments last_is evs o r : clear implicits.

Lemma last_is_app evs o (r : node_reply o) : last_is (evs ++ [Ev (E := Node) o r]) o r.
Proof. unfold last_is. by rewrite last_snoc. Qed.

(** [DeleteVolume] has done its work: there was nothing to remove, or the store has
    removed the bucket. *)
Definition deleted (req : DeleteVolumeRequest) (evs : list (event Node)) (c : Minio) (b : string) :
    Prop :=
  flag (dv_Secrets req) "remove-on-delete" = false ∨
  heard evs (BucketExists c b) (inr false) ∨ last_is evs (RemoveBucket c b) None.

Lemma ensures_removeBucket c b evs :
  ensures_from (removeBucket c b) evs (λ evs' res,
    res = None → last_is evs' (RemoveBucket (minio c) b) None).
Proof.
  unfold removeBucket, emptyBucket. nsteps. intros objects ran.
  destruct (if ran then _ else _); [done|]. nsteps. intros errs. rewrite drop_all.
  rewrite decide_False by (intros Hn; by apply Hn). nsteps. intros r ->. apply last_is_app.
Qed.

(** A volume is reported deleted only when it is: when [DeleteVolume] succeeds,
    either the volume's secrets do not ask for removal, or the store has said that the
    bucket they name does not exist, or the last thing the store has said is that it
    has removed this bucket. *)
Theorem DeleteVolume_success (req : DeleteVolumeRequest) evs
    (Hb : behaviour (DeleteVolume req) evs (inr tt)) :
  ∃ c b, designates (dv_Secrets req) (dv_VolumeId req) c b ∧ deleted req evs c b.
Proof.
  assert (ensures (DeleteVolume req) (λ evs res, res = inr tt →
    ∃ c b, designates (dv_Secrets req) (dv_VolumeId req) c b ∧ deleted req evs c b)) as He;
    [|exact (proj1 (ensures_behaviour _ _) He evs _ Hb eq_refl)].
  unfold ensures, DeleteVolume. case_decide; [done|]. nsteps. intros [e|]; [done|].
  apply ensures_client; [done|]. intros l u Hu. nsteps. intros [e|present]; [done|].
  assert (designates (dv_Secrets req) (dv_VolumeId req) (minio (client_of (dv_Secrets req) u))
    (bucket_of (client_of (dv_Secrets req) u) (dv_VolumeId req))) as Hd by by exists u.
  destruct (present && _) eqn:Hf.
  - apply ensures_from_bind. eapply ensures_from_mono; [|apply ensures_removeBucket].
    intros evs' [e|] Hr; nsteps; [done|]. intros _. do 2 eexists. split; [exact Hd|].
    right. right. by apply Hr.
  - nsteps. intros _. do 2 eexists. split; [exact Hd|]. apply andb_false_iff in Hf as [->|Hf].
    + right. left. solve_heard.
    + by left.
Qed.

(** The bucket of a volume is there: it was, or it was asked for and created. *)
Definition provided (secrets : gomap) (evs : list (event Node)) (c : Minio) (b : string) : Prop :=
  heard evs (BucketExists c b) (inr true) ∨
  flag secrets "provision" = true ∧ heard evs (BucketExists c b) (inr false) ∧
  heard evs (MakeBucket c b (map_index secrets "region")) None.

Lemma ensures_ensure_bucket secrets u b volumeID evs :
  ensures_from (ensure_bucket (client_of secrets u) b volumeID) evs (λ evs' r,
    match r with inl _ => True | inr _ => provided secrets evs' (minio (client_of secrets u)) b end).
Proof.
  unfold ensure_bucket. nsteps. intros [e|[|]]; nsteps; [done|left; solve_heard|].
  destruct (cfg_Provision _) eqn:Hp; [|done]. nsteps. intros [e|]; nsteps; [done|].
  right. split_and!; [exact Hp|solve_heard|solve_heard].
Qed.

(** A volume that was created can be mounted: when [CreateVolume] succeeds, the
    volume has the sanitised name for identifier and carries the parameters of the
    request, and the bucket its secrets name (the identifier when they name none) was
    there, or provisioning was asked for and the store has created it. *)
Theorem CreateVolume_success (req : CreateVolumeRequest) evs v
    (Hb : behaviour (CreateVolume req) evs (inr v)) :
  vol_VolumeId v = sanitizeVolumeID (cv_Name req) ∧ vol_VolumeId v ≠ "" ∧
  vol_VolumeContext v = cv_Parameters req ∧
  ∃ c b, designates (cv_Secrets req) (vol_VolumeId v) c b ∧ provided (cv_Secrets req) evs c b.
Proof.
  assert (ensures (CreateVolume req) (λ evs res, ∀ v, res = inr v →
    vol_VolumeId v = sanitizeVolumeID (cv_Name req) ∧ vol_VolumeId v ≠ "" ∧
    vol_VolumeContext v = cv_Parameters req ∧
    ∃ c b, designates (cv_Secrets req) (vol_VolumeId v) c b ∧ provided (cv_Secrets req) evs c b))
    as He; [|exact (proj1 (ensures_behaviour _ _) He evs _ Hb v eq_refl)].
  unfold ensures, CreateVolume. nsteps. intros [e|]; [done|].
  case_decide; [done|]. case_decide; [done|].
  apply ensures_client; [done|]. intros l u Hu. apply ensures_from_bind.
  eapply ensures_from_mono; [|apply ensures_ensure_bucket].
  intros evs' [e|[]] Hp; nsteps; [done|]. intros v' [= <-]. cbn. split_and!; try done.
  do 2 eexists. split; [by exists u|exact Hp].
Qed.

(** [emptyBucket] reports no failure of the removal: whatever errors
    [RemoveObjects] sends, and whatever error the listing ends with, it returns an
    error only when the listing goroutine has been scheduled before its error is read
    and the very first thing the listing yields is an error. *)
Theorem emptyBucket_hides_failures (c : s3Client) (b : string) :
  ensures (emptyBucket c b) (λ evs res, res ≠ None →
    heard evs Scheduled true ∧
    ∃ e objects, heard evs (ListObjects (minio c) b) (inl e :: objects)).
Proof.
  unfold ensures, emptyBucket. nsteps. intros objects [].
  - destruct objects as [|[e|key] objects]; cbn [early_error]; nsteps.
    + intros errs. rewrite drop_all. rewrite decide_False by (intros Hn; by apply Hn). done.
    + intros _. split; [solve_heard|]. exists e, objects. solve_heard.
    + intros errs. rewrite drop_all. rewrite decide_False by (intros Hn; by apply Hn). done.
  - nsteps. intros errs. rewrite drop_all. rewrite decide_False by (intros Hn; by apply Hn). done.
Qed.
