(* ===== verification/S3Mount.v ===== *)
(** * The S3 driver on the node: theorems

    What publishing a volume mounts, how long the driver waits, and what it leaves in
    the password files. *)

From Stdlib Require Import ZArith Lia Ascii.
From stdpp Require Import options.
From S2P Require Import Prelude GoStd Url Path NodeApi S3Client S3Mounter S3Server S3Safety.

Open Scope Z_scope.

(** ** Waiting *)

Fixpoint slept (evs : list (event Node)) : Z :=
  match evs with
  | [] => 0
  | e :: evs => match ev_op e with OsSleep ms => ms | _ => 0 end + slept evs
  end.

Lemma slept_app l l' : slept (l ++ l') = slept l + slept l'.
Proof. induction l as [|e l IH]; [done|]. cbn. rewrite IH. lia. Qed.

Lemma waitForMount_loop_bounds fuel path timeout elapsed evs :
  elapsed < timeout → timeout - elapsed < 10 * Z.of_nat fuel →
  ensures_from (waitForMount_loop fuel path timeout elapsed) evs (λ evs' r,
    r ≠ None ∧ slept evs' ≤ slept evs + 10 * ((timeout - elapsed + 9) / 10) ∧
    Z.of_nat (length evs') ≤ Z.of_nat (length evs) + 2 * ((timeout - elapsed + 9) / 10)).
Proof.
  revert elapsed evs. induction fuel as [|fuel IH]; intros elapsed evs Hlt Hfuel; [lia|].
  assert (1 ≤ (timeout - elapsed + 9) / 10) as Hone by (apply Z.div_le_lower_bound; lia).
  cbn [waitForMount_loop]. nsteps. intros [e|[|]]; nsteps.
  - rewrite slept_app, length_app. cbn. split_and!; [done|lia|lia].
  - intros []. rewrite <-app_assoc. destruct (Z.leb_spec timeout (elapsed + 10)) as [Hle|Hgt].
    + nsteps. rewrite slept_app, length_app. cbn. split_and!; [done|lia|lia].
    + eapply ensures_from_mono; [|apply IH; lia].
      intros evs' r (Hr & Hs & Hl). rewrite slept_app, length_app in *. cbn in *.
      replace (timeout - elapsed + 9) with (timeout - (elapsed + 10) + 9 + 1 * 10) by lia.
      rewrite Z.div_add by done. split_and!; [done|lia|lia].
  - rewrite slept_app, length_app. cbn. split_and!; [done|lia|lia].
Qed.

Lemma waitForProcess_bounds calls pid backoff evs :
  0 ≤ backoff →
  ensures_from (waitForProcess calls pid backoff) evs (λ evs' _,
    2 * slept evs' ≤ 2 * slept evs + 100 * Z.of_nat calls * (2 * backoff + Z.of_nat calls - 1) ∧
    (length evs' ≤ length evs + 3 * calls)%nat).
Proof.
  revert backoff evs. induction calls as [|calls IH]; intros backoff evs Hb; [cbn; lia|].
  cbn [waitForProcess]. nsteps. intros [e|cmd]; nsteps.
  { rewrite slept_app, length_app. cbn. nia. }
  assert (∀ r, ensures_from (E := Node) (Ret r)
    (evs ++ [Ev (E := Node) (OsReadCmdline pid) (inr cmd)]) (λ evs' (_ : option errno),
    2 * slept evs' ≤ 2 * slept evs +
      100 * Z.of_nat (Datatypes.S calls) * (2 * backoff + Z.of_nat (Datatypes.S calls) - 1) ∧
    (length evs' ≤ length evs + 3 * Datatypes.S calls)%nat)) as Hdead.
  { intros r. cbn. rewrite slept_app, length_app. cbn. nia. }
  destruct cmd as [|a cmd]; [apply Hdead|]. intros [e|]; nsteps.
  { rewrite !slept_app, !length_app. cbn. nia. }
  intros []. rewrite <-!app_assoc. eapply ensures_from_mono; [|apply IH; lia].
  intros evs' _ [Hs Hl]. rewrite slept_app, length_app in *. cbn in *. nia.
Qed.

Lemma find_process_bounds pids path evs :
  ensures_from (find_process pids path) evs (λ evs' _, slept evs' = slept evs).
Proof.
  revert evs. induction pids as [|pid pids IH]; intros evs; [done|]. cbn [find_process]. nsteps.
  intros [e|cmd].
  - eapply ensures_from_mono; [|apply IH]. intros evs' _ ->. rewrite slept_app. cbn. lia.
  - destruct (Contains cmd path).
    + nsteps. intros [e|]; nsteps; rewrite !slept_app; cbn; lia.
    + eapply ensures_from_mono; [|apply IH]. intros evs' _ ->. rewrite slept_app. cbn. lia.
Qed.

(** The driver waits for a bounded time: whatever the node answers,
    [waitForMount] gives its verdict (the fuel never runs out) after at most 1000
    checks and 10 seconds of sleep, and unmounting a volume, which waits for its FUSE
    process, sleeps for at most 19 seconds. *)
Theorem waits_are_bounded (path : string) :
  ensures (waitForMount path 10000) (λ evs r,
    r ≠ None ∧ slept evs ≤ 10000 ∧ (length evs ≤ 2000)%nat) ∧
  ensures (fuseUnmount path) (λ evs _, slept evs ≤ 19000).
Proof.
  split.
  - eapply ensures_from_mono; [|apply waitForMount_loop_bounds; [done|]].
    + intros evs r (Hr & Hs & Hl). change ((10000 - 0 + 9) / 10) with 1000 in *.
      change (slept []) with 0 in Hs. cbn [length] in Hl. split_and!; [done|lia|lia].
    + change (Z.of_nat (wait_fuel 10000)) with 1001. lia.
  - unfold ensures, fuseUnmount. nsteps. intros [e|]; nsteps; [done|].
    unfold findFuseMountProcess. cbn [mbind prog_mbind prog_bind call do ensures_from].
    intros [e|pids]; nsteps; [done|]. apply ensures_from_bind.
    eapply ensures_from_mono; [|apply find_process_bounds]. cbn beta.
    intros evs' [e|[p|]] Hs; nsteps; try (rewrite Hs; done).
    eapply ensures_from_mono; [|apply waitForProcess_bounds; done]. cbn beta.
    intros evs2 _ [Hs2 _]. rewrite Hs in Hs2. change (slept _) with 0 in Hs2 at 2. lia.
Qed.

(** ** Publishing *)

(** The call that mounts a bucket, for the type of mounter the volume context names. *)
Definition mount_call (type : string) (b : bucket) (c : Config) (volumeID source target : string) :
    node_op :=
  if decide (type = "goofys") then OsCommand "goofys" (goofys_args b c volumeID target)
  else if decide (type = "s3backer") then DoMount (path_Join source "file") target "xfs" []
  else if decide (type = "rclone") then OsCommand "rclone" (rclone_args b c target)
  else OsCommand "s3fs" (s3fs_args b c target).

(** The call was answered with success. *)
Definition worked (evs : list (event Node)) (o : node_op) : Prop :=
  ∃ r : node_reply o, heard evs o r ∧
    match o return node_reply o → Prop with
    | OsCommand _ _ | DoMount _ _ _ _ => λ r, r = None
    | _ => λ _, False
    end r.

Lemma heard_grows {A} (p : prog Node A) evs o (r : node_reply o) (Q : list (event Node) → A → Prop) :
  heard evs o r → ensures_from p evs Q →
  ensures_from p evs (λ evs' a, heard evs' o r ∧ Q evs' a).
Proof.
  intros Hh HQ. pose proof (proj1 (ensures_from_behaviour _ _ _) HQ) as H1.
  pose proof (proj1 (ensures_from_behaviour _ _ _) (ensures_from_grows p evs)) as H2.
  apply ensures_from_behaviour. intros evs' a Hb. split; [|by apply H1].
  apply elem_of_app. by left.
Qed.

Lemma waitForMount_observes fuel path timeout elapsed evs :
  ensures_from (waitForMount_loop fuel path timeout elapsed) evs (λ evs' r,
    r = Some None → last_is evs' (IsNotMountPoint path) (inr false)).
Proof.
  revert elapsed evs. induction fuel as [|fuel IH]; intros elapsed evs; [done|].
  cbn [waitForMount_loop]. nsteps. intros [e|[|]]; nsteps; [done| |intros _; apply last_is_app].
  intros []. destruct (timeout <=? _); [done|]. apply IH.
Qed.

(** A FUSE mount that succeeds: the command did, and the target was seen mounted. *)
Lemma fuseMount_success path command args evs :
  ensures_from (fuseMount path command args) evs (λ evs' r, r = None →
    worked evs' (OsCommand command args) ∧ last_is evs' (IsNotMountPoint path) (inr false)).
Proof.
  unfold fuseMount. nsteps. intros [e|]; nsteps; [done|]. apply ensures_from_bind.
  eapply ensures_from_mono; [|apply heard_grows with (o := OsCommand command args) (r := None);
    [solve_heard|apply waitForMount_observes]].
  intros evs' [[e|]|] [Hh Hl]; nsteps; try done. intros _. split; [by exists None|by apply Hl].
Qed.

(** What a mounter that reports success has done. *)
Definition mounts (type : string) (b : bucket) (c : Config) (volumeID source target : string)
    (evs : list (event Node)) : Prop :=
  worked evs (mount_call type b c volumeID source target) ∧
  (type ≠ "s3backer" → last_is evs (IsNotMountPoint target) (inr false)).

Lemma ensures_any {A} (p : prog Node A) evs : ensures_from p evs (λ _ _, True).
Proof. eapply ensures_from_mono; [|apply ensures_from_grows]. done. Qed.

Lemma mounter_mounts b c volumeID source target evs :
  ensures_from (newMounter b c volumeID) evs (λ evs' r,
    match r with
    | inl _ => True
    | inr m => ensures_from (Mount m source target) evs' (λ evs2 r,
        r = None → mounts (mounter_type b c) b c volumeID source target evs2)
    end).
Proof.
  assert (∀ evs2, mounter_type b c ≠ "goofys" → mounter_type b c ≠ "s3backer" →
    mounter_type b c ≠ "rclone" →
    ensures_from (Mount (newS3fsMounter b c) source target) evs2 (λ evs3 r,
      r = None → mounts (mounter_type b c) b c volumeID source target evs3)) as Hs3fs.
  { intros evs2 H1 H2 H3. cbn [Mount newS3fsMounter]. apply ensures_from_bind.
    eapply ensures_from_mono; [|apply ensures_any]. intros evs' [e|] _; [done|].
    eapply ensures_from_mono; [|apply fuseMount_success]. intros evs'' r Hr Hn.
    unfold mounts, mount_call. rewrite !decide_False by done. by destruct (Hr Hn). }
  unfold newMounter. destruct (decide (mounter_type b c = "s3fs")) as [E|_];
    [apply Hs3fs; by rewrite E|].
  destruct (decide (mounter_type b c = "goofys")) as [E|Hg].
  { cbn [ensures_from Mount newGoofysMounter]. apply ensures_from_bind.
    eapply ensures_from_mono; [|apply ensures_any]. intros evs' [e|] _; [done|].
    eapply ensures_from_mono; [|apply fuseMount_success]. intros evs'' r Hr Hn.
    unfold mounts, mount_call. rewrite E, decide_True by done. by destruct (Hr Hn). }
  destruct (decide (mounter_type b c = "s3backer")) as [E|Hb].
  { unfold newS3backerMounter. destruct (Parse _); [|done]. apply ensures_from_bind.
    eapply ensures_from_mono; [|apply ensures_any]. intros evs' [e|] _; [done|].
    cbn [ensures_from Mount]. unfold s3backer_Mount. nsteps. intros [e|].
    - apply ensures_from_bind. eapply ensures_from_mono; [|apply ensures_any]. done.
    - nsteps. intros _. unfold mounts, mount_call.
      rewrite E, decide_False, decide_True by done. split; [|done]. exists None.
      split; [solve_heard|done]. }
  destruct (decide (mounter_type b c = "rclone")) as [E|Hr]; [|by apply Hs3fs].
  cbn [ensures_from Mount newRcloneMounter]. nsteps. intros [] [].
  eapply ensures_from_mono; [|apply fuseMount_success]. intros evs'' r Hr Hn.
  unfold mounts, mount_call. rewrite E, !decide_False, decide_True by done.
  by destruct (Hr Hn).
Qed.

(** The bucket a request mounts. *)
Definition requested_bucket (req : NodePublishVolumeRequest) : bucket :=
  MkBucket (map_index (np_Secrets req) "bucket") (map_index (np_Secrets req) "folder")
    (map_index (np_VolumeContext req) "mounter").

Definition already_mounted (req : NodePublishVolumeRequest) (evs : list (event Node)) : Prop :=
  evs = [Ev (E := Node) (IsLikelyNotMountPoint (np_TargetPath req)) (inr false)].

Definition published (req : NodePublishVolumeRequest) (evs : list (event Node)) : Prop :=
  map_index (np_Secrets req) "bucket" ≠ "" ∧
  mounts (map_index (np_VolumeContext req) "mounter") (requested_bucket req)
    (config_of_secrets (np_Secrets req)) (np_VolumeId req) (np_StagingTargetPath req)
    (np_TargetPath req) evs.

Lemma mounter_type_requested req :
  mounter_type (requested_bucket req) (config_of_secrets (np_Secrets req))
  = map_index (np_VolumeContext req) "mounter".
Proof. unfold mounter_type. cbn. by case_decide. Qed.

Lemma mount_volume_success req evs :
  ensures_from (mount_volume req) evs (λ evs' res, res = inr tt → published req evs').
Proof.
  unfold mount_volume. case_decide; [done|]. apply ensures_client; [done|]. intros l u Hu.
  case_decide as Hbk; [done|]. apply ensures_from_bind.
  eapply ensures_from_mono; [|apply (mounter_mounts (requested_bucket req)
    (config_of_secrets (np_Secrets req)) (np_VolumeId req) (np_StagingTargetPath req)
    (np_TargetPath req))].
  intros evs' [e|m] Hm; nsteps; [done|]. apply ensures_from_bind.
  eapply ensures_from_mono; [|exact Hm]. rewrite mounter_type_requested.
  intros evs2 [e|] Hr; nsteps; [done|]. intros _. split; [exact Hbk|by apply Hr].
Qed.

Lemma NodePublishVolume_success_aux (req : NodePublishVolumeRequest) evs
    (Hb : behaviour (NodePublishVolume req) evs (inr tt)) :
  already_mounted req evs ∨ published req evs.
Proof.
  assert (ensures (NodePublishVolume req) (λ evs res, res = inr tt →
    already_mounted req evs ∨ published req evs)) as He;
    [|exact (proj1 (ensures_behaviour _ _) He evs _ Hb eq_refl)].
  assert (∀ evs, ensures_from (mount_volume req) evs (λ evs res, res = inr tt →
    already_mounted req evs ∨ published req evs)) as Hmv.
  { intros evs'. eapply ensures_from_mono; [|apply mount_volume_success]. auto. }
  unfold ensures, NodePublishVolume. do 3 (case_decide; [done|]).
  unfold checkMount. nsteps. intros [e|[|]]; nsteps; [|apply Hmv|intros _; by left].
  destruct (err_not_exist e); [|done]. nsteps. intros [e'|]; nsteps; [done|apply Hmv].
Qed.


(** ** Staging *)

(** All that staging asks of the node. *)
Definition harmless (req : NodeStageVolumeRequest) (o : node_op) : Prop :=
  o = IsLikelyNotMountPoint (ng_StagingTargetPath req) ∨
  o = OsMkdirAll (ng_StagingTargetPath req) 488 ∨ ∃ c, o = NewWithRegion c.

Lemma stage_volume_harmless req evs : guarded (stage_volume req) evs (λ _, harmless req).
Proof.
  unfold stage_volume. apply guarded_client; [|done|done].
  intros l m. right. right. by exists m.
Qed.

(** Staging mounts nothing: whatever the request and the answers, and whatever
    mounter the volume context names, [NodeStageVolume] only looks at the staging
    path, creates it if it is missing, and makes a client; in particular the device
    file of the s3backer mounter, which [Mount] mounts from the staging path, is
    never put there. *)
Theorem NodeStageVolume_stages_nothing (req : NodeStageVolumeRequest) evs res o (r : node_reply o)
    (Hb : behaviour (NodeStageVolume req) evs res) (Hin : heard evs o r) :
  harmless req o.
Proof.
  apply list_elem_of_split in Hin as (pre & post & Hsplit).
  apply (guarded_behaviour (NodeStageVolume req) [] (λ _, harmless req) evs res pre o r post);
    [|done|done].
  unfold NodeStageVolume. do 3 (case_decide; [done|]). unfold checkMount. nsteps.
  split; [by left|intros [e|[|]]; nsteps; [|apply stage_volume_harmless|done]].
  destruct (err_not_exist e); [|done]. nsteps. split; [by right; left|].
  intros [e'|]; nsteps; [done|apply stage_volume_harmless].
Qed.

(** ** Read-only volumes *)

Definition with_readonly (c : Config) (readonly : bool) : Config :=
  MkConfig (cfg_AccessKeyID c) (cfg_SecretAccessKey c) (cfg_Region c) (cfg_Endpoint c)
    (cfg_Mounter c) (cfg_Bucket c) (cfg_Folder c) (cfg_RemoveOnDelete c) readonly
    (cfg_Provision c).

(** The option [-o ro] among the arguments of a command. *)
Definition asks_read_only (o : node_op) : Prop :=
  match o with
  | OsCommand _ args => ∃ l1 l2, args = l1 ++ ["-o"; "ro"] ++ l2
  | _ => False
  end.

(** Which mounters honour a read-only dataset: goofys and s3fs (also as the
    default) are run with [-o ro] when the secrets say [readonly]; s3backer and rclone
    are run the same way whether they say so or not, so that these mount a read-only
    dataset for writing. *)
Theorem readonly_by_mounter (type : string) (b : bucket) (c : Config)
    (volumeID source target : string) :
  let call c := mount_call type b c volumeID source target in
  if decide (type = "s3backer" ∨ type = "rclone")
  then call (with_readonly c true) = call (with_readonly c false)
  else asks_read_only (call (with_readonly c true)).
Proof.
  cbn zeta. unfold mount_call. case_decide as Hty.
  - by destruct Hty as [-> | ->].
  - rewrite (decide_False (P := type = "s3backer")), (decide_False (P := type = "rclone")) by tauto.
    case_decide.
    + unfold goofys_args. cbn [cfg_Readonly with_readonly]. rewrite !app_assoc.
      eexists _, _. by rewrite <-(app_assoc _ ["-o"; "ro"]).
    + unfold s3fs_args. cbn [cfg_Readonly with_readonly]. by exists
        [bkt_Name b; target; "-o"; "use_path_request_style"; "-o"; "url=" +:+ cfg_Endpoint c;
         "-o"; "endpoint=" +:+ cfg_Region c; "-o"; "allow_other"; "-o"; "umask=0000"], [].
Qed.
