(* ===== verification/S3Files.v ===== *)
(** * The password files of the S3 driver

    [PosixFiles] states what POSIX documents about the calls the mounters make to
    write a file: opening without [O_TRUNC] keeps the content, a write replaces the
    bytes from the offset of the descriptor on, and with [O_APPEND] it adds them at
    the end.  [mem_files] is an implementation. *)

From Stdlib Require Import ZArith Lia Ascii.
From stdpp Require Import options.
From S2P Require Import Prelude GoStd KubeWp NodeApi S3Client S3Mounter.

Open Scope Z_scope.

(** [old] with the bytes from [off] on replaced by [text]. *)
Definition overwrite (old : string) (off : nat) (text : string) : string :=
  str_take off old +:+ text +:+ str_drop (off + String.length text) old.

Lemma overwrite_start old text :
  overwrite old 0 text = text +:+ str_drop (String.length text) old.
Proof. unfold overwrite. by destruct old. Qed.

Lemma str_drop_nil n s : str_drop n s = "" ↔ (String.length s ≤ n)%nat.
Proof.
  revert s. induction n as [|n IH]; intros [|c s]; cbn.
  - done.
  - split; [done|lia].
  - split; [lia|done].
  - rewrite IH. lia.
Qed.

Definition opened_at (flags : list open_flag) (size : nat) : nat :=
  if decide (O_APPEND ∈ flags) then size else 0%nat.

Class PosixFiles {S : Type} (h : handler Node S) := {
  content : S → string → option string;
  (** an open descriptor: the file and the offset of the next write *)
  cursor : S → Z → option (string * nat);
  environment : S → string → string;

  posix_getenv s name : h (OsGetenv name) s = (environment s name, s);
  posix_open s name flags perm :
    O_CREATE ∈ flags → O_TRUNC ∉ flags →
    ∃ fd s', h (OsOpenFile name flags perm) s = (inr fd, s') ∧
      let old := default "" (content s name) in
      content s' name = Some old ∧
      cursor s' fd = Some (name, opened_at flags (String.length old)) ∧
      (∀ n, n ≠ name → content s' n = content s n) ∧ environment s' = environment s;
  posix_write s fd text name off old :
    cursor s fd = Some (name, off) → content s name = Some old →
    ∃ s', h (OsWriteString fd text) s = (None, s') ∧
      content s' name = Some (overwrite old off text) ∧
      (∀ n, n ≠ name → content s' n = content s n) ∧ environment s' = environment s;
  posix_close s fd :
    ∃ s', h (OsClose fd) s = (tt, s') ∧ (∀ n, content s' n = content s n) ∧
      environment s' = environment s }.

Section Files.
Context {S : Type} (h : handler Node S) `{!PosixFiles h}.

(** The file [name] of [s'] holds [text]; no other file has changed. *)
Definition wrote (s s' : S) (name text : string) : Prop :=
  content s' name = Some text ∧ (∀ n, n ≠ name → content s' n = content s n) ∧
  environment s' = environment s.

Lemma wp_write_file name flags perm text s (Q : option errno → S → Prop) :
  O_CREATE ∈ flags → O_TRUNC ∉ flags →
  (∀ s', let old := default "" (content s name) in
     wrote s s' name (overwrite old (opened_at flags (String.length old)) text) → Q None s') →
  wp h (write_file name flags perm text) s Q.
Proof using Type*.
  intros Hc Ht HQ. unfold write_file.
  destruct (posix_open s name flags perm Hc Ht) as (fd & s1 & Ho & Hc1 & Hf1 & Hn1 & He1).
  unfold do, call, mbind, prog_mbind, prog_bind. apply wp_call. rewrite Ho. cbn [fst snd prog_bind].
  destruct (posix_write s1 fd text _ _ _ Hf1 Hc1) as (s2 & Hw & Hc2 & Hn2 & He2).
  apply wp_call. rewrite Hw. cbn [fst snd prog_bind].
  destruct (posix_close s2 fd) as (s3 & Hcl & Hc3 & He3). apply wp_call. rewrite Hcl. cbn [fst snd prog_bind].
  apply wp_ret, HQ. split_and!; [by rewrite Hc3| |congruence].
  intros n Hn. by rewrite Hc3, Hn2, Hn1.
Qed.

Definition password_file (s : S) : string := environment s "HOME" +:+ "/.passwd-s3fs".
Definition profile_file (s : S) : string := environment s "HOME" +:+ "/.aws/credentials".

Lemma wp_writes3fsPass text s (Q : option errno → S → Prop) :
  (∀ s', wrote s s' (password_file s)
     (text +:+ str_drop (String.length text) (default "" (content s (password_file s)))) →
     Q None s') →
  wp h (writes3fsPass text) s Q.
Proof using Type*.
  intros HQ. unfold writes3fsPass. unfold do, call, mbind, prog_mbind, prog_bind.
  apply wp_call. rewrite posix_getenv. cbn [fst snd prog_bind]. apply wp_write_file; [set_solver|set_solver|].
  intros s'. unfold opened_at. rewrite decide_False by set_solver.
  rewrite overwrite_start. apply HQ.
Qed.
End Files.

(** The password file of s3fs is not truncated: on a POSIX file system, writing
    the credentials of a volume leaves, behind them, what the file held beyond their
    length; s3fs then reads the right credentials exactly when those written before
    were not longer. *)
Theorem writes3fsPass_keeps_tail {S : Type} (h : handler Node S) `{!PosixFiles h}
    (s : S) (text old : string) (Hold : content s (password_file h s) = Some old) :
  let out := run h (writes3fsPass text) s in
  result out = None ∧
  content (final out) (password_file h s) = Some (text +:+ str_drop (String.length text) old) ∧
  (content (final out) (password_file h s) = Some text ↔
     (String.length old ≤ String.length text)%nat) ∧
  (∀ n, n ≠ password_file h s → content (final out) n = content s n).
Proof.
  cbn zeta. apply (wp_writes3fsPass h text s (λ r s', r = None ∧
    content s' (password_file h s) = Some (text +:+ str_drop (String.length text) old) ∧
    (content s' (password_file h s) = Some text ↔ (String.length old ≤ String.length text)%nat) ∧
    (∀ n, n ≠ password_file h s → content s' n = content s n))).
  intros s' (Hw & Hn & _). rewrite Hold in Hw. cbn [default from_option] in Hw. unfold id in Hw.
  split_and!; [done|done| |done]. rewrite Hw, <-(str_drop_nil (String.length text) old).
  split; [|by intros ->; rewrite str_app_nil_r].
  intros [= Heq]. apply (f_equal String.length) in Heq. rewrite str_app_length in Heq.
  by destruct (str_drop _ old); cbn in *; [|lia].
Qed.

(** ** Files in memory *)

Record MemFiles := MkMemFiles {
  mf_files : gmap string string;
  mf_open : gmap Z (string * nat);
  mf_next : Z }.

(** What the files say of operations on files; of the others, the zero answer. *)
Definition idle_reply (o : node_op) : node_reply o :=
  match o with
  | IsLikelyNotMountPoint _ | IsNotMountPoint _ | BucketExists _ _ => inr true
  | GetDiskFormat _ | OsTempDir | OsReadCmdline _ => inr ""
  | OsOpenFile _ _ _ => inr 0
  | OsProcesses => inr []
  | OsGetenv _ => "/root"
  | OsClose _ | OsSleep _ => tt
  | OsSetenv _ _ => tt
  | ListObjects _ _ => []
  | RemoveObjects _ _ _ => []
  | Scheduled => false
  | ValidateControllerServiceRequest => None
  | _ => None
  end.

Definition mem_files : handler Node MemFiles := λ o s,
  match o return node_reply o * MemFiles with
  | OsOpenFile name flags _ =>
      let old := default "" (mf_files s !! name) in
      (inr (mf_next s),
       MkMemFiles (<[name := old]> (mf_files s))
         (<[mf_next s := (name, opened_at flags (String.length old))]> (mf_open s))
         (mf_next s + 1))
  | OsWriteString fd text =>
      match mf_open s !! fd with
      | Some (name, off) =>
          (None, MkMemFiles
             (<[name := overwrite (default "" (mf_files s !! name)) off text]> (mf_files s))
             (<[fd := (name, (off + String.length text)%nat)]> (mf_open s)) (mf_next s))
      | None => (Some (error "bad file descriptor"), s)
      end
  | OsClose fd => (tt, MkMemFiles (mf_files s) (delete fd (mf_open s)) (mf_next s))
  | o => (idle_reply o, s)
  end.

#[export] Instance mem_posix : PosixFiles mem_files.
Proof.
  refine {| content s n := mf_files s !! n; cursor s fd := mf_open s !! fd;
            environment _ _ := "/root" |}.
  - done.
  - intros s name flags perm _ _. eexists _, _. split; [done|]. cbn.
    split_and!; [by rewrite lookup_insert_eq|by rewrite lookup_insert_eq| |done].
    intros n Hn. by rewrite lookup_insert_ne.
  - intros s fd text name off old Hf Hc. cbn. rewrite Hf. eexists. split; [done|]. cbn.
    rewrite Hc. split_and!; [by rewrite lookup_insert_eq| |done].
    intros n Hn. by rewrite lookup_insert_ne.
  - intros s fd. eexists. split; [done|]. done.
Defined.

(** A volume whose credentials are shorter than those of the volume before. *)
Definition files_before : MemFiles := MkMemFiles {[ "/root/.passwd-s3fs" := "admin:0123456789" ]} ∅ 3.

Lemma keeps_tail_witness :
  let out := run mem_files (writes3fsPass "user:key") files_before in
  result out = None ∧
  mf_files (final out) !! "/root/.passwd-s3fs" = Some "user:key23456789".
Proof.
  assert (content files_before (password_file mem_files files_before)
          = Some "admin:0123456789") as Hold by (vm_compute; reflexivity).
  destruct (writes3fsPass_keeps_tail mem_files files_before "user:key" _ Hold)
    as (Hr & Hc & _ & _).
  split; [exact Hr|exact Hc].
Defined.
