(* ===== verification/S3Witness.v ===== *)
(** * The S3 driver: witnesses

    A node and an object store in memory, on which the hypotheses of the theorems
    about the driver hold. *)

From Stdlib Require Import ZArith Lia Ascii.
From stdpp Require Import options.
From S2P Require Import Prelude GoStd Url Path NodeApi S3Client S3Mounter S3Server S3Safety S3Mount S3Files.

Open Scope Z_scope.

Record MemNode := MkMemNode {
  mn_buckets : gmap string (list string);
  mn_mounted : list string }.

(** FUSE commands mount at the last of their arguments but one, or the last. *)
Definition mem_node : handler Node MemNode := λ o s,
  match o return node_reply o * MemNode with
  | BucketExists _ b => (inr (bool_decide (is_Some (mn_buckets s !! b))), s)
  | MakeBucket _ b _ => (None, MkMemNode (<[b := []]> (mn_buckets s)) (mn_mounted s))
  | RemoveBucket _ b =>
      match mn_buckets s !! b with
      | Some [] => (None, MkMemNode (delete b (mn_buckets s)) (mn_mounted s))
      | Some _ => (Some (error "BucketNotEmpty"), s)
      | None => (Some (error "NoSuchBucket"), s)
      end
  | ListObjects _ b => (inr <$> default [] (mn_buckets s !! b), s)
  | RemoveObjects _ b keys =>
      ([], MkMemNode (alter (filter (λ key, key ∉ keys)) b (mn_buckets s)) (mn_mounted s))
  | OsCommand _ args => (None, MkMemNode (mn_buckets s) (args ++ mn_mounted s))
  | IsLikelyNotMountPoint path | IsNotMountPoint path =>
      (inr (bool_decide (path ∉ mn_mounted s)), s)
  | o => (idle_reply o, s)
  end.

Definition volume_secrets (remove : string) : gomap :=
  Some (list_to_map [("endpoint", "http://minio:9000"); ("bucket", "books"); ("folder", "2024");
                     ("accessKeyID", "id"); ("secretAccessKey", "key"); ("provision", "true");
                     ("readonly", "true"); ("remove-on-delete", remove)]).

Definition full_store : MemNode := MkMemNode {[ "books" := ["2024/a"; "2024/b"] ]} [].

(** ** Deletion *)

Definition delete_request : DeleteVolumeRequest :=
  MkDeleteVolumeRequest "pvc-1" (volume_secrets "true").

Definition delete_events : list (event Node) :=
  events mem_node (DeleteVolume delete_request) full_store.

Definition books_client : Minio := MkMinio "minio:9000" "id" "key" false "".

Lemma delete_behaviour : behaviour (DeleteVolume delete_request) delete_events (inr tt).
Proof. exact (run_behaviour mem_node (DeleteVolume delete_request) full_store). Qed.

Lemma delete_authorised_witness :
  mn_buckets (final (run mem_node (DeleteVolume delete_request) full_store)) !! "books" = None ∧
  designates (volume_secrets "true") "pvc-1" books_client "books" ∧
  flag (volume_secrets "true") "remove-on-delete" = true.
Proof.
  split; [vm_compute; reflexivity|].
  refine (let H := DeleteVolume_authorised delete_request delete_events (inr tt)
    (take 6 delete_events) (RemoveBucket books_client "books") None [] books_client "books"
    delete_behaviour _ _ in conj (proj1 H) (proj1 (proj2 H))).
  - vm_compute. reflexivity.
  - reflexivity.
Defined.

Lemma delete_success_witness :
  ∃ c b, designates (volume_secrets "true") "pvc-1" c b ∧ deleted delete_request delete_events c b.
Proof. exact (DeleteVolume_success delete_request delete_events delete_behaviour). Defined.

(** ** Creation *)

Definition create_request : CreateVolumeRequest :=
  MkCreateVolumeRequest "PVC-1" (Some []) None (volume_secrets "false").

Definition empty_store : MemNode := MkMemNode ∅ [].

Definition create_events : list (event Node) :=
  events mem_node (CreateVolume create_request) empty_store.

Lemma create_success_witness :
  mn_buckets (final (run mem_node (CreateVolume create_request) empty_store)) !! "books" = Some [] ∧
  ∃ c b, designates (volume_secrets "false") "pvc-1" c b ∧
         provided (volume_secrets "false") create_events c b.
Proof.
  split; [vm_compute; reflexivity|].
  assert (behaviour (CreateVolume create_request) create_events
            (inr (MkVolume "pvc-1" 10000000000000 None))) as Hb
    by exact (run_behaviour mem_node (CreateVolume create_request) empty_store).
  exact (proj2 (proj2 (proj2 (CreateVolume_success create_request create_events _ Hb)))).
Defined.

(** ** Publication *)

Definition publish_request : NodePublishVolumeRequest :=
  MkNodePublishVolumeRequest "pvc-1" "/pods/vol" "/staging" (Some (MkVolumeCapability None []))
    false (Some {[ "mounter" := "goofys" ]}) (volume_secrets "false").

Definition publish_events : list (event Node) :=
  events mem_node (NodePublishVolume publish_request) full_store.


Definition stage_request : NodeStageVolumeRequest :=
  MkNodeStageVolumeRequest "pvc-1" "/staging" (Some (MkVolumeCapability None []))
    (volume_secrets "false").

Lemma stage_witness :
  let evs := events mem_node (NodeStageVolume stage_request) full_store in
  length evs = 2%nat ∧
  harmless stage_request (NewWithRegion books_client).
Proof.
  split; [vm_compute; reflexivity|].
  refine (NodeStageVolume_stages_nothing stage_request
    (events mem_node (NodeStageVolume stage_request) full_store) _ (NewWithRegion books_client) None
    (run_behaviour mem_node (NodeStageVolume stage_request) full_store) _).
  vm_compute. right. left.
Defined.
