(* ===== verification/NodeWorld.v ===== *)
(** * A node and an object store that work

    [ObjectStore] states what an S3 object store documents about buckets, for a store
    that answers and accepts the credentials; [MountTable] what Linux and the FUSE
    tools document about mount points, for a node where nothing fails: a path is a
    mount point once the tool has finished mounting, which takes it some time,
    [umount] refuses a path where nothing is mounted, and a path is in the command line
    of no process but the daemon of its mount, which ends when it is unmounted.  Time
    passes when the driver sleeps. *)

From Stdlib Require Import ZArith Lia Ascii.
From stdpp Require Import options.
From S2P Require Import Prelude GoStd KubeWp Url Path NodeApi S3Client S3Mounter.

Open Scope Z_scope.

(** ** The object store *)

Definition writes_store (o : node_op) : Prop :=
  match o with
  | MakeBucket _ _ _ | RemoveBucket _ _ | RemoveObjects _ _ _ => True
  | _ => False
  end.

#[export] Instance writes_store_dec o : Decision (writes_store o).
Proof. destruct o; cbn; apply _. Defined.

Class ObjectStore {S : Type} (h : handler Node S) := {
  (** the keys of a bucket, by the endpoint of its store and its name *)
  bucket_keys : S → string → string → option (list string);
  accepted : Minio → Prop;
  bucket_name_ok : string → Prop;

  store_frame o s e b : ¬ writes_store o → bucket_keys (h o s).2 e b = bucket_keys s e b;
  store_serves s : (h ValidateControllerServiceRequest s).1 = None;
  store_client m s : accepted m → (h (NewWithRegion m) s).1 = None;
  store_exists m b s : accepted m →
    (h (BucketExists m b) s).1 = inr (bool_decide (is_Some (bucket_keys s (mc_Endpoint m) b)));
  store_make m b r s : accepted m → bucket_name_ok b → bucket_keys s (mc_Endpoint m) b = None →
    ∃ s', h (MakeBucket m b r) s = (None, s') ∧
      bucket_keys s' (mc_Endpoint m) b = Some [] ∧
      ∀ e b', (e, b') ≠ (mc_Endpoint m, b) → bucket_keys s' e b' = bucket_keys s e b';
  store_list m b s keys : accepted m → bucket_keys s (mc_Endpoint m) b = Some keys →
    (h (ListObjects m b) s).1 = inr <$> keys;
  store_remove_objects m b sent s keys :
    accepted m → bucket_keys s (mc_Endpoint m) b = Some keys →
    ∃ s', h (RemoveObjects m b sent) s = ([], s') ∧
      bucket_keys s' (mc_Endpoint m) b = Some (filter (λ key, key ∉ sent) keys) ∧
      ∀ e b', (e, b') ≠ (mc_Endpoint m, b) → bucket_keys s' e b' = bucket_keys s e b';
  (** only an empty bucket can be removed *)
  store_remove m b s keys : accepted m → bucket_keys s (mc_Endpoint m) b = Some keys →
    ∃ err s', h (RemoveBucket m b) s = (err, s') ∧ (err = None ↔ keys = []) ∧
      bucket_keys s' (mc_Endpoint m) b = (if decide (keys = []) then None else Some keys) ∧
      ∀ e b', (e, b') ≠ (mc_Endpoint m, b) → bucket_keys s' e b' = bucket_keys s e b' }.

(** ** The mount table *)

(** A mount is known by the command that made it. *)
Abbreviation mount_cmd := (string * list string)%type.

Inductive MountPoint :=
  | NotMounted
  | MountingFor (ms : Z) (m : mount_cmd)
  | Mounted (m : mount_cmd).

#[export] Instance MountPoint_eq_dec : EqDecision MountPoint.
Proof. solve_decision. Defined.

Definition is_mounted (p : MountPoint) : bool :=
  match p with Mounted _ => true | _ => false end.

(** The mount point that will be mounted in [ms] milliseconds. *)
Definition mounting (ms : Z) (m : mount_cmd) : MountPoint :=
  if ms <=? 0 then Mounted m else MountingFor ms m.

Definition after (ms : Z) (p : MountPoint) : MountPoint :=
  match p with
  | MountingFor d m => mounting (d - ms) m
  | _ => p
  end.

Lemma after_mounting ms d m : 0 ≤ ms → after ms (mounting d m) = mounting (d - ms) m.
Proof.
  intros Hms. unfold mounting. destruct (Z.leb_spec d 0); [|done]. cbn.
  by rewrite (proj2 (Z.leb_le _ _)) by lia.
Qed.

(** The command of a FUSE mounter for a bucket at a target. *)
Inductive fuse_command (b : bucket) (c : Config) (target : string) : mount_cmd → Prop :=
  | s3fs_command : fuse_command b c target ("s3fs", s3fs_args b c target)
  | goofys_command volumeID : fuse_command b c target ("goofys", goofys_args b c volumeID target)
  | rclone_command : fuse_command b c target ("rclone", rclone_args b c target).

Definition moves_mounts (o : node_op) : Prop :=
  match o with
  | OsCommand _ _ | DoMount _ _ _ _ | DoUnmount _ | CleanupMountPoint _ | OsSleep _ => True
  | _ => False
  end.

#[export] Instance moves_mounts_dec o : Decision (moves_mounts o).
Proof. destruct o; cbn; apply _. Defined.

(** The operations that write a file or change the environment. *)
Definition file_reply_ok (o : node_op) : node_reply o → Prop :=
  match o return node_reply o → Prop with
  | OsMkdir _ _ | OsWriteString _ _ => λ r, r = None
  | OsOpenFile _ _ _ => λ r, ∃ fd, r = inr fd
  | _ => λ _, True
  end.

(** A mount is there 10 milliseconds before the driver gives up waiting for it; a
    daemon has ended when the driver looks for the last time. *)
Definition mount_patience : Z := 9990.
Definition daemon_patience : Z := 17100.

Class MountTable {S : Type} (h : handler Node S) `{!ObjectStore h} := {
  mount_at : S → string → MountPoint;
  (** nothing is at the path *)
  missing : S → string → bool;
  cmdline : S → Z → string;
  (** for how long a process still runs *)
  deadline : S → Z → Z;
  umount_error : string → errno;

  table_frame o s p : ¬ moves_mounts o → mount_at (h o s).2 p = mount_at s p;
  table_kept o s p : (∀ q, o ≠ CleanupMountPoint q) → missing s p = false →
    missing (h o s).2 p = false;
  table_likely p s :
    if missing s p
    then ∃ e, err_not_exist e = true ∧ h (IsLikelyNotMountPoint p) s = (inl e, s)
    else (h (IsLikelyNotMountPoint p) s).1 = inr (negb (is_mounted (mount_at s p)));
  table_is_mount p s : missing s p = false →
    (h (IsNotMountPoint p) s).1 = inr (negb (is_mounted (mount_at s p)));
  table_mounted p s m : mount_at s p = Mounted m → missing s p = false;
  table_mkdir p perm s : missing s p = true →
    (h (OsMkdirAll p perm) s).1 = None ∧ missing (h (OsMkdirAll p perm) s).2 p = false;
  table_files o s : file_reply_ok o (h o s).1;
  table_sleep ms s p : 0 ≤ ms → mount_at (h (OsSleep ms) s).2 p = after ms (mount_at s p);
  (** A FUSE tool mounts a bucket of a store that accepts the credentials. *)
  table_fuse s b c target u m :
    fuse_command b c target m → mount_at s target = NotMounted → missing s target = false →
    Parse (cfg_Endpoint c) = Some u → accepted (minio_of c u) →
    is_Some (bucket_keys s (mc_Endpoint (minio_of c u)) (bkt_Name b)) →
    ∃ s' d, h (OsCommand m.1 m.2) s = (None, s') ∧ d ≤ mount_patience ∧
      mount_at s' target = mounting d m ∧
      ∀ p, p ≠ target → mount_at s' p = mount_at s p;
  table_umount p s m : mount_at s p = Mounted m →
    ∃ s', h (DoUnmount p) s = (None, s') ∧ mount_at s' p = NotMounted ∧
      (∀ q, q ≠ p → mount_at s' q = mount_at s q) ∧
      ∀ pid, Contains (cmdline s' pid) p = true → deadline s' pid ≤ daemon_patience;
  table_not_mounted p s : mount_at s p = NotMounted → h (DoUnmount p) s = (Some (umount_error p), s);
  (** processes *)
  table_processes s : (h OsProcesses s).2 = s;
  table_find pid s : (h (OsFindProcess pid) s).2 = s;
  table_cmdline pid s : (h (OsReadCmdline pid) s).2 = s ∧
    (0 < deadline s pid → (h (OsReadCmdline pid) s).1 = inr (cmdline s pid)) ∧
    (deadline s pid ≤ 0 → ∃ e, (h (OsReadCmdline pid) s).1 = inl e);
  table_signal pid s : (h (OsSignal0 pid) s).2 = s;
  table_time ms s pid : deadline (h (OsSleep ms) s).2 pid ≤ deadline s pid - ms }.

(** ** The world: the buckets and the mounts *)

Record World := MkWorld {
  w_buckets : gmap (string * string) (list string);
  w_mounts : gmap string mount_cmd }.

Definition with_bucket (w : World) (e b : string) (keys : option (list string)) : World :=
  MkWorld (partial_alter (λ _, keys) (e, b) (w_buckets w)) (w_mounts w).

Definition with_mount (w : World) (p : string) (m : option mount_cmd) : World :=
  MkWorld (w_buckets w) (partial_alter (λ _, m) p (w_mounts w)).

Definition settled_at (m : option mount_cmd) : MountPoint :=
  match m with Some m => Mounted m | None => NotMounted end.

Section World.
Context {S : Type} (h : handler Node S) `{!ObjectStore h} `{!MountTable h}.

Definition stores (s : S) (w : World) : Prop :=
  ∀ e b, bucket_keys s e b = w_buckets w !! (e, b).

Definition mounts_of (s : S) (w : World) : Prop :=
  ∀ p, mount_at s p = settled_at (w_mounts w !! p).

(** [w] is the world in the state [s]: every mount has been made. *)
Definition shows (s : S) (w : World) : Prop := stores s w ∧ mounts_of s w.

(** ** Rules *)

Lemma wp_do {B} o (f : node_reply o → prog Node B) s (Q : B → S → Prop) :
  wp h (f (h o s).1) (h o s).2 Q → wp h (do o ≫= f) s Q.
Proof using Type. done. Qed.

(** An operation that changes no bucket and no mount. *)
Lemma wp_still {B} o (f : node_reply o → prog Node B) s w (Q : B → S → Prop) :
  ¬ writes_store o → ¬ moves_mounts o → shows s w →
  (∀ s', s' = (h o s).2 → shows s' w → wp h (f (h o s).1) s' Q) → wp h (do o ≫= f) s Q.
Proof using Type.
  intros Hs Hm [Hb Hp] HQ. apply wp_do. apply HQ; [done|]. split.
  - intros e b. by rewrite (store_frame o s e b Hs).
  - intros p. by rewrite (table_frame o s p Hm).
Qed.

(** *** Clients *)

Definition endpoint_accepts (secrets : gomap) (e : string) : Prop :=
  ∃ u, Parse (map_index secrets "endpoint") = Some u ∧
       accepted (minio_of (config_of_secrets secrets) u) ∧
       mc_Endpoint (minio_of (config_of_secrets secrets) u) = e.

(** A client for the endpoint of the secrets. *)
Definition client_for (secrets : gomap) (e : string) (c : s3Client) : Prop :=
  cfg c = config_of_secrets secrets ∧ accepted (minio c) ∧ mc_Endpoint (minio c) = e ∧
  ∃ u, Parse (map_index secrets "endpoint") = Some u ∧
       minio c = minio_of (config_of_secrets secrets) u.

Lemma wp_client {B} secrets e (f : errno + s3Client → prog Node B) s w (Q : B → S → Prop) :
  endpoint_accepts secrets e → shows s w →
  (∀ c s', client_for secrets e c → shows s' w → (∀ p, missing s p = false → missing s' p = false) →
     wp h (f (inr c)) s' Q) →
  wp h (newS3ClientFromSecrets secrets ≫= f) s Q.
Proof using Type.
  intros (u & Hu & Ha & He) Hw HQ. unfold newS3ClientFromSecrets, newS3Client.
  cbn [cfg_Endpoint config_of_secrets]. rewrite Hu.
  change (wp h (do (NewWithRegion (minio_of (config_of_secrets secrets) u)) ≫= λ err, 
    match err with Some e => Ret (inl e)
    | None => Ret (inr (MkS3Client (config_of_secrets secrets) (minio_of (config_of_secrets secrets) u)))
    end ≫= f) s Q).
  apply (wp_still _ _ _ w); [by intros []|by intros []|done|].
  intros s' -> Hw'. rewrite store_client by done. apply HQ; [|done|].
  - by split_and!; [|..|exists u].
  - intros p. by apply table_kept.
Qed.

Lemma wp_bucketExists {B} secrets e c b (f : errno + bool → prog Node B) s w (Q : B → S → Prop) :
  client_for secrets e c → shows s w →
  (∀ s', shows s' w →
     wp h (f (inr (bool_decide (is_Some (w_buckets w !! (e, b)))))) s' Q) →
  wp h (bucketExists c b ≫= f) s Q.
Proof using Type.
  intros (_ & Ha & He & _) Hw HQ. unfold bucketExists.
  apply (wp_still _ _ _ w); [by intros []|by intros []|done|]. intros s' Hs' Hw'.
  rewrite store_exists by done. rewrite He, (proj1 Hw). by apply HQ.
Qed.

Lemma wp_createBucket {B} secrets e c b (f : option errno → prog Node B) s w (Q : B → S → Prop) :
  client_for secrets e c → shows s w → bucket_name_ok b → w_buckets w !! (e, b) = None →
  (∀ s', shows s' (with_bucket w e b (Some [])) → wp h (f None) s' Q) →
  wp h (createBucket c b ≫= f) s Q.
Proof using Type.
  intros (_ & Ha & He & _) [Hb Hm] Hok Hn HQ. unfold createBucket. apply wp_do.
  destruct (store_make (minio c) b (cfg_Region (cfg c)) s) as (s' & Hh & Hk & Hf);
    [done|done|by rewrite He, Hb|].
  pose proof (λ p, table_frame (MakeBucket (minio c) b (cfg_Region (cfg c))) s p
    (λ F : False, match F with end)) as Ht.
  rewrite Hh in Ht |- *. apply HQ. split; [|exact (λ p, eq_trans (Ht p) (Hm p))].
  intros e' b'. cbn. destruct (decide ((e', b') = (e, b))) as [[= -> ->]|Hne].
  - by rewrite lookup_partial_alter_eq, <-He.
  - rewrite lookup_partial_alter_ne by done. by rewrite Hf by (by rewrite He).
Qed.

(** *** Emptying and removing a bucket *)

Lemma sent_keys_listed keys : sent_keys (inr <$> keys) = keys.
Proof using Type. induction keys as [|key keys IH]; [done|]. cbn. by rewrite IH. Qed.

Lemma early_error_listed keys : early_error (inr <$> keys) = None.
Proof using Type. by destruct keys. Qed.

Lemma filter_all_out (keys : list string) : filter (λ key, key ∉ keys) keys = [].
Proof using Type.
  destruct (filter _ _) as [|key l] eqn:Hl; [done|].
  assert (key ∈ filter (λ key, key ∉ keys) keys) as Hin by (rewrite Hl; set_solver).
  apply list_elem_of_filter in Hin. tauto.
Qed.

Lemma wp_removeBucket {B} secrets e c b (f : option errno → prog Node B) s w keys
    (Q : B → S → Prop) :
  client_for secrets e c → shows s w → w_buckets w !! (e, b) = Some keys →
  (∀ s', shows s' (with_bucket w e b None) → wp h (f None) s' Q) →
  wp h (removeBucket c b ≫= f) s Q.
Proof using Type.
  intros (_ & Ha & He & _) Hw Hk HQ. apply wp_bind. unfold removeBucket, emptyBucket.
  apply wp_bind, (wp_still _ _ _ w); [by intros []|by intros []|done|]. intros s1 Hs1 Hw1.
  rewrite (store_list _ _ _ keys) by (done || by rewrite He, (proj1 Hw)).
  apply (wp_still _ _ _ w); [by intros []|by intros []|done|]. intros s2 _ Hw2.
  rewrite early_error_listed, sent_keys_listed.
  destruct (store_remove_objects (minio c) b keys s2 keys Ha) as (s3 & Hh3 & Hk3 & Hf3);
    [by rewrite He, (proj1 Hw2)|].
  assert (∀ r : bool, (if r then None else None : option errno) = None) as Hif by by intros [].
  rewrite Hif. apply wp_do.
  pose proof (λ p, table_frame (RemoveObjects (minio c) b keys) s2 p
    (λ F : False, match F with end)) as Ht3.
  rewrite Hh3 in Ht3 |- *. cbn [fst snd length drop]. rewrite decide_False by (by intros []).
  rewrite filter_all_out in Hk3. apply wp_ret, wp_tail, wp_do.
  destruct (store_remove (minio c) b s3 [] Ha Hk3) as (err & s4 & Hh4 & Herr & Hk4 & Hf4).
  pose proof (λ p, table_frame (RemoveBucket (minio c) b) s3 p
    (λ F : False, match F with end)) as Ht4.
  rewrite Hh4 in Ht4 |- *. rewrite (proj2 Herr eq_refl). apply wp_ret, HQ.
  split; [|exact (λ p, eq_trans (Ht4 p) (eq_trans (Ht3 p) (proj2 Hw2 p)))].
  intros e' b'. cbn. destruct (decide ((e', b') = (e, b))) as [[= -> ->]|Hne].
  - by rewrite lookup_partial_alter_eq, <-He, Hk4.
  - rewrite lookup_partial_alter_ne by done.
    by rewrite Hf4, Hf3 by (by rewrite He); rewrite (proj1 Hw2).
Qed.
End World.
