(* ===== verification/NodeMounts.v ===== *)
(** * Mounting and unmounting on a node that works

    The rules of the mounters of the S3 driver, by the laws of [MountTable]: waiting
    for a mount succeeds, a mounter mounts its bucket, unmounting unmounts. *)

From Stdlib Require Import ZArith Lia Ascii.
From stdpp Require Import options.
From S2P Require Import Prelude GoStd KubeWp Url Path NodeApi S3Client S3Mounter S3Server S3Mount NodeWorld.

Open Scope Z_scope.

Section Mounts.
Context {S : Type} (h : handler Node S) `{!ObjectStore h} `{!MountTable h}.

(** Nothing that was there has gone. *)
Definition kept (s s' : S) : Prop := ∀ p, missing s p = false → missing s' p = false.

Lemma kept_op o s : (∀ q, o ≠ CleanupMountPoint q) → kept s (h o s).2.
Proof using Type. intros Ho p. by apply table_kept. Qed.

Lemma kept_trans s1 s2 s3 : kept s1 s2 → kept s2 s3 → kept s1 s3.
Proof using Type. unfold kept. auto. Qed.

(** [wp_still], for the operations after which what was there is still there. *)
Lemma wp_step {B} o (f : node_reply o → prog Node B) s w (Q : B → S → Prop) :
  ¬ writes_store o → ¬ moves_mounts o → shows h s w →
  (∀ s', shows h s' w → kept s s' → wp h (f (h o s).1) s' Q) → wp h (do o ≫= f) s Q.
Proof using Type.
  intros Hs Hm Hw HQ. apply (wp_still _ _ _ _ w); [done|done|done|]. intros s' -> Hw'.
  apply HQ; [done|]. apply kept_op. intros q ->. by apply Hm.
Qed.

(** ** Password files *)

Lemma wp_file_written {B} name flags perm text (f : option errno → prog Node B) s w (Q : B → S → Prop) :
  shows h s w → (∀ s', shows h s' w → kept s s' → wp h (f None) s' Q) →
  wp h (write_file name flags perm text ≫= f) s Q.
Proof using Type.
  intros Hw HQ. apply wp_bind. unfold write_file.
  apply (wp_step _ _ _ w); [by intros []|by intros []|done|]. intros s1 Hw1 Hk1.
  destruct (table_files (OsOpenFile name flags perm) s) as [fd ->].
  apply (wp_step _ _ _ w); [by intros []|by intros []|done|]. intros s2 Hw2 Hk2.
  rewrite (table_files (OsWriteString fd text) s1 : _ = None).
  apply (wp_step _ _ _ w); [by intros []|by intros []|done|]. intros s3 Hw3 Hk3.
  apply wp_ret, HQ; [done|]. eauto using kept_trans.
Qed.

Lemma wp_s3fs_password {B} text (f : option errno → prog Node B) s w (Q : B → S → Prop) :
  shows h s w → (∀ s', shows h s' w → kept s s' → wp h (f None) s' Q) →
  wp h (writes3fsPass text ≫= f) s Q.
Proof using Type.
  intros Hw HQ. apply wp_bind. unfold writes3fsPass.
  apply (wp_step _ _ _ w); [by intros []|by intros []|done|]. intros s1 Hw1 Hk1.
  apply wp_tail, (wp_file_written _ _ _ _ _ _ w); [done|]. intros s2 Hw2 Hk2.
  apply wp_ret, HQ; [done|]. eauto using kept_trans.
Qed.

Lemma wp_goofys_password {B} vol a k (f : option errno → prog Node B) s w (Q : B → S → Prop) :
  shows h s w → (∀ s', shows h s' w → kept s s' → wp h (f None) s' Q) →
  wp h (writes3fsPassGoofy vol a k ≫= f) s Q.
Proof using Type.
  intros Hw HQ. apply wp_bind. unfold writes3fsPassGoofy.
  apply (wp_step _ _ _ w); [by intros []|by intros []|done|]. intros s1 Hw1 Hk1.
  apply (wp_step _ _ _ w); [by intros []|by intros []|done|]. intros s2 Hw2 Hk2.
  assert (∀ s3, shows h s3 w → kept s s3 →
    wp h (home ← do (OsGetenv "HOME");
      f0 ← do (OsOpenFile (home +:+ "/.aws/credentials") [O_APPEND; O_CREATE; O_WRONLY] 420);
      match f0 with
      | inl _ => Ret None
      | inr fd =>
          _ ← do (OsWriteString fd (credentials_text vol a k)); _ ← do (OsClose fd); Ret None
      end) s3 (λ r s', wp h (f r) s' Q)) as Hrest.
  { intros s3 Hw3 Hk3.
    apply (wp_step _ _ _ w); [by intros []|by intros []|done|]. intros s4 Hw4 Hk4.
    apply (wp_step _ _ _ w); [by intros []|by intros []|done|]. intros s5 Hw5 Hk5.
    destruct (h (OsOpenFile _ _ _) s4).1 as [e|fd].
    { apply wp_ret, HQ; [done|]. eauto using kept_trans. }
    apply (wp_step _ _ _ w); [by intros []|by intros []|done|]. intros s6 Hw6 Hk6.
    apply (wp_step _ _ _ w); [by intros []|by intros []|done|]. intros s7 Hw7 Hk7.
    apply wp_ret, HQ; [done|]. eauto 6 using kept_trans. }
  apply wp_bind. destruct (h (OsStat _) s1).1 as [e|]; [destruct (err_not_exist e)|].
  - apply wp_tail, (wp_step _ _ _ w); [by intros []|by intros []|done|]. intros s3 Hw3 Hk3.
    rewrite (table_files (OsMkdir _ _) s2 : _ = None). apply wp_ret, Hrest; [done|].
    eauto using kept_trans.
  - apply wp_ret, Hrest; [done|]. eauto using kept_trans.
  - apply wp_ret, Hrest; [done|]. eauto using kept_trans.
Qed.

(** ** Waiting for a mount *)

(** The world [w], but for the target, which will be mounted in [d] milliseconds. *)
Definition waiting (s : S) (w : World) (target : string) (d : Z) (m : mount_cmd) : Prop :=
  stores h s w ∧ mount_at s target = mounting d m ∧
  (∀ p, p ≠ target → mount_at s p = settled_at (w_mounts w !! p)) ∧ missing s target = false.

Lemma waiting_frame o s w target d m :
  ¬ writes_store o → ¬ moves_mounts o → waiting s w target d m → waiting (h o s).2 w target d m.
Proof using Type.
  intros Hs Hm (Hst & Ht & Hp & Hex). split_and!.
  - intros e b. by rewrite (store_frame o s e b Hs).
  - by rewrite (table_frame o s target Hm).
  - intros p Hne. rewrite (table_frame o s p Hm). by apply Hp.
  - apply kept_op; [|done]. intros q ->. by apply Hm.
Qed.

Lemma waiting_sleep ms s w target d m :
  0 ≤ ms → waiting s w target d m → waiting (h (OsSleep ms) s).2 w target (d - ms) m.
Proof using Type.
  intros Hms (Hst & Ht & Hp & Hex). split_and!.
  - intros e b. by rewrite store_frame by by intros [].
  - rewrite table_sleep, Ht by done. by apply after_mounting.
  - intros p Hne. rewrite table_sleep, Hp by done. by destruct (w_mounts w !! p).
  - by apply kept_op.
Qed.

Lemma waiting_over s w target d m :
  d ≤ 0 → waiting s w target d m → shows h s (with_mount w target (Some m)).
Proof using Type.
  intros Hd (Hst & Ht & Hp & _). split; [done|]. intros p. cbn.
  destruct (decide (p = target)) as [->|Hne].
  - rewrite lookup_partial_alter_eq, Ht. unfold mounting. by rewrite (proj2 (Z.leb_le _ _)).
  - rewrite lookup_partial_alter_ne by done. by apply Hp.
Qed.

Lemma wp_waitForMount_loop fuel elapsed d s w target m (Q : option (option errno) → S → Prop) :
  waiting s w target d m → d ≤ mount_patience - elapsed →
  mount_patience - elapsed < 10 * (Z.of_nat fuel - 1) → 0 < Z.of_nat fuel →
  (∀ s', shows h s' (with_mount w target (Some m)) → Q (Some None) s') →
  wp h (waitForMount_loop fuel target 10000 elapsed) s Q.
Proof using Type.
  unfold mount_patience. revert elapsed d s.
  induction fuel as [|fuel IH]; intros elapsed d s Hw Hd Hfuel Hpos HQ.
  - done.
  - cbn [waitForMount_loop]. apply wp_do.
    rewrite table_is_mount by apply Hw.
    pose proof (waiting_frame (IsNotMountPoint target) s w target d m
      (λ F : False, match F with end) (λ F : False, match F with end) Hw) as Hw1.
    destruct Hw as (_ & Ht & _). rewrite Ht. unfold mounting at 1.
    destruct (Z.leb_spec d 0) as [Hz|Hz]; cbn [is_mounted negb].
    + apply wp_ret, HQ. by apply (waiting_over _ _ _ d).
    + apply wp_do. cbn zeta. rewrite (proj2 (Z.leb_gt _ _)) by lia.
      apply (IH _ (d - 10)); [|lia..|done]. by apply waiting_sleep.
Qed.

Lemma wp_fuseMount {B} b c target u m (f : option errno → prog Node B) s w (Q : B → S → Prop) :
  fuse_command b c target m → shows h s w → w_mounts w !! target = None →
  missing s target = false → Parse (cfg_Endpoint c) = Some u → accepted (minio_of c u) →
  is_Some (w_buckets w !! (mc_Endpoint (minio_of c u), bkt_Name b)) →
  (∀ s', shows h s' (with_mount w target (Some m)) → wp h (f None) s' Q) →
  wp h (fuseMount target m.1 m.2 ≫= f) s Q.
Proof using Type.
  intros Hm [Hst Hmt] Hfree Hex Hu Ha Hbk HQ. apply wp_bind. unfold fuseMount. apply wp_do.
  assert (mount_at s target = NotMounted) as Hnm by by rewrite (Hmt target), Hfree.
  destruct (table_fuse s b c target u m Hm Hnm Hex Hu Ha) as (s' & d & Hh & Hd & Ht & Hp);
    [by rewrite Hst|].
  assert (waiting s' w target d m) as Hwait.
  { split_and!; [|done| |].
    - intros e b'. pose proof (store_frame (OsCommand m.1 m.2) s e b') as Hf.
      rewrite Hh in Hf. cbn [snd] in Hf. rewrite Hf by (by intros []). apply Hst.
    - intros p Hne. rewrite Hp by done. apply Hmt.
    - pose proof (table_kept (OsCommand m.1 m.2) s target) as Hk. rewrite Hh in Hk. by apply Hk. }
  rewrite Hh. cbn [fst snd]. apply wp_bind.
  apply (wp_waitForMount_loop _ _ d _ w target m); [done|unfold mount_patience in *; lia| | |].
  - change (Z.of_nat (wait_fuel 10000)) with 1001. unfold mount_patience. lia.
  - change (Z.of_nat (wait_fuel 10000)) with 1001. lia.
  - intros s2 Hs2. by apply wp_ret, HQ.
Qed.

(** ** Publishing *)

(** The command of the mounter of a type. *)
Definition publish_command (type : string) (b : bucket) (c : Config) (volumeID target : string) :
    mount_cmd :=
  if decide (type = "goofys") then ("goofys", goofys_args b c volumeID target)
  else if decide (type = "rclone") then ("rclone", rclone_args b c target)
  else ("s3fs", s3fs_args b c target).

Lemma publish_command_fuse type b c volumeID target :
  fuse_command b c target (publish_command type b c volumeID target).
Proof using Type.
  unfold publish_command. destruct (decide _); [apply goofys_command|].
  destruct (decide _); [apply rclone_command|apply s3fs_command].
Qed.

Lemma wp_publish {B} b c volumeID source target u (f : option errno → prog Node B)
    (g : errno → prog Node B) s w (Q : B → S → Prop) :
  let m := publish_command (mounter_type b c) b c volumeID target in
  mounter_type b c ≠ "s3backer" → shows h s w → w_mounts w !! target = None →
  missing s target = false → Parse (cfg_Endpoint c) = Some u → accepted (minio_of c u) →
  is_Some (w_buckets w !! (mc_Endpoint (minio_of c u), bkt_Name b)) →
  (∀ s', shows h s' (with_mount w target (Some m)) → wp h (f None) s' Q) →
  wp h (newMounter b c volumeID ≫= λ r,
    match r with
    | inl e => g e
    | inr mounter => Mount mounter source target ≫= f
    end) s Q.
Proof using Type.
  cbn zeta. intros Hty Hw Hfree Hex Hu Ha Hbk HQ.
  pose proof (publish_command_fuse (mounter_type b c) b c volumeID target) as Hfuse.
  assert (∀ s', shows h s' w → kept s s' →
    let m := publish_command (mounter_type b c) b c volumeID target in
    wp h (fuseMount target m.1 m.2) s' (λ r s', wp h (f r) s' Q)) as Hmount.
  { intros s' Hs' Hk m. apply wp_tail, (wp_fuseMount b c target u m _ s' w); auto. }
  unfold publish_command in Hmount. cbn zeta in Hmount. unfold newMounter.
  destruct (decide (mounter_type b c = "s3fs")) as [E|_].
  { rewrite !decide_False in Hmount by congruence. apply wp_bind, wp_ret, wp_bind.
    by apply (wp_s3fs_password _ _ _ w). }
  destruct (decide (mounter_type b c = "goofys")) as [E|_].
  { apply wp_bind, wp_ret, wp_bind. by apply (wp_goofys_password _ _ _ _ _ w). }
  destruct (decide (mounter_type b c = "s3backer")) as [E|_]; [done|].
  destruct (decide (mounter_type b c = "rclone")) as [E|_]; apply wp_bind, wp_ret, wp_bind.
  - apply (wp_step _ _ _ w); [by intros []|by intros []|done|]. intros s1 Hw1 Hk1.
    apply (wp_step _ _ _ w); [by intros []|by intros []|done|]. intros s2 Hw2 Hk2.
    apply Hmount; eauto using kept_trans.
  - by apply (wp_s3fs_password _ _ _ w).
Qed.

(** ** Unpublishing *)

(** A daemon that ends in time is waited for. *)
Lemma wp_waitForProcess calls pid backoff s w (Q : option errno → S → Prop) :
  shows h s w → 0 < backoff →
  deadline s pid ≤ 50 * (Z.of_nat calls - 1) * (2 * backoff + Z.of_nat calls - 2) →
  0 < Z.of_nat calls → (∀ s', shows h s' w → Q None s') →
  wp h (waitForProcess calls pid backoff) s Q.
Proof using Type.
  revert backoff s. induction calls as [|calls IH]; intros backoff s Hw Hb Hd Hpos HQ; [done|].
  cbn [waitForProcess]. apply wp_do. destruct (table_cmdline pid s) as (-> & Halive & Hdead).
  destruct (Z_lt_le_dec 0 (deadline s pid)) as [Hlt|Hle].
  - rewrite Halive by done. destruct (cmdline s pid); [by apply wp_ret, HQ|].
    apply wp_do. rewrite table_signal. destruct (h (OsSignal0 pid) s).1; [by apply wp_ret, HQ|].
    apply wp_do. pose proof (table_time (backoff * 100) s pid) as Ht.
    apply IH; [|lia|nia| |done].
    + split; [intros e b; rewrite store_frame by (by intros []); apply Hw|].
      intros p. rewrite table_sleep by lia. rewrite (proj2 Hw p). by destruct (w_mounts w !! p).
    + destruct calls; [cbn in *; lia|lia].
  - destruct (Hdead Hle) as [e ->]. by apply wp_ret, HQ.
Qed.

(** The process that is found carries the path in its command line. *)
Lemma wp_find_process pids path s (Q : errno + option Z → S → Prop) :
  (∀ r, (∀ pid, r = inr (Some pid) → Contains (cmdline s pid) path = true) → Q r s) →
  wp h (find_process pids path) s Q.
Proof using Type.
  intros HQ. induction pids as [|pid pids IH]; [by apply wp_ret, HQ|].
  cbn [find_process]. apply wp_do. destruct (table_cmdline pid s) as (-> & Halive & Hdead).
  destruct (Z_lt_le_dec 0 (deadline s pid)) as [Hlt|Hle]; [|by destruct (Hdead Hle) as [e ->]].
  rewrite Halive by done. destruct (Contains _ _) eqn:Hc; [|done].
  apply wp_do. rewrite table_find. destruct (h (OsFindProcess pid) s).1; apply wp_ret, HQ; [done|].
  by intros ? [= <-].
Qed.

Lemma wp_fuseUnmount {B} path (f : option errno → prog Node B) s w m (Q : B → S → Prop) :
  shows h s w → w_mounts w !! path = Some m →
  (∀ s', shows h s' (with_mount w path None) → wp h (f None) s' Q) →
  wp h (fuseUnmount path ≫= f) s Q.
Proof using Type.
  intros [Hst Hmt] Hm HQ. apply wp_bind. unfold fuseUnmount. apply wp_do.
  assert (mount_at s path = Mounted m) as Hat by by rewrite (Hmt path), Hm.
  destruct (table_umount path s m Hat) as (s1 & Hh & Hn & Ho & Hdl).
  assert (shows h s1 (with_mount w path None)) as Hw1.
  { split.
    - intros e b. pose proof (store_frame (DoUnmount path) s e b) as Hf. rewrite Hh in Hf.
      cbn [snd] in Hf. rewrite Hf by (by intros []). apply Hst.
    - intros p. cbn. destruct (decide (p = path)) as [->|Hne].
      + by rewrite lookup_partial_alter_eq.
      + rewrite lookup_partial_alter_ne, Ho by done. apply Hmt. }
  rewrite Hh. cbn [fst snd]. apply wp_bind. unfold findFuseMountProcess.
  apply wp_do. rewrite table_processes. destruct (h OsProcesses s1).1 as [e|pids].
  { by apply wp_ret, wp_ret, HQ. }
  apply wp_find_process. intros [e|[pid|]] Hpid; [by apply wp_ret, HQ| |by apply wp_ret, HQ].
  specialize (Hdl pid (Hpid pid eq_refl)).
  apply (wp_waitForProcess _ _ _ _ (with_mount w path None)); try done.
Qed.

Lemma wp_fuseUnmount_nothing {B} path (f : option errno → prog Node B) s w (Q : B → S → Prop) :
  shows h s w → w_mounts w !! path = None →
  wp h (f (Some (umount_error path))) s Q →
  wp h (fuseUnmount path ≫= f) s Q.
Proof using Type.
  intros [Hst Hmt] Hm HQ. apply wp_bind. unfold fuseUnmount. apply wp_do.
  rewrite table_not_mounted by (by rewrite (Hmt path), Hm). by apply wp_ret.
Qed.

(** ** Looking at a path *)

Lemma wp_checkMount {B} path (f : errno + bool → prog Node B) s w (Q : B → S → Prop) :
  shows h s w →
  (∀ s', shows h s' w → missing s' path = false →
     wp h (f (inr (bool_decide (w_mounts w !! path = None)))) s' Q) →
  wp h (checkMount path ≫= f) s Q.
Proof using Type.
  intros Hw HQ. apply wp_bind. unfold checkMount.
  pose proof (table_likely path s) as Hl. destruct (missing s path) eqn:Hex.
  - destruct Hl as (e & He & Hh). apply wp_do. rewrite Hh. cbn [fst snd]. rewrite He.
    assert (w_mounts w !! path = None) as Hn.
    { destruct (w_mounts w !! path) as [m|] eqn:Hm; [|done].
      pose proof (proj2 Hw path) as Hp. rewrite Hm in Hp.
      apply table_mounted in Hp. congruence. }
    apply (wp_still _ _ _ _ w); [by intros []|by intros []|done|]. intros s1 Hs1 Hw1.
    destruct (table_mkdir path 488 s Hex) as [-> Hex1]. rewrite <-Hs1 in Hex1.
    apply wp_ret. rewrite bool_decide_true in HQ by done. by apply HQ.
  - apply (wp_step _ _ _ w); [by intros []|by intros []|done|]. intros s1 Hw1 Hk1.
    rewrite Hl, (proj2 Hw path). apply wp_ret.
    replace (negb _) with (bool_decide (w_mounts w !! path = None))
      by by destruct (w_mounts w !! path).
    by apply HQ, Hk1.
Qed.
End Mounts.
