(* ===== verification/CsiSpec.v ===== *)
(** * What the S3 driver promises

    The abstract specification of the CSI calls of the S3 driver: a function on the
    buckets and the mounts ([World]).  The refinement theorem says that, on a node and
    an object store that work, the handlers of the driver do exactly this, call after
    call. *)

From Stdlib Require Import ZArith Lia Ascii.
From stdpp Require Import options.
From S2P Require Import Prelude GoStd KubeWp Url Path NodeApi S3Client S3Mounter S3Server NodeWorld NodeMounts.

Open Scope Z_scope.

(** ** The calls *)

(** The calls whose answer depends on nothing. *)
Inductive PlainCall :=
  | ControllerPublish
  | ControllerUnpublish
  | ControllerGet
  | ControllerExpand
  | NodeExpand
  | NodeCapabilities.

Inductive Request :=
  | RqCreate (r : CreateVolumeRequest)
  | RqDelete (r : DeleteVolumeRequest)
  | RqValidate (r : ValidateVolumeCapabilitiesRequest)
  | RqStage (r : NodeStageVolumeRequest)
  | RqPublish (r : NodePublishVolumeRequest)
  | RqUnpublish (volumeID target : string)
  | RqUnstage (volumeID path : string)
  | RqPlain (c : PlainCall).

Inductive Response :=
  | RsVolume (v : Volume)
  | RsValidation (v : Validation)
  | RsCapabilities (l : list NodeServiceCapability)
  | RsDone.

Abbreviation answer := (rpcerr + Response)%type.

Definition answering {A} (f : A → Response) (p : rpc A) : prog Node answer :=
  p ≫= λ r, Ret (match r with inl e => inl e | inr a => inr (f a) end).

Definition serve_plain (c : PlainCall) : prog Node answer :=
  match c with
  | ControllerPublish => answering (λ _, RsDone) ControllerPublishVolume
  | ControllerUnpublish => answering (λ _, RsDone) ControllerUnpublishVolume
  | ControllerGet => answering (λ _, RsDone) ControllerGetVolume
  | ControllerExpand => answering (λ _, RsDone) ControllerExpandVolume
  | NodeExpand => answering (λ _, RsDone) NodeExpandVolume
  | NodeCapabilities => answering RsCapabilities NodeGetCapabilities
  end.

(** The handler of a call. *)
Definition serve (r : Request) : prog Node answer :=
  match r with
  | RqCreate r => answering RsVolume (CreateVolume r)
  | RqDelete r => answering (λ _, RsDone) (DeleteVolume r)
  | RqValidate r => answering RsValidation (ValidateVolumeCapabilities r)
  | RqStage r => answering (λ _, RsDone) (NodeStageVolume r)
  | RqPublish r => answering (λ _, RsDone) (NodePublishVolume r)
  | RqUnpublish v p => answering (λ _, RsDone) (NodeUnpublishVolume v p)
  | RqUnstage v p => answering (λ _, RsDone) (NodeUnstageVolume v p)
  | RqPlain c => serve_plain c
  end.

Fixpoint serve_all (rs : list Request) : prog Node (list answer) :=
  match rs with
  | [] => Ret []
  | r :: rs =>
      a ← serve r;
      l ← serve_all rs;
      Ret (a :: l)
  end.

(** ** The specification *)

Definition secret (secrets : gomap) (key : string) : string := map_index secrets key.

Definition asked (secrets : gomap) (key : string) : bool := (ParseBool (secret secrets key)).1.

(** The store that secrets name. *)
Definition endpoint_of (secrets : gomap) : string :=
  match Parse (secret secrets "endpoint") with
  | Some u => mc_Endpoint (minio_of (config_of_secrets secrets) u)
  | None => ""
  end.

(** The bucket of a volume. *)
Definition volume_bucket (secrets : gomap) (volumeID : string) : string :=
  if decide (secret secrets "bucket" = "") then volumeID else secret secrets "bucket".

Definition bucket_in (w : World) (secrets : gomap) (b : string) : option (list string) :=
  w_buckets w !! (endpoint_of secrets, b).

(** The mount of a volume. *)
Definition mount_of (r : NodePublishVolumeRequest) : mount_cmd :=
  let type := map_index (np_VolumeContext r) "mounter" in
  let b := MkBucket (secret (np_Secrets r) "bucket") (secret (np_Secrets r) "folder") type in
  publish_command type b (config_of_secrets (np_Secrets r)) (np_VolumeId r) (np_TargetPath r).

(** The first required field that is absent. *)
Definition first_missing (l : list (bool * string)) : option string :=
  snd <$> List.find fst l.

Definition absent (s : string) : bool := bool_decide (s = "").

Definition missing_field (r : Request) : option string :=
  match r with
  | RqCreate r => first_missing
      [(absent (cv_Name r), "Name missing in request");
       (bool_decide (cv_VolumeCapabilities r = None), "Volume Capabilities missing in request")]
  | RqDelete r => first_missing [(absent (dv_VolumeId r), "Volume ID missing in request")]
  | RqValidate r => first_missing
      [(absent (vv_VolumeId r), "Volume ID missing in request");
       (bool_decide (vv_VolumeCapabilities r = None), "Volume capabilities missing in request")]
  | RqStage r => first_missing
      [(absent (ng_VolumeId r), "Volume ID missing in request");
       (absent (ng_StagingTargetPath r), "Target path missing in request");
       (bool_decide (ng_VolumeCapability r = None),
          "NodeStageVolume Volume Capability must be provided")]
  | RqPublish r => first_missing
      [(bool_decide (np_VolumeCapability r = None), "Volume capability missing in request");
       (absent (np_VolumeId r), "Volume ID missing in request");
       (absent (np_TargetPath r), "Target path missing in request")]
  | RqUnpublish v p | RqUnstage v p => first_missing
      [(absent v, "Volume ID missing in request"); (absent p, "Target path missing in request")]
  | RqPlain _ => None
  end.

(** Nothing is attached, listed or resized; the node announces that it stages. *)
Definition plain_answer (c : PlainCall) : answer :=
  match c with
  | ControllerPublish | ControllerUnpublish | ControllerGet => inl (StatusError Unimplemented "")
  | ControllerExpand =>
      inl (StatusError Unimplemented "ControllerExpandVolume is not implemented")
  | NodeExpand => inl (StatusError Unimplemented "NodeExpandVolume is not implemented")
  | NodeCapabilities => inr (RsCapabilities [STAGE_UNSTAGE_VOLUME])
  end.

Section Spec.
(** how [umount] refuses a path that is not a mount point *)
Context (refusal : string → errno).

(** What a call with all its fields does. *)
Definition effect (r : Request) (w : World) : answer * World :=
  match r with
  | RqCreate r =>
      let id := sanitizeVolumeID (cv_Name r) in
      let b := volume_bucket (cv_Secrets r) id in
      let vol := inr (RsVolume (MkVolume id 10000000000000 (cv_Parameters r))) in
      match bucket_in w (cv_Secrets r) b with
      | Some _ => (vol, w)
      | None =>
          if asked (cv_Secrets r) "provision"
          then (vol, with_bucket w (endpoint_of (cv_Secrets r)) b (Some []))
          else (inl (OtherRpc ("s3 bucket: " +:+ b +:+ " does not exist")), w)
      end
  | RqDelete r =>
      let b := volume_bucket (dv_Secrets r) (dv_VolumeId r) in
      (inr RsDone,
       if asked (dv_Secrets r) "remove-on-delete"
       then with_bucket w (endpoint_of (dv_Secrets r)) b None else w)
  | RqValidate r =>
      (match bucket_in w (vv_Secrets r) (vv_VolumeId r) with
       | None => inl (StatusError NotFound
                   ("Volume with id " +:+ vv_VolumeId r +:+ " does not exist"))
       | Some _ =>
           inr (RsValidation
             (if decide (Forall (λ c, mode_of c = SINGLE_NODE_WRITER)
                           (default [] (vv_VolumeCapabilities r)))
              then Confirmed SINGLE_NODE_WRITER
              else Message "Only single node writer is supported"))
       end, w)
  | RqStage _ | RqUnstage _ _ => (inr RsDone, w)
  | RqPublish r =>
      match w_mounts w !! np_TargetPath r with
      | Some _ => (inr RsDone, w)
      | None =>
          if decide (np_StagingTargetPath r = "") then
            (inl (StatusError InvalidArgument "Staging Target path missing in request"), w)
          else if decide (secret (np_Secrets r) "bucket" = "") then
            (inl (StatusError InvalidArgument "Bucket name not provided for mounting"), w)
          else (inr RsDone, with_mount w (np_TargetPath r) (Some (mount_of r)))
      end
  | RqUnpublish _ p =>
      match w_mounts w !! p with
      | Some _ => (inr RsDone, with_mount w p None)
      | None => (inl (internal (refusal p)), w)
      end
  | RqPlain c => (plain_answer c, w)
  end.

Definition spec (r : Request) (w : World) : answer * World :=
  match missing_field r with
  | Some m => (inl (StatusError InvalidArgument m), w)
  | None => effect r w
  end.

Fixpoint spec_all (rs : list Request) (w : World) : list answer * World :=
  match rs with
  | [] => ([], w)
  | r :: rs =>
      let '(a, w) := spec r w in
      let '(l, w) := spec_all rs w in
      (a :: l, w)
  end.
End Spec.

(** ** The refinement *)

Section Refinement.
Context {S : Type} (h : handler Node S) `{!ObjectStore h} `{!MountTable h}.

(** The secrets name a store that accepts their credentials. *)
Definition accepts (secrets : gomap) : Prop := endpoint_accepts h secrets (endpoint_of secrets).

(** What a call needs of the world for nothing to fail. *)
Definition servable (w : World) (r : Request) : Prop :=
  match r with
  | RqCreate r => accepts (cv_Secrets r) ∧
      bucket_name_ok (volume_bucket (cv_Secrets r) (sanitizeVolumeID (cv_Name r)))
  | RqDelete r => accepts (dv_Secrets r)
  | RqValidate r => accepts (vv_Secrets r)
  | RqStage r => accepts (ng_Secrets r)
  | RqPublish r => accepts (np_Secrets r) ∧
      (w_mounts w !! np_TargetPath r = None → secret (np_Secrets r) "bucket" ≠ "" →
       is_Some (bucket_in w (np_Secrets r) (secret (np_Secrets r) "bucket")) ∧
       map_index (np_VolumeContext r) "mounter" ≠ "s3backer")
  | RqUnpublish _ _ | RqUnstage _ _ | RqPlain _ => True
  end.

Definition admissible (w : World) (r : Request) : Prop :=
  missing_field r = None → servable w r.

Fixpoint admissible_all (w : World) (rs : list Request) : Prop :=
  match rs with
  | [] => True
  | r :: rs => admissible w r ∧ admissible_all (spec umount_error r w).2 rs
  end.

(** The run of [p] answers [out.1] and leaves the world [out.2]. *)
Definition yields (p : prog Node answer) (s : S) (out : answer * World) : Prop :=
  wp h p s (λ a s', a = out.1 ∧ shows h s' out.2).

Lemma wp_answering {A} (f : A → Response) (p : rpc A) s (Q : answer → S → Prop) :
  wp h p s (λ r s', Q (match r with inl e => inl e | inr a => inr (f a) end) s') →
  wp h (answering f p) s Q.
Proof using Type. intros H. by apply wp_bind. Qed.

Lemma bucket_of_client secrets e c id :
  client_for h secrets e c → bucket_of c id = volume_bucket secrets id.
Proof using Type.
  intros (Hc & _). unfold bucket_of, volume_bucket, secret. rewrite Hc. cbn.
  destruct (decide (map_index secrets "bucket" = "")) as [->|Hne]; [done|].
  by rewrite decide_True.
Qed.

Lemma flag_of_client secrets e c :
  client_for h secrets e c →
  cfg_Provision (cfg c) = asked secrets "provision" ∧
  cfg_RemoveOnDelete (cfg c) = asked secrets "remove-on-delete".
Proof using Type. by intros (-> & _). Qed.

(** The test of a required field. *)
Ltac field_test P :=
  destruct (decide P);
  [rewrite bool_decide_true by done; by apply wp_ret|rewrite bool_decide_false in * by done].

Ltac open_spec :=
  unfold yields, spec, admissible in *; apply wp_answering;
  unfold missing_field, first_missing, absent in *; cbn [List.find fst snd] in *.

Lemma create_refines r s w :
  shows h s w → admissible w (RqCreate r) → yields (serve (RqCreate r)) s (spec umount_error (RqCreate r) w).
Proof using Type.
  intros Hw Hadm. open_spec. unfold CreateVolume.
  apply (wp_still _ _ _ _ w); [by intros []|by intros []|done|]. intros s1 _ Hw1.
  rewrite store_serves. pose proof (sanitize_empty (cv_Name r)) as Hs.
  destruct (decide (sanitizeVolumeID (cv_Name r) = "")) as [He|He].
  { rewrite bool_decide_true by tauto. by apply wp_ret. }
  rewrite bool_decide_false in * by tauto.
  field_test (cv_VolumeCapabilities r = None).
  destruct (Hadm eq_refl) as [Hacc Hname]. cbn [effect fmap option_fmap option_map].
  apply (wp_client _ _ _ _ _ w _ Hacc Hw1). intros c s2 Hcl Hw2 _.
  rewrite (bucket_of_client _ _ _ _ Hcl). apply wp_bind. unfold ensure_bucket.
  apply (wp_bucketExists _ _ _ _ _ _ _ w _ Hcl Hw2). intros s3 Hw3. unfold bucket_in.
  destruct (w_buckets w !! _) as [keys|] eqn:Hb.
  { rewrite bool_decide_true by done. by apply wp_ret, wp_ret. }
  rewrite bool_decide_false by (by intros []). destruct (flag_of_client _ _ _ Hcl) as [-> _].
  destruct (asked _ "provision"); [|by apply wp_ret, wp_ret].
  apply (wp_createBucket _ _ _ _ _ _ _ w _ Hcl Hw3 Hname Hb). intros s4 Hw4. by apply wp_ret, wp_ret.
Qed.

Lemma delete_refines r s w :
  shows h s w → admissible w (RqDelete r) → yields (serve (RqDelete r)) s (spec umount_error (RqDelete r) w).
Proof using Type.
  intros Hw Hadm. open_spec. unfold DeleteVolume. field_test (dv_VolumeId r = "").
  specialize (Hadm eq_refl). cbn [effect fmap option_fmap option_map].
  apply (wp_still _ _ _ _ w); [by intros []|by intros []|done|]. intros s1 _ Hw1.
  rewrite store_serves. apply (wp_client _ _ _ _ _ w _ Hadm Hw1). intros c s2 Hcl Hw2 _.
  cbn zeta. rewrite (bucket_of_client _ _ _ _ Hcl).
  apply (wp_bucketExists _ _ _ _ _ _ _ w _ Hcl Hw2). intros s3 Hw3.
  destruct (flag_of_client _ _ _ Hcl) as [_ ->].
  destruct (asked _ "remove-on-delete"); [rewrite andb_true_r|rewrite andb_false_r; by apply wp_ret].
  destruct (w_buckets w !! _) as [keys|] eqn:Hb.
  - rewrite bool_decide_true by done. unfold or_fail.
    apply (wp_removeBucket _ _ _ _ _ _ _ w _ _ Hcl Hw3 Hb). intros s4 Hw4. by apply wp_ret.
  - rewrite bool_decide_false by (by intros []). apply wp_ret. split; [done|].
    split; [|apply Hw3]. intros e b. rewrite (proj1 Hw3 e b). cbn.
    destruct (decide ((e, b) = (endpoint_of (dv_Secrets r), volume_bucket (dv_Secrets r) (dv_VolumeId r))))
      as [[= -> ->]|Hne]; [by rewrite lookup_partial_alter_eq|by rewrite lookup_partial_alter_ne].
Qed.

Lemma validate_refines r s w :
  shows h s w → admissible w (RqValidate r) →
  yields (serve (RqValidate r)) s (spec umount_error (RqValidate r) w).
Proof using Type.
  intros Hw Hadm. open_spec. unfold ValidateVolumeCapabilities. field_test (vv_VolumeId r = "").
  destruct (vv_VolumeCapabilities r) as [caps|] eqn:Hc; [|by apply wp_ret].
  rewrite bool_decide_false in * by done. specialize (Hadm eq_refl).
  cbn [effect fmap option_fmap option_map]. rewrite Hc.
  apply (wp_client _ _ _ _ _ w _ Hadm Hw). intros c s2 Hcl Hw2 _.
  apply (wp_bucketExists _ _ _ _ _ _ _ w _ Hcl Hw2). intros s3 Hw3. unfold bucket_in.
  destruct (w_buckets w !! _) as [keys|]; [|rewrite bool_decide_false by (by intros []); by apply wp_ret].
  rewrite bool_decide_true by done. cbn [default from_option]. unfold id.
  destruct (existsb _ caps) eqn:He.
  - apply wp_ret. split; [|done]. rewrite decide_False; [done|].
    apply existsb_exists in He as (x & Hx & Hm). apply bool_decide_eq_true in Hm.
    rewrite Forall_forall. intros Hall. by apply Hm, Hall, list_elem_of_In.
  - apply wp_ret. split; [|done]. rewrite decide_True; [done|]. apply Forall_forall. intros x Hx.
    destruct (decide (mode_of x = SINGLE_NODE_WRITER)) as [|Hm]; [done|].
    assert (existsb (λ c, bool_decide (mode_of c ≠ SINGLE_NODE_WRITER)) caps = true); [|congruence].
    apply existsb_exists. exists x. split; [by apply list_elem_of_In|by apply bool_decide_eq_true].
Qed.

Lemma stage_refines r s w :
  shows h s w → admissible w (RqStage r) →
  yields (serve (RqStage r)) s (spec umount_error (RqStage r) w).
Proof using Type.
  intros Hw Hadm. open_spec. unfold NodeStageVolume. field_test (ng_VolumeId r = "").
  field_test (ng_StagingTargetPath r = ""). field_test (ng_VolumeCapability r = None).
  specialize (Hadm eq_refl). cbn [effect fmap option_fmap option_map].
  apply (wp_checkMount _ _ _ _ w); [done|]. intros s1 Hw1 _.
  destruct (bool_decide _); [|by apply wp_ret]. unfold stage_volume.
  apply (wp_client _ _ _ _ _ w _ Hadm Hw1). intros c s2 (Hcfg & _) Hw2 _.
  unfold newMounter, mounter_type. rewrite Hcfg. by apply wp_ret.
Qed.

Lemma publish_refines r s w :
  shows h s w → admissible w (RqPublish r) →
  yields (serve (RqPublish r)) s (spec umount_error (RqPublish r) w).
Proof using Type.
  intros Hw Hadm. open_spec. unfold NodePublishVolume. field_test (np_VolumeCapability r = None).
  field_test (np_VolumeId r = ""). field_test (np_TargetPath r = "").
  destruct (Hadm eq_refl) as [Hacc Hready]. cbn [effect fmap option_fmap option_map].
  apply (wp_checkMount _ _ _ _ w); [done|]. intros s1 Hw1 Hex.
  destruct (w_mounts w !! np_TargetPath r) as [m|] eqn:Hm.
  { rewrite bool_decide_false by done. by apply wp_ret. }
  rewrite bool_decide_true by done. unfold mount_volume.
  destruct (decide (np_StagingTargetPath r = "")); [by apply wp_ret|].
  apply (wp_client _ _ _ _ _ w _ Hacc Hw1). intros c s2 (Hcfg & Ha & He & u & Hu & Hmc) Hw2 Hk.
  rewrite Hcfg. cbn [cfg_Bucket cfg_Folder config_of_secrets].
  change (map_index (np_Secrets r)) with (secret (np_Secrets r)).
  destruct (decide (secret (np_Secrets r) "bucket" = "")) as [|Hne]; [by apply wp_ret|].
  destruct (Hready eq_refl Hne) as [Hbk Hty]. unfold or_fail.
  assert (mounter_type (MkBucket (secret (np_Secrets r) "bucket") (secret (np_Secrets r) "folder")
    (map_index (np_VolumeContext r) "mounter")) (config_of_secrets (np_Secrets r))
    = map_index (np_VolumeContext r) "mounter") as Hmt
    by (unfold mounter_type; cbn [bkt_Mounter cfg_Mounter config_of_secrets]; by case_decide).
  apply (wp_publish _ _ _ _ _ _ u _ _ _ w); try done.
  - by rewrite Hmt.
  - by apply Hk.
  - by rewrite <-Hmc.
  - rewrite <-Hmc, He. exact Hbk.
  - intros s3 Hw3. rewrite Hmt in Hw3. by apply wp_ret.
Qed.

Lemma unpublish_refines v p s w :
  shows h s w → yields (serve (RqUnpublish v p)) s (spec umount_error (RqUnpublish v p) w).
Proof using Type.
  intros Hw. open_spec. unfold NodeUnpublishVolume. field_test (v = ""). field_test (p = "").
  cbn [effect fmap option_fmap option_map]. unfold or_fail.
  destruct (w_mounts w !! p) as [m|] eqn:Hm.
  - apply (wp_fuseUnmount _ _ _ _ w m); [done|done|]. intros s1 Hw1. by apply wp_ret.
  - apply (wp_fuseUnmount_nothing _ _ _ _ w); [done|done|]. by apply wp_ret.
Qed.

Lemma unstage_refines v p s w :
  shows h s w → yields (serve (RqUnstage v p)) s (spec umount_error (RqUnstage v p) w).
Proof using Type.
  intros Hw. open_spec. unfold NodeUnstageVolume. field_test (v = ""). field_test (p = "").
  by apply wp_ret.
Qed.

Lemma serve_refines r s w :
  shows h s w → admissible w r → yields (serve r) s (spec umount_error r w).
Proof using Type.
  destruct r; intros Hw Hadm.
  - by apply create_refines.
  - by apply delete_refines.
  - by apply validate_refines.
  - by apply stage_refines.
  - by apply publish_refines.
  - by apply unpublish_refines.
  - by apply unstage_refines.
  - by destruct c; apply wp_ret.
Qed.

Lemma serve_all_refines rs s w :
  shows h s w → admissible_all w rs →
  wp h (serve_all rs) s (λ l s', l = (spec_all umount_error rs w).1 ∧
    shows h s' (spec_all umount_error rs w).2).
Proof using Type.
  revert s w. induction rs as [|r rs IH]; intros s w Hw Hadm; [by apply wp_ret|].
  destruct Hadm as [Hr Hrs]. cbn [serve_all spec_all]. apply wp_bind.
  eapply wp_mono; [by apply (serve_refines r s w)|]. cbn beta. intros a s1 [-> Hw1].
  destruct (spec umount_error r w) as [a1 w1]. cbn [fst snd] in *. apply wp_bind.
  eapply wp_mono; [by apply (IH s1 w1)|]. cbn beta. intros l s2 [-> Hw2].
  destruct (spec_all umount_error rs w1) as [l1 w2]. by apply wp_ret.
Qed.
End Refinement.

