(* ===== verification/CsiLifecycle.v ===== *)
(** * The life of a volume

    What follows from the specification of the S3 driver ([CsiSpec.v]): a volume that
    is created, published, filled, unpublished and deleted leaves nothing behind, calls
    may be repeated, and data that nobody asked to remove is kept.  [mem_world] is a
    node and an object store in memory that satisfy the laws. *)

From Stdlib Require Import ZArith Lia Ascii.
From stdpp Require Import options.
From S2P Require Import Prelude GoStd KubeWp Url Path NodeApi S3Client S3Mounter S3Server NodeWorld NodeMounts CsiSpec.

Open Scope Z_scope.

(** ** Worlds *)

Lemma with_bucket_twice w e b k k' : with_bucket (with_bucket w e b k) e b k' = with_bucket w e b k'.
Proof.
  unfold with_bucket. cbn. f_equal. apply map_eq. intros i.
  destruct (decide (i = (e, b))) as [->|Hne].
  - by rewrite !lookup_partial_alter_eq.
  - by rewrite !lookup_partial_alter_ne.
Qed.

Lemma with_bucket_same w e b : with_bucket w e b (w_buckets w !! (e, b)) = w.
Proof.
  unfold with_bucket. destruct w as [bs ms]. cbn. f_equal. apply map_eq. intros i.
  destruct (decide (i = (e, b))) as [->|Hne].
  - by rewrite lookup_partial_alter_eq.
  - by rewrite lookup_partial_alter_ne.
Qed.

Lemma with_mount_twice w p m m' : with_mount (with_mount w p m) p m' = with_mount w p m'.
Proof.
  unfold with_mount. cbn. f_equal. apply map_eq. intros i. destruct (decide (i = p)) as [->|Hne].
  - by rewrite !lookup_partial_alter_eq.
  - by rewrite !lookup_partial_alter_ne.
Qed.

Lemma with_mount_same w p : with_mount w p (w_mounts w !! p) = w.
Proof.
  unfold with_mount. destruct w as [bs ms]. cbn. f_equal. apply map_eq. intros i.
  destruct (decide (i = p)) as [->|Hne].
  - by rewrite lookup_partial_alter_eq.
  - by rewrite lookup_partial_alter_ne.
Qed.

Lemma with_bucket_mount w e b k p m :
  with_bucket (with_mount w p m) e b k = with_mount (with_bucket w e b k) p m.
Proof. done. Qed.

Lemma bucket_eq w e b k : w_buckets (with_bucket w e b k) !! (e, b) = k.
Proof. apply lookup_partial_alter_eq. Qed.

Lemma mount_eq w p m : w_mounts (with_mount w p m) !! p = m.
Proof. apply lookup_partial_alter_eq. Qed.

(** ** A volume and its calls *)

Record CsiVolume := MkCsiVolume {
  cn_Name : string;
  cn_Secrets : gomap;
  cn_Parameters : gomap;
  cn_Capability : VolumeCapability;
  cn_Staging : string;
  cn_Target : string }.

Definition cn_id (v : CsiVolume) : string := sanitizeVolumeID (cn_Name v).

Definition create_call (v : CsiVolume) : Request :=
  RqCreate (MkCreateVolumeRequest (cn_Name v) (Some [cn_Capability v]) (cn_Parameters v) (cn_Secrets v)).
Definition stage_call (v : CsiVolume) : Request :=
  RqStage (MkNodeStageVolumeRequest (cn_id v) (cn_Staging v) (Some (cn_Capability v)) (cn_Secrets v)).
(** The volume context is the parameters of the volume. *)
Definition publish_request (v : CsiVolume) : NodePublishVolumeRequest :=
  MkNodePublishVolumeRequest (cn_id v) (cn_Target v) (cn_Staging v) (Some (cn_Capability v)) false
    (cn_Parameters v) (cn_Secrets v).
Definition publish_call (v : CsiVolume) : Request := RqPublish (publish_request v).
Definition unpublish_call (v : CsiVolume) : Request := RqUnpublish (cn_id v) (cn_Target v).
Definition unstage_call (v : CsiVolume) : Request := RqUnstage (cn_id v) (cn_Staging v).
Definition delete_call (v : CsiVolume) : Request :=
  RqDelete (MkDeleteVolumeRequest (cn_id v) (cn_Secrets v)).

(** The bucket the secrets of the volume name. *)
Definition cn_bucket (v : CsiVolume) : string := secret (cn_Secrets v) "bucket".
Definition cn_endpoint (v : CsiVolume) : string := endpoint_of (cn_Secrets v).

Definition provide (v : CsiVolume) : list Request := [create_call v; stage_call v; publish_call v].
Definition release (v : CsiVolume) : list Request :=
  [unpublish_call v; unstage_call v; delete_call v].

Definition cn_volume (v : CsiVolume) : Volume :=
  MkVolume (cn_id v) 10000000000000 (cn_Parameters v).

(** The bucket and the mount of the volume, in the world [w]. *)
Definition in_use (w : World) (v : CsiVolume) (keys : list string) : World :=
  with_mount (with_bucket w (cn_endpoint v) (cn_bucket v) (Some keys)) (cn_Target v)
    (Some (mount_of (publish_request v))).

Section Lifecycle.
Context {S : Type} (h : handler Node S) `{!ObjectStore h} `{!MountTable h}.

(** A volume that can be provided: nothing is missing, its bucket has a name a store
    accepts, and its mounter is a FUSE mounter. *)
Record usable_volume (v : CsiVolume) : Prop := {
  us_fields : cn_Name v ≠ "" ∧ cn_Staging v ≠ "" ∧ cn_Target v ≠ "";
  us_bucket : cn_bucket v ≠ "" ∧ bucket_name_ok (cn_bucket v);
  us_store : accepts h (cn_Secrets v);
  us_mounter : map_index (cn_Parameters v) "mounter" ≠ "s3backer" }.

Lemma id_of_usable v : usable_volume v → cn_id v ≠ "".
Proof using Type. intros [(Hn & _) _ _ _] He. by apply Hn, sanitize_empty. Qed.

Lemma absent_false s : s ≠ "" → absent s = false.
Proof using Type. intros Hs. by apply bool_decide_false. Qed.

(** No field of the calls is missing. *)
Lemma fields_present v r :
  usable_volume v → r ∈ provide v ++ release v → missing_field r = None.
Proof using Type.
  intros Hv Hr. pose proof (id_of_usable v Hv) as Hid. destruct Hv as [(Hn & Hs & Ht) _ _ _].
  unfold provide, release in Hr. cbn [app] in Hr.
  repeat (apply elem_of_cons in Hr as [->|Hr]); [..|by apply not_elem_of_nil in Hr];
    cbn; unfold first_missing; cbn; rewrite !absent_false by done; done.
Qed.

Lemma volume_bucket_named secrets id :
  secret secrets "bucket" ≠ "" → volume_bucket secrets id = secret secrets "bucket".
Proof using Type. intros H. unfold volume_bucket. by rewrite decide_False. Qed.

(** The bucket of the volume holds [keys], or will be made empty. *)
Definition bucket_ready (w : World) (v : CsiVolume) (keys : list string) : Prop :=
  w_buckets w !! (cn_endpoint v, cn_bucket v) = Some keys ∨
  w_buckets w !! (cn_endpoint v, cn_bucket v) = None ∧
  asked (cn_Secrets v) "provision" = true ∧ keys = [].

Lemma create_effect refusal v w keys :
  usable_volume v → bucket_ready w v keys →
  spec refusal (create_call v) w
  = (inr (RsVolume (cn_volume v)), with_bucket w (cn_endpoint v) (cn_bucket v) (Some keys)).
Proof using Type.
  intros Hv Hb. unfold spec. rewrite (fields_present v) by (done || set_solver).
  cbn [effect create_call cv_Name cv_Secrets cv_Parameters]. unfold bucket_in.
  rewrite volume_bucket_named by apply Hv. fold (cn_bucket v) (cn_endpoint v).
  destruct Hb as [Hb|(Hb & Hp & ->)]; rewrite Hb; [by rewrite <-Hb, with_bucket_same|by rewrite Hp].
Qed.

Lemma stage_effect refusal v w :
  usable_volume v → spec refusal (stage_call v) w = (inr RsDone, w).
Proof using Type. intros Hv. unfold spec. by rewrite (fields_present v) by (done || set_solver). Qed.

Lemma publish_effect refusal v w :
  usable_volume v → w_mounts w !! cn_Target v = None →
  spec refusal (publish_call v) w
  = (inr RsDone, with_mount w (cn_Target v) (Some (mount_of (publish_request v)))).
Proof using Type.
  intros Hv Hm. unfold spec. rewrite (fields_present v) by (done || set_solver).
  cbn [effect publish_call publish_request np_TargetPath np_StagingTargetPath np_Secrets].
  rewrite Hm, !decide_False; [done|apply Hv|]. destruct Hv as [(_ & H & _) _ _ _]. exact H.
Qed.

Lemma provide_effect refusal v w keys :
  usable_volume v → w_mounts w !! cn_Target v = None → bucket_ready w v keys →
  spec_all refusal (provide v) w
  = ([inr (RsVolume (cn_volume v)); inr RsDone; inr RsDone], in_use w v keys).
Proof using Type.
  intros Hv Hm Hb. unfold provide. cbn [spec_all].
  by rewrite (create_effect refusal v w keys), stage_effect, publish_effect by done.
Qed.

Lemma provide_admissible v w keys :
  usable_volume v → w_mounts w !! cn_Target v = None → bucket_ready w v keys →
  admissible_all h w (provide v).
Proof using Type.
  intros Hv Hm Hb. unfold provide. cbn [admissible_all].
  rewrite (create_effect umount_error v w keys), stage_effect by done. cbn [snd].
  destruct Hv as [Hfields [Hne Hok] Hstore Hmounter].
  split_and!; [..|done]; intros _; cbn [servable create_call publish_call publish_request].
  - split; [done|]. by rewrite volume_bucket_named.
  - done.
  - split; [done|]. intros _ _. split; [|done]. unfold bucket_in. cbn [np_Secrets].
    fold (cn_bucket v) (cn_endpoint v). by rewrite bucket_eq.
Qed.

Lemma release_effect refusal v w keys :
  usable_volume v → w_mounts w !! cn_Target v = None →
  spec_all refusal (release v) (in_use w v keys)
  = ([inr RsDone; inr RsDone; inr RsDone],
     with_bucket w (cn_endpoint v) (cn_bucket v)
       (if asked (cn_Secrets v) "remove-on-delete" then None else Some keys)).
Proof using Type.
  intros Hv Hm. unfold release. cbn [spec_all].
  assert (spec refusal (unpublish_call v) (in_use w v keys)
    = (inr RsDone, with_bucket w (cn_endpoint v) (cn_bucket v) (Some keys))) as ->.
  { unfold spec. rewrite (fields_present v) by (done || set_solver).
    cbn [effect unpublish_call]. unfold in_use. rewrite mount_eq, with_mount_twice.
    f_equal. rewrite <-Hm. apply (with_mount_same (with_bucket w _ _ _)). }
  assert (∀ w, spec refusal (unstage_call v) w = (inr RsDone, w)) as ->.
  { intros w'. unfold spec. by rewrite (fields_present v) by (done || set_solver). }
  unfold spec. rewrite (fields_present v) by (done || set_solver).
  cbn [effect delete_call dv_Secrets dv_VolumeId]. rewrite volume_bucket_named by apply Hv.
  fold (cn_bucket v) (cn_endpoint v).
  destruct (asked _ _); [by rewrite with_bucket_twice|done].
Qed.

Lemma release_admissible v w : usable_volume v → admissible_all h w (release v).
Proof using Type. intros Hv. unfold release. cbn [admissible_all]. split_and!; try done. intros _. apply Hv. Qed.

(** *** Repeated calls *)

(** The calls the CSI specification asks to be idempotent, [NodeUnpublishVolume] apart. *)
Definition repeatable (r : Request) : Prop :=
  match r with RqUnpublish _ _ => False | _ => True end.

Lemma spec_again refusal r w :
  repeatable r → spec refusal r (spec refusal r w).2 = spec refusal r w.
Proof using Type.
  intros Hr. unfold spec. destruct (missing_field r); [done|]. destruct r; cbn [effect]; try done.
  - unfold bucket_in. destruct (w_buckets w !! _) as [keys|] eqn:Hb; cbn [snd]; [by rewrite Hb|].
    destruct (asked _ _); cbn [snd]; [by rewrite bucket_eq|by rewrite Hb].
  - destruct (asked _ _); cbn [snd]; [by rewrite with_bucket_twice|done].
  - destruct (w_mounts w !! _) eqn:Hm; cbn [snd]; [by rewrite Hm|].
    repeat case_decide; cbn [snd]; rewrite ?Hm; try done. by rewrite mount_eq.
Qed.

Lemma admissible_again r w :
  repeatable r → admissible h w r → admissible h (spec umount_error r w).2 r.
Proof using Type.
  unfold admissible, spec. intros Hr Hadm Hf. specialize (Hadm Hf). rewrite Hf.
  destruct r as [| | | |r| | |]; try done. cbn [servable effect] in *.
  destruct Hadm as [Hacc Hready]. split; [done|].
  destruct (w_mounts w !! np_TargetPath r) eqn:Hm; cbn [snd]; [by rewrite Hm|].
  repeat case_decide; cbn [snd]; rewrite ?Hm; try done. by rewrite mount_eq.
Qed.

(** *** Data *)

(** A call that asks for the removal of a bucket. *)
Definition asks_removal (r : Request) (e b : string) : Prop :=
  match r with
  | RqDelete r => endpoint_of (dv_Secrets r) = e ∧
      volume_bucket (dv_Secrets r) (dv_VolumeId r) = b ∧
      asked (dv_Secrets r) "remove-on-delete" = true
  | _ => False
  end.

Lemma spec_keeps refusal r w e b keys :
  ¬ asks_removal r e b → w_buckets w !! (e, b) = Some keys →
  w_buckets (spec refusal r w).2 !! (e, b) = Some keys.
Proof using Type.
  intros Hr Hb. unfold spec. destruct (missing_field r); [done|]. destruct r; cbn [effect]; try done.
  - unfold bucket_in. destruct (w_buckets w !! (endpoint_of _, _)) eqn:Hn; [done|].
    destruct (asked _ _); [|done]. cbn. rewrite lookup_partial_alter_ne; [done|].
    intros [= <- <-]. congruence.
  - cbn [asks_removal] in Hr. destruct (asked _ _) eqn:Ha; [|done]. cbn.
    rewrite lookup_partial_alter_ne; [done|]. intros [= <- <-]. by apply Hr.
  - destruct (w_mounts w !! _); [done|]. by repeat case_decide.
  - by destruct (w_mounts w !! _).
Qed.

Lemma spec_all_keeps refusal rs w e b keys :
  (∀ r, r ∈ rs → ¬ asks_removal r e b) → w_buckets w !! (e, b) = Some keys →
  w_buckets (spec_all refusal rs w).2 !! (e, b) = Some keys.
Proof using Type.
  revert w. induction rs as [|r rs IH]; intros w Hrs Hb; [done|]. cbn [spec_all].
  assert (w_buckets (spec refusal r w).2 !! (e, b) = Some keys) as Hb1
    by (apply spec_keeps; [apply Hrs; set_solver|done]).
  destruct (spec refusal r w) as [a w1]. cbn [snd] in Hb1.
  specialize (IH w1). destruct (spec_all refusal rs w1) as [l w2]. apply IH; [|done].
  intros r' Hr'. apply Hrs. set_solver.
Qed.
End Lifecycle.




(** The call that may not be repeated: on a node and an object store that work, a volume
    that is mounted is unpublished without an error, and the same call then answers
    [Internal], with the error of [umount]. *)
Theorem unpublish_not_idempotent {S : Type} (h : handler Node S) `{!ObjectStore h} `{!MountTable h}
    (v p : string) (s : S) (w : World) (m : mount_cmd) (Hw : shows h s w)
    (Hv : v ≠ "") (Hp : p ≠ "") (Hm : w_mounts w !! p = Some m) :
  result (run h (serve_all [RqUnpublish v p; RqUnpublish v p]) s)
  = [inr RsDone; inl (internal (umount_error p))].
Proof.
  destruct (serve_all_refines h [RqUnpublish v p; RqUnpublish v p] s w Hw) as [-> _];
    [by repeat split|].
  cbn [spec_all]. assert (missing_field (RqUnpublish v p) = None) as Hf
    by (cbn; unfold first_missing; cbn; by rewrite !absent_false).
  unfold spec. rewrite Hf. cbn [effect]. rewrite Hm. cbn. by rewrite lookup_partial_alter_eq.
Qed.
