(* ===== verification/CsiWitness.v ===== *)
(** * A node and an object store in memory

    [mem_world] satisfies the laws of [ObjectStore] and of [MountTable]: a FUSE tool
    takes 25 milliseconds to mount, its daemon runs until 50 milliseconds after the
    unmount.  The theorems of [CsiSpec.v] and [CsiLifecycle.v] are applied on it. *)

From Stdlib Require Import ZArith Lia Ascii.
From stdpp Require Import options.
From S2P Require Import Prelude GoStd KubeWp Url Path NodeApi S3Client S3Mounter S3Server S3Files NodeWorld NodeMounts CsiSpec CsiLifecycle.

Open Scope Z_scope.

Record MemWorld := MkMemWorld {
  mw_buckets : gmap (string * string) (list string);
  (** when a mount is ready, and its command *)
  mw_mounts : gmap string (Z * mount_cmd);
  mw_dirs : gset string;
  (** the command line of a daemon and when it ends *)
  mw_daemons : gmap Z (string * Z);
  mw_clock : N }.

Definition now (s : MemWorld) : Z := Z.of_N (mw_clock s).

Definition set_buckets (s : MemWorld) (f : gmap (string * string) (list string) → gmap (string * string) (list string)) : MemWorld :=
  MkMemWorld (f (mw_buckets s)) (mw_mounts s) (mw_dirs s) (mw_daemons s) (mw_clock s).

Definition mem_mount_at (s : MemWorld) (p : string) : MountPoint :=
  match mw_mounts s !! p with
  | Some (t, m) => mounting (t - now s) m
  | None => NotMounted
  end.

Definition mem_missing (s : MemWorld) (p : string) : bool :=
  bool_decide (p ∉ mw_dirs s ∧ mw_mounts s !! p = None).

Definition mem_cmdline (s : MemWorld) (pid : Z) : string := default "" (fst <$> mw_daemons s !! pid).
Definition mem_deadline (s : MemWorld) (pid : Z) : Z := default 0 (snd <$> mw_daemons s !! pid) - now s.

(** Where the tools mount, by their command line. *)
Definition tool_target (m : mount_cmd) : option string :=
  if decide (m.1 = "goofys") then last m.2
  else if decide (m.1 = "s3fs") then m.2 !! 1%nat
  else if decide (m.1 = "rclone") then m.2 !! 2%nat
  else None.

Definition start_tool (s : MemWorld) (m : mount_cmd) : MemWorld :=
  match tool_target m with
  | Some p =>
      MkMemWorld (mw_buckets s) (<[p := (now s + 25, m)]> (mw_mounts s)) (mw_dirs s)
        (<[fresh (dom (mw_daemons s)) := (m.1 +:+ " " +:+ Join m.2 " ", now s + 1000000)]> (mw_daemons s))
        (mw_clock s)
  | None => s
  end.

Definition stop_tool (s : MemWorld) (p : string) : MemWorld :=
  MkMemWorld (mw_buckets s) (delete p (mw_mounts s)) ({[p]} ∪ mw_dirs s)
    ((λ d, if Contains d.1 p then (d.1, now s + 50) else d) <$> mw_daemons s) (mw_clock s).

Definition no_such_file : errno := MkErrno true false "no such file or directory".
Definition not_mounted : errno := error "not mounted".

Definition mem_world : handler Node MemWorld := λ o s,
  match o return node_reply o * MemWorld with
  | BucketExists c b => (inr (bool_decide (is_Some (mw_buckets s !! (mc_Endpoint c, b)))), s)
  | MakeBucket c b _ => (None, set_buckets s (<[(mc_Endpoint c, b) := []]>))
  | ListObjects c b => (inr <$> default [] (mw_buckets s !! (mc_Endpoint c, b)), s)
  | RemoveObjects c b keys =>
      ([], set_buckets s (alter (filter (λ key, key ∉ keys)) (mc_Endpoint c, b)))
  | RemoveBucket c b =>
      match mw_buckets s !! (mc_Endpoint c, b) with
      | Some [] => (None, set_buckets s (delete (mc_Endpoint c, b)))
      | _ => (Some (error "BucketNotEmpty"), s)
      end
  | IsLikelyNotMountPoint p | IsNotMountPoint p =>
      (if mem_missing s p then inl no_such_file
       else inr (negb (is_mounted (mem_mount_at s p))), s)
  | OsMkdirAll p _ =>
      (None, MkMemWorld (mw_buckets s) (mw_mounts s) ({[p]} ∪ mw_dirs s) (mw_daemons s) (mw_clock s))
  | OsCommand cmd args => (None, start_tool s (cmd, args))
  | DoUnmount p =>
      if decide (mem_mount_at s p = NotMounted) then (Some not_mounted, s)
      else (None, stop_tool s p)
  | OsSleep ms =>
      (tt, MkMemWorld (mw_buckets s) (mw_mounts s) (mw_dirs s) (mw_daemons s) (mw_clock s + Z.to_N ms))
  | OsProcesses => (inr (elements (dom (mw_daemons s))), s)
  | OsReadCmdline pid =>
      (if decide (0 < mem_deadline s pid) then inr (mem_cmdline s pid) else inl no_such_file, s)
  | o => (idle_reply o, s)
  end.

#[export] Instance mem_store : ObjectStore mem_world.
Proof.
  refine {| bucket_keys s e b := mw_buckets s !! (e, b); accepted _ := True;
            bucket_name_ok b := (3 ≤ String.length b ≤ 63)%nat |}.
  - intros o s e b Ho. destruct o; cbn in *; try done.
    + by destruct (decide _).
    + unfold start_tool. by destruct (tool_target _).
  - done.
  - done.
  - done.
  - intros m b r s _ _ Hn. eexists. split; [done|]. cbn.
    split; [by rewrite lookup_insert_eq|]. intros e b' Hne. by rewrite lookup_insert_ne.
  - intros m b s keys _ Hk. cbn. by rewrite Hk.
  - intros m b sent s keys _ Hk. eexists. split; [done|]. cbn.
    split; [by rewrite lookup_alter_eq, Hk|]. intros e b' Hne. by rewrite lookup_alter_ne.
  - intros m b s keys _ Hk. cbn. rewrite Hk. destruct keys as [|key keys].
    + eexists _, _. split; [done|]. split; [done|]. cbn.
      split; [by rewrite lookup_delete_eq|]. intros e b' Hne. by rewrite lookup_delete_ne.
    + by eexists _, _.
Defined.

Lemma last_of_goofys b c vol target : last (goofys_args b c vol target) = Some target.
Proof.
  unfold goofys_args. rewrite !last_app. by destruct (decide (bkt_Folder b = "")).
Qed.

Lemma tool_target_fuse b c target m : fuse_command b c target m → tool_target m = Some target.
Proof. intros []; unfold tool_target; cbn [fst snd]; [done|apply last_of_goofys|done]. Qed.

Definition there (s : MemWorld) (p : string) : Prop := p ∈ mw_dirs s ∨ is_Some (mw_mounts s !! p).

Lemma mem_there s p : mem_missing s p = false ↔ there s p.
Proof.
  unfold mem_missing, there. rewrite bool_decide_eq_false. rewrite <-not_eq_None_Some.
  destruct (decide (p ∈ mw_dirs s)); destruct (decide (mw_mounts s !! p = None)); tauto.
Qed.

Lemma there_kept o s p : there s p → there (mem_world o s).2 p.
Proof.
  intros Hp. destruct o; cbn; try exact Hp.
  - destruct (decide _); [done|]. unfold there, stop_tool in *. cbn.
    destruct (decide (p = path)) as [->|Hne]; [set_solver|].
    rewrite lookup_delete_ne by done. set_solver.
  - unfold there in *. cbn. set_solver.
  - unfold start_tool. destruct (tool_target _) as [q|]; [|done]. unfold there in *. cbn.
    destruct (decide (p = q)) as [->|Hne]; [rewrite lookup_insert_eq; by eauto|].
    by rewrite lookup_insert_ne.
  - by destruct (mw_buckets s !! _) as [[]|].
Qed.

Lemma mounted_there s p m : mem_mount_at s p = Mounted m → there s p.
Proof. unfold mem_mount_at, there. destruct (mw_mounts s !! p); [by eauto|done]. Qed.

Lemma stopped_deadline s p pid :
  Contains (mem_cmdline (stop_tool s p) pid) p = true → mem_deadline (stop_tool s p) pid ≤ daemon_patience.
Proof.
  unfold mem_cmdline, mem_deadline, daemon_patience, now. cbn. rewrite lookup_fmap.
  destruct (mw_daemons s !! pid) as [[cmd t]|]; cbn; [|lia].
  destruct (Contains cmd p) eqn:Hc; cbn; unfold now; [lia|congruence].
Qed.

Lemma mem_sleep ms s p :
  0 ≤ ms → mem_mount_at (mem_world (OsSleep ms) s).2 p = after ms (mem_mount_at s p).
Proof.
  intros Hms. unfold mem_mount_at, now. cbn. destruct (mw_mounts s !! p) as [[t m]|]; [|done].
  rewrite after_mounting by done. f_equal. lia.
Qed.

Lemma mem_umount p s m :
  mem_mount_at s p = Mounted m → mem_world (DoUnmount p) s = (None, stop_tool s p).
Proof. intros Hm. cbn. rewrite decide_False; [done|]. congruence. Qed.

#[export] Instance mem_table : MountTable mem_world.
Proof.
  refine {| mount_at := mem_mount_at; missing := mem_missing; cmdline := mem_cmdline;
            deadline := mem_deadline; umount_error _ := not_mounted |}.
  - intros o s p Ho. destruct o; cbn in *; try done. by destruct (mw_buckets s !! _) as [[]|].
  - intros o s p _. rewrite !mem_there. apply there_kept.
  - intros p s. cbn. destruct (mem_missing s p); [by exists no_such_file|done].
  - intros p s Hm. cbn. by rewrite Hm.
  - intros p s m Hm. by apply mem_there, (mounted_there s p m).
  - intros p perm s _. split; [done|]. apply mem_there. left. cbn. set_solver.
  - intros o s. destruct o; cbn; try done. by eexists.
  - intros ms s p. apply mem_sleep.
  - intros s b c target u [cmd args] Hm _ _ _ _ _. eexists _, 25.
    split; [done|]. split; [done|]. cbn [fst snd]. unfold start_tool.
    rewrite (tool_target_fuse _ _ _ _ Hm). unfold mem_mount_at. cbn. split.
    + rewrite lookup_insert_eq.
      change (mounting (now s + 25 - now s) (cmd, args) = mounting 25 (cmd, args)).
      f_equal. lia.
    + intros p Hne. by rewrite lookup_insert_ne.
  - intros p s m Hm. exists (stop_tool s p). split; [by apply (mem_umount p s m)|].
    unfold mem_mount_at. cbn. rewrite lookup_delete_eq. split_and!; [done| |].
    + intros q Hne. by rewrite lookup_delete_ne.
    + intros pid. apply stopped_deadline.
  - intros p s Hm. cbn. by rewrite decide_True.
  - done.
  - done.
  - intros pid s. split_and!; [done| |]; intros Hd; cbn.
    + by rewrite decide_True.
    + exists no_such_file. rewrite decide_False; [done|lia].
  - done.
  - intros ms s pid. unfold mem_deadline, now. cbn. lia.
Defined.

(** ** Witnesses *)

Definition demo_volume (mounter : string) : CsiVolume :=
  MkCsiVolume "PVC-1"
    (Some (list_to_map [("endpoint", "http://minio:9000"); ("bucket", "books");
                        ("accessKeyID", "id"); ("secretAccessKey", "key");
                        ("provision", "true"); ("remove-on-delete", "true")]))
    (Some {[ "mounter" := mounter ]}) (MkVolumeCapability (Some SINGLE_NODE_WRITER) [])
    "/staging" "/pods/vol".

(** Another bucket of the store, and a node where something else is mounted. *)
Definition other_mount : mount_cmd := ("goofys", ["logs"; "/pods/logs"]).
Definition old_world : World :=
  MkWorld {[ ("minio:9000", "logs") := ["2024"] ]} {[ "/pods/logs" := other_mount ]}.
Definition old_state : MemWorld :=
  MkMemWorld (w_buckets old_world) {[ "/pods/logs" := (0, other_mount) ]} ∅ ∅ 7.

Lemma old_shows : shows mem_world old_state old_world.
Proof.
  split; [done|]. intros p. cbn. unfold mem_mount_at. cbn.
  destruct (decide (p = "/pods/logs")) as [->|Hne]; [by rewrite !lookup_singleton_eq|].
  by rewrite !lookup_singleton_ne.
Qed.

Lemma demo_usable mounter : mounter ≠ "s3backer" → usable_volume mem_world (demo_volume mounter).
Proof.
  intros Hm. split; [done|split; [done|]|by eexists|].
  - change (3 ≤ 5 ≤ 63)%nat. lia.
  - cbn. unfold map_index. cbn. by rewrite lookup_singleton_eq.
Qed.

(** The volume is provided, a pod writes an object, the volume is released. *)
Definition written (s : MemWorld) : MemWorld :=
  set_buckets s (<[("minio:9000", "books") := ["2024/a"]]>).

Lemma written_shows s w v keys :
  cn_endpoint v = "minio:9000" → cn_bucket v = "books" →
  shows mem_world s (in_use w v keys) → shows mem_world (written s) (in_use w v ["2024/a"]).
Proof.
  intros He Hb [Hst Hm]. split; [|exact Hm]. intros e b. cbn. rewrite He, Hb.
  specialize (Hst e b). cbn in Hst. rewrite He, Hb in Hst.
  destruct (decide ((e, b) = ("minio:9000", "books"))) as [[= -> ->]|Hne].
  - by rewrite lookup_insert_eq, lookup_partial_alter_eq.
  - rewrite lookup_insert_ne, lookup_partial_alter_ne by done.
    rewrite Hst. by rewrite lookup_partial_alter_ne.
Qed.


Definition refused : Request := RqUnpublish "pvc-1" "/pods/none".



