(* ===== verification/Pipeline.v ===== *)
(** * From the dataset to the mount

    The Secret the DatasetInternal reconciler writes is what the S3 driver reads: the
    theorems of the two components composed. *)

From Stdlib Require Import ZArith Lia Ascii.
From stdpp Require Import options.
From S2P Require Import Prelude GoStd Url Path KubeApi KubeServer KubeWp Metastore InternalController InternalSafety InternalProgress InternalWitness NodeApi S3Client S3Mounter S3Server S3Safety S3Mount.

Open Scope Z_scope.

(** What a COS dataset asks the driver for. *)
Definition dataset_flag (m : gomap) (key : string) : bool := (ParseBool (map_index m key)).1.

Definition dataset_config (i : DatasetInternal) (accessKeyID secretAccessKey : string) : Config :=
  MkConfig accessKeyID secretAccessKey (map_index (di_Local i) "region")
    (map_index (di_Local i) "endpoint") "" (cos_bucket i).1 (cos_bucket i).2
    (dataset_flag (om_Labels (di_Meta i)) "remove-on-delete")
    (dataset_flag (di_Local i) "readonly") (dataset_flag (di_Local i) "provision").

Lemma ParseBool_error s b e : ParseBool s = (b, Some e) → b = false.
Proof. unfold ParseBool. repeat case_bool_decide; by intros [= <- _]. Qed.

(** The strings the reconciler writes for flags parse to the flags. *)
Lemma boolean_string key m :
  (ParseBool (getBooleanStringForKeyInMap "false" key m)).1 = dataset_flag m key.
Proof.
  unfold getBooleanStringForKeyInMap, dataset_flag, map_index.
  destruct (map_get m key) as [v|]; [|done]. cbn [default from_option].
  unfold id. destruct (ParseBool v) as [b [e|]] eqn:Hp; cbn [fst].
  - by rewrite (ParseBool_error _ _ _ Hp).
  - by rewrite ParseBool_FormatBool.
Qed.

Lemma provision_string i : (ParseBool (cos_provision i)).1 = dataset_flag (di_Local i) "provision".
Proof.
  unfold cos_provision. destruct (map_get (di_Local i) "provision") as [v|] eqn:Hg;
    [|by apply boolean_string].
  destruct (ParseBool v) as [b [e|]] eqn:Hp; [by apply boolean_string|].
  rewrite ParseBool_FormatBool. unfold dataset_flag, map_index. rewrite Hg. cbn. unfold id.
  by rewrite Hp.
Qed.

(** The driver reads secrets key by key. *)
Lemma config_of_secrets_ext m m' :
  (∀ key, map_get m key = map_get m' key) → config_of_secrets m = config_of_secrets m'.
Proof. intros Hm. unfold config_of_secrets, map_index. by rewrite !Hm. Qed.

(** What the reconciler writes is what the driver is to do. *)
Lemma config_of_cos_secret i a k :
  config_of_secrets (sec_StringData (cos_secret i a k)) = dataset_config i a k.
Proof.
  unfold dataset_config. rewrite <-provision_string, <-!boolean_string. reflexivity.
Qed.

Section Pipeline.
Context {S : Type} (h : handler Kube S) `{!ApiServer h} `{Metastore} `{ControllerUtil}.
Context (req : NamespacedName) (i : DatasetInternal) (a k : string).

(** The mount the dataset asks for. *)
Definition dataset_bucket (type : string) : bucket :=
  MkBucket (cos_bucket i).1 (cos_bucket i).2 type.

Definition publishes_dataset (secrets : gomap) : Prop :=
  ∀ np evs, np_Secrets np = secrets → behaviour (NodePublishVolume np) evs (inr tt) →
    already_mounted np evs ∨
    let type := map_index (np_VolumeContext np) "mounter" in
    mounts type (dataset_bucket type) (dataset_config i a k) (np_VolumeId np)
      (np_StagingTargetPath np) (np_TargetPath np) evs.

Definition deletes_on_request (secrets : gomap) : Prop :=
  ∀ dv evs res pre o r post c b, dv_Secrets dv = secrets →
    behaviour (DeleteVolume dv) evs res → evs = pre ++ Ev (E := Node) o r :: post →
    destroys o = Some (c, b) →
    dataset_flag (om_Labels (di_Meta i)) "remove-on-delete" = true ∧
    b = if decide ((cos_bucket i).1 ≠ "") then (cos_bucket i).1 else dv_VolumeId dv.

Lemma secrets_serve secrets :
  config_of_secrets secrets = dataset_config i a k →
  publishes_dataset secrets ∧ deletes_on_request secrets.
Proof using Type.
  intros Hc. assert (map_index secrets "bucket" = (cos_bucket i).1) as Hb
    by exact (f_equal cfg_Bucket Hc).
  assert (map_index secrets "folder" = (cos_bucket i).2) as Hf by exact (f_equal cfg_Folder Hc).
  assert (flag secrets "remove-on-delete"
          = dataset_flag (om_Labels (di_Meta i)) "remove-on-delete") as Hr
    by exact (f_equal cfg_RemoveOnDelete Hc).
  split.
  - intros np evs Hs Hbeh. destruct (NodePublishVolume_success_aux np evs Hbeh) as [Hm|[_ Hp]];
      [by left|right]. unfold requested_bucket in Hp. rewrite Hs, Hc, Hb, Hf in Hp. exact Hp.
  - intros dv evs res pre o r post c b Hs Hbeh Hsplit Hd.
    destruct (DeleteVolume_authorised_aux dv evs res pre o r post c b Hbeh Hsplit Hd)
      as ((u & _ & _ & Hbk) & Hfl & _).
    rewrite Hs in Hbk, Hfl. split; [by rewrite <-Hr|]. by rewrite <-Hb.
Qed.
End Pipeline.

(** From the dataset to the mount: on a reachable API server, a COS dataset
    without a Secret gets one by a reconciliation, and whatever the node and the
    object store answer, the S3 driver, given this Secret, publishes a volume only by
    mounting the bucket and the folder that the dataset names, with its endpoint, its
    region, its credentials and its read-only flag, and destroys data only when the
    dataset carries the label [remove-on-delete], and only in that bucket. *)
Theorem dataset_reaches_mount {S : Type} (h : handler Kube S) `{!ApiServer h}
    `{Metastore} `{ControllerUtil} (req : NamespacedName) (s : S) (i : DatasetInternal)
    (a k : string) (Hr : cos_ready h req s i a k) (Hnew : view s KSecret req = None) :
  ∃ sec, view (final (run h (Reconcile req) s)) KSecret req = Some sec ∧
    config_of_secrets (sec_Data sec) = dataset_config i a k ∧
    publishes_dataset i a k (sec_Data sec) ∧ deletes_on_request i (sec_Data sec).
Proof.
  destruct (wp_Reconcile_cos h req s i a k Hr) as (_ & _ & _ & (_ & _ & sec & Hsec & Hdata) & _).
  rewrite Hnew in Hdata. exists sec. split; [done|].
  assert (config_of_secrets (sec_Data sec) = dataset_config i a k) as Hc
    by (rewrite <-config_of_cos_secret; by apply config_of_secrets_ext).
  split; [done|]. by apply secrets_serve.
Qed.

Lemma reaches_mount_witness :
  ∃ sec, @view _ mem_handler _ provisioned_server KSecret witness_req = Some sec ∧
    config_of_secrets (sec_Data sec)
    = dataset_config (cos_dataset ["dataset-finalizer"] None) "id" "key" ∧
    publishes_dataset (cos_dataset ["dataset-finalizer"] None) "id" "key" (sec_Data sec) ∧
    deletes_on_request (cos_dataset ["dataset-finalizer"] None) (sec_Data sec).
Proof.
  apply (@dataset_reaches_mount _ mem_handler mem_api_server demo_metastore list_finalizers
    witness_req (server_with (cos_dataset ["dataset-finalizer"] None))
    (cos_dataset ["dataset-finalizer"] None) "id" "key"); [by split|reflexivity].
Defined.
