(* ===== verification/EndToEnd.v ===== *)
(** * From a new dataset to a pod that mounts it

    The Dataset reconciler, the DatasetInternal reconciler, the storage provisioner of
    the cluster (which only binds the claim), the Dataset reconciler again, the webhook
    and the S3 driver, one after the other, on a reachable API server. *)

From Stdlib Require Import ZArith Lia Ascii.
From stdpp Require Import options.
From S2P Require Import Prelude GoStd KubeApi PodMutator PodPatch PodApply PodHandle KubeServer KubeWp NameRegex DatasetController DatasetSafety DatasetProgress Metastore InternalController InternalSafety InternalProgress InternalWitness NodeApi S3Client S3Mounter S3Server Pipeline.

Open Scope Z_scope.

Section Phases.
Context {S : Type} (h : handler Kube S) `{!ApiServer h} (req : NamespacedName).

(** ** The dataset without a claim *)

(** The dataset as the DatasetInternal reconciler will see it. *)
Definition as_internal (d : Dataset) : DatasetInternal :=
  MkDatasetInternal (ds_Meta d) (ds_Spec d) empty_placement.

(** A new COS dataset with a valid name and usable credentials; nothing of its name
    exists yet. *)
Record new_cos_dataset (s : S) (d : Dataset) (a k : string) : Prop := {
  nd_underway : underway h req s d;
  nd_status : caching_status d = StatusEmpty ∧ provision_status d = StatusEmpty;
  nd_type : map_get (spec_Local (ds_Spec d)) "type" = Some "COS";
  nd_credentials : credentials h s (as_internal d) = inr (a, k);
  nd_absent : view s KDatasetInternal req = None ∧ view s KPVC req = None ∧
              view s KSecret req = None }.

(** The dataset on its way, with these statuses and no claim. *)
Definition waiting (d0 : Dataset) (caching provision : string) (s : S) (d : Dataset) : Prop :=
  underway h req s d ∧ same_dataset d0 d ∧ statuses (ds_Status d) = (caching, provision) ∧
  view s KPVC req = None.

Lemma waiting_status s d0 d c p c' p' st :
  waiting d0 c p s d → statuses st = (c', p') →
  c' ∈ [StatusEmpty; StatusInitial; StatusDisabled] →
  p' ∈ [StatusEmpty; StatusInitial; StatusPending; StatusOK] →
  wp h (updateDatasetStatusAndReturn (set_status d st)) s (λ _ s',
    ∃ d', waiting d0 c' p' s' d' ∧
    view s' KDatasetInternal req = view s KDatasetInternal req ∧
    view s' KPVC req = view s KPVC req).
Proof using Type*.
  intros (Huw & [Hsp Hls] & _ & Hpvc) Hst Hc Hp.
  pose proof (run_spares h (updateDatasetStatusAndReturn (set_status d st)) KPVC [] s req)
    as Hsp'.
  eapply wp_mono with (Q := λ _ s', (∃ d', underway h req s' d' ∧ same_dataset d d' ∧
    ds_Status d' = st ∧ view s' KDatasetInternal req = view s KDatasetInternal req) ∧
    view s' KPVC req = view s KPVC req).
  - split.
    + destruct (wp_status h req s d st Huw) as [_ Hd]; [by rewrite Hst|by rewrite Hst|exact Hd].
    + apply Hsp'. split; [|done]. cbn. naive_solver.
  - intros _ s' [(d' & Huw' & [Hsp2 Hls2] & Hd' & Hi) Hpv]. exists d'.
    split_and!; [|done|done]. split_and!; [done| | |congruence].
    + split; congruence.
    + by rewrite Hd'.
Qed.

Lemma initialized_same d :
  caching_status d ≠ StatusEmpty → provision_status d ≠ StatusEmpty →
  initializeDatasetStatus d = (false, d).
Proof using Type.
  intros Hc Hp. unfold initializeDatasetStatus.
  rewrite (decide_False (P := provision_status d = _)) by done. by rewrite decide_False.
Qed.

Lemma statuses_of d c p :
  statuses (ds_Status d) = (c, p) → caching_status d = c ∧ provision_status d = p.
Proof using Type. by intros [= <- <-]. Qed.

Lemma wp_first d0 s d :
  waiting d0 StatusEmpty StatusEmpty s d → view s KDatasetInternal req = None →
  wp h (DatasetController.Reconcile req) s (λ _ s',
    ∃ d', waiting d0 StatusInitial StatusInitial s' d' ∧ view s' KDatasetInternal req = None).
Proof using Type*.
  intros Hw Hi. pose proof Hw as (Huw & _ & [Hc Hp]%statuses_of & _).
  unfold DatasetController.Reconcile.
  apply (wp_kget_some h KDataset req _ s d _ (uw_stored _ _ _ _ Huw)).
  destruct (initialize_unset d ltac:(by left)) as (st & -> & _ & Hst).
  rewrite Hc, Hp in Hst. rewrite !decide_True in Hst by done.
  unfold initial_status_update. change (om_Name (ds_Meta (set_status d st)))
    with (nn_Name (key_of (ds_Meta d))).
  rewrite (uw_key _ _ _ _ Huw), (uw_name _ _ _ _ Huw).
  eapply wp_mono; [eapply (waiting_status s d0 d _ _ StatusInitial StatusInitial);
    [done|done|set_solver|set_solver]|].
  intros _ s' (d' & Hw' & Hi' & _). exists d'. by rewrite Hi'.
Qed.

Lemma wp_second d0 s d :
  waiting d0 StatusInitial StatusInitial s d → view s KDatasetInternal req = None →
  wp h (DatasetController.Reconcile req) s (λ _ s',
    ∃ d', waiting d0 StatusDisabled StatusInitial s' d' ∧ view s' KDatasetInternal req = None).
Proof using Type*.
  intros Hw Hi. pose proof Hw as (Huw & _ & [Hc Hp]%statuses_of & _).
  unfold DatasetController.Reconcile.
  apply (wp_kget_some h KDataset req _ s d _ (uw_stored _ _ _ _ Huw)).
  rewrite initialized_same by (rewrite ?Hc, ?Hp; done). rewrite decide_True by done.
  assert (∀ info, wp h (updateDatasetStatusAndReturn (set_caching d StatusDisabled info)) s
    (λ _ s', ∃ d', waiting d0 StatusDisabled StatusInitial s' d' ∧
       view s' KDatasetInternal req = None)) as Hdis.
  { intros info. eapply wp_mono; [eapply (waiting_status s d0 d _ _ StatusDisabled
      StatusInitial); [done| |set_solver|set_solver]|].
    - unfold statuses. cbn. by fold (provision_status d); rewrite Hp.
    - intros _ s' (d' & Hw' & Hi' & _). exists d'. by rewrite Hi'. }
  unfold caching_setup. destruct (caching_disabled d); [apply Hdis|].
  unfold getCachingPlugins. apply wp_bind, (wp_getenv h), wp_tail, (wp_list_pods h).
  fold (plugin_options h s). rewrite (uw_plugins _ _ _ _ Huw). apply wp_ret, Hdis.
Qed.

Lemma wp_third d0 s d :
  waiting d0 StatusDisabled StatusInitial s d → view s KDatasetInternal req = None →
  wp h (DatasetController.Reconcile req) s (λ _ s',
    ∃ d', waiting d0 StatusDisabled StatusPending s' d' ∧ synced h req s' d').
Proof using Type*.
  intros Hw Hi. pose proof Hw as (Huw & Hsame & [Hc Hp]%statuses_of & Hpvc).
  unfold DatasetController.Reconcile.
  apply (wp_kget_some h KDataset req _ s d _ (uw_stored _ _ _ _ Huw)).
  rewrite initialized_same by (rewrite ?Hc, ?Hp; done).
  rewrite decide_False by (rewrite Hc; done). rewrite decide_True by done.
  unfold or_else at 1. apply wp_bind.
  eapply wp_mono; [by apply wp_create_internal|].
  intros r s1 (-> & Huw1 & _ & _ & Hpvc1 & Hsy). specialize (Hsy Hi). cbn beta iota.
  unfold or_else, provision_setup. rewrite decide_True by (rewrite Hp; done).
  rewrite Hpvc in Hpvc1. apply wp_bind. apply (wp_kget_none h KPVC req _ s1 _ Hpvc1).
  change (IsNotFound KubeApi.NotFound) with true. cbn iota. rewrite decide_True by (rewrite Hp; done).
  apply wp_bind. assert (waiting d0 StatusDisabled StatusInitial s1 d) as Hw1.
  { split_and!; [done|done| |done]. unfold statuses.
    fold (caching_status d) (provision_status d). by rewrite Hc, Hp. }
  eapply wp_mono; [eapply (waiting_status s1 d0 d _ _ StatusDisabled StatusPending);
    [exact Hw1| |set_solver|set_solver]|].
  - unfold statuses. cbn. by fold (caching_status d); rewrite Hc.
  - intros res s' (d' & Hw' & Hi' & _). apply wp_ret, wp_ret. exists d'. split; [done|].
    destruct Hsy as (i & Hsi & Hl). exists i. rewrite Hi'. split; [done|]. rewrite Hl.
    destruct Hw' as (_ & [_ Hl'] & _), Hsame as [_ Hl0]. by rewrite Hl', Hl0.
Qed.

(** Until there is a claim, nothing happens. *)
Lemma wp_idle d0 s d :
  waiting d0 StatusDisabled StatusPending s d → synced h req s d →
  wp h (DatasetController.Reconcile req) s (λ _ s', s' = s).
Proof using Type*.
  intros (Huw & _ & [Hc Hp]%statuses_of & Hpvc) (i & Hi & _).
  unfold DatasetController.Reconcile.
  apply (wp_kget_some h KDataset req _ s d _ (uw_stored _ _ _ _ Huw)).
  rewrite initialized_same by (rewrite ?Hc, ?Hp; done).
  rewrite decide_False by (rewrite Hc; done). rewrite decide_True by done.
  unfold or_else at 1. apply wp_bind. unfold create_internal.
  apply (wp_kget_some h KDatasetInternal req _ s i _ Hi). apply wp_ret. cbn beta iota.
  unfold or_else, provision_setup. rewrite decide_True by (rewrite Hp; done).
  apply wp_bind. apply (wp_kget_none h KPVC req _ s _ Hpvc).
  change (IsNotFound KubeApi.NotFound) with true. cbn iota. by rewrite decide_False by (intros Hx; by apply Hx).
Qed.

(** Three reconciliations, and any number of further ones. *)
Lemma reconciles_waiting n s d a k :
  new_cos_dataset s d a k → (3 ≤ n)%nat →
  let s' := reconciles h req n s in
  ∃ d', waiting d StatusDisabled StatusPending s' d' ∧ synced h req s' d'.
Proof using Type*.
  intros [Huw [Hc Hp] _ _ (Hi & Hpvc & _)] Hn.
  assert (waiting d StatusEmpty StatusEmpty s d) as Hw.
  { split_and!; [done|done| |done]. unfold statuses.
    fold (caching_status d) (provision_status d). by rewrite Hc, Hp. }
  destruct n as [|[|[|n]]]; [lia..|]. cbn [reconciles].
  destruct (wp_first d s d Hw Hi) as (d1 & Hw1 & Hi1).
  destruct (wp_second d _ d1 Hw1 Hi1) as (d2 & Hw2 & Hi2).
  destruct (wp_third d _ d2 Hw2 Hi2) as (d3 & Hw3 & Hsy3).
  cbn beta in Hw3, Hsy3.
  match type of Hw3 with waiting _ _ _ ?x _ => set (s3 := x) in * end. exists d3.
  assert (reconciles h req n s3 = s3) as ->; [|done].
  clear Hn. induction n as [|n IH]; [done|]. cbn [reconciles].
  pose proof (wp_idle d s3 d3 Hw3 Hsy3) as Hid. unfold wp in Hid. by rewrite Hid.
Qed.

(** ** The DatasetInternal is provisioned *)

Section Provision.
Context `{Metastore} `{ControllerUtil}.

Definition spares_datasets (_ : list (event Kube)) (o : kube_op) : Prop :=
  ∀ n, ¬ targets o KDataset n.

Lemma mild_spares evs o : mild evs o → spares_datasets evs o.
Proof using Type.
  unfold spares_datasets. destruct o as [|[]|[]|[]|[]| | | | | | |]; cbn; naive_solver.
Qed.

Lemma Internal_spares_datasets :
  guarded (InternalController.Reconcile req) [] spares_datasets.
Proof using Type.
  assert (∀ o evs, (∀ n, ¬ targets o KDataset n) → spares_datasets evs o) as Hs by done.
  unfold InternalController.Reconcile. gsteps. split; [apply Hs; intros n; cbn; naive_solver|]. intros [e|i]; [done|].
  case_match.
  - unfold InternalController.addFinalizer. gsteps. split; [|done]. apply Hs. intros n; cbn; naive_solver.
  - case_decide; [|eapply guarded_mono; [apply mild_spares|apply process_mild]].
    case_match; [|done]. apply guarded_bind_grow; [|done]. unfold finalize, kdelete.
    gsteps. split; [apply Hs; intros n; cbn; naive_solver|]. intros [e|pvc].
    + destruct (IsNotFound e); [|done]. cbn [negb]. gsteps. split; [apply Hs; intros n; cbn; naive_solver|].
      intros [e'|sec].
      * destruct (IsNotFound e'); [|done]. cbn [negb]. gsteps. split; [|done].
        apply Hs. intros n; cbn; naive_solver.
      * gsteps. split; [|done]. apply Hs. intros n; cbn; naive_solver.
    + gsteps. split; [|done]. apply Hs. intros n; cbn; naive_solver.
Qed.

Lemma internal_rounds_spares n s n' :
  view (internal_rounds h req n s) KDataset n' = view s KDataset n' ∧
  surroundings (internal_rounds h req n s) = surroundings s.
Proof using Type*.
  revert s. induction n as [|n IH]; intros s; [done|]. cbn [internal_rounds].
  destruct (IH (final (run h (InternalController.Reconcile req) s))) as [-> ->].
  split; [|apply (run_surroundings h)].
  apply (run_spares h) with (evs := []). exact Internal_spares_datasets.
Qed.

(** A live COS dataset that may not carry the finalizer yet. *)
Lemma wp_finalizer s i :
  view s KDatasetInternal req = Some i → key_of (di_Meta i) = req →
  om_DeletionTimestamp (di_Meta i) = None → map_get (di_Local i) "type" = Some "COS" →
  contains (om_Finalizers (di_Meta i)) datasetFinalizer = false →
  wp h (InternalController.Reconcile req) s (λ _ s', ∃ i',
    changed view s s' KDatasetInternal req (Some i') ∧ di_Spec i' = di_Spec i ∧
    om_Labels (di_Meta i') = om_Labels (di_Meta i) ∧ key_of (di_Meta i') = req ∧
    om_DeletionTimestamp (di_Meta i') = None ∧
    contains (om_Finalizers (di_Meta i')) datasetFinalizer = true).
Proof using Type*.
  intros Hi Hk Hl Ht Hf. unfold InternalController.Reconcile.
  apply (wp_kget_some h KDatasetInternal req _ s i _ Hi).
  unfold needs_finalizer. rewrite bool_decide_true by done. rewrite Hf. cbn [andb negb].
  unfold InternalController.addFinalizer. set (x := set_finalizers i _).
  assert (okey KDatasetInternal x = req) as Hok by exact Hk.
  apply wp_bind, wp_tail, (wp_kupdate h KDatasetInternal x i); [by rewrite Hok|done|].
  intros i' s' (Hm & Hsp & Hdel & _ & Hch & _). rewrite Hok in Hch. apply wp_ret, wp_ret.
  rewrite decide_False in Hch by (intros [Hx _]; apply Hx; exact Hl).
  exists i'. split_and!; [done|exact Hsp|apply Hm| | |].
  - rewrite <-Hk. exact (sm_key _ _ _ Hm).
  - etransitivity; [exact Hdel|exact Hl].
  - apply contains_spec. pose proof (sm_finalizers _ _ _ Hm) as Hfs. cbn in Hfs. rewrite Hfs.
    apply AddFinalizer_spec. by left.
Qed.

(** What the DatasetInternal reconciler makes of a new COS dataset: the claim and a
    Secret with the configuration of the dataset. *)
Definition cos_served (s : S) (i : DatasetInternal) (a k : string) : Prop :=
  (∃ pvc, view s KPVC req = Some pvc ∧ same_spec KPVC (cos_claim i) pvc) ∧
  ∃ sec, view s KSecret req = Some sec ∧ config_of_secrets (sec_Data sec) = dataset_config i a k.

Lemma wp_served s i a k :
  cos_ready h req s i a k → view s KPVC req = None → view s KSecret req = None →
  wp h (InternalController.Reconcile req) s (λ _ s',
    cos_ready h req s' i a k ∧ cos_provisioned h req s' i ∧ cos_served s' i a k).
Proof using Type*.
  intros Hr Hp Hs. eapply wp_mono; [by apply wp_Reconcile_cos|].
  intros _ s' (_ & Hr' & Hpr & (_ & Hclaim & sec & Hsec & Hdata) & _). rewrite Hs in Hdata.
  split_and!; [done|done|]. split; [by apply Hclaim|]. exists sec. split; [done|].
  rewrite <-config_of_cos_secret. by apply config_of_secrets_ext.
Qed.

Lemma served_stays n s i a k :
  cos_ready h req s i a k → cos_provisioned h req s i → internal_rounds h req n s = s.
Proof using Type*.
  intros Hr Hp. induction n as [|n IH]; [done|]. cbn [internal_rounds].
  destruct (wp_Reconcile_cos h req s i a k Hr) as (_ & _ & _ & _ & Hsame).
  rewrite Hsame by done. exact IH.
Qed.
End Provision.
End Phases.

(** ** A pod asks for the dataset *)

Section Pods.
Context `{MapRange} {S : Type} (h : handler Kube S) `{!ApiServer h} (req : NamespacedName).

(** The pod asks for a mount of the dataset, and for nothing else; as every pod has, it
    has a volume (the token of its service account), mounted in its containers. *)
Record asks_for_mount (pod : Pod) (idx : Z) : Prop := {
  ask_namespace : pod_Namespace pod = nn_Namespace req;
  ask_labels : DatasetInputFromPod pod
    = inr {[ idx := MkDatasetInput (nn_Name req) idx ["mount"] empty_dataset ]};
  ask_new : nn_Name req ∉ mounted_pvcs pod;
  ask_volumes : pod_Volumes pod ≠ [];
  ask_mounts c : c ∈ pod_InitContainers pod ++ pod_Containers pod → c_VolumeMounts c ≠ [] }.

(** The pod mounts the claim of the dataset in every container. *)
Definition mounts_dataset (pod : Pod) : Prop :=
  (∃ ro, PodMutator.MkVolume (nn_Name req) (Some (nn_Name req, ro)) ∈ pod_Volumes pod) ∧
  ∀ c, c ∈ pod_InitContainers pod ++ pod_Containers pod →
    nn_Name req ∈ vm_Name <$> c_VolumeMounts c.

Lemma mount_container_mounts d c :
  in_name d ∈ vm_Name <$> c_VolumeMounts (mount_container [d] c).
Proof using Type.
  unfold mount_container. cbn [c_VolumeMounts]. rewrite fmap_app, elem_of_app.
  destruct (decide (in_name d ∈ vm_Name <$> c_VolumeMounts c)) as [?|Hn]; [by left|right].
  unfold missing. rewrite filter_cons, decide_True by done. cbn. by left.
Qed.

Lemma mount_pod_mounts pod d :
  in_name d = nn_Name req → mounts_dataset (mount_pod pod [d]).
Proof using Type.
  intros Hn. split.
  - exists (read_only d). cbn [mount_pod pod_Volumes]. rewrite elem_of_app. right.
    unfold new_volume. cbn. rewrite Hn. by left.
  - intros c. cbn [mount_pod pod_InitContainers pod_Containers]. rewrite elem_of_app.
    rewrite <-Hn.
    intros [(c' & -> & _)%list_elem_of_fmap|(c' & -> & _)%list_elem_of_fmap]; apply mount_container_mounts.
Qed.

Lemma sorted_inputs_singleton idx d : sorted_inputs {[ idx := d ]} = [d].
Proof using Type.
  unfold sorted_inputs. rewrite map_to_list_singleton. cbn.
  by rewrite lookup_singleton_eq.
Qed.

(** What the API server answers to reads in state [s]. *)
Definition snapshot (s : S) (k : Kind) (n : NamespacedName) : goerr + Object k :=
  match view s k (scoped k n) with Some o => inr o | None => inl KubeApi.NotFound end.

Lemma snapshot_stable s : stable_reads h s (snapshot s).
Proof using Type*. intros k n. apply api_get. Qed.

Lemma pod_gets_dataset (Decode : Request → string + Pod) (request : Request) (pod : Pod)
    (idx : Z) (other_volume : string → json) s d :
  view s KDataset req = Some d → req_Operation request = OpCreate →
  Decode request = inr pod → asks_for_mount pod idx →
  ∃ ops pod',
    result (run h (Handle Decode request) s)
    = Patched "added volumes to Pod in response to dataset" ops ∧
    apply_patch ops (pod_doc other_volume pod) = Some (pod_doc other_volume pod') ∧
    mounts_dataset pod'.
Proof using Type*.
  intros Hd Hop Hdec [Hns Hl Hnew Hvol Hmnt].
  destruct (Handle_on_stable_cluster_aux h s (snapshot s) (snapshot_stable s)
    Decode request pod _ Hop Hdec Hl) as [Hr _].
  set (din := MkDatasetInput (nn_Name req) idx ["mount"] empty_dataset) in *.
  assert (snapshot s KDataset (MkNamespacedName (pod_Namespace pod) (in_name din)) = inr d) as Hsn.
  { rewrite Hns. unfold snapshot. cbn. destruct req as [ns n]. cbn in *. by rewrite Hd. }
  specialize (Hr ltac:(intros i x [<- <-]%lookup_singleton_Some; unfold dataset_exists;
    rewrite Hsn; by eexists)).
  set (x := SetResource din d).
  assert (with_resources (snapshot s) (pod_Namespace pod) {[ idx := din ]} = {[ idx := x ]}) as Hw.
  { unfold with_resources. rewrite map_fmap_singleton. unfold resource_of. by rewrite Hsn. }
  rewrite Hw in Hr.
  assert (mounts_of pod [x] = [x]) as Hms.
  { unfold mounts_of, mounts_of_input. cbn. rewrite decide_False by exact Hnew. done. }
  assert (configs_of [x] = []) as Hcs by done.
  assert (uses_recognized [x]) as Hu by (repeat constructor).
  pose proof (PatchPodWithDatasetLabels_closed_aux pod {[ idx := x ]}) as Hpatch.
  rewrite sorted_inputs_singleton, decide_True in Hpatch by done.
  exists (patch_spec pod [x]), (mount_pod pod [x]).
  split_and!; [| |by apply mount_pod_mounts].
  - rewrite Hr. unfold answer. rewrite sorted_inputs_singleton, decide_True by done.
    assert (patch_spec pod [x] = volumes_spec pod [x]) as ->.
    { unfold patch_spec. rewrite Hms, Hcs, decide_False by done.
      rewrite decide_True by done. apply app_nil_r. }
    assert (∃ p ps, volumes_spec pod [x] = p :: ps) as (p & ps & ->) by (by eexists _, _).
    done.
  - rewrite (patch_yields_mutated_pod_aux other_volume pod _ _ Hpatch).
    + by rewrite sorted_inputs_singleton, mutate_pod_split, Hms, Hcs, inject_pod_nil.
    + rewrite sorted_inputs_singleton, Hms. split; [done|]. intros c Hc _. by apply Hmnt.
Qed.
End Pods.

(** ** The whole way *)

Section Whole.
Context {S : Type} (h : handler Kube S) `{!ApiServer h} `{Metastore} `{ControllerUtil}
  `{MapRange} (req : NamespacedName).

(** The storage provisioner of the cluster binds the claim and changes nothing else. *)
Definition binds (s s' : S) : Prop :=
  ∃ pvc pvc', view s KPVC req = Some pvc ∧ changed view s s' KPVC req (Some pvc') ∧
    pvc_Phase pvc' = ClaimBound ∧ same_spec KPVC pvc pvc' ∧ surroundings s' = surroundings s.

(** The DatasetInternal of the dataset [d0] is there, live. *)
Definition has_internal (s : S) (d0 : Dataset) (i : DatasetInternal) : Prop :=
  view s KDatasetInternal req = Some i ∧ di_Spec i = ds_Spec d0 ∧ key_of (di_Meta i) = req ∧
  om_DeletionTimestamp (di_Meta i) = None ∧
  map_get (om_Labels (di_Meta i)) "remove-on-delete"
  = map_get (om_Labels (ds_Meta d0)) "remove-on-delete".

Lemma same_credentials s s' d0 i :
  di_Spec i = ds_Spec d0 → key_of (di_Meta i) = key_of (ds_Meta d0) →
  (∀ n, view s' KSecret n = view s KSecret n) →
  credentials h s' i = credentials h s (as_internal d0).
Proof using Type.
  intros Hsp Hk Hs. unfold credentials, usable_secret, di_Local, di_Namespace. rewrite Hsp.
  injection Hk as -> _. cbn. by repeat case_match; rewrite ?Hs in *; simplify_eq.
Qed.

Lemma same_config s d0 i a k :
  has_internal s d0 i → dataset_config i a k = dataset_config (as_internal d0) a k.
Proof using Type.
  intros (_ & Hsp & _ & _ & Hl). unfold dataset_config, cos_bucket, dataset_flag, di_Local.
  unfold map_index in *. by rewrite Hsp, Hl.
Qed.

Lemma same_claim d0 i : di_Spec i = ds_Spec d0 →
  ∀ pvc, same_spec KPVC (cos_claim i) pvc → same_spec KPVC (cos_claim (as_internal d0)) pvc.
Proof using Type.
  intros Hsp pvc. cbn. unfold cos_readonly, di_Local. by rewrite Hsp.
Qed.

(** Two reconciliations of the DatasetInternal provision the dataset, further ones
    change nothing. *)
Lemma internal_provisions s d0 i a k n :
  has_internal s d0 i → key_of (ds_Meta d0) = req →
  map_get (spec_Local (ds_Spec d0)) "type" = Some "COS" →
  credentials h s (as_internal d0) = inr (a, k) →
  view s KPVC req = None → view s KSecret req = None → (2 ≤ n)%nat →
  let s' := internal_rounds h req n s in
  ∃ i', has_internal s' d0 i' ∧ cos_served h req s' i' a k.
Proof using Type*.
  intros Hi Hk0 Ht Hc Hp Hs Hn. destruct n as [|n]; [lia|]. cbn [internal_rounds].
  assert (∀ s i n, has_internal s d0 i → view s KPVC req = None → view s KSecret req = None →
    credentials h s i = inr (a, k) →
    contains (om_Finalizers (di_Meta i)) datasetFinalizer = true →
    let s' := internal_rounds h req (Datatypes.S n) s in
    ∃ i', has_internal s' d0 i' ∧ cos_served h req s' i' a k) as Hready.
  { clear dependent s i n. intros s i n (Hv & Hsp & Hk & Hl & Hlab) Hp Hs Hc Hf.
    assert (cos_ready h req s i a k) as Hr.
    { split; try done; [|by rewrite Hs]. unfold di_Local. by rewrite Hsp. }
    destruct (wp_served h req s i a k Hr Hp Hs) as (Hr' & Hpr & Hserved).
    cbn [internal_rounds]. rewrite (served_stays h req n _ i a k Hr' Hpr).
    exists i. split; [|done]. split_and!; try done. apply (cr_stored _ _ _ _ _ _ Hr'). }
  destruct Hi as (Hv & Hsp & Hk & Hl & Hlab).
  assert (credentials h s i = inr (a, k)) as Hci
    by (rewrite (same_credentials s s d0 i); [done|done|congruence|done]).
  destruct (contains (om_Finalizers (di_Meta i)) datasetFinalizer) eqn:Hf.
  { by apply (Hready s i n). }
  assert (map_get (di_Local i) "type" = Some "COS") as Hti by (unfold di_Local; by rewrite Hsp).
  destruct (wp_finalizer h req s i Hv Hk Hl Hti Hf)
    as (i1 & Hch & Hsp1 & Hl1 & Hk1 & Hd1 & Hf1).
  set (s1 := final _) in *. destruct n as [|n]; [lia|].
  assert (∀ n, view s1 KSecret n = view s KSecret n) as Hs1
    by (intros n'; eapply changed_kind; [exact Hch|done]).
  apply (Hready s1 i1 n); [|by erewrite changed_kind|by rewrite Hs1| |done].
  - split_and!; [by eapply changed_here|congruence|done|done|by rewrite Hl1].
  - rewrite (same_credentials s s1 d0 i1); [done|congruence|congruence|done].
Qed.

(** A Dataset whose claim has been bound is on its way to [OK]. *)
Lemma bound_underway s1 s2 s3 d0 d1 i :
  waiting h req d0 StatusDisabled StatusPending s1 d1 →
  view s2 KDataset req = view s1 KDataset req → surroundings s2 = surroundings s1 →
  has_internal s2 d0 i → binds s2 s3 → underway h req s3 d1.
Proof using Type*.
  intros ([Hst Hk Hn Ht Hcs Hps Hpl _ _] & [Hsp _] & _ & _) Hd Hsur
    (Hi & Hspi & Hki & Hdel & _) (pvc & pvc' & _ & Hch & Hb & _ & Hsur3).
  assert (surroundings s3 = surroundings s1) as Hsame by congruence.
  unfold surroundings in Hsame. injection Hsame as Hpods _ Henv _ _.
  split; try done.
  - by rewrite (changed_kind h _ _ _ _ _ KDataset req Hch), Hd.
  - unfold plugin_options. rewrite Hpods, Henv. exact Hpl.
  - intros x. rewrite (changed_here h _ _ _ _ _ Hch). by intros [= <-].
  - intros x. rewrite (changed_kind h _ _ _ _ _ KDatasetInternal req Hch) by done.
    rewrite Hi. intros [= <-]. split_and!; [congruence|done|done].
Qed.

(** The claim is bound, and the Secret makes the driver mount what the dataset names. *)
Definition usable (s : S) (d : Dataset) (a k : string) : Prop :=
  (∃ pvc, view s KPVC req = Some pvc ∧ pvc_Phase pvc = ClaimBound ∧
     same_spec KPVC (cos_claim (as_internal d)) pvc) ∧
  ∃ sec, view s KSecret req = Some sec ∧
    publishes_dataset (as_internal d) a k (sec_Data sec) ∧
    deletes_on_request (as_internal d) (sec_Data sec).

Lemma served_usable s s' d i a k :
  has_internal s d i → cos_served h req s i a k → binds s s' → usable s' d a k.
Proof using Type*.
  intros Hi [(pvc & Hpvc & Hcl) (sec & Hsec & Hcfg)] (pvc0 & pvc' & Hv & Hch & Hb & Hsp & _).
  rewrite Hpvc in Hv. injection Hv as <-. split.
  - exists pvc'. split_and!; [by eapply changed_here|done|].
    apply (same_claim d i); [by destruct Hi as (_ & ? & _)|].
    cbn in *. destruct Hcl as (?&?&?&?&?), Hsp as (?&?&?&?&?). split_and!; congruence.
  - exists sec. split; [by erewrite changed_kind|]. apply secrets_serve.
    by rewrite Hcfg, (same_config s d).
Qed.

Lemma usable_kept s s' d a k :
  view s' KPVC req = view s KPVC req → view s' KSecret req = view s KSecret req →
  usable s d a k → usable s' d a k.
Proof using Type. intros Hp Hs. unfold usable. by rewrite Hp, Hs. Qed.

Lemma converged_same d d' s : same_dataset d d' → converged h req d' s → converged h req d s.
Proof using Type. intros [Hsp Hl]. unfold converged. by rewrite Hsp, Hl. Qed.

(** From a new dataset to a pod that mounts it: on a reachable API server, for a new
    COS dataset with usable credentials, three or more reconciliations of the Dataset,
    two or more of its DatasetInternal, the binding of the claim by the cluster and
    seven or more reconciliations of the Dataset end in a state where the Dataset is
    [OK], its claim is bound, and the driver, given its Secret, mounts the bucket and
    the folder it names; and every pod of the namespace that is then created with the
    labels that ask for a mount of the dataset is patched to mount this claim in all
    of its containers. *)
Theorem dataset_becomes_usable (s0 : S) (d : Dataset) (a k : string) (n1 n2 n3 : nat)
    (Hnew : new_cos_dataset h req s0 d a k)
    (Hn1 : (3 ≤ n1)%nat) (Hn2 : (2 ≤ n2)%nat) (Hn3 : (7 ≤ n3)%nat) :
  let s2 := internal_rounds h req n2 (reconciles h req n1 s0) in
  is_Some (view s2 KPVC req) ∧
  ∀ s3, binds s2 s3 →
    let s4 := reconciles h req n3 s3 in
    converged h req d s4 ∧ usable s4 d a k ∧
    ∀ Decode request pod idx other_volume,
      req_Operation request = OpCreate → Decode request = inr pod →
      asks_for_mount req pod idx →
      ∃ ops pod',
        result (run h (Handle Decode request) s4)
        = Patched "added volumes to Pod in response to dataset" ops ∧
        apply_patch ops (pod_doc other_volume pod) = Some (pod_doc other_volume pod') ∧
        mounts_dataset req pod'.
Proof using Type*.
  cbn zeta. destruct (reconciles_waiting h req n1 s0 d a k Hnew Hn1) as (d1 & Hw & Hsy).
  set (s1 := reconciles h req n1 s0) in *. set (s2 := internal_rounds h req n2 s1).
  destruct Hnew as [Huw _ Ht Hc (_ & Hp0 & Hs0)].
  destruct (internal_rounds_spares h req n2 s1 req) as [Hd2 Hsur2]. fold s2 in Hd2, Hsur2.
  pose proof Hw as (Huw1 & Hsame & _ & Hp1).
  assert (∀ n, view s1 KSecret n = view s0 KSecret n) as Hs1
    by (intros n; by apply reconciles_spares).
  assert (∃ i, has_internal s1 d i) as [i Hi].
  { destruct Hsy as (i & Hi & Hl). exists i.
    destruct (uw_internal _ _ _ _ Huw1 i Hi) as (Hsp & Hk & Hdel), Hsame as [Hsp0 Hl0].
    split_and!; [done|congruence|done|done|by rewrite Hl, Hl0]. }
  assert (credentials h s1 (as_internal d) = inr (a, k)) as Hc1
    by (by rewrite (same_credentials s0 s1 d)).
  destruct (internal_provisions s1 d i a k n2 Hi (uw_key _ _ _ _ Huw) Ht Hc1 Hp1
    ltac:(by rewrite Hs1) Hn2) as (i2 & Hi2 & Hserved). fold s2 in Hi2, Hserved.
  split; [by destruct Hserved as [(pvc & -> & _) _]; eexists|].
  intros s3 Hb. pose proof (bound_underway s1 s2 s3 d d1 i2 Hw Hd2 Hsur2 Hi2 Hb) as Huw3.
  assert (is_Some (view s3 KPVC req)) as Hp3.
  { destruct Hb as (pvc & pvc' & _ & Hch & _). by rewrite (changed_here h _ _ _ _ _ Hch). }
  pose proof (Reconcile_converges_aux h req s3 d1 n3 Huw3 Hp3 Hn3) as Hconv.
  pose proof Hconv as (d4 & _ & Hd4 & _).
  split; [by eapply converged_same|]. split.
  - apply (usable_kept s3); [by apply reconciles_spares..|].
    by eapply served_usable.
  - intros. by eapply pod_gets_dataset.
Qed.
End Whole.

(** ** Witness *)

Definition new_server : MemServer :=
  store empty_server KDataset demo_req (Some demo_dataset).

Definition bind_claim (s : MemServer) : MemServer :=
  match mem_view s KPVC demo_req with
  | Some pvc => store s KPVC demo_req (Some (set_status_of KPVC ClaimBound pvc))
  | None => s
  end.

Lemma bind_claim_binds s :
  is_Some (mem_view s KPVC demo_req) → binds mem_handler demo_req s (bind_claim s).
Proof.
  intros [pvc Hp]. exists pvc, (set_status_of KPVC ClaimBound pvc).
  unfold bind_claim. rewrite Hp. split_and!; try done. apply store_changed.
Qed.

Definition reading_pod : Pod :=
  MkPod "reader" "default"
    (<["dataset.0.id" := "example-dataset"]> (<["dataset.0.useas" := "mount"]> ∅))
    [PodMutator.MkVolume "token" None] []
    [MkContainer "main" [MkVolumeMount "token" "/var/run/secrets"] []].

Lemma becomes_usable_witness :
  let s2 := @internal_rounds _ mem_handler demo_metastore list_finalizers demo_req 2
    (reconciles mem_handler demo_req 3 new_server) in
  let s4 := reconciles mem_handler demo_req 7 (bind_claim s2) in
  converged mem_handler demo_req demo_dataset s4 ∧
  usable mem_handler demo_req s4 demo_dataset "id" "key" ∧
  ∃ ops pod',
    result (run mem_handler (@Handle demo_range (λ _, inr reading_pod)
              (MkRequest OpCreate "pod")) s4)
    = Patched "added volumes to Pod in response to dataset" ops ∧
    apply_patch ops (pod_doc demo_volume reading_pod) = Some (pod_doc demo_volume pod') ∧
    mounts_dataset demo_req pod'.
Proof.
  cbn zeta.
  destruct (@dataset_becomes_usable _ mem_handler mem_api_server demo_metastore
    list_finalizers demo_range demo_req new_server demo_dataset "id" "key" 3 2 7)
    as [Hp Hall]; [|lia|lia|lia|].
  { split; try done. split; try done; set_solver. }
  destruct (Hall _ (bind_claim_binds _ Hp)) as (Hconv & Hus & Hpods).
  split; [exact Hconv|]. split; [exact Hus|].
  apply (Hpods (λ _, inr reading_pod) _ _ 0); [done|done|]. split.
  - done.
  - vm_compute. reflexivity.
  - apply (bool_decide_unpack _). vm_compute. exact I.
  - done.
  - intros c Hc. apply list_elem_of_singleton in Hc as ->. done.
Defined.
