(* ===== verification/Interleave.v ===== *)
(** * Programs that share an environment

    Several programs run at once against one environment, one call at a time: the
    handlers of a controller manager against the API server.  [step] is the step
    relation of such a pool: a program starts, makes its next call, or is killed with
    its process; another client of the environment makes a call.  The lemmas lift what
    holds of every interaction of one program ([guarded]) to every interleaving. *)

From Stdlib Require Import Lia.
From stdpp Require Import options.
From S2P Require Import Prelude.

Section Pool.
Context {E : Sig} {S T R : Type} (body : T → prog E R) (h : handler E S).
(** The calls other clients may make. *)
Context (others : op E → Prop).

(** A program that has started: who runs it, its interaction so far and the rest. *)
Record thread := MkThread {
  agent : T;
  past : list (event E);
  rest : prog E R }.

Record config := MkConfig { threads : list thread; shared : S }.

Definition idle (s : S) : config := MkConfig [] s.

(** Who makes a step: an agent with the call it makes, or somebody else. *)
Inductive actor :=
  | Starts (t : T)
  | Calls (t : T) (evs : list (event E)) (o : op E)
  | Dies (t : T)
  | Other (o : op E).

Inductive step : config → actor → config → Prop :=
  | step_start t ths s :
      step (MkConfig ths s) (Starts t) (MkConfig (ths ++ [MkThread t [] (body t)]) s)
  | step_call i t evs o k ths s :
      ths !! i = Some (MkThread t evs (Call o k)) →
      step (MkConfig ths s) (Calls t evs o)
        (MkConfig (<[i := MkThread t (evs ++ [Ev o (h o s).1]) (k (h o s).1)]> ths)
           (h o s).2)
  | step_dies i t evs p ths s :
      ths !! i = Some (MkThread t evs p) →
      step (MkConfig ths s) (Dies t) (MkConfig (delete i ths) s)
  | step_other o ths s :
      others o → step (MkConfig ths s) (Other o) (MkConfig ths (h o s).2).

Definition moves (c c' : config) : Prop := ∃ a, step c a c'.

(** The call a step makes on the environment, if it makes one. *)
Definition call_of (a : actor) : option (op E) :=
  match a with
  | Calls _ _ o | Other o => Some o
  | Starts _ | Dies _ => None
  end.

Lemma step_shared c a c' :
  step c a c' →
  shared c' = match call_of a with Some o => (h o (shared c)).2 | None => shared c end.
Proof. by destruct 1. Qed.

(** ** Schedules

    A schedule names the steps of an execution; [follow] executes it. *)

Inductive choice :=
  | Begin (t : T)
  | Advance (i : nat)
  | Someone (o : op E).

Definition advance (i : nat) (c : config) : config :=
  match threads c !! i with
  | Some (MkThread t evs (Call o k)) =>
      let rs := h o (shared c) in
      MkConfig (<[i := MkThread t (evs ++ [Ev o rs.1]) (k rs.1)]> (threads c)) rs.2
  | _ => c
  end.

Definition choose (c : config) (ch : choice) : config :=
  match ch with
  | Begin t => MkConfig (threads c ++ [MkThread t [] (body t)]) (shared c)
  | Advance i => advance i c
  | Someone o => MkConfig (threads c) (h o (shared c)).2
  end.

Definition follow (l : list choice) (c : config) : config := foldl choose c l.

Definition allowed (ch : choice) : Prop :=
  match ch with Someone o => others o | _ => True end.

Lemma advance_step i c t evs o k :
  threads c !! i = Some (MkThread t evs (Call o k)) → step c (Calls t evs o) (advance i c).
Proof using Type*.
  destruct c as [ths s]. cbn. intros Hi. unfold advance. cbn. rewrite Hi.
  by apply step_call.
Qed.

Lemma choose_moves c ch : allowed ch → rtc moves c (choose c ch).
Proof using Type*.
  destruct c as [ths s], ch as [t|i|o]; cbn; intros Ha.
  - apply rtc_once. eexists. apply step_start.
  - destruct (ths !! i) as [[t evs [a|o k]]|] eqn:Hi;
      unfold advance; cbn; rewrite Hi; [done| |done].
    apply rtc_once. eexists. by apply step_call.
  - apply rtc_once. eexists. by apply step_other.
Qed.

Lemma follow_moves l c : Forall allowed l → rtc moves c (follow l c).
Proof using Type*.
  intros Hl. revert c. induction Hl as [|ch l Hch _ IH]; intros c; [done|].
  cbn. etransitivity; [by apply choose_moves|apply IH].
Qed.

(** ** What a pool inherits from its programs *)

Context (G : T → list (event E) → op E → Prop).
Context (wf : S → Prop) (P : S → event E → Prop).
(** [wf] is an invariant of the environment; [P s e] holds of an answer when it is
    given and goes on holding. *)
Record environment_laws : Prop := {
  el_guarded t : guarded (body t) [] (G t);
  el_wf o s : wf s → wf (h o s).2;
  el_answer o s : wf s → P (h o s).2 (Ev o (h o s).1);
  el_stable o s e : wf s → P s e → P (h o s).2 e }.

Definition thread_ok (s : S) (th : thread) : Prop :=
  guarded (rest th) (past th) (G (agent th)) ∧ Forall (P s) (past th).

Definition config_ok (c : config) : Prop :=
  wf (shared c) ∧ Forall (thread_ok (shared c)) (threads c).

Lemma idle_ok s : wf s → config_ok (idle s).
Proof. by split. Qed.

Section Laws.
Context (Hlaws : environment_laws).

Lemma thread_ok_stable o s th : wf s → thread_ok s th → thread_ok (h o s).2 th.
Proof using Type*.
  intros Hwf [Hg HP]. split; [done|]. eapply Forall_impl; [exact HP|].
  intros e He. by apply (el_stable Hlaws).
Qed.

Lemma threads_ok_stable o s ths :
  wf s → Forall (thread_ok s) ths → Forall (thread_ok (h o s).2) ths.
Proof using Type*.
  intros Hwf Hths. eapply Forall_impl; [exact Hths|]. intros th. by apply thread_ok_stable.
Qed.

Lemma step_ok c a c' : step c a c' → config_ok c → config_ok c'.
Proof using Type*.
  destruct 1 as [t ths s|i t evs o k ths s Hi|i t evs p ths s Hi|o ths s Ho];
    intros [Hwf Hths]; cbn in *.
  - split; [done|]. apply Forall_app. split; [done|]. apply Forall_singleton.
    split; [apply (el_guarded Hlaws)|done].
  - split; [by apply (el_wf Hlaws)|]. apply Forall_insert; [by apply threads_ok_stable|].
    destruct (Forall_lookup_1 _ _ _ _ Hths Hi) as [[_ Hg] HP].
    split; [apply Hg|]. cbn in *. apply Forall_app. split.
    + eapply Forall_impl; [exact HP|]. intros e. by apply (el_stable Hlaws).
    + apply Forall_singleton. by apply (el_answer Hlaws).
  - split; [done|]. by apply Forall_delete.
  - split; [by apply (el_wf Hlaws)|]. by apply threads_ok_stable.
Qed.

Lemma moves_ok c c' : rtc moves c c' → config_ok c → config_ok c'.
Proof using Type*. induction 1 as [|c c1 c' [a Ha] _ IH]; [done|]. intros Hc. eapply IH, step_ok; eauto. Qed.

(** A call of an agent satisfies its guard, in every interleaving. *)
Lemma step_guard c t evs o c' :
  step c (Calls t evs o) c' → config_ok c →
  G t evs o ∧ Forall (P (shared c)) evs.
Proof using Type*.
  intros Hstep [_ Hths]. inversion Hstep as [|i t' evs' o' k ths s Hi| |]; subst.
  destruct (Forall_lookup_1 _ _ _ _ Hths Hi) as [[HG _] HP]. done.
Qed.

(** Induction over the calls made on the environment: [Q] relates the states before
    and after any of them, so it relates the ends of every execution. *)
Lemma moves_ind (Q : S → S → Prop) `{!PreOrder Q} :
  (∀ t evs o s, wf s → G t evs o → Forall (P s) evs → Q s (h o s).2) →
  (∀ o s, wf s → others o → Q s (h o s).2) →
  ∀ c c', rtc moves c c' → config_ok c → Q (shared c) (shared c').
Proof using Type*.
  intros Hagent Hother c c' Hrtc. induction Hrtc as [c|c c1 c' [a Ha] _ IH]; intros Hc; [done|].
  transitivity (shared c1); [|by eapply IH, step_ok].
  rewrite (step_shared _ _ _ Ha). destruct a as [t|t evs o|t|o]; cbn; try done.
  - destruct (step_guard _ _ _ _ _ Ha Hc). apply (Hagent t evs); [by destruct Hc|done|done].
  - apply Hother; [by destruct Hc|]. by inversion Ha.
Qed.
End Laws.
End Pool.

Arguments MkThread {E T R} _ _ _.
Arguments MkConfig {E S T R} _ _.
Arguments shared {E S T R} _.
Arguments threads {E S T R} _.
Arguments agent {E T R} _.
Arguments past {E T R} _.
Arguments rest {E T R} _.
Arguments idle {E S T R} _.
Arguments Starts {E T} _.
Arguments Calls {E T} _ _ _.
Arguments Dies {E T} _.
Arguments Other {E T} _.
Arguments Begin {E T} _.
Arguments Advance {E T} _.
Arguments Someone {E T} _.

Lemma guarded_and {E A} (p : prog E A) evs (G G' : list (event E) → op E → Prop) :
  guarded p evs G → guarded p evs G' → guarded p evs (λ evs o, G evs o ∧ G' evs o).
Proof.
  revert evs. induction p as [a|o k IH]; intros evs; cbn; [done|].
  intros [H1 Hk1] [H2 Hk2]. split; [done|]. intros r. by apply IH.
Qed.

Lemma guarded_fmap {E A B} (f : A → B) (p : prog E A) evs G :
  guarded p evs G → guarded (f <$> p) evs G.
Proof. intros Hp. unfold fmap, prog_fmap. by apply guarded_bind_grow. Qed.
