(* ===== verification/SharedServer.v ===== *)
(** * An API server that others use too

    [ApiServer] describes a server nobody else writes to.  [SharedServer] is the
    contract of a server with many clients, which may fail any request and which the
    controllers read through a cache: a read may answer any state the object has been
    in.  What the contract keeps is optimistic concurrency: a resource version
    identifies a state of an object, and an update is accepted only for the current
    one.  [LagServer], whose reads lag one write behind, implements it. *)

From Stdlib Require Import ZArith Lia.
From stdpp Require Import options.
From S2P Require Import Prelude GoStd KubeApi KubeServer.

Open Scope Z_scope.

Notation version k o := (om_ResourceVersion (meta_of k o)).

(** The state of an object after it was updated with [x]. *)
Definition updated (k : Kind) (x old : Object k) (v : option (Object k)) : Prop :=
  ∃ new, v = (if decide (om_DeletionTimestamp (meta_of k old) ≠ None ∧
                         om_Finalizers (meta_of k x) = []) then None else Some new) ∧
    same_meta k (meta_of k x) (meta_of k new) ∧ same_spec k x new ∧
    om_DeletionTimestamp (meta_of k new) = om_DeletionTimestamp (meta_of k old) ∧
    status_of k new = status_of k old.

(** After its status was updated with that of [x]. *)
Definition status_updated (k : Kind) (x old : Object k) (v : option (Object k)) : Prop :=
  ∃ new, v = Some new ∧
    same_meta k (meta_of k old) (meta_of k new) ∧ same_spec k old new ∧
    om_DeletionTimestamp (meta_of k new) = om_DeletionTimestamp (meta_of k old) ∧
    status_of k new = status_of k x.

(** After a deletion was asked for: it waits for the finalizers. *)
Definition deleted (k : Kind) (old : Object k) (v : option (Object k)) : Prop :=
  om_Finalizers (meta_of k old) = [] ∧ v = None ∨
  ∃ new, v = Some new ∧
    same_meta k (meta_of k old) (meta_of k new) ∧ same_spec k old new ∧
    om_DeletionTimestamp (meta_of k new) ≠ None ∧ status_of k new = status_of k old.

(** A write that names a state of the object is accepted for this state only. *)
Definition current (k : Kind) (x old : Object k) : Prop :=
  version k x = "" ∨ version k x = version k old.

Class SharedServer {S : Type} (h : handler Kube S) := {
  cur : S → ∀ k, NamespacedName → option (Object k);
  (** the states an object has been in *)
  stored_once : S → ∀ k, NamespacedName → Object k → Prop;
  (** the invariant of the server *)
  sound : S → Prop;
  (** the environment of the process, which does not change *)
  process_env : S → string → string;

  shared_sound o s : sound s → sound (h o s).2;
  shared_getenv s name : (h (Getenv name) s).1 = process_env s name;
  shared_env o s : process_env (h o s).2 = process_env s;
  shared_cur s k n x : sound s → cur s k n = Some x → stored_once s k n x;
  shared_grows o s k n x :
    sound s → stored_once s k n x → stored_once (h o s).2 k n x;
  shared_key s k n x : sound s → stored_once s k n x → okey k x = n;
  shared_version s k n x y :
    sound s → stored_once s k n x → stored_once s k n y → version k x = version k y → x = y;
  shared_versioned s k n x : sound s → stored_once s k n x → version k x ≠ "";
  (** [stringData] is write-only *)
  shared_secret s n x : sound s → stored_once s KSecret n x → sec_StringData x = None;

  shared_get s k n x : sound s → (h (Get k n) s).1 = inr x → stored_once s k (scoped k n) x;
  shared_set_owner s k owner x x' :
    sound s → (h (SetControllerReference k owner x) s).1 = inr x' → owned k x x';
  shared_frame o s k n : sound s → ¬ targets o k n → cur (h o s).2 k n = cur s k n;
  shared_create s k x old :
    sound s → cur s k (okey k x) = Some old →
    cur (h (Create k x) s).2 k (okey k x) = Some old;
  shared_update s k x :
    sound s →
    let v := cur (h (Update k x) s).2 k (okey k x) in
    match cur s k (okey k x) with
    | None => v = None
    | Some old => v = Some old ∨ current k x old ∧ updated k x old v
    end;
  shared_status_update s k x :
    sound s →
    let v := cur (h (StatusUpdate k x) s).2 k (okey k x) in
    match cur s k (okey k x) with
    | None => v = None
    | Some old => v = Some old ∨ current k x old ∧ status_updated k x old v
    end;
  shared_delete s k x :
    sound s →
    let v := cur (h (Delete k x) s).2 k (okey k x) in
    match cur s k (okey k x) with
    | None => v = None
    | Some old => v = Some old ∨ deleted k old v
    end }.

(** ** A server with a cache *)

(** [lag_cache] is what reads are answered from; [lag_past] the history. *)
Record LagServer := MkLagServer {
  lag_now : MemServer;
  lag_cache : ∀ k, NamespacedName → option (Object k);
  lag_past : ∀ k, NamespacedName → Object k → Prop }.

(** A write goes to the server, and the cache becomes what it was before the write. *)
Definition lag_handler : handler Kube LagServer := λ o s,
  match o return kube_reply o * LagServer with
  | Get k n =>
      (match lag_cache s k (scoped k n) with Some x => inr x | None => inl NotFound end, s)
  | o =>
      let rs := mem_handler o (lag_now s) in
      (rs.1, MkLagServer rs.2 (mem_view (lag_now s))
               (λ k n x, lag_past s k n x ∨ mem_view rs.2 k n = Some x))
  end.

(** The version of the object was issued before the counter reached [c]. *)
Definition issued (c : Z) (v : string) : Prop := ∃ i, 0 ≤ i < c ∧ v = "v" +:+ Itoa i.

Definition plain (k : Kind) : Object k → Prop :=
  match k with KSecret => λ x, sec_StringData x = None | _ => λ _, True end.

Record lag_sound (s : LagServer) : Prop := {
  ls_now k n x : mem_view (lag_now s) k n = Some x → lag_past s k n x;
  ls_cache k n x : lag_cache s k n = Some x → lag_past s k n x;
  ls_key k n x : lag_past s k n x → okey k x = n;
  ls_issued k n x : lag_past s k n x → issued (mem_counter (lag_now s)) (version k x);
  ls_unique k n x y :
    lag_past s k n x → lag_past s k n y → version k x = version k y → x = y;
  ls_plain k n x : lag_past s k n x → plain k x;
  ls_counter : 0 ≤ mem_counter (lag_now s) }.

(** A call stores nothing new, or an object of a fresh version under its key. *)
Definition fresh (s : MemServer) (k : Kind) (n : NamespacedName) (x : Object k) : Prop :=
  okey k x = n ∧ version k x = "v" +:+ Itoa (mem_counter s) ∧ plain k x.

Lemma stored_fresh s k x del st : fresh s k (okey k x) (stored s k x del st).
Proof.
  pose proof (sm_key _ _ _ (stored_meta s k x del st)) as Hkey. split; [done|].
  split; [unfold stored; by rewrite meta_of_set_meta|]. by destruct k.
Qed.

Lemma stored_old_fresh s k x old del st :
  okey k old = okey k x → fresh s k (okey k x) (stored s k old del st).
Proof. intros <-. apply stored_fresh. Qed.

Definition grown (s s' : MemServer) : Prop :=
  (∀ k n, mem_view s' k n = mem_view s k n) ∧ mem_counter s' = mem_counter s ∨
  mem_counter s' = mem_counter s + 1 ∧
  ∀ k n x, mem_view s' k n = Some x → mem_view s k n = Some x ∨ fresh s k n x.

Lemma store_grown s k n v :
  (∀ x, v = Some x → fresh s k n x) → grown s (store s k n v).
Proof.
  intros Hv. right. split; [done|]. intros k' n' x.
  destruct (store_changed s k n v) as (Hhere & Hn & Hk).
  destruct (decide (k' = k)) as [->|Hne]; [|rewrite Hk by done; by left].
  destruct (decide (n' = n)) as [->|Hne]; [|rewrite Hn by done; by left].
  rewrite Hhere. intros ->. right. by apply Hv.
Qed.

Lemma mem_handler_grown o s :
  (∀ k n x, mem_view s k n = Some x → okey k x = n) → grown s (mem_handler o s).2.
Proof.
  intros Hkey. assert (grown s s) as Hrefl by (by left).
  destruct o as [|k x|k x|k x|k x| | | | | | |]; cbn; try done.
  - case_match; [done|]. apply store_grown. intros y [= <-]. apply stored_fresh.
  - unfold mem_write. case_match eqn:Hold; [|done]. case_decide; [|done].
    apply store_grown. unfold mem_update. cbn [fst snd]. case_match; [done|].
    intros y [= <-]. apply stored_fresh.
  - unfold mem_write. case_match eqn:Hold; [|done]. case_decide; [|done].
    apply store_grown. unfold mem_status_update. cbn [fst snd].
    intros y [= <-]. apply stored_old_fresh. by apply Hkey.
  - unfold mem_delete. case_match eqn:Hold; [|done]. apply store_grown.
    case_decide; [done|]. intros y [= <-]. apply stored_old_fresh. by apply Hkey.
Qed.

Lemma issued_fresh s : 0 ≤ mem_counter s → ¬ issued (mem_counter s) ("v" +:+ Itoa (mem_counter s)).
Proof.
  intros Hc (i & Hi & Heq). injection Heq as Heq.
  change (Itoa (mem_counter s) = Itoa i) in Heq. rewrite !Itoa_nonneg in Heq by lia.
  apply (inj (pretty (A := N))) in Heq. apply (f_equal Z.of_N) in Heq.
  rewrite !Z2N.id in Heq by lia. lia.
Qed.

Lemma issued_mono c c' v : c ≤ c' → issued c v → issued c' v.
Proof. intros Hc (i & Hi & ->). exists i. split; [lia|done]. Qed.

Lemma lag_sound_write s o :
  lag_sound s →
  let m := (mem_handler o (lag_now s)).2 in
  lag_sound (MkLagServer m (mem_view (lag_now s))
    (λ k n x, lag_past s k n x ∨ mem_view m k n = Some x)).
Proof.
  intros Hs m.
  assert (grown (lag_now s) m) as Hg.
  { apply mem_handler_grown. intros k n x Hx. eapply ls_key; [done|]. by apply ls_now. }
  pose proof (ls_counter s Hs) as Hc.
  assert (mem_counter (lag_now s) ≤ mem_counter m) as Hle by (destruct Hg as [[_ Hct]|[Hct _]]; lia).
  assert (∀ k n x, mem_view m k n = Some x → lag_past s k n x ∨ fresh (lag_now s) k n x) as Hnew.
  { intros k n x Hx. destruct Hg as [[Hv _]|[_ Hv]].
    - left. apply ls_now; [done|]. by rewrite <-Hv.
    - apply Hv in Hx as [Hx|Hx]; [left; by apply ls_now|by right]. }
  assert (∀ k n x y, lag_past s k n x → fresh (lag_now s) k n y → version k x ≠ version k y) as Hne.
  { intros k n x y Hx (_ & Hy & _) Heq. apply ls_issued in Hx; [|done].
    rewrite Heq, Hy in Hx. by apply issued_fresh in Hx. }
  split; cbn.
  - by right.
  - intros k n x Hx. left. by apply ls_now.
  - intros k n x [Hx|Hx]; [by eapply ls_key|].
    apply Hnew in Hx as [Hx|[Hx _]]; [by eapply ls_key|done].
  - intros k n x Hx.
    assert (lag_past s k n x ∨ fresh (lag_now s) k n x) as [Hp|(_ & Hv & _)]
      by (destruct Hx as [Hx|Hx]; [by left|by apply Hnew]).
    + eapply issued_mono; [exact Hle|]. by eapply ls_issued.
    + destruct Hx as [Hx|Hx].
      * eapply issued_mono; [exact Hle|]. by eapply ls_issued.
      * destruct Hg as [[Hsame _]|[Hplus _]].
        { rewrite Hsame in Hx. apply ls_now in Hx; [|done].
          eapply issued_mono; [exact Hle|]. by eapply ls_issued. }
        rewrite Hv, Hplus. exists (mem_counter (lag_now s)). split; [lia|done].
  - intros k n x y [Hx|Hx] [Hy|Hy] Heq.
    + by eapply ls_unique.
    + apply Hnew in Hy as [Hy|Hy]; [by eapply ls_unique|]. by destruct (Hne k n x y).
    + apply Hnew in Hx as [Hx|Hx]; [by eapply ls_unique|]. by destruct (Hne k n y x).
    + congruence.
  - intros k n x [Hx|Hx]; [by eapply ls_plain|].
    apply Hnew in Hx as [Hx|(_ & _ & Hx)]; [by eapply ls_plain|done].
  - lia.
Qed.

Lemma lag_handler_write o s :
  (∀ k n, o ≠ Get k n) →
  (lag_handler o s).1 = (mem_handler o (lag_now s)).1 ∧
  lag_now (lag_handler o s).2 = (mem_handler o (lag_now s)).2.
Proof. destruct o as [k n| | | | | | | | | | |]; [|done..]. intros Hne. by destruct (Hne k n). Qed.

#[export] Instance lag_shared_server : SharedServer lag_handler.
Proof.
  refine {| cur s := mem_view (lag_now s); stored_once := lag_past; sound := lag_sound;
            process_env s := mem_environ (lag_now s) |}.
  - intros o s Hs. destruct o; [done|by apply (lag_sound_write s _ Hs)..].
  - done.
  - intros o s. destruct o; [done|by apply mem_handler_environ..].
  - intros s k n x Hs. by apply ls_now.
  - intros o s k n x Hs Hx. destruct o; [done|by left..].
  - intros s k n x Hs. by apply ls_key.
  - intros s k n x y Hs. by apply ls_unique.
  - intros s k n x Hs Hx Hv. apply ls_issued in Hx as (i & _ & Hi); [|done]. by rewrite Hv in Hi.
  - intros s n x Hs Hx. by apply (ls_plain s Hs KSecret n x).
  - intros s k n x Hs. cbn. destruct (lag_cache s k (scoped k n)) as [y|] eqn:Hy; [|done].
    intros [= <-]. by apply ls_cache.
  - intros s k owner x x' Hs [= <-]. by eexists.
  - intros o s k n Hs Ht. destruct o; [done|by apply mem_handler_frame..].
  - intros s k x old Hs Hx. cbn. by rewrite Hx.
  - intros s k x Hs. cbn. unfold mem_write. destruct (mem_view _ k (okey k x)) as [old|] eqn:Hold.
    + case_decide as Hv; [right|by left]. split; [by right|]. cbn [snd].
      destruct (store_changed (lag_now s) k (okey k x)
        (if (mem_update (lag_now s) k x old).2 then None
         else Some (mem_update (lag_now s) k x old).1)) as (Hhere & _).
      exists (mem_update (lag_now s) k x old).1. split_and!;
        [|apply stored_meta|apply stored_spec|apply stored_deletion|apply stored_status].
      etransitivity; [exact Hhere|]. unfold mem_update at 1. cbn [snd].
      case_decide as Hd.
      * by rewrite bool_decide_true.
      * by rewrite bool_decide_false.
    + done.
  - intros s k x Hs. cbn. unfold mem_write. destruct (mem_view _ k (okey k x)) as [old|] eqn:Hold.
    + case_decide as Hv; [right|by left]. split; [by right|]. cbn [snd].
      destruct (store_changed (lag_now s) k (okey k x)
        (Some (mem_status_update (lag_now s) k x old).1)) as (Hhere & _).
      exists (mem_status_update (lag_now s) k x old).1. split_and!;
        [exact Hhere|apply stored_meta|apply stored_spec|apply stored_deletion|apply stored_status].
    + done.
  - intros s k x Hs. cbn. unfold mem_delete. destruct (mem_view _ k (okey k x)) as [old|] eqn:Hold.
    + right.
      pose proof (store_changed (lag_now s) k (okey k x)
        (if decide (om_Finalizers (meta_of k old) = []) then None
         else Some (stored (lag_now s) k old (Some 0) (status_of k old)))) as (Hhere & _).
      cbn [snd]. unfold deleted. rewrite Hhere. case_decide; [by left|right].
      eexists. split; [done|]. split_and!;
        [apply stored_meta|apply stored_spec|by rewrite stored_deletion|apply stored_status].
    + done.
Defined.
