(* ===== verification/Careful.v ===== *)
(** * What the reconcilers do to objects that others use too

    [careful] bounds every call of the three reconcilers: a Dataset is never created
    or deleted, and an update is an edit of an object the reconciler has read that
    touches only the fields the reconciler owns.  [located] bounds where they write.
    Both hold whatever the API server answers. *)

From Stdlib Require Import ZArith Lia.
From stdpp Require Import options.
From S2P Require Import Prelude GoStd KubeApi KubeServer DatasetController DatasetSafety Metastore InternalController InternalSafety CephCache CephSafety Interleave SharedServer.

Open Scope Z_scope.

(** ** Edits *)

(** The labels but for [remove-on-delete]. *)
Definition same_labels (m m' : ObjectMeta) : Prop :=
  ∀ key, key ≠ "remove-on-delete" →
    map_get (om_Labels m') key = map_get (om_Labels m) key.

(** The finalizers but for [mine]. *)
Definition same_finalizers (mine : string) (m m' : ObjectMeta) : Prop :=
  ∀ f, f ≠ mine → f ∈ om_Finalizers m' ↔ f ∈ om_Finalizers m.

(** What an update may change of an object: the annotations and the finalizer of the
    cache plugin in a Dataset, a label and the finalizer of the operator in a
    DatasetInternal, a value of a Secret. *)
Definition edits (k : Kind) : Object k → Object k → Prop :=
  match k with
  | KDataset => λ old x,
      ds_Spec x = ds_Spec old ∧ om_Labels (ds_Meta x) = om_Labels (ds_Meta old) ∧
      same_finalizers datasetsFinalizer (ds_Meta old) (ds_Meta x)
  | KDatasetInternal => λ old x,
      di_Spec x = di_Spec old ∧
      om_Annotations (di_Meta x) = om_Annotations (di_Meta old) ∧
      same_labels (di_Meta old) (di_Meta x) ∧
      same_finalizers datasetFinalizer (di_Meta old) (di_Meta x)
  | KSecret => λ old x,
      sec_Data x = sec_Data old ∧ sec_Meta x = sec_Meta old ∧
      ∀ key, key ≠ "remove-on-delete" →
        map_get (sec_StringData x) key = map_get (sec_StringData old) key
  | _ => λ _ _, False
  end.

(** A message for a caching status that stays. *)
Inductive system_step (name : string) : DatasetStatus → DatasetStatus → Prop :=
  | system_status s s' : status_step name s s' → system_step name s s'
  | system_message c ci ci' p :
      system_step name (MkDatasetStatus (MkCondition c ci) p)
        (MkDatasetStatus (MkCondition c ci') p).

Definition moves_status (k : Kind) : Object k → Object k → Prop :=
  match k with
  | KDataset => λ old x, system_step (om_Name (ds_Meta old)) (ds_Status old) (ds_Status x)
  | _ => λ _ _, True
  end.

(** [x] is a new version of the object [old]. *)
Definition revises (k : Kind) (old x : Object k) : Prop :=
  key_of (meta_of k x) = key_of (meta_of k old) ∧ version k x = version k old.

Definition careful (evs : list (event Kube)) (o : kube_op) : Prop :=
  match o with
  | Create k _ => k ≠ KDataset
  | Update k x =>
      ∃ n old, told evs (Get k n) (inr old) ∧ revises k old x ∧ edits k old x
  | StatusUpdate k x =>
      ∃ n old, told evs (Get k n) (inr old) ∧ revises k old x ∧ moves_status k old x
  | Delete k _ => k ≠ KDataset ∧ k ≠ KDatasetInternal
  | _ => True
  end.

(** Where a call writes: in the namespace of the request, or in one that the process
    was configured with. *)
Definition located (ns : string) (evs : list (event Kube)) (o : kube_op) : Prop :=
  Forall honest evs →
  match o with
  | Create k x | Update k x | StatusUpdate k x | Delete k x =>
      om_Namespace (meta_of k x) = ns ∨
      ∃ name, told evs (Getenv name) (om_Namespace (meta_of k x))
  | _ => True
  end.

Definition disciplined (ns : string) (evs : list (event Kube)) (o : kube_op) : Prop :=
  careful evs o ∧ located ns evs o.

Lemma same_finalizers_refl mine m m' :
  om_Finalizers m' = om_Finalizers m → same_finalizers mine m m'.
Proof. intros Heq f _. by rewrite Heq. Qed.

Lemma told_honest (evs : list (event Kube)) k n (x : Object k) :
  told evs (Get k n) (inr x) → Forall honest evs → okey k x = scoped k n.
Proof. intros Ht Hh. by apply (proj1 (Forall_forall _ _) Hh _) in Ht. Qed.

Lemma read_dataset_told req evs d : read_dataset req evs d → told evs (Get KDataset req) (inr d).
Proof. intros [rest ->]. by left. Qed.

(** ** The Dataset reconciler *)

Lemma relabelled_labels d i : same_labels (di_Meta i) (di_Meta (relabelled d i)).
Proof.
  intros key Hkey. unfold relabelled. cbn. rewrite lookup_partial_alter_ne by done.
  by destruct (om_Labels (di_Meta i)).
Qed.

Lemma permitted_disciplined req evs o : permitted req evs o → disciplined (nn_Namespace req) evs o.
Proof.
  destruct 1 as [o Hr|d s Hd Hs|d opts pods plugin Hd _ _ _ _|d ns job Hd _ _ Hns Hjob
    |d spec i Hd _ _ _ Hi|d i Hd Hi].
  - by split; destruct o.
  - apply read_dataset_told in Hd. split.
    + exists req, d. split_and!; [done|done|by left].
    + intros Hh. left. apply told_honest in Hd; [|done]. cbn in *. by rewrite <-Hd.
  - apply read_dataset_told in Hd. split.
    + exists req, d. split_and!; [done|done|]. split_and!; [done|done|by apply same_finalizers_refl].
    + intros Hh. left. apply told_honest in Hd; [|done]. cbn in *. by rewrite <-Hd.
  - split; [done|]. intros _. right. exists "OPERATOR_NAMESPACE". cbn. by rewrite Hjob.
  - split; [done|]. intros Hh. left. apply read_dataset_told in Hd.
    apply told_honest in Hd; [|done].
    apply (proj1 (Forall_forall _ _) Hh _) in Hi. cbn in Hi.
    apply owned_namespace in Hi. cbn in *. injection Hi as -> _. by rewrite <-Hd.
  - split.
    + exists req, i. split_and!; [done|done|].
      split_and!; [done|done|apply relabelled_labels|by apply same_finalizers_refl].
    + intros Hh. left. apply told_honest in Hi; [|done]. cbn in *. by rewrite <-Hi.
Qed.

Lemma Dataset_disciplined req :
  guarded (DatasetController.Reconcile req) [] (disciplined (nn_Namespace req)).
Proof. eapply guarded_mono; [apply permitted_disciplined|apply Reconcile_permitted]. Qed.

(** ** The DatasetInternal reconciler *)

Lemma mild_careful evs o : mild evs o → careful evs o.
Proof.
  destruct o as [|[] x|[] x| | | | | | | | |]; try done.
  intros (n & found & v & Ht & ->). exists n, found. split_and!; [done|done|]. split_and!; [done|done|].
  intros key Hkey. cbn. rewrite lookup_insert_ne by done.
  by destruct (sec_StringData found).
Qed.

Lemma set_finalizers_edits i fs :
  (∀ f, f ≠ datasetFinalizer → f ∈ fs ↔ f ∈ om_Finalizers (di_Meta i)) →
  edits KDatasetInternal i (set_finalizers i fs).
Proof. intros Hfs. by split_and!. Qed.

Section Internal.
Context `{Metastore} `{ControllerUtil}.

Lemma Internal_careful req : guarded (InternalController.Reconcile req) [] careful.
Proof.
  unfold InternalController.Reconcile. gsteps. split; [done|]. intros [e|i]; [done|].
  rewrite app_nil_l. case_match.
  - unfold InternalController.addFinalizer. gsteps. split; [|done]. exists req, i.
    split_and!; [solve_told|done|]. apply set_finalizers_edits.
    intros f Hf. rewrite AddFinalizer_spec. naive_solver.
  - case_decide as Hdel; [|eapply guarded_mono; [apply mild_careful|apply process_mild]].
    case_match; [|done]. apply guarded_bind_grow; [|done]. unfold finalize.
    gsteps. split; [done|]. intros [e|pvc].
    + destruct (IsNotFound e); [|done]. cbn [negb]. gsteps. split; [done|]. intros [e'|sec].
      * destruct (IsNotFound e'); [|done]. cbn [negb]. gsteps. split; [|done].
        exists req, i. split_and!; [solve_told|done|]. apply set_finalizers_edits.
        intros f Hf. rewrite RemoveFinalizer_spec. naive_solver.
      * by gsteps.
    + by gsteps.
Qed.

Lemma within_located ns evs o : within ns evs o → located ns evs o.
Proof.
  intros Hw Hh. apply Hw in Hh. destruct o; try done; cbn in Hh; left; naive_solver.
Qed.

Lemma Internal_disciplined req :
  guarded (InternalController.Reconcile req) [] (disciplined (nn_Namespace req)).
Proof.
  apply guarded_and; [apply Internal_careful|].
  eapply guarded_mono; [apply within_located|apply Reconcile_within].
Qed.
End Internal.

(** ** The cache plugin *)

(** A creation in the namespace of Rook. *)
Lemma rook_creation req evs k (x : Object k) :
  k ≠ KDataset → told evs (Getenv "ROOK_NAMESPACE") (om_Namespace (meta_of k x)) →
  disciplined (nn_Namespace req) evs (Create k x).
Proof. intros Hk Ht. split; [done|]. intros _. right. eauto. Qed.

Lemma rook_deletion req evs k n (x : Object k) :
  k ≠ KDataset → k ≠ KDatasetInternal →
  told evs (Getenv "ROOK_NAMESPACE") (nn_Namespace n) → told evs (Get k n) (inr x) →
  (∀ m, scoped k m = m) → disciplined (nn_Namespace req) evs (Delete k x).
Proof.
  intros Hk Hk' He Hx Hall. split; [done|]. intros Hh. right. exists "ROOK_NAMESPACE".
  apply told_honest in Hx; [|done]. unfold okey in Hx. rewrite !Hall in Hx.
  by rewrite <-Hx in He.
Qed.

Ltac csteps := unfold kdelete; esteps.

Section Ceph.
Context `{ControllerUtil} (req : NamespacedName).
Notation tidy := (disciplined (nn_Namespace req)).

Lemma tidy_read evs o : is_write o = false → tidy evs o.
Proof. by split; destruct o. Qed.
Ltac cread := split; [by apply tidy_read|].

Lemma delete_if_present_tidy k name f evs :
  k ≠ KDataset → k ≠ KDatasetInternal → (∀ m, scoped k m = m) →
  guarded (delete_if_present k name f) evs tidy.
Proof.
  intros Hk Hk' Hs. unfold delete_if_present. csteps. cread. intros ns. cread.
  intros [e|x]; [by destruct (IsNotFound e)|]. csteps. split; [|by intros []].
  apply rook_deletion with (n := MkNamespacedName ns name); try done; solve_told.
Qed.

Lemma finalizeDataset_tidy d evs : guarded (finalizeDataset d) evs tidy.
Proof.
  unfold finalizeDataset.
  repeat (apply guarded_bind_grow;
    [by apply delete_if_present_tidy|intros ? [ret|?]; [done|]]).
  done.
Qed.

Section Read.
Context (d : Dataset).

Lemma ceph_update evs fs :
  told evs (Get KDataset req) (inr d) →
  (∀ f, f ≠ datasetsFinalizer → f ∈ fs ↔ f ∈ om_Finalizers (ds_Meta d)) →
  tidy evs (Update KDataset (set_ds_finalizers d fs)).
Proof.
  intros Hd Hfs. split.
  - exists req, d. split_and!; [done|done|]. by split_and!.
  - intros Hh. left. apply told_honest in Hd; [|done]. cbn in *. by rewrite <-Hd.
Qed.

Lemma error_tidy evs msg :
  told evs (Get KDataset req) (inr d) → guarded (addErrorToDataset msg d) evs tidy.
Proof.
  intros Hd. unfold addErrorToDataset. csteps. split; [|done]. split.
  - exists req, d. split_and!; [done|done|]. destruct d as [m sp [[c ci] p]]. by right.
  - intros Hh. left. apply told_honest in Hd; [|done]. cbn in *. by rewrite <-Hd.
Qed.

Lemma deletion_tidy evs : told evs (Get KDataset req) (inr d) → guarded (deletion d) evs tidy.
Proof.
  intros Hd. unfold deletion. case_match; [|done].
  apply guarded_bind_grow; [apply finalizeDataset_tidy|]. intros l [e|]; [done|]. csteps.
  split; [|done]. apply ceph_update; [solve_told|]. intros f Hf.
  rewrite RemoveFinalizer_spec. naive_solver.
Qed.

Lemma internal_stage_tidy evs : guarded (internal_stage req d) evs tidy.
Proof.
  unfold internal_stage. csteps. cread. intros [e|i]; [by destruct (IsNotFound e)|].
  assert (∀ g l evs', told evs' (Get KDatasetInternal req) (inr i) →
    tidy evs' (StatusUpdate KDatasetInternal (set_placements i g l))) as Hs.
  { intros g l evs' Hi. split; [by exists req, i|].
    intros Hh. left. apply told_honest in Hi; [|done]. cbn in *. by rewrite <-Hi. }
  unfold updateCachingPlacements. destruct (needs_placements d i); [|done].
  unfold rgw_pods, osd_pods. csteps. cread. intros ns. cread.
  intros [e|[|p ps]]; [done|done|]. csteps. cread. intros ns'. cread.
  intros [e|[|q qs]]; [done|done|]. csteps. split; [|done].
  apply Hs. solve_told.
Qed.

Lemma object_stage_tidy k name create evs :
  (∀ l, guarded create (evs ++ l) tidy) → guarded (object_stage k name d create) evs tidy.
Proof.
  intros Hc. unfold object_stage. csteps. cread. intros ns. cread.
  intros [e|x]; [|by destruct (isSameCephObject _ _)].
  destruct (IsNotFound e); [|done]. apply guarded_bind_grow; [|by intros ? []].
  rewrite <-app_assoc. apply Hc.
Qed.

Lemma config_map_tidy evs : guarded (createCustomConfigMapForRados d) evs tidy.
Proof.
  unfold createCustomConfigMapForRados. csteps. cread. intros ns. split; [|done].
  apply rook_creation; [done|]. solve_told.
Qed.

Lemma object_store_tidy evs : guarded (createCephObjectStore d) evs tidy.
Proof.
  unfold createCephObjectStore. csteps. cread. intros ns.
  apply guarded_bind_grow.
  - unfold gateway_node. destruct (map_get _ _); [|done]. csteps. cread. by intros [|[]].
  - intros l host. csteps. split; [|done]. apply rook_creation; [done|]. solve_told.
Qed.

Lemma object_user_tidy evs : guarded (createCephObjectStoreUser d) evs tidy.
Proof.
  unfold createCephObjectStoreUser. csteps. cread. intros ns. split; [|done].
  apply rook_creation; [done|]. solve_told.
Qed.

Lemma wait_stage_tidy k name evs : guarded (wait_stage k name) evs tidy.
Proof.
  unfold wait_stage. csteps. cread. intros ns. cread. intros [e|x]; [|done].
  by destruct (IsNotFound e).
Qed.

Lemma internal_creation_tidy evs secret service :
  told evs (Get KDataset req) (inr d) → guarded (internal_creation d secret service) evs tidy.
Proof.
  intros Hd. unfold internal_creation. csteps. cread. intros [e|i]; [done|]. csteps. split.
  - split; [done|]. intros Hh. left. apply Forall_app in Hh as [Hh Hlast].
    apply (Forall_singleton honest) in Hlast. apply owned_namespace in Hlast.
    apply told_honest in Hd; [|done]. cbn in *. injection Hlast as -> _.
    by rewrite <-Hd.
  - intros [e|]; [done|]. case_match; [done|]. unfold CephCache.addFinalizer. csteps.
    split; [|by intros []]. apply ceph_update; [solve_told|]. intros f Hf.
    rewrite AddFinalizer_spec. naive_solver.
Qed.

Lemma then_stage_tidy {A B} (p : prog Kube (reconciled + A))
    (f : A → prog Kube (reconciled + B)) evs :
  guarded p evs tidy → (∀ l a, guarded (f a) (evs ++ l) tidy) →
  guarded (then_stage p f) evs tidy.
Proof. intros Hp Hf. apply guarded_bind_grow; [done|]. intros l [res|a]; [done|]. apply Hf. Qed.

Lemma provision_tidy evs :
  told evs (Get KDataset req) (inr d) → guarded (provision req d) evs tidy.
Proof.
  intros Hd. unfold provision.
  apply then_stage_tidy; [apply internal_stage_tidy|intros l1 []].
  apply then_stage_tidy.
  { unfold clusters_stage. csteps. cread. intros ns. cread. intros [e|[|c cs]]; [| |done].
    - apply guarded_bind_grow; [|by intros]. apply error_tidy. solve_told.
    - apply guarded_bind_grow; [|by intros]. apply error_tidy. solve_told. }
  intros l2 []. apply then_stage_tidy.
  { apply object_stage_tidy. intros l. apply config_map_tidy. }
  intros l3 config. apply then_stage_tidy.
  { apply object_stage_tidy. intros l. apply object_store_tidy. }
  intros l4 store. apply then_stage_tidy.
  { unfold ready_stage. case_decide; [|done]. unfold rgw_pods. csteps. cread. intros ns.
    cread. by intros [e|[|p ps]]. }
  intros l5 []. apply then_stage_tidy.
  { apply object_stage_tidy. intros l. apply object_user_tidy. }
  intros l6 user. apply then_stage_tidy; [apply wait_stage_tidy|]. intros l7 secret.
  apply then_stage_tidy; [apply wait_stage_tidy|]. intros l8 service.
  destruct (foreign_service service store); [done|]. apply internal_creation_tidy. solve_told.
Qed.
End Read.

Lemma Ceph_disciplined : guarded (CephCache.Reconcile req) [] tidy.
Proof.
  unfold CephCache.Reconcile. csteps. cread. intros [e|d]; [by destruct (IsNotFound e)|].
  case_decide; [apply deletion_tidy; solve_told|].
  apply guarded_bind_grow; [apply provision_tidy; solve_told|by intros ? []].
Qed.
End Ceph.
