(* ===== verification/Concurrency.v ===== *)
(** * The controllers at work together

    The reconcilers of the operator and of the cache plugin, any number of them at any
    point of their work, interleaved with one another and with the other clients of
    the API server, which may serve stale reads and fail any request
    ([SharedServer.v]).  The theorems are about every call of a reconciler in every
    execution. *)

From Stdlib Require Import ZArith Lia.
From stdpp Require Import options.
From S2P Require Import Prelude GoStd KubeApi KubeServer DatasetController DatasetSafety Metastore InternalController InternalSafety CephCache CephSafety Interleave SharedServer Careful.

Open Scope Z_scope.

(** ** The system *)

Inductive reconciler :=
  | DatasetReconciler (req : NamespacedName)
  | InternalReconciler (req : NamespacedName)
  | CephReconciler (req : NamespacedName).

Definition request (r : reconciler) : NamespacedName :=
  match r with DatasetReconciler n | InternalReconciler n | CephReconciler n => n end.

(** What an answer goes on meaning. *)
Definition accounts {S} {h : handler Kube S} `{!SharedServer h} (s : S) (e : event Kube) : Prop :=
  match e with
  | Ev (Get k n) (inr x) => stored_once s k (scoped k n) x
  | Ev (SetControllerReference k _ x) (inr x') => owned k x x'
  | Ev (Getenv name) v => v = process_env s name
  | _ => True
  end.

Lemma accounts_honest {S} {h : handler Kube S} `{!SharedServer h} s e :
  sound s → accounts s e → honest e.
Proof.
  intros Hs. destruct e as [[k n| | | | | | | | | | |k owner x] r]; cbn in *; try done.
  destruct r as [e|x]; [done|]. by apply shared_key.
Qed.

Section System.
Context `{Metastore} `{ControllerUtil}.

(** The work of a reconciler; the controller runtime only looks at the result. *)
Definition work (r : reconciler) : prog Kube unit :=
  match r with
  | DatasetReconciler req => (λ _, tt) <$> DatasetController.Reconcile req
  | InternalReconciler req => (λ _, tt) <$> InternalController.Reconcile req
  | CephReconciler req => (λ _, tt) <$> CephCache.Reconcile req
  end.

Lemma work_disciplined r : guarded (work r) [] (disciplined (nn_Namespace (request r))).
Proof.
  destruct r as [req|req|req]; cbn [work request]; apply guarded_fmap.
  - apply Dataset_disciplined.
  - apply Internal_disciplined.
  - apply Ceph_disciplined.
Qed.

Context {S : Type} (h : handler Kube S) `{!SharedServer h}.

(** A system: reconcilers at work on a server. *)
Abbreviation system := (@config Kube S reconciler unit).
Abbreviation sys_step others := (@step Kube S reconciler unit work h others).
Abbreviation sys_moves others := (@moves Kube S reconciler unit work h others).
Abbreviation guard := (λ r : reconciler, disciplined (nn_Namespace (request r))).

Lemma system_laws : environment_laws work h guard sound accounts.
Proof.
  split.
  - intros r. apply work_disciplined.
  - apply shared_sound.
  - intros o s Hs. remember (h o s).1 as r eqn:Hr. symmetry in Hr.
    destruct o as [k n| | | | | | | | |name| |k owner x]; cbn in r |- *; try done.
    + destruct r as [e|x]; [done|]. apply (shared_grows (Get k n) s); [done|].
      by apply shared_get.
    + rewrite (shared_env (Getenv name) s), <-Hr. apply shared_getenv.
    + destruct r as [e|x']; [done|]. by eapply shared_set_owner.
  - intros o s [[k n| | | | | | | | |name| |] r] Hs; cbn; try done.
    + destruct r as [e|x]; [done|]. by apply shared_grows.
    + by rewrite shared_env.
Qed.

Definition system_ok (c : system) : Prop := config_ok guard sound accounts c.

Lemma system_start s : sound s → system_ok (idle s).
Proof. apply idle_ok. Qed.

Lemma system_moves others c c' : rtc (sys_moves others) c c' → system_ok c → system_ok c'.
Proof. apply moves_ok, system_laws. Qed.

(** ** One call on the server *)

#[local] Instance targets_dec o k n : Decision (targets o k n).
Proof. destruct o; unfold targets; apply _. Defined.

(** A revision that the server accepts is one of the current object. *)
Lemma current_read s evs k n (old x read : Object k) :
  sound s → Forall (accounts s) evs → told evs (Get k n) (inr read) → revises k read x →
  cur s k (okey k x) = Some old → current k x old → read = old.
Proof.
  intros Hs Hevs Ht [Hkey Hv] Hcur Hc.
  apply (proj1 (Forall_forall _ _) Hevs _) in Ht. cbn in Ht.
  assert (okey k x = scoped k n) as Hn.
  { rewrite <-(shared_key s k _ read Hs Ht). unfold okey. by rewrite Hkey. }
  rewrite Hn in Hcur. apply shared_cur in Hcur; [|done].
  destruct Hc as [Hc|Hc].
  - exfalso. apply (shared_versioned s k _ read Hs Ht). by rewrite <-Hv.
  - eapply shared_version; [done|exact Ht|exact Hcur|by rewrite <-Hv].
Qed.

(** What a reconciler's call leaves of an object: the specification, the labels, the
    credentials, the finalizers of others. *)
Definition keeps (k : Kind) : Object k → Object k → Prop :=
  match k with
  | KDataset => λ old new,
      ds_Spec new = ds_Spec old ∧ om_Labels (ds_Meta new) = om_Labels (ds_Meta old) ∧
      same_finalizers datasetsFinalizer (ds_Meta old) (ds_Meta new)
  | KDatasetInternal => λ old new,
      di_Spec new = di_Spec old ∧
      om_Annotations (di_Meta new) = om_Annotations (di_Meta old) ∧
      same_labels (di_Meta old) (di_Meta new) ∧
      same_finalizers datasetFinalizer (di_Meta old) (di_Meta new)
  | KSecret => λ old new,
      om_Labels (sec_Meta new) = om_Labels (sec_Meta old) ∧
      om_Finalizers (sec_Meta new) = om_Finalizers (sec_Meta old) ∧
      ∀ key, key ≠ "remove-on-delete" →
        map_get (sec_Data new) key = map_get (sec_Data old) key
  | _ => λ old new, status_of _ new = status_of _ old
  end.

(** An object of which nothing is left was one that may go: a Secret, or a resource
    whose deletion was asked for. *)
Definition kept (k : Kind) (old : Object k) (v : option (Object k)) : Prop :=
  match v with
  | Some new => keeps k old new
  | None => (k ≠ KDataset ∧ k ≠ KDatasetInternal) ∨ om_DeletionTimestamp (meta_of k old) ≠ None
  end.

Definition user_kind (k : Kind) : Prop := k = KDataset ∨ k = KDatasetInternal ∨ k = KSecret.

Lemma keeps_refl k old : keeps k old old.
Proof. destruct k; by cbn. Qed.

Lemma same_keeps s k n old new :
  user_kind k → sound s → stored_once s k n old →
  same_meta k (meta_of k old) (meta_of k new) → same_spec k old new → keeps k old new.
Proof.
  intros Hk Hs Hold [_ Hl Ha Hf _] Hspec.
  destruct Hk as [->|[->| ->]]; cbn in *.
  - split_and!; [done|done|by apply same_finalizers_refl].
  - split_and!; [done|done| |by apply same_finalizers_refl]. intros key _. by rewrite Hl.
  - split_and!; [done|done|]. intros key _. destruct Hspec as [_ ->].
    by rewrite (shared_secret s n old Hs Hold).
Qed.

Lemma edits_keeps s k n old x new :
  user_kind k → sound s → stored_once s k n old → edits k old x →
  same_meta k (meta_of k x) (meta_of k new) → same_spec k x new → keeps k old new.
Proof.
  intros Hk Hs Hold He [_ Hl Ha Hf _] Hspec.
  destruct Hk as [->|[->| ->]]; cbn in *.
  - destruct He as (Hsp & Hls & Hfs). split_and!; [congruence|congruence|].
    intros f Hne. rewrite Hf. by apply Hfs.
  - destruct He as (Hsp & Han & Hls & Hfs). split_and!; [congruence|congruence| |].
    + intros key Hne. rewrite Hl. by apply Hls.
    + intros f Hne. rewrite Hf. by apply Hfs.
  - destruct He as (Hd & Hm & Hsd). rewrite Hm in Hl, Hf. split_and!; [done|done|].
    intros key Hne. destruct Hspec as [_ ->]. rewrite Hsd, Hd by done.
    by rewrite (shared_secret s n old Hs Hold).
Qed.

Lemma call_keeps s ns evs o k n old :
  user_kind k → sound s → Forall (accounts s) evs → disciplined ns evs o →
  cur s k n = Some old → kept k old (cur (h o s).2 k n).
Proof.
  intros Hk Hs Hevs [Hc _] Hcur.
  assert (kept k old (Some old)) as Hsame by apply keeps_refl.
  destruct (decide (targets o k n)) as [Ht|Ht]; [|by rewrite shared_frame, Hcur].
  pose proof (shared_cur s k n old Hs Hcur) as Hold.
  destruct o as [|k' x|k' x|k' x|k' x| | | | | | |]; try done;
    destruct Ht as [-> <-]; cbn in Hc.
  - by rewrite (shared_create s k x old).
  - pose proof (shared_update s k x Hs) as Hu. cbn zeta in Hu. rewrite Hcur in Hu.
    destruct Hu as [->|[Hacc (new & -> & Hm & Hsp & _)]]; [done|].
    destruct Hc as (n' & read & Ht & Hrev & He).
    rewrite (current_read s evs k n' old x read) in He by done.
    case_decide as Hd; [right; by destruct Hd|].
    by eapply edits_keeps.
  - pose proof (shared_status_update s k x Hs) as Hu. cbn zeta in Hu. rewrite Hcur in Hu.
    destruct Hu as [->|[Hacc (new & -> & Hm & Hsp & _)]]; [done|]. by eapply same_keeps.
  - pose proof (shared_delete s k x Hs) as Hu. cbn zeta in Hu. rewrite Hcur in Hu.
    destruct Hu as [->|[[_ ->]|(new & -> & Hm & Hsp & _)]]; [done|by left|].
    by eapply same_keeps.
Qed.

(** ** Updates are not lost *)

Lemma user_edits_kept_aux others s0 c c' r evs o k n old :
  sound s0 → rtc (sys_moves others) (idle s0) c →
  sys_step others c (Calls r evs o) c' →
  user_kind k → cur (shared c) k n = Some old → kept k old (cur (shared c') k n).
Proof.
  intros Hs Hrtc Hstep Hk Hcur.
  pose proof (system_moves _ _ _ Hrtc (system_start _ Hs)) as Hok.
  destruct (step_guard work h others guard sound accounts system_laws
    c r evs o c' Hstep Hok) as [Hg Hevs].
  rewrite (step_shared _ _ _ _ _ _ Hstep). cbn.
  eapply call_keeps; [done|apply Hok|done|exact Hg|done].
Qed.

(** ** Tenants *)

Lemma call_isolated s ns evs o N k n :
  sound s → Forall (accounts s) evs → disciplined ns evs o → ns ≠ N →
  (∀ name, process_env s name ≠ N) → k ≠ KPV → nn_Namespace n = N →
  cur (h o s).2 k n = cur s k n.
Proof.
  intros Hs Hevs [_ Hl] Hns Henv Hk Hn. apply shared_frame; [done|].
  assert (Forall honest evs) as Hh.
  { eapply Forall_impl; [exact Hevs|]. intros e. by apply accounts_honest. }
  specialize (Hl Hh). intros Ht.
  assert (∀ x : Object k, okey k x = n → om_Namespace (meta_of k x) = N) as Hkey.
  { intros x <-. revert Hn. unfold okey. by destruct k. }
  assert (∀ name, told evs (Getenv name) N → False) as Hno.
  { intros name He. apply (proj1 (Forall_forall _ _) Hevs _) in He. by apply (Henv name). }
  destruct o as [|k' x|k' x|k' x|k' x| | | | | | |]; try done;
    destruct Ht as [-> Hx]; apply Hkey in Hx; rewrite Hx in Hl;
    destruct Hl as [Hl|[name Hl]]; by eauto.
Qed.

Lemma tenants_isolated_aux others s0 c c' r evs o N k n :
  sound s0 → rtc (sys_moves others) (idle s0) c →
  sys_step others c (Calls r evs o) c' →
  nn_Namespace (request r) ≠ N → (∀ name, process_env (shared c) name ≠ N) →
  k ≠ KPV → nn_Namespace n = N → cur (shared c') k n = cur (shared c) k n.
Proof.
  intros Hs Hrtc Hstep Hr Henv Hk Hn.
  pose proof (system_moves _ _ _ Hrtc (system_start _ Hs)) as Hok.
  destruct (step_guard work h others guard sound accounts system_laws
    c r evs o c' Hstep Hok) as [Hg Hevs].
  rewrite (step_shared _ _ _ _ _ _ Hstep). cbn.
  eapply call_isolated; [apply Hok|exact Hevs|exact Hg|done|done|done|done].
Qed.

(** ** The lifecycle of a dataset *)

Section Lifecycle.
Context (n : NamespacedName).

(** The other clients leave the status of the dataset to the controllers, and do not
    create it anew. *)
Definition leaves_status (o : kube_op) : Prop :=
  match o with
  | Create KDataset x | StatusUpdate KDataset x => okey KDataset x ≠ n
  | _ => True
  end.

(** How the status of the dataset may differ between two states of the server. *)
Definition status_moves (s s' : S) : Prop :=
  ∀ d', cur s' KDataset n = Some d' →
  ∃ d, cur s KDataset n = Some d ∧ rtc (system_step (nn_Name n)) (ds_Status d) (ds_Status d').

#[local] Instance status_moves_preorder : PreOrder status_moves.
Proof.
  split; [intros s d' Hd; by exists d'|].
  intros s1 s2 s3 H12 H23 d3 H3. apply H23 in H3 as (d2 & H2 & Hr2).
  apply H12 in H2 as (d1 & H1 & Hr1). exists d1. split; [done|]. by transitivity (ds_Status d2).
Qed.

Lemma status_moves_same s s' :
  (∀ d', cur s' KDataset n = Some d' →
     ∃ d, cur s KDataset n = Some d ∧ ds_Status d' = ds_Status d) → status_moves s s'.
Proof.
  intros Hd d' Hd'. apply Hd in Hd' as (d & Hc & ->). by exists d.
Qed.

(** Calls other than a creation or an update of the status leave the status alone. *)
Lemma other_call_status o s :
  sound s → leaves_status o → status_moves s (h o s).2.
Proof.
  intros Hs Ho. apply status_moves_same. intros d' Hd'.
  destruct (decide (targets o KDataset n)) as [Ht|Ht];
    [|rewrite shared_frame in Hd' by done; by exists d'].
  destruct o as [|k x|k x|k x|k x| | | | | | |]; try done;
    destruct Ht as [-> <-]; cbn in Ho; try done.
  - pose proof (shared_update s KDataset x Hs) as Hu. cbn zeta in Hu.
    destruct (cur s KDataset (okey KDataset x)) as [old|]; [|congruence].
    exists old. split; [done|]. destruct Hu as [Hu|[_ (new & Hu & _ & _ & _ & Hst)]]; [congruence|].
    rewrite Hu in Hd'. case_decide; [done|]. by injection Hd' as <-.
  - pose proof (shared_delete s KDataset x Hs) as Hu. cbn zeta in Hu.
    destruct (cur s KDataset (okey KDataset x)) as [old|]; [|congruence].
    exists old. split; [done|].
    destruct Hu as [Hu|[[_ Hu]|(new & Hu & _ & _ & _ & Hst)]]; [congruence|congruence|].
    rewrite Hu in Hd'. by injection Hd' as <-.
Qed.

Lemma reconciler_call_status s ns evs o :
  sound s → Forall (accounts s) evs → disciplined ns evs o → status_moves s (h o s).2.
Proof.
  intros Hs Hevs [Hc _].
  destruct (decide (targets o KDataset n)) as [Ht|Ht]; last first.
  { apply status_moves_same. intros d' Hd'. rewrite shared_frame in Hd' by done. by exists d'. }
  destruct o as [|k x|k x|k x|k x| | | | | | |]; try done; destruct Ht as [-> Hn]; cbn in Hc.
  - done.
  - by apply other_call_status.
  - intros d' Hd'. pose proof (shared_status_update s KDataset x Hs) as Hu. cbn zeta in Hu.
    rewrite Hn in Hu. destruct (cur s KDataset n) as [old|] eqn:Hold; [|congruence].
    exists old. split; [done|].
    destruct Hu as [Hu|[Hacc (new & Hu & _ & _ & _ & Hst)]]; [by simplify_eq|].
    rewrite Hu in Hd'. injection Hd' as ->. destruct Hc as (n' & read & Ht & Hrev & Hm).
    rewrite (current_read s evs KDataset n' old x read) in Hm; try done; [|by rewrite Hn].
    apply rtc_once. cbn in Hst, Hm. rewrite Hst.
    rewrite <-(shared_key s KDataset n old Hs (shared_cur s KDataset n old Hs Hold)). exact Hm.
  - by destruct Hc.
Qed.

Lemma system_step_lasting name s s' : system_step name s s' → lasting_step s s'.
Proof.
  destruct 1 as [s s' Hst|c ci ci' p]; [by eapply status_step_lasting|].
  split; by cbn.
Qed.

Lemma system_steps_rank name s s' :
  rtc (system_step name) s s' → statuses s' = statuses s ∨ (rank s < rank s')%nat.
Proof.
  induction 1 as [|s s1 s' Hstep _ IH]; [by left|].
  assert (statuses s1 = statuses s ∨ (rank s < rank s1)%nat) as H1.
  { destruct Hstep as [s s1 Hst|c ci ci' p]; [by eapply status_step_rank|by left]. }
  unfold rank in *. destruct H1 as [H1|H1], IH as [IH|IH].
  - left. congruence.
  - right. by rewrite H1 in IH.
  - right. by rewrite IH.
  - right. lia.
Qed.

Lemma execution_status c c' :
  system_ok c → rtc (sys_moves leaves_status) c c' → status_moves (shared c) (shared c').
Proof.
  intros Hok Hrtc.
  apply (moves_ind work h leaves_status guard sound accounts system_laws status_moves);
    [|by intros; apply other_call_status|done|done].
  intros r evs o s Hs Hg Hevs. by eapply reconciler_call_status.
Qed.

(** An execution at whose ends different statuses of the dataset are seen. *)
Definition visible_change (c c' : system) : Prop :=
  rtc (sys_moves leaves_status) c c' ∧
  ∃ d d', cur (shared c) KDataset n = Some d ∧ cur (shared c') KDataset n = Some d' ∧
    statuses (ds_Status d') ≠ statuses (ds_Status d).

Lemma visible_changes_bounded m c c' d' :
  nsteps visible_change m c c' → system_ok c → cur (shared c') KDataset n = Some d' →
  ∃ d, cur (shared c) KDataset n = Some d ∧
       (m + rank (ds_Status d) ≤ rank (ds_Status d'))%nat.
Proof.
  intros Hm. induction Hm as [c|m c c1 c' (Hr & d & d1 & Hd & Hd1 & Hne) _ IH]; intros Hok Hd'.
  - by exists d'.
  - destruct (IH (system_moves _ _ _ Hr Hok) Hd') as (d1' & Hd1' & Hle).
    rewrite Hd1 in Hd1'. injection Hd1' as <-. exists d. split; [done|].
    destruct (execution_status c c1 Hok Hr d1 Hd1) as (d0 & Hd0 & Hst).
    rewrite Hd in Hd0. injection Hd0 as <-.
    destruct (system_steps_rank _ _ _ Hst); [done|lia].
Qed.
End Lifecycle.

(** ** The theorems *)

(** (C11) No update is lost.  However the reconcilers of the operator and of the cache
    plugin are interleaved with one another, with their own restarts and with other
    clients, and however stale the reads that the API server serves, a call of a
    reconciler never overwrites what a user has changed meanwhile: of the current state
    of a Dataset or a DatasetInternal it keeps the specification, the labels (but for
    [remove-on-delete] of a DatasetInternal) and the finalizers of others, of a Secret
    every value but [remove-on-delete]; a Dataset or DatasetInternal disappears only
    if its deletion was asked for. *)
Theorem user_edits_kept others s0 c c' r evs o k n old
    (Hs : sound s0) (Hrtc : rtc (sys_moves others) (idle s0) c)
    (Hstep : sys_step others c (Calls r evs o) c')
    (Hk : user_kind k) (Hcur : cur (shared c) k n = Some old) :
  kept k old (cur (shared c') k n).
Proof. by eapply user_edits_kept_aux. Qed.

(** (C12) Tenants are isolated: in every such execution, a call of a reconciler that
    serves a request of one namespace changes no object of another namespace, unless
    that is one of the namespaces the process was configured with. *)
Theorem tenants_isolated others s0 c c' r evs o N k n
    (Hs : sound s0) (Hrtc : rtc (sys_moves others) (idle s0) c)
    (Hstep : sys_step others c (Calls r evs o) c')
    (Hr : nn_Namespace (request r) ≠ N)
    (Henv : ∀ name, process_env (shared c) name ≠ N)
    (Hk : k ≠ KPV) (Hn : nn_Namespace n = N) :
  cur (shared c') k n = cur (shared c) k n.
Proof. by eapply tenants_isolated_aux. Qed.

(** (C13) The lifecycle of a dataset survives concurrency: from any point of an
    execution from which on the other clients leave the status of the dataset to the controllers, a settled
    provision status and a caching decision are never taken back, even by a
    reconciler that works on a stale read, and at most five changes of the statuses
    are ever visible. *)
Theorem concurrent_lifecycle others n s0 c c' d d'
    (Hs : sound s0) (Hrtc : rtc (sys_moves others) (idle s0) c)
    (Hd : cur (shared c) KDataset n = Some d)
    (Hd' : cur (shared c') KDataset n = Some d') :
  (rtc (sys_moves (leaves_status n)) c c' → lasting_status (ds_Status d) (ds_Status d')) ∧
  ∀ m, nsteps (visible_change n) m c c' → (m ≤ 5)%nat.
Proof.
  pose proof (system_moves _ _ _ Hrtc (system_start _ Hs)) as Hok. split.
  - intros Hr. destruct (execution_status n c c' Hok Hr d' Hd') as (d0 & Hd0 & Hst).
    rewrite Hd in Hd0. injection Hd0 as <-.
    eapply rtc_lasting; [|exact Hst]. intros s1 s2. apply system_step_lasting.
  - intros m Hm. destruct (visible_changes_bounded n m c c' d' Hm Hok Hd') as (d0 & _ & Hle).
    pose proof (rank_bound (ds_Status d')). lia.
Qed.
End System.
