(* ===== verification/ConcurrencyWitness.v ===== *)
(** * The controllers at work together: witnesses

    The theorems of [Concurrency.v] at executions on [LagServer], the server whose reads
    lag behind: a user edits a Dataset between the read of a reconciler and its write,
    which is refused; the next reconciliation succeeds on the edited Dataset. *)

From Stdlib Require Import ZArith Lia Ascii.
From stdpp Require Import options.
From S2P Require Import Prelude GoStd KubeApi KubeServer KubeWp DatasetController DatasetSafety Metastore InternalController InternalSafety InternalProgress InternalWitness CephCache Interleave SharedServer Careful Concurrency.

Open Scope Z_scope.

Definition fresh_server : LagServer := MkLagServer blank (λ _ _, None) (λ _ _ _, False).

Lemma fresh_server_sound : lag_sound fresh_server.
Proof. by split. Qed.

Definition user_dataset (version : string) (bucket : string) : Dataset :=
  MkDataset
    (MkObjectMeta "books" "default" "u1" version None None [] [] None)
    (MkDatasetSpec (Some (list_to_map [("type", "COS"); ("bucket", bucket)]))
       None "" "" "" "") empty_status.

Definition sync : kube_op := ListNodes [].

Definition by_user (o : kube_op) : @choice Kube reconciler := @Someone Kube reconciler o.

(** The reconciler reads version [v0]; the user then writes [v1]. *)
Definition raced : list (@choice Kube reconciler) :=
  [ by_user (Create KDataset (user_dataset "" "books")); by_user sync;
    Begin (DatasetReconciler witness_req); Advance 0;
    by_user (Update KDataset (user_dataset "v0" "novels")) ].

(** The write is refused; another reconciliation reads the edited Dataset. *)
Definition retried : list (@choice Kube reconciler) :=
  raced ++ [ Advance 0; Begin (DatasetReconciler witness_req); Advance 1 ].

Definition demo_work := @work demo_metastore list_finalizers.
Definition at_work (l : list (@choice Kube reconciler)) := follow demo_work lag_handler l (idle fresh_server).

Abbreviation now c := (@cur _ lag_handler _ (shared c)).

Definition anyone (o : kube_op) : Prop := True.

Lemma at_work_moves l :
  rtc (@moves Kube LagServer reconciler unit demo_work lag_handler anyone)
    (idle fresh_server) (at_work l).
Proof. apply follow_moves. apply Forall_forall. by intros [] _. Qed.

Lemma user_edits_kept_witness :
  (∃ d, now (at_work raced) KDataset witness_req = Some d ∧
     ds_Spec d = ds_Spec (user_dataset "v0" "novels") ∧
     kept KDataset d (now (advance lag_handler 0 (at_work raced)) KDataset witness_req)) ∧
  ∃ d, now (at_work retried) KDataset witness_req = Some d ∧
     kept KDataset d (now (advance lag_handler 1 (at_work retried)) KDataset witness_req).
Proof.
  split.
  - eexists. split; [vm_compute; reflexivity|]. split; [reflexivity|].
    eapply (@user_edits_kept demo_metastore list_finalizers LagServer lag_handler _ anyone
      fresh_server (at_work raced));
      [exact fresh_server_sound|apply at_work_moves| |by left|vm_compute; reflexivity].
    eapply (advance_step demo_work lag_handler anyone 0). reflexivity.
  - eexists. split; [vm_compute; reflexivity|].
    eapply (@user_edits_kept demo_metastore list_finalizers LagServer lag_handler _ anyone
      fresh_server (at_work retried));
      [exact fresh_server_sound|apply at_work_moves| |by left|vm_compute; reflexivity].
    eapply (advance_step demo_work lag_handler anyone 1). reflexivity.
Defined.

(** The stale write was refused, the other one was accepted. *)
Example raced_write_refused :
  now (advance lag_handler 0 (at_work raced)) KDataset witness_req
  = now (at_work raced) KDataset witness_req.
Proof. vm_compute. reflexivity. Qed.

Example retried_write_accepted :
  (λ d, (ds_Spec d, provision_status d)) <$>
    now (advance lag_handler 1 (at_work retried)) KDataset witness_req
  = Some (ds_Spec (user_dataset "" "novels"), StatusInitial).
Proof. vm_compute. reflexivity. Qed.

(** ** Tenants *)

Definition tenant_req : NamespacedName := MkNamespacedName "tenant" "books".
Definition tenant_secret : Secret :=
  MkSecret (new_meta "books" "tenant" None) None (Some {[ "accessKeyID" := "id" ]}).

Definition two_tenants : list (@choice Kube reconciler) :=
  by_user (Create KSecret tenant_secret) :: retried.

Lemma tenants_isolated_witness :
  (∃ sec, now (at_work two_tenants) KSecret tenant_req = Some sec) ∧
  now (advance lag_handler 1 (at_work two_tenants)) KSecret tenant_req
  = now (at_work two_tenants) KSecret tenant_req.
Proof.
  split; [eexists; vm_compute; reflexivity|].
  eapply (@tenants_isolated demo_metastore list_finalizers LagServer lag_handler _ anyone
    fresh_server (at_work two_tenants) _ (DatasetReconciler witness_req) _ _ "tenant");
    [exact fresh_server_sound|apply at_work_moves| |done| |done|reflexivity].
  - eapply (advance_step demo_work lag_handler anyone 1). reflexivity.
  - intros name. by vm_compute.
Defined.

(** ** The lifecycle *)

Definition created : list (@choice Kube reconciler) :=
  [ by_user (Create KDataset (user_dataset "" "books")); by_user sync ].
Definition initialising : list (@choice Kube reconciler) :=
  [ Begin (DatasetReconciler witness_req); Advance 0; Advance 0 ].
Definition initialised : @config Kube LagServer reconciler unit :=
  follow demo_work lag_handler initialising (at_work created).

Lemma initialised_moves :
  rtc (@moves Kube LagServer reconciler unit demo_work lag_handler
         (@leaves_status witness_req)) (at_work created) initialised.
Proof. apply follow_moves. by repeat constructor. Qed.

Lemma concurrent_lifecycle_witness :
  ∃ d d', now (at_work created) KDataset witness_req = Some d ∧
    now initialised KDataset witness_req = Some d' ∧
    lasting_status (ds_Status d) (ds_Status d') ∧ statuses (ds_Status d') ≠ statuses (ds_Status d) ∧
    ∀ m, nsteps (@visible_change demo_metastore list_finalizers LagServer lag_handler _
                   witness_req) m (at_work created) initialised → (m ≤ 5)%nat.
Proof.
  eexists _, _. split; [vm_compute; reflexivity|]. split; [vm_compute; reflexivity|].
  match goal with |- lasting_status (ds_Status ?d) (ds_Status ?d') ∧ _ =>
    pose proof (@concurrent_lifecycle demo_metastore list_finalizers LagServer lag_handler _
      anyone witness_req fresh_server (at_work created) initialised d d' fresh_server_sound
      (at_work_moves created)
      ltac:(vm_compute; reflexivity) ltac:(vm_compute; reflexivity)) as [Hl Hm]
  end.
  split; [apply Hl, initialised_moves|]. split; [by vm_compute|exact Hm].
Defined.
