(* ===== verification/Nfs.v ===== *)
(** * The NFS driver

    Model of [csi-driver-nfs/pkg/nfs]: the node server ([nodeserver.go]), the
    controller and identity servers ([controllerserver.go], [indentityserver.go]), the
    driver ([nfs.go]) and [ParseEndpoint] ([utils.go]).  The answer [None] of
    [NodePublishVolume] is the end of the process ([log.Fatal]). *)

From Stdlib Require Import ZArith Lia Ascii.
From stdpp Require Import options.
From S2P Require Import Prelude GoStd Path NodeApi.

Open Scope Z_scope.

(** ** Driver *)

Inductive ControllerCapability := CAPABILITY_UNKNOWN | CREATE_DELETE_VOLUME.
Inductive NfsAccessMode := NFS_MULTI_NODE_MULTI_WRITER.

Record nfsDriver := MkNfsDriver {
  drv_name : string;
  drv_nodeID : string;
  drv_version : string;
  drv_endpoint : string;
  drv_cap : list NfsAccessMode;
  drv_cscap : list ControllerCapability }.

Definition AddVolumeCapabilityAccessModes (n : nfsDriver) (vc : list NfsAccessMode) : nfsDriver :=
  MkNfsDriver (drv_name n) (drv_nodeID n) (drv_version n) (drv_endpoint n) vc (drv_cscap n).

Definition AddControllerServiceCapabilities (n : nfsDriver) (cl : list ControllerCapability) :
    nfsDriver :=
  MkNfsDriver (drv_name n) (drv_nodeID n) (drv_version n) (drv_endpoint n) (drv_cap n) cl.

Definition NewNFSdriver (nodeID endpoint : string) : nfsDriver :=
  AddControllerServiceCapabilities
    (AddVolumeCapabilityAccessModes
       (MkNfsDriver "csi-nfsplugin" nodeID "1.0.0-rc2" endpoint [] [])
       [NFS_MULTI_NODE_MULTI_WRITER])
    [CAPABILITY_UNKNOWN].

(** [GetPluginInfo]. *)
Definition GetPluginInfo (d : nfsDriver) : rpcerr + (string * string) :=
  if decide (drv_name d = "") then inl (StatusError Unavailable "Driver name not configured")
  else if decide (drv_version d = "") then
    inl (StatusError Unavailable "Driver is missing version")
  else inr (drv_name d, drv_version d).

(** [ParseEndpoint]: the protocol and the address. *)
Definition ParseEndpoint (ep : string) : option (string * string) :=
  if HasPrefix (ToLower ep) "unix://" || HasPrefix (ToLower ep) "tcp://" then
    match SplitN2 ep "://" with
    | [s0; s1] => if decide (s1 ≠ "") then Some (s0, s1) else None
    | _ => None
    end
  else None.

(** ** Node *)

Record NfsPublishRequest := MkNfsPublishRequest {
  nr_VolumeId : string;
  nr_TargetPath : string;
  nr_MountFlags : list string;
  nr_Readonly : bool;
  nr_VolumeContext : gomap }.

Definition mount_options (req : NfsPublishRequest) : list string :=
  nr_MountFlags req ++ (if nr_Readonly req then ["ro"] else []).

(** The share, as [server:path]. *)
Definition share (req : NfsPublishRequest) : string :=
  map_index (nr_VolumeContext req) "server" +:+ ":" +:+ map_index (nr_VolumeContext req) "share".

Definition createDirPVC (req : NfsPublishRequest) : bool :=
  (ParseBool (map_index (nr_VolumeContext req) "createDirPVC")).1.

(** The status of a failed mount. *)
Definition mount_error (e : errno) : rpcerr :=
  if err_permission e then StatusError PermissionDenied (err_message e)
  else if Contains (err_message e) "invalid argument" then
    StatusError InvalidArgument (err_message e)
  else StatusError Internal (err_message e).

Definition unmounted_error (e : errno) : rpcerr :=
  if err_not_exist e then StatusError NotFound "Targetpath not found"
  else StatusError Internal (err_message e).

(** Create the directory of the volume on the share, through a temporary mount; the
    answer is the source to mount. *)
Definition create_directory (req : NfsPublishRequest) : prog Node (option (rpcerr + string)) :=
  r ← do OsTempDir;
  match r with
  | inl _ => Ret None
  | inr dir =>
      err ← do (DoMount (share req) dir "nfs" (mount_options req));
      match (err : option errno) with
      | Some e => Ret (Some (inl (mount_error e)))
      | None =>
          err ← do (OsMkdirAll (path_Join dir (nr_VolumeId req)) 511);
          match (err : option errno) with
          | Some e => Ret (Some (inl (internal e)))
          | None =>
              r ← do (IsLikelyNotMountPoint dir);
              match r with
              | inl e => Ret (Some (inl (unmounted_error e)))
              | inr true => Ret (Some (inl (StatusError NotFound "Volume not mounted")))
              | inr false =>
                  err ← do (CleanupMountPoint dir);
                  match (err : option errno) with
                  | Some e => Ret (Some (inl (internal e)))
                  | None => Ret (Some (inr (path_Join (share req) (nr_VolumeId req))))
                  end
              end
          end
      end
  end.

(** The part of [NodePublishVolume] for a target that is not mounted yet. *)
Definition mount_share (req : NfsPublishRequest) : prog Node (option (rpcerr + unit)) :=
  r ← (if createDirPVC req then create_directory req else Ret (Some (inr (share req))));
  match r with
  | None => Ret None
  | Some (inl e) => Ret (Some (inl e))
  | Some (inr source) =>
      err ← do (DoMount source (nr_TargetPath req) "nfs" (mount_options req));
      match (err : option errno) with
      | Some e => Ret (Some (inl (mount_error e)))
      | None => Ret (Some (inr tt))
      end
  end.

Definition NodePublishVolume (req : NfsPublishRequest) : prog Node (option (rpcerr + unit)) :=
  r ← do (IsLikelyNotMountPoint (nr_TargetPath req));
  match r with
  | inl e =>
      if err_not_exist e then
        err ← do (OsMkdirAll (nr_TargetPath req) 488);
        match (err : option errno) with
        | Some e => Ret (Some (inl (internal e)))
        | None => mount_share req
        end
      else Ret (Some (inl (internal e)))
  | inr false => Ret (Some (inr tt))
  | inr true => mount_share req
  end.

Definition NodeUnpublishVolume (targetPath : string) : rpc unit :=
  r ← do (IsLikelyNotMountPoint targetPath);
  match r with
  | inl e => fail (unmounted_error e)
  | inr true => fail (StatusError NotFound "Volume not mounted")
  | inr false => or_fail (do (CleanupMountPoint targetPath)) internal (succeed tt)
  end.

(** ** The other handlers

    Under their names with the prefix [nfs_].  A response without fields is [tt]. *)

Definition NewDefaultIdentityServer (d : nfsDriver) : nfsDriver := d.
Definition NewControllerServer (d : nfsDriver) : nfsDriver := d.
(** Its mounter is that of the node, the environment. *)
Definition NewNodeServer (n : nfsDriver) : nfsDriver := n.

Definition unimplemented {A} : rpcerr + A := inl (StatusError Unimplemented "").

(** [controllerserver.go]; the receiver is the driver of the server. *)
Definition nfs_CreateVolume (cs : nfsDriver) : rpcerr + unit := unimplemented.
Definition nfs_DeleteVolume (cs : nfsDriver) : rpcerr + unit := unimplemented.
Definition nfs_ControllerPublishVolume (cs : nfsDriver) : rpcerr + unit := unimplemented.
Definition nfs_ControllerUnpublishVolume (cs : nfsDriver) : rpcerr + unit := unimplemented.
Definition nfs_ValidateVolumeCapabilities (cs : nfsDriver) : rpcerr + unit := unimplemented.
Definition nfs_ListVolumes (cs : nfsDriver) : rpcerr + unit := unimplemented.
Definition nfs_GetCapacity (cs : nfsDriver) : rpcerr + unit := unimplemented.
Definition nfs_ControllerGetCapabilities (cs : nfsDriver) : rpcerr + list ControllerCapability :=
  inr (drv_cscap cs).
Definition nfs_CreateSnapshot (cs : nfsDriver) : rpcerr + unit := unimplemented.
Definition nfs_DeleteSnapshot (cs : nfsDriver) : rpcerr + unit := unimplemented.
Definition nfs_ListSnapshots (cs : nfsDriver) : rpcerr + unit := unimplemented.
Definition nfs_ControllerExpandVolume (cs : nfsDriver) : rpcerr + unit := unimplemented.

(** [indentityserver.go]. *)
Inductive PluginCapability := CONTROLLER_SERVICE.
Definition nfs_Probe (ids : nfsDriver) : rpcerr + unit := inr tt.
Definition nfs_GetPluginCapabilities (ids : nfsDriver) : rpcerr + list PluginCapability :=
  inr [CONTROLLER_SERVICE].

(** [nodeserver.go]. *)
Inductive NodeCapability := NODE_UNKNOWN.
Definition nfs_NodeGetInfo (ns : nfsDriver) : rpcerr + string := inr (drv_nodeID ns).
Definition nfs_NodeGetCapabilities (ns : nfsDriver) : rpcerr + list NodeCapability :=
  inr [NODE_UNKNOWN].
Definition nfs_NodeGetVolumeStats (ns : nfsDriver) : rpcerr + unit := unimplemented.
Definition nfs_NodeUnstageVolume (ns : nfsDriver) : rpcerr + unit := inr tt.
Definition nfs_NodeStageVolume (ns : nfsDriver) : rpcerr + unit := inr tt.
Definition nfs_NodeExpandVolume (ns : nfsDriver) : rpcerr + unit := unimplemented.

(** ** Endpoints *)

Lemma cut_at_prefix s sub :
  HasPrefix s sub = true → cut_at s sub = Some ("", str_drop (String.length sub) s).
Proof. intros H. destruct s; cbn -[HasPrefix str_drop]; by rewrite H. Qed.

Lemma cut_at_step d s sub :
  HasPrefix (String d s) sub = false →
  cut_at (String d s) sub = ('(b, a) ← cut_at s sub; Some (String d b, a)).
Proof. intros H. cbn -[HasPrefix str_drop]. by rewrite H. Qed.

Lemma cut_at_no_char s a c sub :
  no_char c s → cut_at (s +:+ String c sub +:+ a) (String c sub) = Some (s, a).
Proof.
  induction s as [|d s IH]; intros Hs.
  - change ("" +:+ ?t) with t. rewrite cut_at_prefix by (apply HasPrefix_spec; by exists a).
    by rewrite str_drop_app.
  - destruct Hs as [Hd Hs]. change (String d s +:+ ?t) with (String d (s +:+ t)).
    rewrite cut_at_step; [by rewrite IH|]. unfold HasPrefix. cbn. by case_match.
Qed.

Lemma lower_colon c : lower c = ":"%char → c = ":"%char.
Proof. destruct c as [[] [] [] [] [] [] [] []]; vm_compute; congruence. Qed.

(** The protocols: letters only. *)
Lemma protocol_no_colon p : ToLower p ∈ ["unix"; "tcp"] → no_char ":" p.
Proof.
  intros Hp. assert (no_char ":" (ToLower p)) as Hl.
  { by repeat (apply elem_of_cons in Hp as [->|Hp]; [done|]); apply elem_of_nil in Hp. }
  clear Hp. induction p as [|c p IH]; [done|]. destruct Hl as [Hc Hl]. split; [|by apply IH].
  intros ->. by apply Hc.
Qed.

Lemma ToLower_app s t : ToLower (s +:+ t) = ToLower s +:+ ToLower t.
Proof.
  induction s as [|c s IH]; [done|].
  change (String (lower c) (ToLower (s +:+ t)) = String (lower c) (ToLower s +:+ ToLower t)).
  by rewrite IH.
Qed.

Lemma ToLower_split s a c b :
  ToLower s = a +:+ String c b → ∃ a' c' b', s = a' +:+ String c' b' ∧ ToLower a' = a ∧
    lower c' = c ∧ ToLower b' = b.
Proof.
  revert s. induction a as [|d a IH]; intros [|e s] Hs; try done; cbn in Hs.
  - injection Hs as Hc Hb. exists "", e, s. by split_and!.
  - injection Hs as He Hs. destruct (IH s Hs) as (a' & c' & b' & -> & Ha & Hc & Hb).
    exists (String e a'), c', b'. split_and!; [done| |done|done]. cbn. by rewrite He, Ha.
Qed.

Lemma scheme_spec ep p :
  HasPrefix (ToLower ep) (p +:+ "://") = true ↔
  ∃ p' a, ep = p' +:+ "://" +:+ a ∧ ToLower p' = p.
Proof.
  rewrite HasPrefix_spec. split.
  - intros [t Ht]. rewrite str_app_assoc in Ht.
    destruct (ToLower_split ep p ":" _ Ht) as (p' & c1 & b1 & -> & Hp & Hc1 & Hb1).
    destruct (ToLower_split b1 "" "/" _ Hb1) as ([|] & c2 & b2 & -> & [=] & Hc2 & Hb2).
    destruct (ToLower_split b2 "" "/" _ Hb2) as ([|] & c3 & b3 & -> & [=] & Hc3 & Hb3).
    apply lower_colon in Hc1 as ->. exists p', b3. split; [|done].
    assert (∀ c, lower c = "/"%char → c = "/"%char) as Hslash
      by (intros [[] [] [] [] [] [] [] []]; vm_compute; congruence).
    by rewrite (Hslash c2), (Hslash c3).
  - intros (p' & a & -> & <-). exists (ToLower a).
    rewrite ToLower_app, str_app_assoc. by rewrite ToLower_app.
Qed.

(** Endpoints are parsed exactly: [ParseEndpoint] yields a protocol and an address
    exactly when the endpoint is this protocol, [://] and this address, the protocol
    is [unix] or [tcp] in any case, and the address is not empty. *)
Theorem ParseEndpoint_spec (ep proto addr : string) :
  ParseEndpoint ep = Some (proto, addr) ↔
  ep = proto +:+ "://" +:+ addr ∧ ToLower proto ∈ ["unix"; "tcp"] ∧ addr ≠ "".
Proof.
  assert (∀ p a, ToLower p ∈ ["unix"; "tcp"] → SplitN2 (p +:+ "://" +:+ a) "://" = [p; a]) as Hsplit.
  { intros p a Hp. unfold SplitN2. by rewrite (cut_at_no_char p a) by by apply protocol_no_colon. }
  unfold ParseEndpoint. split.
  - destruct (_ || _) eqn:Hpre; [|done].
    assert (∃ p a, ep = p +:+ "://" +:+ a ∧ ToLower p ∈ ["unix"; "tcp"]) as (p & a & -> & Hp).
    { apply orb_true_iff in Hpre as [Hpre|Hpre].
      - apply (scheme_spec ep "unix") in Hpre as (p & a & -> & Hp). exists p, a.
        split; [done|]. rewrite Hp. set_solver.
      - apply (scheme_spec ep "tcp") in Hpre as (p & a & -> & Hp). exists p, a.
        split; [done|]. rewrite Hp. set_solver. }
    rewrite Hsplit by done. case_decide; [|done]. by intros [= <- <-].
  - intros (-> & Hp & Ha). rewrite Hsplit by done. rewrite decide_True by done.
    assert (HasPrefix (ToLower (proto +:+ "://" +:+ addr)) "unix://"
            || HasPrefix (ToLower (proto +:+ "://" +:+ addr)) "tcp://" = true) as ->; [|done].
    apply orb_true_iff. apply elem_of_cons in Hp as [Hp|Hp].
    + left. apply (scheme_spec _ "unix"). by exists proto, addr.
    + right. apply (scheme_spec _ "tcp"). apply list_elem_of_singleton in Hp. by exists proto, addr.
Qed.
