(* ===== verification/NfsSafety.v ===== *)
(** * The NFS driver: theorems

    What a publication that succeeds has done, and why one for a read-only volume with
    a directory to create does not succeed. *)

From Stdlib Require Import ZArith Lia Ascii.
From stdpp Require Import options.
From S2P Require Import Prelude GoStd Path NodeApi S3Safety S3Files Nfs.

Open Scope Z_scope.

(** What is mounted at the target. *)
Definition nfs_source (req : NfsPublishRequest) : string :=
  if createDirPVC req then path_Join (share req) (nr_VolumeId req) else share req.

(** The calls that create the directory of the volume under [dir]. *)
Definition directory_calls (req : NfsPublishRequest) (dir : string) : list node_op :=
  [OsTempDir; DoMount (share req) dir "nfs" (mount_options req);
   OsMkdirAll (path_Join dir (nr_VolumeId req)) 511; IsLikelyNotMountPoint dir;
   CleanupMountPoint dir].

Definition final_mount (req : NfsPublishRequest) : node_op :=
  DoMount (nfs_source req) (nr_TargetPath req) "nfs" (mount_options req).

(** The calls of a publication, after the look at the target. *)
Definition mount_calls (req : NfsPublishRequest) (ops : list node_op) : Prop :=
  if createDirPVC req then ∃ dir, ops = directory_calls req dir ++ [final_mount req]
  else ops = [final_mount req].

(** The calls of a publication that succeeds. *)
Definition publish_calls (req : NfsPublishRequest) (ops : list node_op) : Prop :=
  let look := IsLikelyNotMountPoint (nr_TargetPath req) in
  ops = [look] ∨
  ∃ rest, mount_calls req rest ∧
    (ops = look :: rest ∨ ops = look :: OsMkdirAll (nr_TargetPath req) 488 :: rest).

Definition calls (evs : list (event Node)) : list node_op := ev_op <$> evs.

Lemma calls_app l l' : calls (l ++ l') = calls l ++ calls l'.
Proof. apply fmap_app. Qed.

Lemma mount_share_success req evs :
  ensures_from (mount_share req) evs (λ evs' res, res = Some (inr tt) →
    (∃ rest, mount_calls req rest ∧ calls evs' = calls evs ++ rest) ∧
    last_is evs' (final_mount req) None).
Proof.
  unfold mount_share, mount_calls, final_mount, nfs_source.
  destruct (createDirPVC req).
  - unfold create_directory. nsteps. intros [e|dir]; nsteps; [done|].
    intros [e|]; nsteps; [done|]. intros [e|]; nsteps; [done|].
    intros [e|[|]]; nsteps; [done|done|]. intros [e|]; nsteps; [done|].
    intros [e|]; nsteps; [done|]. intros _. split; [|apply last_is_app].
    eexists. split; [by exists dir|]. by rewrite !calls_app, <-!app_assoc.
  - nsteps. intros [e|]; nsteps; [done|]. intros _. split; [|apply last_is_app].
    eexists. split; [done|]. by rewrite calls_app.
Qed.

(** An NFS volume is reported published only when it is mounted: when
    [NodePublishVolume] succeeds, either the node had said that the target is a mount
    point already and nothing else was done, or the last thing the node has said is
    that the share is mounted at the target, with the flags of the request and with
    [ro] if it is read-only; when a directory is to be created for the volume, the
    share was first mounted at a temporary directory, the directory created there, and
    the temporary mount cleaned up, in this order, and it is this directory of the
    share that is mounted. *)
Theorem Nfs_publish_success (req : NfsPublishRequest) evs
    (Hb : behaviour (Nfs.NodePublishVolume req) evs (Some (inr tt))) :
  publish_calls req (calls evs) ∧
  (length evs = 1%nat ∨ last_is evs (final_mount req) None).
Proof.
  assert (ensures (Nfs.NodePublishVolume req) (λ evs res, res = Some (inr tt) →
    publish_calls req (calls evs) ∧ (length evs = 1%nat ∨ last_is evs (final_mount req) None)))
    as He; [|exact (proj1 (ensures_behaviour _ _) He evs _ Hb eq_refl)].
  unfold ensures, Nfs.NodePublishVolume, publish_calls. nsteps. intros [e|[|]]; nsteps.
  - destruct (err_not_exist e); [|done]. nsteps. intros [e'|]; nsteps; [done|].
    eapply ensures_from_mono; [|apply mount_share_success]. intros evs' res Hr Hres.
    destruct (Hr Hres) as [(rest & Hm & Hc) Hl]. split; [|by right]. right. exists rest.
    split; [done|]. right. exact Hc.
  - eapply ensures_from_mono; [|apply mount_share_success]. intros evs' res Hr Hres.
    destruct (Hr Hres) as [(rest & Hm & Hc) Hl]. split; [|by right]. right. exists rest.
    split; [done|]. left. exact Hc.
  - intros _. split; [by left|by left].
Qed.

(** The calls of a publication whose directory cannot be created. *)
Definition failed_calls (req : NfsPublishRequest) (dir : string) : list node_op :=
  [IsLikelyNotMountPoint (nr_TargetPath req); OsTempDir;
   DoMount (share req) dir "nfs" (mount_options req);
   OsMkdirAll (path_Join dir (nr_VolumeId req)) 511].

(** A read-only volume whose directory does not exist yet is never published: the
    temporary mount is read-only too, so where creating a directory on a read-only
    mount fails, as POSIX says, the publication fails with the error of the creation;
    the temporary mount is left behind. *)
Theorem Nfs_readonly_directory_fails {S : Type} (h : handler Node S) (s s1 s2 s3 s4 : S)
    (req : NfsPublishRequest) (dir : string) (e : errno)
    (Hreadonly : nr_Readonly req = true)
    (Hdir : createDirPVC req = true)
    (Hlook : h (IsLikelyNotMountPoint (nr_TargetPath req)) s = (inr true, s1))
    (Htemp : h OsTempDir s1 = (inr dir, s2))
    (Hmount : h (DoMount (share req) dir "nfs" (nr_MountFlags req ++ ["ro"])) s2 = (None, s3))
    (Herofs : h (OsMkdirAll (path_Join dir (nr_VolumeId req)) 511) s3 = (Some e, s4)) :
  let out := run h (Nfs.NodePublishVolume req) s in
  result out = Some (inl (internal e)) ∧
  trace out = failed_calls req dir.
Proof.
  cbn zeta. unfold Nfs.NodePublishVolume. cbn. rewrite Hlook. cbn.
  unfold mount_share. rewrite Hdir. unfold create_directory, mount_options. rewrite Hreadonly.
  cbn. rewrite Htemp. cbn. rewrite Hmount. cbn. rewrite Herofs. cbn. unfold failed_calls, mount_options.
  by rewrite Hreadonly.
Qed.

(** ** Witnesses *)

Definition nfs_request (readonly : bool) : NfsPublishRequest :=
  MkNfsPublishRequest "pv-1" "/pods/vol" ["vers=4"] readonly
    (Some (list_to_map [("server", "10.0.0.1"); ("share", "/exports"); ("createDirPVC", "true")])).

(** A node where the temporary directory is [/tmp/x]; its state says where a read-only
    mount is. *)
Definition nfs_node : handler Node (option string) := λ o s,
  match o return node_reply o * option string with
  | OsTempDir => (inr "/tmp/x", s)
  | DoMount _ target _ options => (None, if decide ("ro" ∈ options) then Some target else None)
  | OsMkdirAll path _ =>
      (match s with
       | Some root => if HasPrefix path (root +:+ "/")
                      then Some (MkErrno false false "read-only file system") else None
       | None => None
       end, s)
  | IsLikelyNotMountPoint path => (inr (bool_decide (path ≠ "/tmp/x")), s)
  | o => (idle_reply o, s)
  end.

Lemma nfs_publish_witness :
  let evs := events nfs_node (Nfs.NodePublishVolume (nfs_request false)) None in
  length evs = 7%nat ∧ publish_calls (nfs_request false) (calls evs).
Proof.
  split; [reflexivity|].
  refine (proj1 (Nfs_publish_success (nfs_request false) _ _)).
  exact (run_behaviour nfs_node (Nfs.NodePublishVolume (nfs_request false)) None).
Defined.

Lemma nfs_readonly_witness :
  result (run nfs_node (Nfs.NodePublishVolume (nfs_request true)) None)
  = Some (inl (StatusError Internal "read-only file system")).
Proof.
  refine (proj1 (Nfs_readonly_directory_fails nfs_node None None None (Some "/tmp/x")
    (Some "/tmp/x")     (nfs_request true) "/tmp/x" (MkErrno false false "read-only file system") _ _ _ _ _ _));
    reflexivity.
Defined.
