(* ===== verification/NfsWorld.v ===== *)
(** * A node that mounts NFS shares, and what the NFS driver promises on it

    [NfsNode] states what Linux and the NFS tools document about mounts, directories and
    shares, for a node and servers where nothing fails. [nfs_spec] is the abstract
    specification of the calls of the driver, on the shares and the mounts ([NfsWorld]): two
    do something, the others announce what the driver set up or are refused; the refinement theorem says that the handlers do exactly this,
    call after call. *)

From Stdlib Require Import ZArith Lia Ascii.
From stdpp Require Import options.
From S2P Require Import Prelude GoStd KubeWp Path NodeApi Nfs NfsSafety.

Open Scope Z_scope.

(** ** The node *)

(** What is mounted, as [server:path], with its options. *)
Abbreviation nfs_mount := (string * list string)%type.

(** [q] is below the directory [p]. *)
Definition below (p q : string) : bool := HasPrefix q (p +:+ "/").

Lemma below_irrefl p : below p p = false.
Proof.
  unfold below. apply not_true_is_false. intros [t Hp]%HasPrefix_spec.
  apply (f_equal String.length) in Hp. rewrite !str_app_length in Hp. cbn in Hp. lia.
Qed.

(** [f'] is [f] with the value [v] at [x]. *)
Definition set_at {A B} (f f' : A → B) (x : A) (v : B) : Prop :=
  f' x = v ∧ ∀ y, y ≠ x → f' y = f y.

Class NfsNode {S : Type} (h : handler Node S) := {
  nfs_at : S → string → option nfs_mount;
  (** nothing is at the path *)
  nfs_missing : S → string → bool;
  (** the directories of the servers *)
  nfs_exported : S → gset string;

  nfs_likely p s :
    if nfs_missing s p
    then ∃ e, err_not_exist e = true ∧ h (IsLikelyNotMountPoint p) s = (inl e, s)
    else h (IsLikelyNotMountPoint p) s = (inr (bool_decide (nfs_at s p = None)), s);
  nfs_there s p m : nfs_at s p = Some m → nfs_missing s p = false;
  (** a new directory of the node *)
  nfs_mkdir p perm s :
    nfs_missing s p = true → (∀ q, below q p = true → nfs_at s q = None) →
    ∃ s', h (OsMkdirAll p perm) s = (None, s') ∧ nfs_missing s' p = false ∧
      nfs_at s' = nfs_at s ∧ nfs_exported s' = nfs_exported s;
  (** a directory of the share that is mounted at [dir] *)
  nfs_mkdir_shared dir src options name perm s :
    nfs_at s dir = Some (src, options) → "ro" ∉ options → plain_component name →
    (∀ q, below q dir = true ∨ below dir q = true → nfs_at s q = None) →
    path_Join dir name = dir +:+ "/" +:+ name →
    ∃ s', h (OsMkdirAll (path_Join dir name) perm) s = (None, s') ∧
      (∀ q, nfs_missing s q = false → nfs_missing s' q = false) ∧
      nfs_at s' = nfs_at s ∧ nfs_exported s' = {[ path_Join src name ]} ∪ nfs_exported s;
  (** a new directory under a new name, on no share *)
  nfs_temp s : ∃ dir s', h OsTempDir s = (inr dir, s') ∧
    nfs_missing s' dir = false ∧ nfs_missing s dir = true ∧
    (∀ q, nfs_missing s q = false → below dir q = false ∧ nfs_missing s' q = false) ∧
    (∀ q, below q dir = true → nfs_at s q = None) ∧
    (∀ name, plain_component name → path_Join dir name = dir +:+ "/" +:+ name) ∧
    nfs_at s' = nfs_at s ∧ nfs_exported s' = nfs_exported s;
  (** a mount hides what is below the directory *)
  nfs_mounting src p options s :
    nfs_missing s p = false → nfs_at s p = None → (∀ q, below p q = true → nfs_at s q = None) →
    src ∈ nfs_exported s →
    ∃ s', h (DoMount src p "nfs" options) s = (None, s') ∧
      set_at (nfs_at s) (nfs_at s') p (Some (src, options)) ∧
      (∀ q, below p q = false → nfs_missing s q = false → nfs_missing s' q = false) ∧
      nfs_exported s' = nfs_exported s;
  (** the directory of a mount is removed with it *)
  nfs_cleanup p m s :
    nfs_at s p = Some m → (∀ q, below p q = true → nfs_at s q = None) →
    ∃ s', h (CleanupMountPoint p) s = (None, s') ∧
      set_at (nfs_at s) (nfs_at s') p None ∧ nfs_missing s' p = true ∧
      (∀ q, q ≠ p → below p q = false → nfs_missing s q = false → nfs_missing s' q = false) ∧
      nfs_exported s' = nfs_exported s }.

(** ** The specification *)

Record NfsWorld := MkNfsWorld {
  nw_exports : gset string;
  nw_mounts : gmap string nfs_mount }.

Definition with_nfs (w : NfsWorld) (p : string) (m : option nfs_mount) : NfsWorld :=
  MkNfsWorld (nw_exports w) (partial_alter (λ _, m) p (nw_mounts w)).

Definition with_export (w : NfsWorld) (src : string) : NfsWorld :=
  MkNfsWorld ({[ src ]} ∪ nw_exports w) (nw_mounts w).

(** The calls of the controller, identity and node services that touch nothing. *)
Inductive NfsPlain :=
  | NcCreateVolume | NcDeleteVolume | NcControllerPublish | NcControllerUnpublish
  | NcValidate | NcListVolumes | NcCapacity | NcControllerCapabilities
  | NcCreateSnapshot | NcDeleteSnapshot | NcListSnapshots | NcControllerExpand
  | NcProbe | NcPluginCapabilities | NcPluginInfo
  | NcNodeInfo | NcNodeCapabilities | NcVolumeStats | NcStage | NcUnstage | NcNodeExpand.

Inductive NfsCall :=
  | NcPublish (req : NfsPublishRequest)
  | NcUnpublish (target : string)
  | NcPlain (c : NfsPlain).

Inductive NfsResponse :=
  | NsDone
  | NsControllerCapabilities (l : list ControllerCapability)
  | NsPluginCapabilities (l : list PluginCapability)
  | NsNodeCapabilities (l : list NodeCapability)
  | NsPluginInfo (name version : string)
  | NsNodeInfo (nodeID : string).

Definition responding {A} (f : A → NfsResponse) (r : rpcerr + A) : rpcerr + NfsResponse :=
  match r with inl e => inl e | inr a => inr (f a) end.

Definition done_or (r : rpcerr + unit) : rpcerr + NfsResponse := responding (λ _, NsDone) r.

Definition nfs_plain (d : nfsDriver) (c : NfsPlain) : rpcerr + NfsResponse :=
  match c with
  | NcCreateVolume => done_or (nfs_CreateVolume d)
  | NcDeleteVolume => done_or (nfs_DeleteVolume d)
  | NcControllerPublish => done_or (nfs_ControllerPublishVolume d)
  | NcControllerUnpublish => done_or (nfs_ControllerUnpublishVolume d)
  | NcValidate => done_or (nfs_ValidateVolumeCapabilities d)
  | NcListVolumes => done_or (nfs_ListVolumes d)
  | NcCapacity => done_or (nfs_GetCapacity d)
  | NcControllerCapabilities =>
      responding NsControllerCapabilities (nfs_ControllerGetCapabilities d)
  | NcCreateSnapshot => done_or (nfs_CreateSnapshot d)
  | NcDeleteSnapshot => done_or (nfs_DeleteSnapshot d)
  | NcListSnapshots => done_or (nfs_ListSnapshots d)
  | NcControllerExpand => done_or (nfs_ControllerExpandVolume d)
  | NcProbe => done_or (nfs_Probe d)
  | NcPluginCapabilities => responding NsPluginCapabilities (nfs_GetPluginCapabilities d)
  | NcPluginInfo => responding (λ x, NsPluginInfo x.1 x.2) (GetPluginInfo d)
  | NcNodeInfo => responding NsNodeInfo (nfs_NodeGetInfo d)
  | NcNodeCapabilities => responding NsNodeCapabilities (nfs_NodeGetCapabilities d)
  | NcVolumeStats => done_or (nfs_NodeGetVolumeStats d)
  | NcStage => done_or (nfs_NodeStageVolume d)
  | NcUnstage => done_or (nfs_NodeUnstageVolume d)
  | NcNodeExpand => done_or (nfs_NodeExpandVolume d)
  end.

(** The driver [d] serves a call. *)
Definition nfs_call (d : nfsDriver) (c : NfsCall) : prog Node (option (rpcerr + NfsResponse)) :=
  match c with
  | NcPublish req => r ← Nfs.NodePublishVolume req; Ret (option_map done_or r)
  | NcUnpublish target => r ← Nfs.NodeUnpublishVolume target; Ret (Some (done_or r))
  | NcPlain c => Ret (Some (nfs_plain d c))
  end.

Fixpoint nfs_calls (d : nfsDriver) (cs : list NfsCall) :
    prog Node (list (option (rpcerr + NfsResponse))) :=
  match cs with
  | [] => Ret []
  | c :: cs =>
      r ← nfs_call d c;
      l ← nfs_calls d cs;
      Ret (r :: l)
  end.

(** What the driver of the node [nodeID] answers: it offers neither provisioning nor
    attachment nor snapshots, and has nothing to stage. *)
Definition plain_spec (nodeID : string) (c : NfsPlain) : code + NfsResponse :=
  match c with
  | NcStage | NcUnstage | NcProbe => inr NsDone
  | NcControllerCapabilities => inr (NsControllerCapabilities [CAPABILITY_UNKNOWN])
  | NcPluginCapabilities => inr (NsPluginCapabilities [CONTROLLER_SERVICE])
  | NcPluginInfo => inr (NsPluginInfo "csi-nfsplugin" "1.0.0-rc2")
  | NcNodeInfo => inr (NsNodeInfo nodeID)
  | NcNodeCapabilities => inr (NsNodeCapabilities [NODE_UNKNOWN])
  | _ => inl Unimplemented
  end.

(** The world with the volume mounted. *)
Definition published (w : NfsWorld) (req : NfsPublishRequest) : NfsWorld :=
  match nw_mounts w !! nr_TargetPath req with
  | Some _ => w
  | None =>
      with_nfs (if createDirPVC req then with_export w (nfs_source req) else w)
        (nr_TargetPath req) (Some (nfs_source req, mount_options req))
  end.

(** What a call answers, an error code or a response, and the world it leaves. *)
Definition nfs_spec (nodeID : string) (w : NfsWorld) (c : NfsCall) :
    (code + NfsResponse) * NfsWorld :=
  match c with
  | NcPublish req => (inr NsDone, published w req)
  | NcUnpublish target =>
      match nw_mounts w !! target with
      | Some _ => (inr NsDone, with_nfs w target None)
      | None => (inl NotFound, w)
      end
  | NcPlain c => (plain_spec nodeID c, w)
  end.

Fixpoint nfs_spec_all (nodeID : string) (w : NfsWorld) (cs : list NfsCall) :
    list (code + NfsResponse) * NfsWorld :=
  match cs with
  | [] => ([], w)
  | c :: cs =>
      let out := nfs_spec_all nodeID (nfs_spec nodeID w c).2 cs in
      ((nfs_spec nodeID w c).1 :: out.1, out.2)
  end.

(** The share can be mounted at the target, and the directory of the volume made. *)
Definition can_mount (w : NfsWorld) (req : NfsPublishRequest) : Prop :=
  share req ∈ nw_exports w ∧
  (createDirPVC req = true →
     nr_Readonly req = false ∧ "ro" ∉ nr_MountFlags req ∧ plain_component (nr_VolumeId req)) ∧
  (** no mount above or below the target *)
  ∀ q, below q (nr_TargetPath req) = true ∨ below (nr_TargetPath req) q = true →
       nw_mounts w !! q = None.

Definition nfs_servable (w : NfsWorld) (c : NfsCall) : Prop :=
  match c with
  | NcPublish req => nw_mounts w !! nr_TargetPath req = None → can_mount w req
  | NcUnpublish target => ∀ q, below target q = true → nw_mounts w !! q = None
  | NcPlain _ => True
  end.

Fixpoint nfs_servable_all (nodeID : string) (w : NfsWorld) (cs : list NfsCall) : Prop :=
  match cs with
  | [] => True
  | c :: cs => nfs_servable w c ∧ nfs_servable_all nodeID (nfs_spec nodeID w c).2 cs
  end.

(** The answer of a handler, as the specification has it. *)
Definition nfs_answers (r : option (rpcerr + NfsResponse)) (a : code + NfsResponse) : Prop :=
  match a with
  | inr x => r = Some (inr x)
  | inl c => ∃ m, r = Some (inl (StatusError c m))
  end.

(** ** The handlers *)

Section Refinement.
Context {S : Type} (h : handler Node S) `{!NfsNode h}.

Definition nfs_shows (s : S) (w : NfsWorld) : Prop :=
  (∀ p, nfs_at s p = nw_mounts w !! p) ∧ nfs_exported s = nw_exports w.

Lemma nfs_shows_mount s s' w p m :
  nfs_shows s w → set_at (nfs_at s) (nfs_at s') p m → nfs_exported s' = nfs_exported s →
  nfs_shows s' (with_nfs w p m).
Proof using Type.
  intros [Hm Hx] [Hp Ho] He. split; [|by rewrite He]. intros q. cbn.
  destruct (decide (q = p)) as [->|Hne]; [by rewrite lookup_partial_alter_eq|].
  by rewrite lookup_partial_alter_ne, Ho.
Qed.

(** The temporary mount is gone. *)
Lemma nfs_shows_restored s w p m :
  nw_mounts w !! p = None → nfs_shows s (with_nfs (with_nfs w p m) p None) → nfs_shows s w.
Proof using Type.
  intros Hp [Hm Hx]. split; [|exact Hx]. intros q. rewrite Hm. cbn.
  destruct (decide (q = p)) as [->|Hne]; [by rewrite lookup_partial_alter_eq|].
  by rewrite !lookup_partial_alter_ne.
Qed.

Lemma nfs_shows_export s s' w x :
  nfs_shows s w → nfs_at s' = nfs_at s → nfs_exported s' = {[x]} ∪ nfs_exported s →
  nfs_shows s' (with_export w x).
Proof using Type. intros [Hm Hx] Ha He. split; [by rewrite Ha|by rewrite He, Hx]. Qed.

Lemma nfs_shows_same s s' w :
  nfs_shows s w → nfs_at s' = nfs_at s → nfs_exported s' = nfs_exported s → nfs_shows s' w.
Proof using Type. intros [Hm Hx] Ha He. split; [by rewrite Ha|by rewrite He]. Qed.

Lemma wp_answered {B} o (f : node_reply o → prog Node B) s r s' (Q : B → S → Prop) :
  h o s = (r, s') → wp h (f r) s' Q → wp h (do o ≫= f) s Q.
Proof using Type. intros Ho HQ. unfold do, call. apply wp_call. by rewrite Ho. Qed.

(** The directory of the volume: the temporary mount comes and goes. *)
Lemma wp_create_directory req s w (Q : option (rpcerr + string) → S → Prop) :
  nfs_shows s w → nfs_missing s (nr_TargetPath req) = false → can_mount w req →
  createDirPVC req = true →
  (∀ s', nfs_shows s' (with_export w (nfs_source req)) →
     nfs_missing s' (nr_TargetPath req) = false → Q (Some (inr (nfs_source req))) s') →
  wp h (create_directory req) s Q.
Proof using Type*.
  intros Hw Ht (Hx & Hdir & _) Hc HQ. destruct (Hdir Hc) as (Hro & Hflags & Hname).
  assert (mount_options req = nr_MountFlags req) as Hopt
    by (unfold mount_options; rewrite Hro; apply app_nil_r).
  assert (nfs_source req = path_Join (share req) (nr_VolumeId req)) as Hsrc
    by (unfold nfs_source; by rewrite Hc).
  unfold create_directory.
  destruct (nfs_temp s) as (dir & s1 & H1 & Hd1 & Hnew & Hk1 & Hlocal & Hjoin & Ha1 & Hx1).
  apply (wp_answered _ _ _ _ _ _ H1). destruct (Hk1 _ Ht) as [Hbt Ht1].
  assert (nfs_at s dir = None) as Hfree.
  { destruct (nfs_at s dir) as [m|] eqn:Hm; [|done]. apply nfs_there in Hm. congruence. }
  assert (∀ q, below dir q = true → nfs_at s q = None) as Hempty.
  { intros q Hq. destruct (nfs_at s q) as [m|] eqn:Hm; [|done].
    apply nfs_there, Hk1 in Hm as [Hm _]. congruence. }
  destruct (nfs_mounting (share req) dir (mount_options req) s1) as (s2 & H2 & Hset2 & Hk2 & Hx2);
    [done|by rewrite Ha1|by rewrite Ha1|by rewrite Hx1, (proj2 Hw)|].
  apply (wp_answered _ _ _ _ _ _ H2).
  assert (∀ q, below q dir = true ∨ below dir q = true → q ≠ dir → nfs_at s2 q = None) as Halone.
  { intros q Hq Hne. rewrite (proj2 Hset2) by done. rewrite Ha1. destruct Hq; auto. }
  assert (∀ q, below q dir = true ∨ below dir q = true → nfs_at s2 q = None) as Hall.
  { intros q Hq. apply Halone; [done|]. intros ->. rewrite below_irrefl in Hq. by destruct Hq. }
  destruct (nfs_mkdir_shared dir (share req) (mount_options req) (nr_VolumeId req) 511 s2)
    as (s3 & H3 & Hk3 & Ha3 & Hx3); [apply Hset2|by rewrite Hopt|done|done|by apply Hjoin|].
  apply (wp_answered _ _ _ _ _ _ H3).
  assert (nfs_at s3 dir = Some (share req, mount_options req)) as Hat3 by (rewrite Ha3; apply Hset2).
  pose proof (nfs_likely dir s3) as Hl. rewrite (nfs_there s3 dir _ Hat3), Hat3 in Hl.
  apply (wp_answered _ _ _ _ _ _ Hl). rewrite bool_decide_false by done.
  destruct (nfs_cleanup dir _ s3 Hat3) as (s4 & H4 & Hset4 & _ & Hk4 & Hx4);
    [intros q Hq; rewrite Ha3; auto|].
  apply (wp_answered _ _ _ _ _ _ H4). apply wp_ret. rewrite <-Hsrc. apply HQ.
  - assert (nfs_shows s2 (with_nfs w dir (Some (share req, mount_options req)))) as Hw2
      by (eapply nfs_shows_mount; [by eapply nfs_shows_same|done|done]).
    apply (nfs_shows_restored _ _ dir (Some (share req, mount_options req)));
      [cbn; by rewrite <-(proj1 Hw)|].
    eapply nfs_shows_mount; [|exact Hset4|exact Hx4].
    change (with_nfs (with_export w ?x) ?p ?m) with (with_export (with_nfs w p m) x).
    eapply nfs_shows_export; [exact Hw2|done|by rewrite Hsrc].
  - apply Hk4; [|done|by apply Hk3, Hk2]. intros Heq. congruence.
Qed.

Lemma wp_mount_share req s w (Q : option (rpcerr + unit) → S → Prop) :
  nfs_shows s w → nfs_missing s (nr_TargetPath req) = false →
  nw_mounts w !! nr_TargetPath req = None → can_mount w req →
  (∀ s', nfs_shows s' (published w req) → Q (Some (inr tt)) s') →
  wp h (mount_share req) s Q.
Proof using Type*.
  intros Hw Ht Hfree Hcan HQ. unfold published in HQ. rewrite Hfree in HQ.
  assert (∀ s1 w1, nfs_shows s1 w1 → nfs_missing s1 (nr_TargetPath req) = false →
    nw_mounts w1 = nw_mounts w → nfs_source req ∈ nw_exports w1 →
    w1 = (if createDirPVC req then with_export w (nfs_source req) else w) →
    wp h (err ← do (DoMount (nfs_source req) (nr_TargetPath req) "nfs" (mount_options req));
          match err with Some e => Ret (Some (inl (mount_error e))) | None => Ret (Some (inr tt)) end)
      s1 Q) as Hmount.
  { intros s1 w1 Hw1 Ht1 Hm1 Hx1 ->. destruct Hcan as (_ & _ & Hapart).
    destruct (nfs_mounting (nfs_source req) (nr_TargetPath req) (mount_options req) s1)
      as (s2 & H2 & Hset & _ & Hx2); [done|..].
    - by rewrite (proj1 Hw1), Hm1.
    - intros q Hq. rewrite (proj1 Hw1), Hm1. apply Hapart. by right.
    - by rewrite (proj2 Hw1).
    - apply (wp_answered _ _ _ _ _ _ H2), wp_ret, HQ. by eapply nfs_shows_mount. }
  unfold mount_share, nfs_source in *. destruct (createDirPVC req) eqn:Hc.
  - apply wp_bind, (wp_create_directory req s w); [done..|]. unfold nfs_source. rewrite Hc.
    intros s' Hw' Ht'. apply (Hmount s' _ Hw' Ht'); [done| |done]. cbn. set_solver.
  - apply (Hmount s w Hw Ht); [done|apply Hcan|done].
Qed.

Lemma nfs_publish_refines req s w :
  nfs_shows s w → (nw_mounts w !! nr_TargetPath req = None → can_mount w req) →
  wp h (Nfs.NodePublishVolume req) s (λ r s',
    r = Some (inr tt) ∧ nfs_shows s' (published w req)).
Proof using Type*.
  intros Hw Hcan. unfold Nfs.NodePublishVolume.
  pose proof (nfs_likely (nr_TargetPath req) s) as Hl.
  destruct (nfs_missing s (nr_TargetPath req)) eqn:Hmiss.
  - destruct Hl as (e & He & Hl). apply (wp_answered _ _ _ _ _ _ Hl). rewrite He.
    assert (nw_mounts w !! nr_TargetPath req = None) as Hfree.
    { rewrite <-(proj1 Hw). destruct (nfs_at s _) as [m|] eqn:Hm; [|done].
      apply nfs_there in Hm. congruence. }
    destruct (nfs_mkdir (nr_TargetPath req) 488 s Hmiss) as (s1 & H1 & Ht1 & Ha1 & Hx1).
    { intros q Hq. rewrite (proj1 Hw). apply Hcan; auto. }
    apply (wp_answered _ _ _ _ _ _ H1).
    apply (wp_mount_share req s1 w); [by eapply nfs_shows_same|done|done|auto|].
    intros s2 Hw2. by split.
  - apply (wp_answered _ _ _ _ _ _ Hl). rewrite (proj1 Hw).
    destruct (nw_mounts w !! nr_TargetPath req) as [m|] eqn:Hm.
    + rewrite bool_decide_false by done. apply wp_ret. split; [done|]. unfold published. by rewrite Hm.
    + rewrite bool_decide_true by done.
      apply (wp_mount_share req s w); [done|done|done|auto|]. intros s2 Hw2. by split.
Qed.

Lemma nfs_unpublish_refines d nodeID target s w :
  nfs_shows s w → nfs_servable w (NcUnpublish target) →
  wp h (nfs_call d (NcUnpublish target)) s (λ r s',
    nfs_answers r (nfs_spec nodeID w (NcUnpublish target)).1 ∧
    nfs_shows s' (nfs_spec nodeID w (NcUnpublish target)).2).
Proof using Type*.
  intros Hw Hempty. cbn in Hempty. cbn [nfs_call nfs_spec]. apply wp_bind. unfold Nfs.NodeUnpublishVolume.
  pose proof (nfs_likely target s) as Hl. pose proof (proj1 Hw target) as Hat.
  destruct (nfs_missing s target) eqn:Hmiss.
  - destruct Hl as (e & He & Hl). apply (wp_answered _ _ _ _ _ _ Hl).
    destruct (nw_mounts w !! target) as [m|]; [apply nfs_there in Hat; congruence|].
    do 2 apply wp_ret. split; [|done]. unfold unmounted_error. rewrite He. by eexists.
  - apply (wp_answered _ _ _ _ _ _ Hl). rewrite Hat.
    destruct (nw_mounts w !! target) as [m|].
    + rewrite bool_decide_false by done.
      destruct (nfs_cleanup target m s Hat) as (s1 & H1 & Hset & _ & _ & Hx1);
        [intros q Hq; rewrite (proj1 Hw); auto|].
      unfold or_fail. apply (wp_answered _ _ _ _ _ _ H1). do 2 apply wp_ret. split; [done|].
      by eapply nfs_shows_mount.
    + rewrite bool_decide_true by done. do 2 apply wp_ret. split; [by eexists|done].
Qed.

Lemma nfs_plain_refines nodeID endpoint c :
  nfs_answers (Some (nfs_plain (NewNFSdriver nodeID endpoint) c)) (plain_spec nodeID c).
Proof using Type. by destruct c; try exists "". Qed.

Lemma nfs_call_refines nodeID endpoint c s w :
  nfs_shows s w → nfs_servable w c →
  wp h (nfs_call (NewNFSdriver nodeID endpoint) c) s (λ r s',
    nfs_answers r (nfs_spec nodeID w c).1 ∧ nfs_shows s' (nfs_spec nodeID w c).2).
Proof using Type*.
  destruct c as [req|target|c]; intros Hw Hs; [|by apply nfs_unpublish_refines|].
  - apply wp_bind. eapply wp_mono; [by apply nfs_publish_refines|].
    intros r s1 [-> Hw1]. by apply wp_ret.
  - apply wp_ret. split; [apply nfs_plain_refines|done].
Qed.

Lemma nfs_calls_refine nodeID endpoint cs s w :
  nfs_shows s w → nfs_servable_all nodeID w cs →
  wp h (nfs_calls (NewNFSdriver nodeID endpoint) cs) s (λ rs s',
    Forall2 nfs_answers rs (nfs_spec_all nodeID w cs).1 ∧
    nfs_shows s' (nfs_spec_all nodeID w cs).2).
Proof using Type*.
  revert s w. induction cs as [|c cs IH]; intros s w Hw Hs; [by apply wp_ret|].
  destruct Hs as [Hc Hs]. cbn [nfs_calls]. apply wp_bind.
  eapply wp_mono; [by apply nfs_call_refines|]. intros r s1 [Hr Hw1]. apply wp_bind.
  eapply wp_mono; [by apply IH|]. intros l s2 [Hl Hw2]. apply wp_ret. by split; [constructor|].
Qed.
End Refinement.


(** ** Volumes *)

(** The calls for a volume: published twice, withdrawn twice. *)
Definition volume_calls (req : NfsPublishRequest) : list NfsCall :=
  [NcPublish req; NcPublish req; NcUnpublish (nr_TargetPath req); NcUnpublish (nr_TargetPath req)].

Definition made_directory (req : NfsPublishRequest) : gset string :=
  if createDirPVC req then {[ nfs_source req ]} else ∅.

Lemma published_new w req :
  nw_mounts w !! nr_TargetPath req = None →
  nw_mounts (published w req)
    = <[nr_TargetPath req := (nfs_source req, mount_options req)]> (nw_mounts w) ∧
  nw_exports (published w req) = made_directory req ∪ nw_exports w.
Proof.
  intros Hfree. unfold published, made_directory. rewrite Hfree.
  destruct (createDirPVC req); (split; [done|cbn; set_solver]).
Qed.

Lemma published_again w req m :
  nw_mounts w !! nr_TargetPath req = Some m → published w req = w.
Proof. intros Hm. unfold published. by rewrite Hm. Qed.

Lemma volume_calls_spec nodeID w req :
  nw_mounts w !! nr_TargetPath req = None → can_mount w req →
  ∃ w1 w2, nfs_spec_all nodeID w (take 2 (volume_calls req)) = ([inr NsDone; inr NsDone], w1) ∧
    nfs_spec_all nodeID w (volume_calls req)
      = ([inr NsDone; inr NsDone; inr NsDone; inl NotFound], w2) ∧
    nfs_servable_all nodeID w (volume_calls req) ∧
    nw_mounts w1 !! nr_TargetPath req = Some (nfs_source req, mount_options req) ∧
    nw_mounts w2 = nw_mounts w ∧ nw_exports w2 = made_directory req ∪ nw_exports w.
Proof.
  intros Hfree Hcan. destruct (published_new w req Hfree) as [Hm1 Hx1].
  set (w1 := published w req) in *.
  assert (nw_mounts w1 !! nr_TargetPath req = Some (nfs_source req, mount_options req)) as Hat
    by (rewrite Hm1; apply lookup_insert_eq).
  assert (nfs_spec nodeID w (NcPublish req) = (inr NsDone, w1)) as Hs1 by done.
  assert (nfs_spec nodeID w1 (NcPublish req) = (inr NsDone, w1)) as Hs2
    by (cbn; by rewrite (published_again w1 req _ Hat)).
  set (w2 := with_nfs w1 (nr_TargetPath req) None).
  assert (nfs_spec nodeID w1 (NcUnpublish (nr_TargetPath req)) = (inr NsDone, w2)) as Hs3 by (cbn; by rewrite Hat).
  assert (nw_mounts w2 = nw_mounts w) as Hm2.
  { apply map_eq. intros p. cbn. destruct (decide (p = nr_TargetPath req)) as [->|Hne].
    - by rewrite lookup_partial_alter_eq.
    - by rewrite lookup_partial_alter_ne, Hm1, lookup_insert_ne. }
  assert (nfs_spec nodeID w2 (NcUnpublish (nr_TargetPath req)) = (inl NotFound, w2)) as Hs4
    by (cbn [nfs_spec]; by rewrite Hm2, Hfree).
  exists w1, w2. unfold volume_calls. cbn [take nfs_spec_all nfs_servable_all].
  rewrite Hs1. cbn [fst snd]. rewrite Hs2. cbn [fst snd]. rewrite Hs3. cbn [fst snd].
  rewrite Hs4. split_and!; try done.
  - by intros _.
  - cbn [nfs_servable]. by rewrite Hat.
  - intros q Hq. rewrite Hm1. destruct Hcan as (_ & _ & Hapart).
    rewrite lookup_insert_ne; [by apply Hapart; right|]. intros <-. by rewrite below_irrefl in Hq.
  - intros q Hq. rewrite Hm2. by apply Hcan; right.
Qed.

(** A volume comes and goes: published twice it is mounted once, withdrawn it is gone,
    with nothing else changed but for its directory on the share, which stays with the
    data; the second withdrawal is refused. *)
Theorem Nfs_volume_comes_and_goes {S : Type} (h : handler Node S) `{!NfsNode h}
    (nodeID endpoint : string) (req : NfsPublishRequest) (s : S) (w : NfsWorld)
    (Hw : nfs_shows h s w) (Hfree : nw_mounts w !! nr_TargetPath req = None)
    (Hcan : can_mount w req) :
  let d := NewNFSdriver nodeID endpoint in
  let mid := run h (nfs_calls d (take 2 (volume_calls req))) s in
  let out := run h (nfs_calls d (volume_calls req)) s in
  nfs_at (final mid) (nr_TargetPath req) = Some (nfs_source req, mount_options req) ∧
  Forall2 nfs_answers (result out) [inr NsDone; inr NsDone; inr NsDone; inl NotFound] ∧
  (∀ p, nfs_at (final out) p = nfs_at s p) ∧
  nfs_exported (final out) = made_directory req ∪ nfs_exported s.
Proof.
  cbn zeta. destruct (volume_calls_spec nodeID w req Hfree Hcan)
    as (w1 & w2 & Hs1 & Hs2 & Hall & Hat & Hm2 & Hx2).
  destruct (nfs_calls_refine h nodeID endpoint (take 2 (volume_calls req)) s w Hw) as [_ [Hmid _]].
  { cbn in Hall |- *. tauto. }
  destruct (nfs_calls_refine h nodeID endpoint (volume_calls req) s w Hw Hall) as [Hres [Hout Hexp]].
  rewrite Hs1 in Hmid. rewrite Hs2 in Hres, Hout, Hexp. cbn [fst snd] in *.
  split_and!; [by rewrite Hmid|exact Hres| |].
  - intros p. by rewrite Hout, Hm2, (proj1 Hw).
  - by rewrite Hexp, Hx2, (proj2 Hw).
Qed.
