(* ===== verification/NfsWitness.v ===== *)
(** * The NFS driver: a node in memory

    A node with directories, mounts and shares, on which the laws of [NfsNode] hold, and
    the theorems of [NfsWorld.v] on it. *)

From Stdlib Require Import ZArith Lia Ascii.
From stdpp Require Import options.
From S2P Require Import Prelude GoStd KubeWp Path NodeApi S3Files Nfs NfsSafety NfsWorld CsiWitness.

Open Scope Z_scope.

Record NfsMem := MkNfsMem {
  nm_dirs : gset string;
  nm_mounts : gmap string nfs_mount;
  nm_exports : gset string }.

Definition nm_missing (s : NfsMem) (p : string) : bool :=
  bool_decide (p ∉ nm_dirs s ∧ nm_mounts s !! p = None).

(** The mount a path lies on. *)
Definition nm_covering (s : NfsMem) (p : string) : option (string * nfs_mount) :=
  head (filter (λ x, below x.1 p = true) (map_to_list (nm_mounts s))).

Definition read_only_fs : errno := MkErrno false false "read-only file system".

Definition nm_make (s : NfsMem) (p : string) : option errno * NfsMem :=
  let made := {[ p ]} ∪ nm_dirs s in
  match nm_covering s p with
  | None => (None, MkNfsMem made (nm_mounts s) (nm_exports s))
  | Some (dir, (src, options)) =>
      if decide ("ro" ∈ options) then (Some read_only_fs, s)
      else
        let name := str_drop (String.length (dir +:+ "/")) p in
        (None, MkNfsMem made (nm_mounts s) ({[ path_Join src name ]} ∪ nm_exports s))
  end.

Fixpoint xs (n : nat) : string :=
  match n with O => "" | S n => String "x" (xs n) end.

(** A name that is longer than every path. *)
Definition nm_temp (s : NfsMem) : string :=
  xs (S (max_list (String.length <$> elements (nm_dirs s ∪ dom (nm_mounts s))))).

Definition nfs_mem : handler Node NfsMem := λ o s,
  match o return node_reply o * NfsMem with
  | IsLikelyNotMountPoint p =>
      (if nm_missing s p then inl no_such_file
       else inr (bool_decide (nm_mounts s !! p = None)), s)
  | OsMkdirAll p _ => nm_make s p
  | OsTempDir =>
      (inr (nm_temp s), MkNfsMem ({[ nm_temp s ]} ∪ nm_dirs s) (nm_mounts s) (nm_exports s))
  | DoMount src p _ options =>
      if decide (src ∈ nm_exports s)
      then (None, MkNfsMem (nm_dirs s) (<[p := (src, options)]> (nm_mounts s)) (nm_exports s))
      else (Some (MkErrno false true "access denied by server"), s)
  | CleanupMountPoint p =>
      (None, MkNfsMem (nm_dirs s ∖ {[ p ]}) (delete p (nm_mounts s)) (nm_exports s))
  | o => (idle_reply o, s)
  end.

(** ** The laws *)

Lemma xs_length n : String.length (xs n) = n.
Proof. induction n as [|n IH]; [done|]. cbn. by rewrite IH. Qed.

Lemma xs_plain n : plain_component (xs (S n)).
Proof.
  split_and!; [done..|]. induction n as [|n IH]; [by split|]. by split.
Qed.

Lemma nm_there s p : nm_missing s p = false ↔ p ∈ nm_dirs s ∨ is_Some (nm_mounts s !! p).
Proof.
  unfold nm_missing. rewrite bool_decide_eq_false, <-not_eq_None_Some.
  destruct (decide (p ∈ nm_dirs s)); destruct (decide (nm_mounts s !! p = None)); tauto.
Qed.

Lemma below_length p q : below p q = true → (String.length p < String.length q)%nat.
Proof.
  unfold below. intros [t ->]%HasPrefix_spec. rewrite !str_app_length. cbn. lia.
Qed.

Lemma there_is_short s p : nm_missing s p = false → (String.length p < String.length (nm_temp s))%nat.
Proof.
  intros Hp%nm_there. unfold nm_temp. rewrite xs_length.
  assert (p ∈ elements (nm_dirs s ∪ dom (nm_mounts s))) as Hin.
  { apply elem_of_elements, elem_of_union. destruct Hp as [|Hp]; [by left|right].
    by apply elem_of_dom. }
  assert (String.length p ≤ max_list (String.length <$> elements (nm_dirs s ∪ dom (nm_mounts s))))%nat;
    [|lia].
  apply max_list_elem_of_le, list_elem_of_fmap. by exists p.
Qed.

(** Two directories on the way to a path: one is below the other. *)
Lemma below_same p q t u :
  p +:+ "/" +:+ t = q +:+ "/" +:+ u → q = p ∨ below q p = true ∨ below p q = true.
Proof.
  unfold below. revert q. induction p as [|a p IH]; intros [|b q] H.
  - by left.
  - right; right. apply HasPrefix_spec. injection H as <- H. by exists q.
  - right; left. apply HasPrefix_spec. injection H as -> H. by exists p.
  - injection H as <- H. destruct (IH q H) as [->|[[x ->]%HasPrefix_spec|[x ->]%HasPrefix_spec]].
    + by left.
    + right; left. apply HasPrefix_spec. by exists x.
    + right; right. apply HasPrefix_spec. by exists x.
Qed.

Lemma covering_none s p : (∀ q, below q p = true → nm_mounts s !! q = None) → nm_covering s p = None.
Proof.
  intros Hall. unfold nm_covering. destruct (filter _ _) as [|[q m] l] eqn:Hf; [done|].
  assert ((q, m) ∈ filter (λ x, below x.1 p = true) (map_to_list (nm_mounts s))) as Hin
    by (rewrite Hf; by left).
  apply list_elem_of_filter in Hin as [Hb Hm%elem_of_map_to_list]. cbn in Hb.
  rewrite Hall in Hm; done.
Qed.

Lemma covering_only s dir m p :
  nm_mounts s !! dir = Some m → below dir p = true →
  (∀ q, q ≠ dir → below q p = true → nm_mounts s !! q = None) → nm_covering s p = Some (dir, m).
Proof.
  intros Hm Hb Hall. unfold nm_covering.
  assert ((dir, m) ∈ filter (λ x, below x.1 p = true) (map_to_list (nm_mounts s))) as Hin
    by (apply list_elem_of_filter; split; [done|by apply elem_of_map_to_list]).
  destruct (filter _ _) as [|[q m'] l] eqn:Hf; [by apply not_elem_of_nil in Hin|].
  assert ((q, m') ∈ filter (λ x, below x.1 p = true) (map_to_list (nm_mounts s))) as Hin'
    by (rewrite Hf; by left).
  apply list_elem_of_filter in Hin' as [Hb' Hm'%elem_of_map_to_list]. cbn in Hb'.
  destruct (decide (q = dir)) as [->|Hne]; [by rewrite Hm in Hm'; injection Hm' as ->|].
  by rewrite Hall in Hm'.
Qed.

Lemma nm_make_local s p :
  (∀ q, below q p = true → nm_mounts s !! q = None) →
  nm_make s p = (None, MkNfsMem ({[ p ]} ∪ nm_dirs s) (nm_mounts s) (nm_exports s)).
Proof. intros Hall. unfold nm_make. by rewrite covering_none. Qed.

Lemma nm_make_shared s dir src options name :
  nm_mounts s !! dir = Some (src, options) → "ro" ∉ options →
  (∀ q, below q dir = true ∨ below dir q = true → nm_mounts s !! q = None) →
  nm_make s (dir +:+ "/" +:+ name)
  = (None, MkNfsMem ({[ dir +:+ "/" +:+ name ]} ∪ nm_dirs s) (nm_mounts s)
             ({[ path_Join src name ]} ∪ nm_exports s)).
Proof.
  intros Hm Hro Hall. unfold nm_make. rewrite (covering_only s dir (src, options)).
  - rewrite decide_False by done. rewrite <-str_app_assoc at 2. by rewrite str_drop_app.
  - done.
  - apply HasPrefix_spec. exists name. by rewrite str_app_assoc.
  - intros q Hne [u Hq]%HasPrefix_spec. rewrite str_app_assoc in Hq.
    destruct (below_same _ _ _ _ Hq) as [->|Hb]; [done|]. apply Hall. tauto.
Qed.

Lemma nm_temp_fresh s q :
  nm_missing s q = false → q ≠ nm_temp s ∧ below (nm_temp s) q = false.
Proof.
  intros Hl%there_is_short. split; [intros ->; lia|].
  apply not_true_is_false. intros Hb%below_length. lia.
Qed.

Lemma nm_temp_plain s : plain_component (nm_temp s).
Proof. apply xs_plain. Qed.

#[export] Instance nfs_mem_node : NfsNode nfs_mem.
Proof.
  refine {| nfs_at s p := nm_mounts s !! p; nfs_missing := nm_missing; nfs_exported := nm_exports |}.
  - intros p s. cbn. destruct (nm_missing s p); [by exists no_such_file|done].
  - intros s p m Hm. apply nm_there. right. by eexists.
  - intros p perm s _ Hall. cbn. rewrite nm_make_local by done. eexists. split; [done|].
    split; [|done]. apply nm_there. left. cbn. set_solver.
  - intros dir src options name perm s Hm Hro _ Hall Hj. cbn. rewrite Hj.
    rewrite (nm_make_shared s dir src options name Hm Hro Hall). eexists. split; [done|].
    split; [|done]. intros q [Hq|Hq]%nm_there; apply nm_there; cbn; [set_solver|by right].
  - intros s. exists (nm_temp s). eexists. split; [done|]. split_and!; [| | | | |done|done].
    + apply nm_there. left. cbn. set_solver.
    + destruct (nm_missing s (nm_temp s)) eqn:Hm; [done|]. by apply nm_temp_fresh in Hm as [? _].
    + intros q Hq. split; [by apply nm_temp_fresh|]. apply nm_there in Hq as [Hq|Hq];
        apply nm_there; cbn; [set_solver|by right].
    + intros q [t Ht]%HasPrefix_spec. destruct (nm_temp_plain s) as (_ & _ & _ & Hn).
      rewrite Ht, !no_char_app in Hn. destruct Hn as [[_ [Hs _]] _]. done.
    + intros name Hname. unfold path_Join.
      destruct (nm_temp_plain s) as (Hne & _). rewrite decide_False by done.
      apply (Clean_plain [nm_temp s; name]); [done|].
      apply Forall_cons. split; [apply nm_temp_plain|]. by apply Forall_singleton.
  - intros src p options s Hp Hm _ Hx. cbn. rewrite decide_True by done. eexists. split; [done|].
    split_and!; [split; cbn; [by rewrite lookup_insert_eq|intros q Hq; by rewrite lookup_insert_ne]|
                |done].
    intros q _ Hq%nm_there. apply nm_there. cbn. destruct (decide (q = p)) as [->|Hne].
    + rewrite lookup_insert_eq. by right.
    + by rewrite lookup_insert_ne.
  - intros p m s Hm _. cbn. eexists. split; [done|]. split_and!; [| | |done].
    + split; cbn; [by rewrite lookup_delete_eq|intros q Hq; by rewrite lookup_delete_ne].
    + destruct (nm_missing _ p) eqn:Hmiss; [done|]. apply nm_there in Hmiss. cbn in Hmiss.
      rewrite lookup_delete_eq in Hmiss. destruct Hmiss as [Hd|[? Hd]]; [set_solver|done].
    + intros q Hne _ Hq%nm_there. apply nm_there. cbn. rewrite lookup_delete_ne by done.
      destruct Hq; [left; set_solver|by right].
Defined.

(** ** Witnesses *)

Definition nfs_start : NfsMem := MkNfsMem ∅ ∅ {["10.0.0.1:/exports"]}.
Definition nfs_world : NfsWorld := MkNfsWorld {["10.0.0.1:/exports"]} ∅.

Lemma nfs_start_shows : nfs_shows nfs_mem nfs_start nfs_world.
Proof. by split. Qed.

Lemma can_mount_new readonly :
  readonly = false → can_mount nfs_world (nfs_request readonly).
Proof.
  intros ->. split_and!.
  - unfold nfs_world. cbn. change (share (nfs_request false)) with "10.0.0.1:/exports". set_solver.
  - intros _. split; [done|]. split; [|by vm_compute]. change (nr_MountFlags _) with ["vers=4"]. set_solver.
  - intros q _. apply lookup_empty.
Qed.

Definition nfs_session : list NfsCall :=
  NcPlain NcNodeInfo :: NcPlain NcStage :: NcPlain NcCreateVolume :: volume_calls (nfs_request false).


Lemma nfs_comes_and_goes_witness :
  let out := run nfs_mem (nfs_calls (NewNFSdriver "node-1" "unix:///csi.sock")
    (volume_calls (nfs_request false))) nfs_start in
  nm_exports (final out) = {["10.0.0.1:/exports/pv-1"]} ∪ {["10.0.0.1:/exports"]}.
Proof.
  destruct (Nfs_volume_comes_and_goes nfs_mem "node-1" "unix:///csi.sock" (nfs_request false) nfs_start nfs_world
    nfs_start_shows eq_refl (can_mount_new false eq_refl)) as (_ & _ & _ & H). exact H.
Defined.
