(* ===== verification/NfsServer.v ===== *)
(** * The gRPC server of the NFS driver

    Model of [csi-driver-nfs/pkg/nfs/server.go] and [Run] ([nfs.go]).  [Start] counts the
    server in a wait group and runs [serve] as a goroutine; [Wait] waits for the group.
    The goroutines are programs of the signature [Grpc]; [gstep] interleaves them, with
    clients that stop the server at any time.  Sockets and the gRPC library answer
    anything; the wait group is the one of package [sync]. *)

From Stdlib Require Import ZArith Lia.
From stdpp Require Import options.
From S2P Require Import Prelude GoStd NodeApi Nfs.

Open Scope Z_scope.

(** ** Calls *)

(** Handles: a listener, a gRPC server, an implementation of a service. *)
Abbreviation listener := nat.
Abbreviation grpc_server := nat.
Abbreviation service := nat.

Inductive grpc_op :=
  | WgAdd (n : Z)
  | WgWait
  (* [go s.serve(endpoint, ids, cs, ns)] *)
  | GoServe (endpoint : string) (ids cs ns : option service)
  (* the field [s.server], shared by the goroutines *)
  | GetServer
  | SetServer (server : grpc_server)
  | OsRemove (path : string)
  | NetListen (proto addr : string)
  (* [glog.Fatal] ends the process: its answer is never used *)
  | Fatal (m : string)
  | GrpcNewServer
  | RegisterIdentityServer (server : grpc_server) (ids : service)
  | RegisterControllerServer (server : grpc_server) (cs : service)
  | RegisterNodeServer (server : grpc_server) (ns : service)
  | Serve (server : grpc_server) (l : listener)
  (* a nil receiver panics *)
  | GracefulStop (server : option grpc_server)
  | StopNow (server : option grpc_server).
Definition grpc_reply (o : grpc_op) : Type :=
  match o with
  | GetServer => option grpc_server
  | OsRemove _ => option errno
  | NetListen _ _ => errno + listener
  | GrpcNewServer => grpc_server
  | Serve _ _ => option errno
  | _ => unit
  end.
Definition Grpc : Sig := MkSig grpc_op grpc_reply.
Definition gdo (o : grpc_op) : prog Grpc (grpc_reply o) := @call Grpc o.

(** ** [server.go] *)

Definition nonBlocking_Start (endpoint : string) (ids cs ns : option service) : prog Grpc unit :=
  _ ← gdo (WgAdd 1);
  gdo (GoServe endpoint ids cs ns).

Definition nonBlocking_Wait : prog Grpc unit := gdo WgWait.

Definition nonBlocking_Stop : prog Grpc unit :=
  server ← gdo GetServer;
  gdo (GracefulStop server).

Definition nonBlocking_ForceStop : prog Grpc unit :=
  server ← gdo GetServer;
  gdo (StopNow server).

Definition register (ids : option service) (f : service → grpc_op) (k : prog Grpc unit) :
    prog Grpc unit :=
  match ids with
  | Some x => Call (E := Grpc) (f x) (λ _, k)
  | None => k
  end.

(** The part of [serve] with a listener. *)
Definition serve_on (l : listener) (ids cs ns : option service) : prog Grpc unit :=
  server ← gdo GrpcNewServer;
  _ ← gdo (SetServer server);
  register ids (RegisterIdentityServer server)
    (register cs (RegisterControllerServer server)
       (register ns (RegisterNodeServer server)
          (_ ← gdo (Serve server l); Ret tt))).

Definition listen (proto addr : string) (ids cs ns : option service) : prog Grpc unit :=
  r ← gdo (NetListen proto addr);
  match r with
  | inl e => gdo (Fatal ("Failed to listen: " +:+ err_message e))
  | inr l => serve_on l ids cs ns
  end.

Definition serve (endpoint : string) (ids cs ns : option service) : prog Grpc unit :=
  match ParseEndpoint endpoint with
  | None => gdo (Fatal ("Invalid endpoint: " +:+ endpoint))
  | Some (proto, addr) =>
      if decide (proto = "unix") then
        let addr := "/" +:+ addr in
        err ← gdo (OsRemove addr);
        match (err : option errno) with
        | Some e =>
            if err_not_exist e then listen proto addr ids cs ns
            else gdo (Fatal ("Failed to remove " +:+ addr +:+ ", error: " +:+ err_message e))
        | None => listen proto addr ids cs ns
        end
      else listen proto addr ids cs ns
  end.

(** ** [Run] of [nfs.go] *)

(** The three servers of the driver, as handles. *)
Definition identity_handle : service := 1%nat.
Definition controller_handle : service := 2%nat.
Definition node_handle : service := 3%nat.

Definition nfs_Run (n : nfsDriver) : prog Grpc unit :=
  _ ← nonBlocking_Start (drv_endpoint n) (Some identity_handle) (Some controller_handle)
        (Some node_handle);
  nonBlocking_Wait.

(** [handle] of [cmd/nfsplugin/main.go]. *)
Definition nfs_handle (nodeID endpoint : string) : prog Grpc unit :=
  nfs_Run (NewNFSdriver nodeID endpoint).

(** ** The process *)

(** What the goroutines share: the counter of the wait group and the field [server]. *)
Record grpc_process := MkProcess { wg : Z; field : option grpc_server }.

(** When a call returns, with which answer, and what it leaves.  [WgWait] returns when
    the counter is 0; [Fatal] and a stop without a server do not return (they end the
    process: that the other goroutines may go on here only adds executions). *)
Inductive returns : ∀ o : grpc_op, grpc_process → grpc_reply o → grpc_process → Prop :=
  | returns_add n p : returns (WgAdd n) p tt (MkProcess (wg p + n) (field p))
  | returns_wait p : wg p = 0 → returns WgWait p tt p
  | returns_go ep ids cs ns p : returns (GoServe ep ids cs ns) p tt p
  | returns_get p : returns GetServer p (field p) p
  | returns_set s p : returns (SetServer s) p tt (MkProcess (wg p) (Some s))
  | returns_remove path r p : returns (OsRemove path) p r p
  | returns_listen proto addr r p : returns (NetListen proto addr) p r p
  | returns_new s p : returns GrpcNewServer p s p
  | returns_identity s x p : returns (RegisterIdentityServer s x) p tt p
  | returns_controller s x p : returns (RegisterControllerServer s x) p tt p
  | returns_node s x p : returns (RegisterNodeServer s x) p tt p
  | returns_serve s l r p : returns (Serve s l) p r p
  | returns_graceful s p : returns (GracefulStop (Some s)) p tt p
  | returns_stop s p : returns (StopNow (Some s)) p tt p.

(** The goroutine a call starts. *)
Definition spawned (o : grpc_op) : list (prog Grpc unit) :=
  match o with
  | GoServe ep ids cs ns => [serve ep ids cs ns]
  | _ => []
  end.

Record pool := MkPool { goroutines : list (prog Grpc unit); state : grpc_process }.

(** The pool in which the main goroutine runs [main]. *)
Definition launched (main : prog Grpc unit) : pool := MkPool [main] (MkProcess 0 None).

Inductive gstep : pool → pool → Prop :=
  | gstep_call i (o : grpc_op) (k : grpc_reply o → prog Grpc unit) r gs p p' :
      gs !! i = Some (Call (E := Grpc) o k) → returns o p r p' →
      gstep (MkPool gs p) (MkPool (<[i := k r]> gs ++ spawned o) p')
  (* somebody who holds the server stops it *)
  | gstep_stop gs p : gstep (MkPool gs p) (MkPool (gs ++ [nonBlocking_Stop]) p)
  | gstep_force gs p : gstep (MkPool gs p) (MkPool (gs ++ [nonBlocking_ForceStop]) p).

(** ** The order of [serve] *)

(** The calls of [serve] from the socket to the requests. *)
Definition registrations (s : grpc_server) (ids cs ns : option service) : list grpc_op :=
  (if ids is Some x then [RegisterIdentityServer s x] else []) ++
  (if cs is Some x then [RegisterControllerServer s x] else []) ++
  (if ns is Some x then [RegisterNodeServer s x] else []).

Definition serve_plan (proto addr : string) (s : grpc_server) (l : listener)
    (ids cs ns : option service) : list grpc_op :=
  (if decide (proto = "unix") then [OsRemove addr] else []) ++
  [NetListen proto addr; GrpcNewServer; SetServer s] ++ registrations s ids cs ns ++ [Serve s l].

(** The address to listen on: a path of the file system is absolute. *)
Definition listen_address (proto addr : string) : string :=
  if decide (proto = "unix") then "/" +:+ addr else addr.

(** An old socket at the address is gone. *)
Definition socket_cleared (proto addr : string) (evs : list (event Grpc)) : Prop :=
  proto = "unix" →
  ∃ r : option errno, Ev (E := Grpc) (OsRemove addr) r ∈ evs ∧
    match r with None => True | Some e => err_not_exist e = true end.

(** What made [serve] give up. *)
Definition serve_failure (endpoint : string) (evs : list (event Grpc)) : Prop :=
  ParseEndpoint endpoint = None ∨
  (∃ path e, Ev (E := Grpc) (OsRemove path) (Some e) ∈ evs ∧ err_not_exist e = false) ∨
  (∃ proto addr e, Ev (E := Grpc) (NetListen proto addr) (inl e) ∈ evs).

Definition calls (evs : list (event Grpc)) : list grpc_op := map ev_op evs.

Lemma grpc_calls_app evs evs' : calls (evs ++ evs') = calls evs ++ calls evs'.
Proof. apply map_app. Qed.

Definition before_serving (o : grpc_op) : Prop :=
  match o with OsRemove _ | NetListen _ _ => True | _ => False end.

(** Take an interaction apart. *)
Ltac grpc_cases :=
  repeat match goal with
  | H : behaviour (Call _ _) _ _ |- _ => destruct H as (? & ? & -> & H); cbn in H
  | H : behaviour (Ret _) _ _ |- _ => destruct H as [-> <-]
  | H : behaviour (match ?x with inl _ => _ | inr _ => _ end) _ _ |- _ => destruct x; cbn in H
  | H : behaviour (register ?x _ _) _ _ |- _ => destruct x; cbn in H
  | H : ∃ _, _ |- _ => destruct H as (? & ? & -> & H); cbn in H
  | H : _ ∧ _ |- _ => destruct H as [-> _]
  end.

Definition served (endpoint : string) (ids cs ns : option service) (evs : list (event Grpc)) :
    Prop :=
  ∃ proto addr s l, let a := listen_address proto addr in
  ParseEndpoint endpoint = Some (proto, addr) ∧
  calls evs = serve_plan proto a s l ids cs ns ∧
  Ev (E := Grpc) (NetListen proto a) (inr l) ∈ evs ∧
  Ev (E := Grpc) GrpcNewServer s ∈ evs ∧ socket_cleared proto a evs.

Definition ended (endpoint : string) (evs : list (event Grpc)) : Prop :=
  serve_failure endpoint evs ∧
  ∃ pre m, calls evs = pre ++ [Fatal m] ∧ Forall before_serving pre.

Lemma listen_order proto addr ids cs ns evs :
  behaviour (listen proto addr ids cs ns) evs tt →
  (∃ s l evs', evs = Ev (E := Grpc) (NetListen proto addr) (inr l) ::
                     Ev (E := Grpc) GrpcNewServer s :: evs' ∧
     calls evs' = SetServer s :: registrations s ids cs ns ++ [Serve s l]) ∨
  (∃ e m, evs = [Ev (E := Grpc) (NetListen proto addr) (inl e); Ev (E := Grpc) (Fatal m) tt]).
Proof.
  unfold listen, serve_on. cbn. intros (r & evs' & -> & H). destruct r as [e|l]; cbn in H.
  - right. destruct H as ([] & ? & -> & -> & _). by eexists _, _.
  - left. destruct H as (s & evs1 & -> & H). exists s, l, evs1. split; [done|].
    unfold registrations, register in *. destruct H as ([] & evs2 & -> & H).
    destruct ids, cs, ns; cbn in H; grpc_cases; done.
Qed.

Lemma serve_listens endpoint proto addr ids cs ns rm evs :
  let a := listen_address proto addr in
  ParseEndpoint endpoint = Some (proto, addr) →
  calls rm = (if decide (proto = "unix") then [OsRemove a] else []) →
  socket_cleared proto a rm →
  behaviour (listen proto a ids cs ns) evs tt →
  served endpoint ids cs ns (rm ++ evs) ∨ ended endpoint (rm ++ evs).
Proof.
  intros a Hparse Hrm Hclear Hl.
  destruct (listen_order _ _ _ _ _ _ Hl) as [(s & l & evs' & -> & Hcalls)|(e & m & ->)].
  - left. exists proto, addr, s, l. cbn zeta. fold a. split; [done|]. split_and!.
    + unfold serve_plan. rewrite grpc_calls_app, Hrm. f_equal.
      change (NetListen proto a :: GrpcNewServer :: calls evs' =
              NetListen proto a :: GrpcNewServer :: SetServer s :: registrations s ids cs ns ++ [Serve s l]).
      by rewrite Hcalls.
    + set_solver.
    + set_solver.
    + intros Hu. destruct (Hclear Hu) as (r & Hr & Hok). exists r. split; [set_solver|done].
  - right. split.
    + do 2 right. exists proto, a, e. set_solver.
    + exists ((if decide (proto = "unix") then [OsRemove a] else []) ++ [NetListen proto a]), m.
      rewrite grpc_calls_app, Hrm, <-app_assoc.
      split; [done|]. case_decide; by repeat constructor.
Qed.

(** (C35) [serve] serves only what it has set up: whatever the file system and the network
    answer, either the requests are served at the address of the endpoint, by one gRPC
    server on the listener that was opened for this address, after an old socket has been
    removed (for the protocol [unix]), the server has been published for [Stop], and
    exactly the services that were given have been registered, in this order; or the
    process is ended, before any request can be served, because the endpoint is malformed,
    the old socket cannot be removed, or the address cannot be listened on. *)
Theorem serve_order (endpoint : string) (ids cs ns : option service) (evs : list (event Grpc))
    (H : behaviour (serve endpoint ids cs ns) evs tt) :
  served endpoint ids cs ns evs ∨ ended endpoint evs.
Proof.
  unfold serve in H. destruct (ParseEndpoint endpoint) as [[proto addr]|] eqn:Hparse; cbn in H.
  2:{ destruct H as ([] & ? & -> & -> & _). right. split; [by left|]. by eexists [], _. }
  pose proof (serve_listens endpoint proto addr ids cs ns) as Hserve.
  unfold listen_address, socket_cleared in Hserve. cbn zeta in Hserve.
  destruct (decide (proto = "unix")) as [->|Hp]; [|by apply (Hserve [] evs)].
  destruct H as (r & evs' & -> & H). specialize (Hserve [Ev (E := Grpc) (OsRemove _) r] evs' Hparse eq_refl).
  destruct r as [e|]; cbn in H.
  2:{ apply Hserve; [|done]. intros _. exists None. split; [by apply list_elem_of_singleton|done]. }
  destruct (err_not_exist e) eqn:He.
  - apply Hserve; [|done]. intros _. exists (Some e). split; [by apply list_elem_of_singleton|done].
  - destruct H as ([] & ? & -> & -> & _). right. split.
    + right. left. eexists _, e. split; [by left|done].
    + eexists [_], _. split; [done|]. by repeat constructor.
Qed.

(** ** [Wait] *)

(** A goroutine that neither counts in the wait group nor starts others. *)
Fixpoint quiet (p : prog Grpc unit) : Prop :=
  match p with
  | Ret _ => True
  | Call o k =>
      match o with WgAdd _ | GoServe _ _ _ _ => False | _ => True end ∧ ∀ r, quiet (k r)
  end.

Lemma register_quiet x f k :
  (∀ x, match f x with WgAdd _ | GoServe _ _ _ _ => False | _ => True end) →
  quiet k → quiet (register x f k).
Proof. intros Hf Hk. destruct x; cbn; [split; [apply Hf|done]|done]. Qed.

Lemma serve_on_quiet l ids cs ns : quiet (serve_on l ids cs ns).
Proof.
  cbn. split; [done|]. intros s. split; [done|]. intros _.
  do 3 (apply register_quiet; [done|]). cbn. by repeat split.
Qed.

Lemma listen_quiet proto addr ids cs ns : quiet (listen proto addr ids cs ns).
Proof.
  split; [done|]. intros [e|l]; [by cbn|]. apply serve_on_quiet.
Qed.

Lemma serve_quiet endpoint ids cs ns : quiet (serve endpoint ids cs ns).
Proof.
  unfold serve. destruct (ParseEndpoint endpoint) as [[proto addr]|]; [|by cbn].
  destruct (decide _); [|apply listen_quiet]. split; [done|].
  intros [err|]; cbn -[listen]; [|apply listen_quiet]. destruct (err_not_exist err); [apply listen_quiet|by cbn].
Qed.

(** The main goroutine, and the counter at each point. *)
Definition running (endpoint : string) (c : pool) : Prop :=
  let go := Call (E := Grpc) (GoServe endpoint (Some identity_handle) (Some controller_handle)
                    (Some node_handle)) (λ _, nonBlocking_Wait) in
  ∃ main gs, goroutines c = main :: gs ∧ Forall quiet gs ∧
    (main = Call (E := Grpc) (WgAdd 1) (λ _, go) ∧ wg (state c) = 0 ∨
     (main = go ∨ main = nonBlocking_Wait) ∧ wg (state c) = 1).

Lemma returns_counter o p r p' :
  returns o p r p' →
  wg p' = match o with WgAdd n => wg p + n | _ => wg p end ∧ (o = WgWait → wg p = 0).
Proof. by destruct 1. Qed.

(** The call of a goroutine, and the rest after a call that answers nothing. *)
Definition next_call (p : prog Grpc unit) : option grpc_op :=
  match p with Ret _ => None | Call o _ => Some o end.
Definition next_rest (p : prog Grpc unit) : prog Grpc unit :=
  match p with
  | Ret _ => p
  | Call o k =>
      match o return (grpc_reply o → prog Grpc unit) → prog Grpc unit with
      | WgAdd _ | WgWait | GoServe _ _ _ _ => λ k, k tt
      | _ => λ _, p
      end k
  end.

Lemma gstep_main endpoint (o : grpc_op) (k : grpc_reply o → prog Grpc unit) r gs p p' :
  running endpoint (MkPool (Call (E := Grpc) o k :: gs) p) → returns o p r p' →
  running endpoint (MkPool (k r :: gs ++ spawned o) p').
Proof.
  intros (main & gs' & Hgs & Hq & Hmain) Hret. cbn in Hgs, Hmain. injection Hgs as Hm <-.
  pose proof (f_equal next_call Hm) as Ho. pose proof (f_equal next_rest Hm) as Hk. cbn in Ho, Hk.
  destruct (returns_counter _ _ _ _ Hret) as [Hwg Hwait].
  unfold running. cbn.
  destruct Hmain as [[-> Hp]|[[->| ->] Hp]]; cbn in Ho, Hk; injection Ho as ->; destruct r.
  - eexists _, gs. rewrite Hk, app_nil_r. split; [done|]. split; [done|]. right. split; [by left|lia].
  - eexists _, (gs ++ [_]). rewrite Hk. split; [done|]. split.
    { apply Forall_app. split; [done|]. by constructor; [apply serve_quiet|]. }
    right. split; [by right|lia].
  - specialize (Hwait eq_refl). lia.
Qed.

Lemma gstep_running endpoint c c' : running endpoint c → gstep c c' → running endpoint c'.
Proof.
  intros Hrun Hstep.
  assert (quiet nonBlocking_Stop ∧ quiet nonBlocking_ForceStop) as [Hs1 Hs2] by (by repeat split).
  destruct Hstep as [i o k r gs p p' Hi Hret|gs p|gs p].
  - destruct i as [|i]; destruct gs as [|main gs]; try done; cbn in Hi.
    { injection Hi as ->. by apply gstep_main with p. }
    destruct Hrun as (main' & gs' & Hgs & Hq & Hmain). cbn in Hgs, Hmain. injection Hgs as <- <-.
    pose proof (proj1 (Forall_lookup _ _) Hq i _ Hi) as [Ho Hk].
    exists main, (<[i := k r]> gs ++ spawned o). split; [done|]. split.
    { apply Forall_app. split; [by apply Forall_insert|]. by destruct o. }
    destruct (returns_counter _ _ _ _ Hret) as [Hwg _]. cbn. by destruct o; cbn in Hwg; rewrite ?Hwg.
  - destruct Hrun as (main & gs' & Hgs & Hq & Hmain). cbn in Hgs. subst gs.
    exists main, (gs' ++ [nonBlocking_Stop]). split; [done|]. split; [|done].
    by apply Forall_app; split; [|constructor].
  - destruct Hrun as (main & gs' & Hgs & Hq & Hmain). cbn in Hgs. subst gs.
    exists main, (gs' ++ [nonBlocking_ForceStop]). split; [done|]. split; [|done].
    by apply Forall_app; split; [|constructor].
Qed.

(** [Run] never returns: [Start] adds the server to the wait group and nothing takes
    it out again, so that in every state the process can reach (any interleaving of its
    goroutines, any answers of the network, any number of calls of [Stop] and [ForceStop],
    even after [serve] is over) the main goroutine still has a call to make, and a
    [Wait] that it has reached cannot return. *)
Theorem Run_never_returns (n : nfsDriver) (c : pool) (Hc : rtc gstep (launched (nfs_Run n)) c) :
  ∃ main gs, goroutines c = main :: gs ∧ main ≠ Ret tt ∧
    (main = nonBlocking_Wait → ∀ r p', ¬ returns WgWait (state c) r p').
Proof.
  assert (running (drv_endpoint n) c) as (main & gs & Hgs & Hq & Hmain).
  { refine (rtc_ind_r (running (drv_endpoint n)) _ _ _ _ Hc); [|by eauto using gstep_running].
    eexists _, []. split; [done|]. split; [done|]. by left. }
  exists main, gs. split; [done|].
  split; [by destruct Hmain as [[-> _]|[[->| ->] _]]|].
  intros -> r p' Hret. destruct (returns_counter _ _ _ _ Hret) as [_ Hw]. specialize (Hw eq_refl).
  destruct Hmain as [[[=] _]|[_ Hp]]. lia.
Qed.

(** ** Witnesses *)

Definition demo_driver : nfsDriver := NewNFSdriver "node-1" "unix://csi/csi.sock".

Lemma serve_order_witness :
  let evs := [Ev (E := Grpc) (OsRemove "/csi/csi.sock") None;
              Ev (E := Grpc) (NetListen "unix" "/csi/csi.sock") (inr 4%nat);
              Ev (E := Grpc) GrpcNewServer 5%nat; Ev (E := Grpc) (SetServer 5%nat) tt;
              Ev (E := Grpc) (RegisterNodeServer 5%nat 3%nat) tt;
              Ev (E := Grpc) (Serve 5%nat 4%nat) None] in
  served "unix://csi/csi.sock" None None (Some 3%nat) evs.
Proof.
  cbn zeta. destruct (serve_order "unix://csi/csi.sock" None None (Some 3%nat)
    [Ev (E := Grpc) (OsRemove "/csi/csi.sock") None;
     Ev (E := Grpc) (NetListen "unix" "/csi/csi.sock") (inr 4%nat);
     Ev (E := Grpc) GrpcNewServer 5%nat; Ev (E := Grpc) (SetServer 5%nat) tt;
     Ev (E := Grpc) (RegisterNodeServer 5%nat 3%nat) tt;
     Ev (E := Grpc) (Serve 5%nat 4%nat) None]) as [Hs|(_ & pre & m & Hm & _)].
  - cbn. eexists None, _. split; [done|]. eexists (inr 4%nat), _. split; [done|]. cbn.
    eexists 5%nat, _. split; [done|]. eexists tt, _. split; [done|]. eexists tt, _. split; [done|].
    eexists None, _. by split.
  - exact Hs.
  - exfalso. apply (f_equal last) in Hm. rewrite last_snoc in Hm. discriminate Hm.
Defined.

(** [serve] is over, and [Wait] still waits. *)
Ltac grpc_step i :=
  eapply rtc_l; [eapply (gstep_call i); [reflexivity|]|
                 cbn [insert list_insert app spawned wg field]].

Lemma Run_witness :
  ∃ c, rtc gstep (launched (nfs_Run demo_driver)) c ∧
    goroutines c = [nonBlocking_Wait; Ret tt] ∧
    ∀ r p', ¬ returns WgWait (state c) r p'.
Proof.
  pose (final := MkPool [nonBlocking_Wait; Ret tt] (MkProcess 1 (Some 5%nat))).
  assert (rtc gstep (launched (nfs_Run demo_driver)) final) as Hr.
  { unfold launched, final.
    grpc_step 0%nat. { apply returns_add. }
    grpc_step 0%nat. { apply returns_go. }
    grpc_step 1%nat. { apply (returns_remove _ None). }
    grpc_step 1%nat. { apply (returns_listen _ _ (inr 4%nat)). }
    grpc_step 1%nat. { apply (returns_new 5%nat). }
    grpc_step 1%nat. { apply returns_set. }
    do 3 (grpc_step 1%nat; [constructor|]).
    grpc_step 1%nat. { apply (returns_serve _ _ None). }
    apply rtc_refl. }
  exists final. split; [exact Hr|]. split; [done|].
  destruct (Run_never_returns demo_driver final Hr) as (main & gs & Hgs & _ & Hw).
  apply Hw. by injection Hgs.
Defined.
