(* ===== verification/Startup.v ===== *)
(** * How the processes start

    Model of the set-up code: [dataset-operator/main.go], the manager of the Ceph cache
    plugin ([cmd/manager/main.go], [pkg/controller/controller.go] and [add_dataset.go],
    [Add], [newReconciler] and [add] of [dataset_controller.go]) and the S3 driver
    ([s3-driver.go], [cmd/s3driver/main.go]).  The calls of controller-runtime, of the
    operator SDK and of the CSI library are the signature [Setup]; the parsed flags are an
    argument; logging is left out.  A program ends with the exit code of the process. *)

From Stdlib Require Import ZArith Lia Ascii.
From stdpp Require Import options.
From S2P Require Import Prelude GoStd.

Open Scope Z_scope.

(** ** Calls *)

(** Handles of the objects of the libraries. *)
Abbreviation rest_config := nat.
Abbreviation manager := nat.
Abbreviation clientset := nat.
Abbreviation webhook_server := nat.
Abbreviation controller := nat.
Abbreviation metrics_service := nat.
Abbreviation csi_driver := nat.

Inductive Reconciler :=
  | DatasetReconciler (client_of : manager) (cs : clientset)
  | DatasetInternalReconciler (client_of : manager)
  (* of the Ceph cache plugin *)
  | ReconcileDataset (client_of : manager).

Inductive Scheme := OperatorScheme | DefaultScheme.
Inductive SchemeGroup := PluginApis | DatasetApis | CephApis.

Record ManagerOptions := MkManagerOptions {
  mo_Scheme : Scheme;
  mo_HealthProbeBindAddress : string;
  mo_LeaderElection : bool;
  mo_LeaderElectionID : string;
  mo_Namespace : string;
  mo_MetricsBindAddress : string;
  (** the namespaces of [MultiNamespacedCacheBuilder] *)
  mo_NewCache : option (list string) }.

Record ServicePort := MkPort { sp_Port : Z; sp_Name : string; sp_Protocol : string; sp_TargetPort : Z }.

Inductive ControllerServiceCapability := CREATE_DELETE_VOLUME.
Inductive AccessMode := SINGLE_NODE_WRITER.

Inductive setup_op :=
  (* controller-runtime *)
  | GetConfigOrDie
  | GetConfig
  | NewManager (cfg : rest_config) (opts : ManagerOptions)
  | ClientsetForConfig (cfg : rest_config)
  (* [ctrl.NewControllerManagedBy(mgr).For(&kind{}).Complete(r)] *)
  | CompleteController (mgr : manager) (kind : string) (r : Reconciler)
  | AddHealthzCheck (mgr : manager) (name : string)
  | AddReadyzCheck (mgr : manager) (name : string)
  | GetWebhookServer (mgr : manager)
  (* the handler is a [DatasetPodMutator] with the client and the decoder of the manager *)
  | RegisterPodMutator (ws : webhook_server) (path : string) (client_of : manager)
  | ControllerNew (name : string) (mgr : manager) (r : Reconciler)
  | WatchKind (c : controller) (kind : string)
  | AddToScheme (g : SchemeGroup) (mgr : manager)
  | ManagerStart (mgr : manager)
  (* the operator SDK *)
  | GetWatchNamespace
  | LeaderBecome (lock : string)
  | GetOperatorNamespace
  | GetGVKsFromAddToScheme
  | GetNamespacesForMetrics (ns : string)
  | GenerateAndServeCRMetrics (cfg : rest_config) (ns gvks : list string) (host : string) (port : Z)
  | CreateMetricsService (cfg : rest_config) (ports : list ServicePort)
  | CreateServiceMonitors (cfg : rest_config) (ns : string) (services : list (option metrics_service))
  (* the CSI library: [AddControllerServiceCapabilities], [AddVolumeCapabilityAccessModes] *)
  | NewCSIDriver (name version node : string)
  | AnnounceControllerCapabilities (d : csi_driver) (l : list ControllerServiceCapability)
  | AnnounceAccessModes (d : csi_driver) (l : list AccessMode)
  (* the identity, controller and node servers are made from the driver *)
  | StartServers (endpoint : string) (ids cs ns : csi_driver)
  | WaitServers.

(** The errors of [GetOperatorNamespace] the code tells apart. *)
Inductive ns_error := ErrRunLocal | OtherNamespaceError (m : string).

Definition setup_reply (o : setup_op) : Type :=
  match o with
  | GetConfigOrDie => rest_config
  | GetConfig => string + rest_config
  | NewManager _ _ => string + manager
  | ClientsetForConfig _ => string + clientset
  | GetWebhookServer _ => webhook_server
  | ControllerNew _ _ _ => string + controller
  | GetWatchNamespace => string + string
  | GetOperatorNamespace => string * option ns_error
  | GetGVKsFromAddToScheme | GetNamespacesForMetrics _ => string + list string
  | CreateMetricsService _ _ => option metrics_service * option string
  | NewCSIDriver _ _ _ => option csi_driver
  | RegisterPodMutator _ _ _ | StartServers _ _ _ _ | WaitServers => unit
  | AnnounceControllerCapabilities _ _ | AnnounceAccessModes _ _ => unit
  | CompleteController _ _ _ | AddHealthzCheck _ _ | AddReadyzCheck _ _ | WatchKind _ _
  | AddToScheme _ _ | ManagerStart _ | LeaderBecome _
  | GenerateAndServeCRMetrics _ _ _ _ _ | CreateServiceMonitors _ _ _ => option string
  end.
Definition Setup : Sig := MkSig setup_op setup_reply.
Definition sdo (o : setup_op) : prog Setup (setup_reply o) := @call Setup o.

(** [if err := p; err != nil { os.Exit(1) }; k]. *)
Definition or_exit (p : prog Setup (option string)) (k : prog Setup Z) : prog Setup Z :=
  err ← p;
  match err with
  | Some _ => Ret 1
  | None => k
  end.

(** [x, err := p; if err != nil { os.Exit(1) }; k(x)]. *)
Definition get_or_exit {A} (p : prog Setup (string + A)) (k : A → prog Setup Z) : prog Setup Z :=
  r ← p;
  match r with
  | inl _ => Ret 1
  | inr x => k x
  end.

(** ** [dataset-operator/main.go] *)

Record Flags := MkFlags { metricsAddr : string; probeAddr : string; enableLeaderElection : bool }.

Definition operator_options (f : Flags) : ManagerOptions :=
  MkManagerOptions OperatorScheme (probeAddr f) (enableLeaderElection f) "9889c07a.datashim.io"
    "" "" None.

Definition DatasetReconciler_SetupWithManager (cs : clientset) (mgr : manager) :
    prog Setup (option string) :=
  sdo (CompleteController mgr "Dataset" (DatasetReconciler mgr cs)).
Definition DatasetInternalReconciler_SetupWithManager (mgr : manager) : prog Setup (option string) :=
  sdo (CompleteController mgr "DatasetInternal" (DatasetInternalReconciler mgr)).

Definition operator_main (f : Flags) : prog Setup Z :=
  cfg ← sdo GetConfigOrDie;
  get_or_exit (sdo (NewManager cfg (operator_options f))) (λ mgr,
  cfg' ← sdo GetConfigOrDie;
  get_or_exit (sdo (ClientsetForConfig cfg')) (λ clientset,
  or_exit (DatasetReconciler_SetupWithManager clientset mgr) (
  or_exit (DatasetInternalReconciler_SetupWithManager mgr) (
  or_exit (sdo (AddHealthzCheck mgr "healthz")) (
  or_exit (sdo (AddReadyzCheck mgr "readyz")) (
  webhookServer ← sdo (GetWebhookServer mgr);
  _ ← sdo (RegisterPodMutator webhookServer "/mutate-v1-pod" mgr);
  or_exit (sdo (ManagerStart mgr)) (Ret 0))))))).

(** [getWatchNamespace], given the two results of [os.LookupEnv]. *)
Definition getWatchNamespace (env : string * bool) : string * option string :=
  let '(ns, hasErr) := env in
  if hasErr : bool then ("", Some "could not get the watch namespace") else (ns, None).

(** ** The manager of the Ceph cache plugin *)

Definition metricsHost : string := "0.0.0.0".
Definition metricsPort : Z := 8383.
Definition operatorMetricsPort : Z := 8686.

Definition add (mgr : manager) (r : Reconciler) : prog Setup (option string) :=
  c ← sdo (ControllerNew "dataset-controller" mgr r);
  match c with
  | inl err => Ret (Some err)
  | inr c =>
      err ← sdo (WatchKind c "Dataset");
      match err with
      | Some e => Ret (Some e)
      | None => Ret None
      end
  end.

Definition newReconciler (mgr : manager) : Reconciler := ReconcileDataset mgr.
Definition Add (mgr : manager) : prog Setup (option string) := add mgr (newReconciler mgr).

Definition AddToManagerFuncs : list (manager → prog Setup (option string)) := [Add].

Fixpoint add_all (fs : list (manager → prog Setup (option string))) (m : manager) :
    prog Setup (option string) :=
  match fs with
  | [] => Ret None
  | f :: fs =>
      err ← f m;
      match err with
      | Some e => Ret (Some e)
      | None => add_all fs m
      end
  end.
Definition AddToManager (m : manager) : prog Setup (option string) := add_all AddToManagerFuncs m.

(** [serveCRMetrics]. *)
Definition serveCRMetrics (cfg : rest_config) (operatorNs : string) : prog Setup (option string) :=
  filteredGVK ← sdo GetGVKsFromAddToScheme;
  match filteredGVK with
  | inl err => Ret (Some err)
  | inr filteredGVK =>
      ns ← sdo (GetNamespacesForMetrics operatorNs);
      match ns with
      | inl err => Ret (Some err)
      | inr ns =>
          sdo (GenerateAndServeCRMetrics cfg ns filteredGVK metricsHost operatorMetricsPort)
      end
  end.

Definition servicePorts : list ServicePort :=
  [MkPort metricsPort "http-metrics" "TCP" metricsPort;
   MkPort operatorMetricsPort "cr-metrics" "TCP" operatorMetricsPort].

Definition addMetrics (cfg : rest_config) : prog Setup unit :=
  ne ← sdo GetOperatorNamespace;
  match ne.2 with
  | Some ErrRunLocal => Ret tt
  | _ =>
      let operatorNs := ne.1 in
      _ ← serveCRMetrics cfg operatorNs;
      se ← sdo (CreateMetricsService cfg servicePorts);
      let services := [se.1] in
      _ ← sdo (CreateServiceMonitors cfg operatorNs services);
      Ret tt
  end.

Definition ceph_options (namespace : string) : ManagerOptions :=
  if Contains namespace "," then
    MkManagerOptions DefaultScheme "" false "" ""
      (metricsHost +:+ ":" +:+ Itoa metricsPort) (Some (Split namespace ","))
  else
    MkManagerOptions DefaultScheme "" false "" namespace
      (metricsHost +:+ ":" +:+ Itoa metricsPort) None.

Definition ceph_main : prog Setup Z :=
  get_or_exit (sdo GetWatchNamespace) (λ namespace,
  get_or_exit (sdo GetConfig) (λ cfg,
  or_exit (sdo (LeaderBecome "ceph-cache-plugin-lock")) (
  get_or_exit (sdo (NewManager cfg (ceph_options namespace))) (λ mgr,
  or_exit (sdo (AddToScheme PluginApis mgr)) (
  or_exit (sdo (AddToScheme DatasetApis mgr)) (
  or_exit (sdo (AddToScheme CephApis mgr)) (
  or_exit (AddToManager mgr) (
  _ ← addMetrics cfg;
  or_exit (sdo (ManagerStart mgr)) (Ret 0))))))))).

(** ** The S3 driver *)

Record s3 := MkS3 { s3_driver : csi_driver; s3_endpoint : string }.

Definition vendorVersion : string := "v1.1.1".
Definition driverName : string := "ch.ctrox.csi.s3-driver".

(** [NewS3]: [None] is [glog.Fatalln]; it has no error to return. *)
Definition NewS3 (nodeID endpoint : string) : prog Setup (option s3) :=
  driver ← sdo (NewCSIDriver driverName vendorVersion nodeID);
  match driver with
  | None => Ret None
  | Some driver => Ret (Some (MkS3 driver endpoint))
  end.

Definition s3_Run (s : s3) : prog Setup unit :=
  _ ← sdo (AnnounceControllerCapabilities (s3_driver s) [CREATE_DELETE_VOLUME]);
  _ ← sdo (AnnounceAccessModes (s3_driver s) [SINGLE_NODE_WRITER]);
  _ ← sdo (StartServers (s3_endpoint s) (s3_driver s) (s3_driver s) (s3_driver s));
  sdo WaitServers.

(** [glog.Fatalln] exits with 255. *)
Definition s3_main (nodeID endpoint : string) : prog Setup Z :=
  driver ← NewS3 nodeID endpoint;
  match driver with
  | None => Ret 255
  | Some driver =>
      _ ← s3_Run driver;
      Ret 0
  end.

(** ** What a start-up does *)

Definition calls (evs : list (event Setup)) : list setup_op := map ev_op evs.

(** The answer reports an error the process does not survive. *)
Definition failed (e : event Setup) : bool :=
  match e with
  | Ev o r =>
      match o return setup_reply o → bool with
      | GetConfig | NewManager _ _ | ClientsetForConfig _ | ControllerNew _ _ _
      | GetWatchNamespace => λ r, if r is inl _ then true else false
      | CompleteController _ _ _ | AddHealthzCheck _ _ | AddReadyzCheck _ _ | WatchKind _ _
      | AddToScheme _ _ | ManagerStart _ | LeaderBecome _ =>
          λ r, if r is Some _ then true else false
      | _ => λ _, false
      end r
  end.

(** The managers that were made. *)
Definition made_manager (e : event Setup) : option manager :=
  match e with
  | Ev o r =>
      match o return setup_reply o → option manager with
      | NewManager _ _ => λ r, if r is inr m then Some m else None
      | _ => λ _, None
      end r
  end.

(** The plan is carried out to the end and the process exits with 0, or up to the first
    call that fails, and the process exits with 1. *)
Definition carried_out (plan : list setup_op) (evs : list (event Setup)) (code : Z) : Prop :=
  (code = 0 ∧ calls evs = plan ∧ Forall (λ e, failed e = false) evs) ∨
  (code = 1 ∧ calls evs `prefix_of` plan ∧
   ∃ pre e, evs = pre ++ [e] ∧ Forall (λ e, failed e = false) pre ∧ failed e = true).

(** Take an interaction of a start-up apart. *)
Ltac setup_cases :=
  repeat match goal with
  | H : behaviour (Call _ _) _ _ |- _ => destruct H as (? & ? & -> & H); cbn in H
  | H : behaviour (Ret _) _ _ |- _ => destruct H as [-> <-]
  | H : behaviour ?p _ _ |- _ =>
      match p with
      | context [match ?x with inl _ => _ | inr _ => _ end] => is_var x; destruct x; cbn in H
      | context [match ?x with Some _ => _ | None => _ end] => is_var x; destruct x; cbn in H
      end
  | H : ∃ _, _ |- _ => destruct H as (? & ? & -> & H); cbn in H
  | H : _ ∧ _ |- _ => destruct H as [-> <-]
  end.

(** A leaf of the case analysis: the plan is over, or its last call has failed. *)
Ltac setup_outcome :=
  first [ left; split; [reflexivity|]; split; [reflexivity|by repeat constructor]
        | right; split; [reflexivity|]; split; [eexists; reflexivity|];
          match goal with
          | |- ∃ pre e, ?l = pre ++ [e] ∧ _ =>
              let n := eval cbv in (pred (length l)) in
              exists (take n l); eexists; split; [reflexivity|];
              split; [by repeat constructor|reflexivity]
          end ].

(** At most one manager has been made. *)
Ltac only_manager :=
  let Hm := fresh in
  intros; match goal with H : _ ∈ omap _ _ |- _ => rename H into Hm end; cbn in Hm;
  first [by apply elem_of_nil in Hm|by apply list_elem_of_singleton in Hm].

Definition operator_plan (f : Flags) (cfg cfg' : rest_config) (mgr : manager) (cs : clientset)
    (ws : webhook_server) : list setup_op :=
  [GetConfigOrDie; NewManager cfg (operator_options f); GetConfigOrDie; ClientsetForConfig cfg';
   CompleteController mgr "Dataset" (DatasetReconciler mgr cs);
   CompleteController mgr "DatasetInternal" (DatasetInternalReconciler mgr);
   AddHealthzCheck mgr "healthz"; AddReadyzCheck mgr "readyz"; GetWebhookServer mgr;
   RegisterPodMutator ws "/mutate-v1-pod" mgr; ManagerStart mgr].

(** The operator starts completely or not at all: whatever the libraries answer, its
    calls are those of [operator_plan] in this order, up to the first one that fails, with
    exit code 1, or all of them, with exit code 0.  So the manager is started only when it
    has been made with the options of the flags and both reconcilers, both health checks
    and the webhook that mutates pods have been registered with this very manager. *)
Theorem operator_startup (f : Flags) (evs : list (event Setup)) (code : Z)
    (H : behaviour (operator_main f) evs code) :
  ∃ cfg cfg' mgr cs ws,
    (∀ m, m ∈ omap made_manager evs → m = mgr) ∧
    carried_out (operator_plan f cfg cfg' mgr cs ws) evs code.
Proof.
  unfold operator_main, get_or_exit, or_exit in H. cbn in H. setup_cases.
  all: eexists _, _, _, _, _; split; [only_manager|setup_outcome].
  Unshelve. all: exact 0%nat.
Qed.

(** ** The Ceph cache plugin *)

Definition is_metrics (o : setup_op) : bool :=
  match o with
  | GetOperatorNamespace | GetGVKsFromAddToScheme | GetNamespacesForMetrics _
  | GenerateAndServeCRMetrics _ _ _ _ _ | CreateMetricsService _ _
  | CreateServiceMonitors _ _ _ => true
  | _ => false
  end.

(** The metrics of a process in a cluster end with the monitors of the service, which is
    nil where it could not be created. *)
Definition monitored (cfg : rest_config) (evs : list (event Setup)) : Prop :=
  ∃ ns e rest s, evs = Ev (E := Setup) GetOperatorNamespace (ns, e) :: rest ∧
    (e = Some ErrRunLocal ∧ rest = [] ∨
     e ≠ Some ErrRunLocal ∧
     ∃ pre, calls rest = pre ++ [CreateMetricsService cfg servicePorts;
                                 CreateServiceMonitors cfg ns [s]]).

Lemma addMetrics_calls cfg evs u :
  behaviour (addMetrics cfg) evs u →
  Forall (λ o, is_metrics o = true) (calls evs) ∧ monitored cfg evs.
Proof.
  unfold addMetrics, serveCRMetrics. cbn. intros ([ns e] & evs1 & -> & H). cbn in H.
  destruct e as [[|m]|]; cbn in H; setup_cases;
    (split; [by repeat constructor|]);
    (eexists ns, _, _, _; split; [reflexivity|]); try (left; by split); right;
    (split; [done|]); cbn;
    first [by eexists []|by eexists [_]|by eexists [_; _]|by eexists [_; _; _]].
  Unshelve. all: exact None.
Qed.

(** The namespaces the process was told to watch. *)
Definition watched (e : event Setup) : option string :=
  match e with
  | Ev o r =>
      match o return setup_reply o → option string with
      | GetWatchNamespace => λ r, if r is inr ns then Some ns else None
      | _ => λ _, None
      end r
  end.

Definition registration_plan (ns : string) (cfg : rest_config) (mgr : manager) (c : controller) :
    list setup_op :=
  [GetWatchNamespace; GetConfig; LeaderBecome "ceph-cache-plugin-lock";
   NewManager cfg (ceph_options ns); AddToScheme PluginApis mgr; AddToScheme DatasetApis mgr;
   AddToScheme CephApis mgr; ControllerNew "dataset-controller" mgr (ReconcileDataset mgr);
   WatchKind c "Dataset"].

(** The calls for the metrics are harmless. *)
Lemma metrics_harmless evs :
  Forall (λ o, is_metrics o = true) (calls evs) →
  Forall (λ e, failed e = false) evs ∧ omap made_manager evs = [] ∧ omap watched evs = [].
Proof.
  induction evs as [|[o r] evs IH]; intros H; [by repeat split|].
  inversion H as [|? ? Ho Hevs]; subst. destruct (IH Hevs) as (Hok & Hmade & Hwatched).
  destruct o; try discriminate Ho; cbn; rewrite Hmade, Hwatched; (split; [by constructor|done]).
Qed.

Lemma started_outcome reg metrics mgr (r : option string) :
  Forall (λ e, failed e = false) reg → Forall (λ e, failed e = false) metrics →
  carried_out (calls reg ++ calls metrics ++ [ManagerStart mgr])
    (reg ++ metrics ++ [Ev (E := Setup) (ManagerStart mgr) r]) (if r is Some _ then 1 else 0).
Proof.
  intros Hreg Hmet.
  assert (calls (reg ++ metrics ++ [Ev (E := Setup) (ManagerStart mgr) r])
          = calls reg ++ calls metrics ++ [ManagerStart mgr]) as Hcalls.
  { unfold calls. by rewrite !map_app. }
  destruct r as [e|]; [right|left]; split; try reflexivity; rewrite Hcalls.
  - split; [done|]. exists (reg ++ metrics), (Ev (E := Setup) (ManagerStart mgr) (Some e)).
    split; [by rewrite app_assoc|]. split; [by apply Forall_app|done].
  - split; [done|]. rewrite !Forall_app. by repeat constructor.
Qed.

Lemma ceph_options_namespaces ns :
  mo_NewCache (ceph_options ns) = (if Contains ns "," then Some (Split ns ",") else None) ∧
  mo_Namespace (ceph_options ns) = (if Contains ns "," then "" else ns).
Proof. unfold ceph_options. by destruct (Contains ns ","). Qed.

(** A failure before the metrics. *)
Ltac early_failure :=
  eexists _, _, _, _, [Ev (E := Setup) GetOperatorNamespace ("", Some ErrRunLocal)];
  split; [only_manager|]; split; [only_manager|];
  split; [by eexists _, _, _, None; split; [reflexivity|left]|];
  split; [by repeat constructor|];
  split; [setup_outcome|apply ceph_options_namespaces].

#[local] Opaque addMetrics.

(** The Ceph cache plugin makes and registers what it needs before it starts, as the
    leader: whatever the libraries answer, its calls are those of [registration_plan], the
    ones that expose metrics, and the start of the manager, up to the first one that fails
    (exit code 1) or all of them (exit code 0).  It is the leader before it makes the
    manager, the manager watches the namespaces of the environment (one, or each of a
    comma-separated list through a cache of its own), it knows the three groups of
    resources and has the controller of Datasets before it starts.  The metrics never
    keep it from starting: none of their errors ends the process, and in a cluster the
    monitors are asked for even when the metrics service could not be created. *)
Theorem ceph_startup (evs : list (event Setup)) (code : Z) (H : behaviour ceph_main evs code) :
  ∃ ns cfg mgr c metrics,
    (∀ n, n ∈ omap watched evs → n = ns) ∧ (∀ m, m ∈ omap made_manager evs → m = mgr) ∧
    monitored cfg metrics ∧ Forall (λ o, is_metrics o = true) (calls metrics) ∧
    carried_out (registration_plan ns cfg mgr c ++ calls metrics ++ [ManagerStart mgr]) evs code ∧
    mo_NewCache (ceph_options ns) = (if Contains ns "," then Some (Split ns ",") else None) ∧
    mo_Namespace (ceph_options ns) = (if Contains ns "," then "" else ns).
Proof.
  unfold ceph_main, get_or_exit, or_exit in H. cbn -[ceph_options] in H. setup_cases.
  (* everything is registered *)
  10:{ apply behaviour_bind in H as (metrics & evs2 & u & -> & Hm & H). cbn in H.
       destruct H as (r & ? & -> & H). destruct (addMetrics_calls _ _ _ Hm) as (Hall & Hmon).
       destruct (metrics_harmless _ Hall) as (Hok & Hmade & Hwatched).
       exists s, n, n0, n1, metrics.
       assert (x = [] ∧ code = (if r is Some _ then 1 else 0)) as [-> ->]
         by (destruct r; cbn in H; by destruct H as [-> <-]).
       split; [intros ? Hin; cbn in Hin; rewrite omap_app, Hwatched in Hin; by apply list_elem_of_singleton in Hin|].
       split; [intros ? Hin; cbn in Hin; rewrite omap_app, Hmade in Hin; by apply list_elem_of_singleton in Hin|].
       do 2 (split; [done|]). split; [|apply ceph_options_namespaces].
       match goal with
       | |- carried_out _ (?a :: ?b :: ?c :: ?d :: ?e :: ?f :: ?g :: ?h :: ?i :: _) _ =>
           apply (started_outcome [a; b; c; d; e; f; g; h; i] metrics n0 r); [|done]
       end.
       by repeat constructor. }
  all: early_failure.
  Unshelve. all: first [exact 0%nat|exact ""].
Qed.

(** ** The S3 driver, and code that has no effect *)

(** The S3 driver announces what it can do before it serves requests; without a driver it
    serves nothing. *)
Lemma s3_startup nodeID endpoint evs code :
  behaviour (s3_main nodeID endpoint) evs code →
  match evs with
  | Ev o r :: evs' =>
      o = NewCSIDriver driverName vendorVersion nodeID ∧
      (code = 255 ∧ evs' = [] ∨
       code = 0 ∧ ∃ d, calls evs' =
         [AnnounceControllerCapabilities d [CREATE_DELETE_VOLUME];
          AnnounceAccessModes d [SINGLE_NODE_WRITER];
          StartServers endpoint d d d; WaitServers])
  | [] => False
  end.
Proof.
  unfold s3_main, NewS3. cbn. intros ([d|] & evs' & -> & H); cbn in H; setup_cases.
  - split; [done|]. right. split; [done|]. by exists d.
  - split; [done|]. by left.
Qed.

(** The operator does not use the address its flag [metrics-bind-address] gives. *)
Lemma metrics_address_unused a a' p l : operator_main (MkFlags a p l) = operator_main (MkFlags a' p l).
Proof. done. Qed.

(** [getWatchNamespace] never answers a namespace: [os.LookupEnv] answers the empty string
    when the variable is not set. *)
Lemma getWatchNamespace_empty ns present :
  (present = false → ns = "") → (getWatchNamespace (ns, present)).1 = "".
Proof. destruct present; [done|]. intros H. by rewrite H. Qed.

(** ** Witnesses *)

(** Libraries that answer well, but for the start of the manager. *)
Definition demo_setup : handler Setup unit := λ o s,
  (match o return setup_reply o with
   | GetConfigOrDie => 1%nat
   | GetConfig | NewManager _ _ | ClientsetForConfig _ | ControllerNew _ _ _ => inr 2%nat
   | GetWebhookServer _ => 3%nat
   | GetWatchNamespace => inr "team-a,team-b"
   | GetOperatorNamespace => ("dlf", None)
   | GetGVKsFromAddToScheme => inl "no kinds"
   | GetNamespacesForMetrics _ => inr []
   | CreateMetricsService _ _ => (None, Some "forbidden")
   | NewCSIDriver _ _ _ => Some 4%nat
   | RegisterPodMutator _ _ _ | StartServers _ _ _ _ | WaitServers => tt
   | AnnounceControllerCapabilities _ _ | AnnounceAccessModes _ _ => tt
   | CompleteController _ _ _ | AddHealthzCheck _ _ | AddReadyzCheck _ _ | WatchKind _ _
   | AddToScheme _ _ | LeaderBecome _ | GenerateAndServeCRMetrics _ _ _ _ _
   | CreateServiceMonitors _ _ _ => None
   | ManagerStart _ => Some "lost the lease"
   end, s).

Definition demo_flags : Flags := MkFlags ":8080" ":8081" true.

Lemma operator_startup_witness :
  ∃ cfg cfg' mgr cs ws,
    carried_out (operator_plan demo_flags cfg cfg' mgr cs ws)
      (events demo_setup (operator_main demo_flags) tt) 1.
Proof.
  destruct (operator_startup demo_flags (events demo_setup (operator_main demo_flags) tt) 1
    (run_behaviour demo_setup (operator_main demo_flags) tt))
    as (cfg & cfg' & mgr & cs & ws & _ & Hplan).
  by exists cfg, cfg', mgr, cs, ws.
Defined.

(** Two namespaces; the metrics cannot be exposed, and the manager is started. *)
Lemma ceph_startup_witness :
  ManagerStart 2%nat ∈ calls (events demo_setup ceph_main tt) ∧
  ∃ mgr c cfg metrics, carried_out
    (registration_plan "team-a,team-b" cfg mgr c ++ calls metrics ++ [ManagerStart mgr])
    (events demo_setup ceph_main tt) 1 ∧ monitored cfg metrics ∧
    mo_NewCache (ceph_options "team-a,team-b") = Some ["team-a"; "team-b"].
Proof.
  split; [apply list_elem_of_In; vm_compute; tauto|].
  destruct (ceph_startup (events demo_setup ceph_main tt) 1 (run_behaviour demo_setup ceph_main tt))
    as (ns & cfg & mgr & c & metrics & Hns & _ & Hmon & _ & Hplan & _).
  assert ("team-a,team-b" = ns) as <-.
  { apply Hns. apply list_elem_of_In. vm_compute. tauto. }
  exists mgr, c, cfg, metrics. split; [exact Hplan|]. split; [exact Hmon|]. vm_compute. reflexivity.
Defined.
