(* ===== verification/Clientset.v ===== *)
(** * The typed clients of the custom resources

    Model of [src/apiclient/pkg/clientset/versioned], the Go clients that programs use to
    read and write Datasets and DatasetInternals: [typed/com/v1alpha1] (requests of a REST
    client), [typed/com/v1alpha1/fake] and [fake] (actions of a test double) and
    [clientset.go] (how the clients are made).  The REST client, the fakes' reactors, the
    discovery client and the rate limiters belong to client-go: they are the operations of
    the signatures [Rest], [Fake] and [Connect].  Contexts are left out. *)

From Stdlib Require Import ZArith Lia.
From stdpp Require Import options.
From S2P Require Import Prelude GoStd KubeApi.

Open Scope Z_scope.

(** ** Options and values of apimachinery *)

Record GetOptions := MkGetOptions { go_ResourceVersion : string }.
Record metav1_ListOptions := MkListOpts {
  lopt_LabelSelector : string;
  lopt_FieldSelector : string;
  lopt_Watch : bool;
  lopt_AllowWatchBookmarks : bool;
  lopt_ResourceVersion : string;
  lopt_TimeoutSeconds : option Z;
  lopt_Limit : Z;
  lopt_Continue : string }.
(** [CreateOptions] and [UpdateOptions]. *)
Record WriteOptions := MkWriteOptions { wo_DryRun : list string; wo_FieldManager : string }.
Record PatchOptions := MkPatchOptions {
  po_DryRun : list string; po_Force : option bool; po_FieldManager : string }.
Record DeleteOptions := MkDeleteOptions {
  do_GracePeriodSeconds : option Z;
  do_PreconditionUID : option string;
  do_PropagationPolicy : option string;
  do_DryRun : list string }.

Record ListMeta := MkListMeta { lm_ResourceVersion : string; lm_Continue : string }.
Record DatasetList := MkDatasetList { dl_ListMeta : ListMeta; dl_Items : list Dataset }.
Record DatasetInternalList :=
  MkDatasetInternalList { dil_ListMeta : ListMeta; dil_Items : list DatasetInternal }.

(** What a request decodes its answer into, and what a fake answers with. *)
Inductive api_type := ADataset | ADatasetList | AInternal | AInternalList.
#[export] Instance api_type_eq_dec : EqDecision api_type.
Proof. solve_decision. Defined.
Definition api_value (t : api_type) : Type :=
  match t with
  | ADataset => Dataset
  | ADatasetList => DatasetList
  | AInternal => DatasetInternal
  | AInternalList => DatasetInternalList
  end.
Definition object : Type := {t : api_type & api_value t}.

(** The zero values of the struct literals, [&v1alpha1.Dataset{}] and so on. *)
Definition zero_value (t : api_type) : api_value t :=
  match t with
  | ADataset => MkDataset (new_meta "" "" None) empty_spec empty_status
  | ADatasetList => MkDatasetList (MkListMeta "" "") []
  | AInternal => MkDatasetInternal (new_meta "" "" None) empty_spec empty_placement
  | AInternalList => MkDatasetInternalList (MkListMeta "" "") []
  end.

(** Handles of the objects of client-go that the code only passes around.  A REST client
    may be nil: the first call on it panics, which a request without client stands for. *)
Abbreviation rest_Interface := (option nat).
Abbreviation watcher := nat.

(** ** Requests: [rest.Request] records what its builder is told *)

Inductive verb := GET | POST | PUT | DELETE | PATCH (pt : string).
Inductive params :=
  | NoParams
  | GetParams (o : GetOptions)
  | ListParams (o : metav1_ListOptions)
  | WriteParams (o : WriteOptions)
  | PatchParams (o : PatchOptions).
Inductive body :=
  | NoBody
  | ObjectBody (o : object)
  | DeleteBody (o : DeleteOptions)
  | BytesBody (s : string).

Record Request := MkRequest {
  rq_client : rest_Interface;
  rq_verb : verb;
  rq_Namespace : string;
  rq_Resource : string;
  rq_Name : option string;
  rq_SubResource : list string;
  rq_Params : params;
  rq_Timeout : option Z;
  rq_Body : body }.

Definition start (c : rest_Interface) (v : verb) : Request :=
  MkRequest c v "" "" None [] NoParams None NoBody.
Definition Namespace (ns : string) (r : Request) : Request :=
  MkRequest (rq_client r) (rq_verb r) ns (rq_Resource r) (rq_Name r) (rq_SubResource r)
    (rq_Params r) (rq_Timeout r) (rq_Body r).
Definition Resource (x : string) (r : Request) : Request :=
  MkRequest (rq_client r) (rq_verb r) (rq_Namespace r) x (rq_Name r) (rq_SubResource r)
    (rq_Params r) (rq_Timeout r) (rq_Body r).
Definition Name (n : string) (r : Request) : Request :=
  MkRequest (rq_client r) (rq_verb r) (rq_Namespace r) (rq_Resource r) (Some n)
    (rq_SubResource r) (rq_Params r) (rq_Timeout r) (rq_Body r).
Definition SubResource (l : list string) (r : Request) : Request :=
  MkRequest (rq_client r) (rq_verb r) (rq_Namespace r) (rq_Resource r) (rq_Name r) l
    (rq_Params r) (rq_Timeout r) (rq_Body r).
Definition VersionedParams (p : params) (r : Request) : Request :=
  MkRequest (rq_client r) (rq_verb r) (rq_Namespace r) (rq_Resource r) (rq_Name r)
    (rq_SubResource r) p (rq_Timeout r) (rq_Body r).
Definition Timeout (t : Z) (r : Request) : Request :=
  MkRequest (rq_client r) (rq_verb r) (rq_Namespace r) (rq_Resource r) (rq_Name r)
    (rq_SubResource r) (rq_Params r) (Some t) (rq_Body r).
Definition Body (b : body) (r : Request) : Request :=
  MkRequest (rq_client r) (rq_verb r) (rq_Namespace r) (rq_Resource r) (rq_Name r)
    (rq_SubResource r) (rq_Params r) (rq_Timeout r) b.

Notation "r |> f" := (f r) (at level 50, left associativity, only parsing).

(** [Do(ctx).Into(x)] answers the object [x] as it was filled in and an error. *)
Inductive rest_op :=
  | DoInto (r : Request) (t : api_type) (x : api_value t)
  | DoError (r : Request)
  | DoWatch (r : Request).
Definition rest_reply (o : rest_op) : Type :=
  match o with
  | DoInto _ t _ => api_value t * option goerr
  | DoError _ => option goerr
  | DoWatch _ => goerr + watcher
  end.
Definition Rest : Sig := MkSig rest_op rest_reply.

(** [result = &T{}; err = r.Do(ctx).Into(result); return]. *)
Definition do_into (t : api_type) (r : Request) : prog Rest (api_value t * option goerr) :=
  @call Rest (DoInto r t (zero_value t)).

(** [time.Duration( *opts.TimeoutSeconds ) * time.Second], in 64 bits. *)
Definition second : Z := 1000000000.
Definition timeout_of (opts : metav1_ListOptions) : Z :=
  match lopt_TimeoutSeconds opts with
  | Some n => wrap64 (n * second)
  | None => 0
  end.

Definition set_Watch (o : metav1_ListOptions) : metav1_ListOptions :=
  MkListOpts (lopt_LabelSelector o) (lopt_FieldSelector o) true (lopt_AllowWatchBookmarks o)
    (lopt_ResourceVersion o) (lopt_TimeoutSeconds o) (lopt_Limit o) (lopt_Continue o).

(** ** [dataset.go] *)

Record datasets := MkDatasets { ds_client : rest_Interface; ds_ns : string }.

Definition datasets_Get (c : datasets) (name : string) (options : GetOptions) :
    prog Rest (Dataset * option goerr) :=
  do_into ADataset
    (start (ds_client c) GET |> Namespace (ds_ns c) |> Resource "datasets" |> Name name
     |> VersionedParams (GetParams options)).

Definition datasets_List (c : datasets) (opts : metav1_ListOptions) :
    prog Rest (DatasetList * option goerr) :=
  let timeout := timeout_of opts in
  do_into ADatasetList
    (start (ds_client c) GET |> Namespace (ds_ns c) |> Resource "datasets"
     |> VersionedParams (ListParams opts) |> Timeout timeout).

Definition datasets_Watch (c : datasets) (opts : metav1_ListOptions) :
    prog Rest (goerr + watcher) :=
  let timeout := timeout_of opts in
  let opts := set_Watch opts in
  @call Rest (DoWatch
    (start (ds_client c) GET |> Namespace (ds_ns c) |> Resource "datasets"
     |> VersionedParams (ListParams opts) |> Timeout timeout)).

Definition datasets_Create (c : datasets) (dataset : Dataset) (opts : WriteOptions) :
    prog Rest (Dataset * option goerr) :=
  do_into ADataset
    (start (ds_client c) POST |> Namespace (ds_ns c) |> Resource "datasets"
     |> VersionedParams (WriteParams opts) |> Body (ObjectBody (existT ADataset dataset))).

Definition datasets_Update (c : datasets) (dataset : Dataset) (opts : WriteOptions) :
    prog Rest (Dataset * option goerr) :=
  do_into ADataset
    (start (ds_client c) PUT |> Namespace (ds_ns c) |> Resource "datasets"
     |> Name (om_Name (ds_Meta dataset))
     |> VersionedParams (WriteParams opts) |> Body (ObjectBody (existT ADataset dataset))).

Definition datasets_Delete (c : datasets) (name : string) (opts : DeleteOptions) :
    prog Rest (option goerr) :=
  @call Rest (DoError
    (start (ds_client c) DELETE |> Namespace (ds_ns c) |> Resource "datasets" |> Name name
     |> Body (DeleteBody opts))).

Definition datasets_DeleteCollection (c : datasets) (opts : DeleteOptions)
    (listOpts : metav1_ListOptions) : prog Rest (option goerr) :=
  let timeout := timeout_of listOpts in
  @call Rest (DoError
    (start (ds_client c) DELETE |> Namespace (ds_ns c) |> Resource "datasets"
     |> VersionedParams (ListParams listOpts) |> Timeout timeout |> Body (DeleteBody opts))).

Definition datasets_Patch (c : datasets) (name pt data : string) (opts : PatchOptions)
    (subresources : list string) : prog Rest (Dataset * option goerr) :=
  do_into ADataset
    (start (ds_client c) (PATCH pt) |> Namespace (ds_ns c) |> Resource "datasets" |> Name name
     |> SubResource subresources |> VersionedParams (PatchParams opts)
     |> Body (BytesBody data)).

(** ** [datasetinternal.go] *)

Record datasetInternal := MkInternals { di_client : rest_Interface; di_ns : string }.

Definition internal_Get (c : datasetInternal) (name : string) (options : GetOptions) :
    prog Rest (DatasetInternal * option goerr) :=
  do_into AInternal
    (start (di_client c) GET |> Namespace (di_ns c) |> Resource "datasetinternal" |> Name name
     |> VersionedParams (GetParams options)).

Definition internal_List (c : datasetInternal) (opts : metav1_ListOptions) :
    prog Rest (DatasetInternalList * option goerr) :=
  let timeout := timeout_of opts in
  do_into AInternalList
    (start (di_client c) GET |> Namespace (di_ns c) |> Resource "datasetinternal"
     |> VersionedParams (ListParams opts) |> Timeout timeout).

Definition internal_Watch (c : datasetInternal) (opts : metav1_ListOptions) :
    prog Rest (goerr + watcher) :=
  let timeout := timeout_of opts in
  let opts := set_Watch opts in
  @call Rest (DoWatch
    (start (di_client c) GET |> Namespace (di_ns c) |> Resource "datasetinternal"
     |> VersionedParams (ListParams opts) |> Timeout timeout)).

Definition internal_Create (c : datasetInternal) (datasetInternal : DatasetInternal)
    (opts : WriteOptions) : prog Rest (DatasetInternal * option goerr) :=
  do_into AInternal
    (start (di_client c) POST |> Namespace (di_ns c) |> Resource "datasetinternal"
     |> VersionedParams (WriteParams opts)
     |> Body (ObjectBody (existT AInternal datasetInternal))).

(** ** [com_client.go] *)

Record ComV1alpha1Client := MkComClient { restClient : rest_Interface }.

(** The receivers are pointers. *)
Definition RESTClient (c : option ComV1alpha1Client) : rest_Interface :=
  match c with None => None | Some c => restClient c end.
Definition newDatasets (c : option ComV1alpha1Client) (namespace : string) : datasets :=
  MkDatasets (RESTClient c) namespace.
Definition newDatasetInternal (c : option ComV1alpha1Client) (namespace : string) :
    datasetInternal :=
  MkInternals (RESTClient c) namespace.
Definition com_Datasets (c : option ComV1alpha1Client) (namespace : string) : datasets :=
  newDatasets c namespace.
Definition com_DatasetInternal (c : option ComV1alpha1Client) (namespace : string) :
    datasetInternal :=
  newDatasetInternal c namespace.
Definition com_New (c : rest_Interface) : ComV1alpha1Client := MkComClient c.

(** ** [fake/fake_dataset.go] and [fake/fake_datasetinternal.go] *)

Record GroupVersionResource := MkGVR { gvr_Group : string; gvr_Version : string; gvr_Resource : string }.
Record GroupVersionKind := MkGVK { gvk_Group : string; gvk_Version : string; gvk_Kind : string }.

Inductive Action :=
  | GetAction (r : GroupVersionResource) (ns name : string)
  | ListAction (r : GroupVersionResource) (k : GroupVersionKind) (ns : string)
      (opts : metav1_ListOptions)
  | WatchAction (r : GroupVersionResource) (ns : string) (opts : metav1_ListOptions)
  | CreateAction (r : GroupVersionResource) (ns : string) (o : object)
  | UpdateAction (r : GroupVersionResource) (ns : string) (o : object)
  | DeleteAction (r : GroupVersionResource) (ns name : string)
  | DeleteCollectionAction (r : GroupVersionResource) (ns : string) (opts : metav1_ListOptions)
  | PatchSubresourceAction (r : GroupVersionResource) (ns name pt data : string)
      (subresources : list string).

(** [Invokes(action, default)] answers an interface value, nil or not, and an error. *)
Inductive fake_op :=
  | Invokes (a : Action) (default : object)
  | InvokesWatch (a : Action).
Definition fake_reply (o : fake_op) : Type :=
  match o with
  | Invokes _ _ => option object * option goerr
  | InvokesWatch _ => goerr + watcher
  end.
Definition Fake : Sig := MkSig fake_op fake_reply.

(** [obj.( *T )]: it panics when the dynamic type is another. *)
Definition assert_type (t : api_type) (o : object) : option (api_value t) :=
  match o with
  | existT t' x =>
      match decide (t' = t) with
      | left e => Some (eq_rect t' api_value x t e)
      | right _ => None
      end
  end.

(** The result is a pointer, nil or not, and an error; [None] is a panic. *)
Abbreviation fake_result t := (option (option (api_value t) * option goerr)).

(** [obj, err := c.Fake.Invokes(action, &T{}); if obj == nil { return nil, err };
    return obj.( *T ), err]. *)
Definition invoke (t : api_type) (a : Action) : prog Fake (fake_result t) :=
  oe ← @call Fake (Invokes a (existT t (zero_value t)));
  match oe.1 with
  | None => Ret (Some (None, oe.2))
  | Some obj =>
      match assert_type t obj with
      | None => Ret None
      | Some x => Ret (Some (Some x, oe.2))
      end
  end.

Definition datasetsResource : GroupVersionResource := MkGVR "datashim.io" "v1alpha1" "datasets".
Definition datasetsKind : GroupVersionKind := MkGVK "datashim.io" "v1alpha1" "Dataset".
Definition datasetinternalsResource : GroupVersionResource :=
  MkGVR "datashim.io" "v1alpha1" "datasetinternals".
Definition datasetinternalsKind : GroupVersionKind :=
  MkGVK "datashim.io" "v1alpha1" "DatasetInternal".

(** The double a client works on is shared; [ns] is the namespace of the client. *)
Record FakeDatasets := MkFakeDatasets { fds_ns : string }.
Record FakeDatasetInternal := MkFakeInternals { fdi_ns : string }.

Definition fake_datasets_Get (c : FakeDatasets) (name : string) (options : GetOptions) :
    prog Fake (fake_result ADataset) :=
  invoke ADataset (GetAction datasetsResource (fds_ns c) name).
Definition fake_datasets_Watch (c : FakeDatasets) (opts : metav1_ListOptions) :
    prog Fake (goerr + watcher) :=
  @call Fake (InvokesWatch (WatchAction datasetsResource (fds_ns c) opts)).
Definition fake_datasets_Create (c : FakeDatasets) (dataset : Dataset) (opts : WriteOptions) :
    prog Fake (fake_result ADataset) :=
  invoke ADataset (CreateAction datasetsResource (fds_ns c) (existT ADataset dataset)).
Definition fake_datasets_Update (c : FakeDatasets) (dataset : Dataset) (opts : WriteOptions) :
    prog Fake (fake_result ADataset) :=
  invoke ADataset (UpdateAction datasetsResource (fds_ns c) (existT ADataset dataset)).
Definition fake_datasets_Delete (c : FakeDatasets) (name : string) (opts : DeleteOptions) :
    prog Fake (option goerr) :=
  oe ← @call Fake (Invokes (DeleteAction datasetsResource (fds_ns c) name)
                     (existT ADataset (zero_value ADataset)));
  Ret oe.2.
Definition fake_datasets_DeleteCollection (c : FakeDatasets) (opts : DeleteOptions)
    (listOpts : metav1_ListOptions) : prog Fake (option goerr) :=
  oe ← @call Fake (Invokes (DeleteCollectionAction datasetsResource (fds_ns c) listOpts)
                     (existT ADatasetList (zero_value ADatasetList)));
  Ret oe.2.
Definition fake_datasets_Patch (c : FakeDatasets) (name pt data : string) (opts : PatchOptions)
    (subresources : list string) : prog Fake (fake_result ADataset) :=
  invoke ADataset
    (PatchSubresourceAction datasetsResource (fds_ns c) name pt data subresources).

Definition fake_internal_Get (c : FakeDatasetInternal) (name : string) (options : GetOptions) :
    prog Fake (fake_result AInternal) :=
  invoke AInternal (GetAction datasetinternalsResource (fdi_ns c) name).
Definition fake_internal_Watch (c : FakeDatasetInternal) (opts : metav1_ListOptions) :
    prog Fake (goerr + watcher) :=
  @call Fake (InvokesWatch (WatchAction datasetinternalsResource (fdi_ns c) opts)).
Definition fake_internal_Create (c : FakeDatasetInternal) (datasetInternal : DatasetInternal)
    (opts : WriteOptions) : prog Fake (fake_result AInternal) :=
  invoke AInternal
    (CreateAction datasetinternalsResource (fdi_ns c) (existT AInternal datasetInternal)).

(** [testing.ExtractFromListOptions]: the label selector of the options, nil or not. *)
Class LabelSelectors := ExtractLabels : metav1_ListOptions → option (gomap → bool).

Section List.
Context `{LabelSelectors}.

Definition selector (opts : metav1_ListOptions) : gomap → bool :=
  match ExtractLabels opts with
  | None => λ _, true
  | Some label => label
  end.

(** [for _, item := range items { if label.Matches(labels.Set(item.Labels)) {
    list.Items = append(list.Items, item) } }]. *)
Fixpoint matching {A} (labels_of : A → gomap) (label : gomap → bool) (items acc : list A) :
    list A :=
  match items with
  | [] => acc
  | item :: items =>
      matching labels_of label items
        (if label (labels_of item) then acc ++ [item] else acc)
  end.

Definition fake_datasets_List (c : FakeDatasets) (opts : metav1_ListOptions) :
    prog Fake (fake_result ADatasetList) :=
  r ← invoke ADatasetList (ListAction datasetsResource datasetsKind (fds_ns c) opts);
  Ret (match r with
       | Some (Some obj, err) =>
           Some (Some (MkDatasetList (dl_ListMeta obj)
                         (matching (λ d, om_Labels (ds_Meta d)) (selector opts)
                            (dl_Items obj) [])), err)
       | _ => r
       end).

Definition fake_internal_List (c : FakeDatasetInternal) (opts : metav1_ListOptions) :
    prog Fake (fake_result AInternalList) :=
  r ← invoke AInternalList
        (ListAction datasetinternalsResource datasetinternalsKind (fdi_ns c) opts);
  Ret (match r with
       | Some (Some obj, err) =>
           Some (Some (MkDatasetInternalList (dil_ListMeta obj)
                         (matching (λ d, om_Labels (di_Meta d)) (selector opts)
                            (dil_Items obj) [])), err)
       | _ => r
       end).
End List.

(** ** [fake/fake_com_client.go] and [fake/clientset_generated.go] *)

Definition fake_com_Datasets (namespace : string) : FakeDatasets := MkFakeDatasets namespace.
Definition fake_com_DatasetInternal (namespace : string) : FakeDatasetInternal :=
  MkFakeInternals namespace.

(** The object tracker and the reactors of [testing.Fake]. *)
Inductive tracker_op :=
  | NewObjectTracker
  | TrackerAdd (o : object)
  | AddReactor (verb resource : string)
  | AddWatchReactor (resource : string)
  | TrackerWatch (r : GroupVersionResource) (ns : string).
Definition tracker_reply (o : tracker_op) : Type :=
  match o with
  | TrackerAdd _ => option goerr
  | TrackerWatch _ _ => goerr + watcher
  | _ => unit
  end.
Definition Tracker : Sig := MkSig tracker_op tracker_reply.

(** [for _, obj := range objects { if err := o.Add(obj); err != nil { panic(err) } }]:
    false is a panic. *)
Fixpoint add_objects (objects : list object) : prog Tracker bool :=
  match objects with
  | [] => Ret true
  | obj :: objects =>
      err ← @call Tracker (TrackerAdd obj);
      match err with
      | Some _ => Ret false
      | None => add_objects objects
      end
  end.

Definition NewSimpleClientset (objects : list object) : prog Tracker bool :=
  _ ← @call Tracker NewObjectTracker;
  ok ← add_objects objects;
  if ok : bool then
    _ ← @call Tracker (AddReactor "*" "*");
    _ ← @call Tracker (AddWatchReactor "*");
    Ret true
  else Ret false.

Definition action_resource (a : Action) : GroupVersionResource :=
  match a with
  | GetAction r _ _ | ListAction r _ _ _ | WatchAction r _ _ | CreateAction r _ _
  | UpdateAction r _ _ | DeleteAction r _ _ | DeleteCollectionAction r _ _
  | PatchSubresourceAction r _ _ _ _ _ => r
  end.
Definition action_namespace (a : Action) : string :=
  match a with
  | GetAction _ ns _ | ListAction _ _ ns _ | WatchAction _ ns _ | CreateAction _ ns _
  | UpdateAction _ ns _ | DeleteAction _ ns _ | DeleteCollectionAction _ ns _
  | PatchSubresourceAction _ ns _ _ _ _ => ns
  end.

(** The watch reactor: handled, the watch, an error. *)
Definition watch_reaction (a : Action) : prog Tracker (bool * option watcher * option goerr) :=
  w ← @call Tracker (TrackerWatch (action_resource a) (action_namespace a));
  match w with
  | inl err => Ret (false, None, Some err)
  | inr watch => Ret (true, Some watch, None)
  end.

(** ** [clientset.go] *)

(** Single precision numbers, and the test [> 0]. *)
Class Float32 (F : Type) := is_positive : F → bool.

Section Connect.
Context {F : Type} `{!Float32 F}.

Abbreviation limiter := nat.
Abbreviation discovery_client := nat.

Record rest_Config := MkRestConfig {
  Host : string;
  APIPath : string;
  GroupVersion : option (string * string);
  (** [scheme.Codecs.WithoutConversion()], or what the caller has set *)
  NegotiatedSerializer : option string;
  UserAgent : string;
  QPS : F;
  Burst : Z;
  RateLimiter : option limiter }.

Inductive connect_op :=
  | DefaultKubernetesUserAgent
  | RESTClientFor (c : rest_Config)
  | NewTokenBucketRateLimiter (qps : F) (burst : Z)
  | NewDiscoveryClientForConfig (c : rest_Config)
  | NewDiscoveryClient (c : rest_Interface).
Definition connect_reply (o : connect_op) : Type :=
  match o with
  | DefaultKubernetesUserAgent => string
  | RESTClientFor _ => string + nat
  | NewTokenBucketRateLimiter _ _ => limiter
  | NewDiscoveryClientForConfig _ => string + discovery_client
  | NewDiscoveryClient _ => discovery_client
  end.
Definition Connect : Sig := MkSig connect_op connect_reply.

Definition set_api (c : rest_Config) (gv : string * string) (path serializer : string) : rest_Config :=
  MkRestConfig (Host c) path (Some gv) (Some serializer) (UserAgent c) (QPS c) (Burst c)
    (RateLimiter c).
Definition set_UserAgent (c : rest_Config) (ua : string) : rest_Config :=
  MkRestConfig (Host c) (APIPath c) (GroupVersion c) (NegotiatedSerializer c) ua (QPS c) (Burst c)
    (RateLimiter c).
Definition set_RateLimiter (c : rest_Config) (r : limiter) : rest_Config :=
  MkRestConfig (Host c) (APIPath c) (GroupVersion c) (NegotiatedSerializer c) (UserAgent c) (QPS c)
    (Burst c) (Some r).

(** It has no error to return. *)
Definition setConfigDefaults (config : rest_Config) : prog Connect rest_Config :=
  let config := set_api config ("datashim.io", "v1alpha1") "/apis" "WithoutConversion" in
  if decide (UserAgent config = "") then
    ua ← @call Connect DefaultKubernetesUserAgent;
    Ret (set_UserAgent config ua)
  else Ret config.

(** [NewForConfig] of [com_client.go]. *)
Definition com_NewForConfig (c : rest_Config) : prog Connect (string + ComV1alpha1Client) :=
  config ← setConfigDefaults c;
  client ← @call Connect (RESTClientFor config);
  match client with
  | inl err => Ret (inl err)
  | inr client => Ret (inr (MkComClient (Some client)))
  end.

(** [None] is a panic. *)
Definition com_NewForConfigOrDie (c : rest_Config) : prog Connect (option ComV1alpha1Client) :=
  client ← com_NewForConfig c;
  match client with
  | inl err => Ret None
  | inr client => Ret (Some client)
  end.

Record versioned_Clientset := MkClientset {
  DiscoveryClient : option discovery_client;
  comV1alpha1 : option ComV1alpha1Client }.

Definition ComV1alpha1 (c : versioned_Clientset) : option ComV1alpha1Client := comV1alpha1 c.
(** The receiver is a pointer; a nil clientset has no discovery client. *)
Definition Discovery (c : option versioned_Clientset) : option discovery_client :=
  match c with
  | None => None
  | Some c => DiscoveryClient c
  end.

Definition burst_error : string :=
  "burst is required to be greater than 0 when RateLimiter is not set and QPS is set to greater than 0".

(** The rate limiter of the copy of the configuration, or the error. *)
Definition with_limiter (configShallowCopy : rest_Config) : prog Connect (string + rest_Config) :=
  if bool_decide (RateLimiter configShallowCopy = None) && is_positive (QPS configShallowCopy)
  then
    if decide (Burst configShallowCopy ≤ 0) then Ret (inl burst_error)
    else
      r ← @call Connect (NewTokenBucketRateLimiter (QPS configShallowCopy)
                           (Burst configShallowCopy));
      Ret (inr (set_RateLimiter configShallowCopy r))
  else Ret (inr configShallowCopy).

Definition NewForConfig (c : rest_Config) : prog Connect (string + versioned_Clientset) :=
  config ← with_limiter c;
  match config with
  | inl err => Ret (inl err)
  | inr configShallowCopy =>
      com ← com_NewForConfig configShallowCopy;
      match com with
      | inl err => Ret (inl err)
      | inr com =>
          discovery ← @call Connect (NewDiscoveryClientForConfig configShallowCopy);
          match discovery with
          | inl err => Ret (inl err)
          | inr discovery => Ret (inr (MkClientset (Some discovery) (Some com)))
          end
      end
  end.

(** [None] is a panic; [discovery.NewDiscoveryClientForConfigOrDie] panics on an error. *)
Definition NewForConfigOrDie (c : rest_Config) : prog Connect (option versioned_Clientset) :=
  com ← com_NewForConfigOrDie c;
  match com with
  | None => Ret None
  | Some com =>
      discovery ← @call Connect (NewDiscoveryClientForConfig c);
      match discovery with
      | inl _ => Ret None
      | inr discovery => Ret (Some (MkClientset (Some discovery) (Some com)))
      end
  end.

Definition New (c : rest_Interface) : prog Connect versioned_Clientset :=
  let com := com_New c in
  discovery ← @call Connect (NewDiscoveryClient c);
  Ret (MkClientset (Some discovery) (Some com)).
End Connect.
