(* ===== verification/ClientsetSafety.v ===== *)
(** * What the typed clients promise

    [RestServer] states what the REST interface of the API server documents for the custom
    resources: a request for a resource that is served acts on the objects as the calls of
    [KubeServer.v] do, a request for any other resource is answered with [NotFound].  The
    client of Datasets implements reading and writing objects on top of it; the client of
    DatasetInternals asks for a resource that is not served.  The fakes perform the same
    actions as the clients, and [NewForConfig] lets the clients share a rate limiter. *)

From Stdlib Require Import ZArith Lia.
From stdpp Require Import options.
From S2P Require Import Prelude GoStd KubeApi KubeServer Clientset.

Open Scope Z_scope.

(** ** A REST server for the custom resources *)

(** The plural names of the resource definitions: the marker [resource:path] of
    [datasetinternal_types.go], and the default for a Dataset. *)
Definition plural (t : api_type) : string :=
  match t with
  | ADataset | ADatasetList => "datasets"
  | AInternal | AInternalList => "datasetsinternal"
  end.
Definition served (resource : string) : bool :=
  bool_decide (resource = plural ADataset) || bool_decide (resource = plural AInternal).

(** A namespaced request for a resource, of a client that is there. *)
Record asks (r : Request) (v : verb) (ns resource : string) (name : option string) : Prop := {
  asks_client : rq_client r ≠ None;
  asks_verb : rq_verb r = v;
  asks_namespace : rq_Namespace r = ns;
  asks_some_namespace : ns ≠ "";
  asks_resource : rq_Resource r = resource;
  asks_name : rq_Name r = name;
  asks_main : rq_SubResource r = [] }.

(** Options that ask for nothing special. *)
Definition plain_write (p : params) : Prop := ∃ o, p = WriteParams o ∧ wo_DryRun o = [].
Definition plain_delete (b : body) : Prop :=
  ∃ o, b = DeleteBody o ∧ do_PreconditionUID o = None ∧ do_PropagationPolicy o = None ∧
       do_DryRun o = [].

Definition set_namespace (ns : string) (m : ObjectMeta) : ObjectMeta :=
  MkObjectMeta (om_Name m) ns (om_UID m) (om_ResourceVersion m) (om_Labels m)
    (om_Annotations m) (om_Finalizers m) (om_OwnerReferences m) (om_DeletionTimestamp m).
Definition in_namespace (ns : string) (d : Dataset) : Dataset :=
  MkDataset (set_namespace ns (ds_Meta d)) (ds_Spec d) (ds_Status d).

(** The answer to a write: the error, or the object as it is stored now. *)
Definition written {S} (view : S → ∀ k, NamespacedName → option (Object k))
    (n : NamespacedName) (es : option goerr * S) : (Dataset * option goerr) * S :=
  (match es.1 with
   | Some e => (zero_value ADataset, Some e)
   | None => (default (zero_value ADataset) (view es.2 KDataset n), None)
   end, es.2).

Class RestServer {S} (hK : handler Kube S) `{!ApiServer hK} (hR : handler Rest S) := {
  rest_get s r ns name :
    asks r GET ns (plural ADataset) (Some name) → name ≠ "" →
    rq_Params r = GetParams (MkGetOptions "") →
    hR (DoInto r ADataset (zero_value ADataset)) s =
      (match view s KDataset (MkNamespacedName ns name) with
       | Some d => (d, None)
       | None => (zero_value ADataset, Some NotFound)
       end, s);
  rest_create s r ns d :
    asks r POST ns (plural ADataset) None → plain_write (rq_Params r) →
    rq_Body r = ObjectBody (existT ADataset d) → om_Name (ds_Meta d) ≠ "" →
    om_Namespace (ds_Meta d) = "" ∨ om_Namespace (ds_Meta d) = ns →
    hR (DoInto r ADataset (zero_value ADataset)) s =
      written view (MkNamespacedName ns (om_Name (ds_Meta d)))
        (hK (Create KDataset (in_namespace ns d)) s);
  rest_update s r ns d :
    asks r PUT ns (plural ADataset) (Some (om_Name (ds_Meta d))) → plain_write (rq_Params r) →
    rq_Body r = ObjectBody (existT ADataset d) → om_Name (ds_Meta d) ≠ "" →
    om_Namespace (ds_Meta d) = "" ∨ om_Namespace (ds_Meta d) = ns →
    hR (DoInto r ADataset (zero_value ADataset)) s =
      written view (MkNamespacedName ns (om_Name (ds_Meta d)))
        (hK (Update KDataset (in_namespace ns d)) s);
  rest_delete s r ns d :
    asks r DELETE ns (plural ADataset) (Some (om_Name (ds_Meta d))) → om_Name (ds_Meta d) ≠ "" →
    plain_delete (rq_Body r) →
    hR (DoError r) s = hK (Delete KDataset (in_namespace ns d)) s;
  rest_unserved s r v ns resource name :
    asks r v ns resource name → served resource = false →
    (∀ t, hR (DoInto r t (zero_value t)) s = ((zero_value t, Some NotFound), s)) ∧
    hR (DoError r) s = (Some NotFound, s) ∧
    hR (DoWatch r) s = (inl NotFound, s) }.

Lemma outcome_eq {E S A} (out : outcome E S A) a s :
  result out = a → final out = s → out = Outcome (trace out) a s.
Proof. by destruct out; cbn; intros -> ->. Qed.

(** ** The client of Datasets *)

Section Client.
Context {S : Type} (hK : handler Kube S) `{!ApiServer hK} (hR : handler Rest S)
  `{!RestServer hK hR}.
Context (c : datasets) (Hclient : ds_client c ≠ None) (Hns : ds_ns c ≠ "").

(** The calls, on a state. *)
Definition get_now (name : string) (s : S) : Dataset * option goerr :=
  result (run hR (datasets_Get c name (MkGetOptions "")) s).

Lemma get_now_view name s :
  name ≠ "" →
  get_now name s =
    match view s KDataset (MkNamespacedName (ds_ns c) name) with
    | Some d => (d, None)
    | None => (zero_value ADataset, Some NotFound)
    end.
Proof using All.
  intros Hname. unfold get_now, datasets_Get, do_into. cbn [run call result].
  rewrite (rest_get (hK := hK) s _ (ds_ns c) name); [done| |done|done]. by split.
Qed.

Lemma get_now_some name s d :
  name ≠ "" → view s KDataset (MkNamespacedName (ds_ns c) name) = Some d →
  get_now name s = (d, None).
Proof using All. intros Hn Hv. by rewrite get_now_view, Hv. Qed.

Lemma get_now_none name s :
  name ≠ "" → view s KDataset (MkNamespacedName (ds_ns c) name) = None →
  get_now name s = (zero_value ADataset, Some NotFound).
Proof using All. intros Hn Hv. by rewrite get_now_view, Hv. Qed.

(** A plain write that succeeds answers the object as it is stored. *)
Lemma written_stored n es d :
  es.1 = None → view (es.2 : S) KDataset n = Some d → written view n es = ((d, None), es.2).
Proof using Type. unfold written. intros -> Hv. by rewrite Hv. Qed.

Lemma create_stored d o s :
  om_Name (ds_Meta d) ≠ "" → om_Namespace (ds_Meta d) = "" ∨ om_Namespace (ds_Meta d) = ds_ns c →
  wo_DryRun o = [] →
  let n := MkNamespacedName (ds_ns c) (om_Name (ds_Meta d)) in
  view s KDataset n = None →
  ∃ d' s', run hR (datasets_Create c d o) s
           = Outcome (trace (run hR (datasets_Create c d o) s)) (d', None) s' ∧
    same_spec KDataset d d' ∧
    same_meta KDataset (set_namespace (ds_ns c) (ds_Meta d)) (ds_Meta d') ∧
    ds_Status d' = empty_status ∧ om_DeletionTimestamp (ds_Meta d') = None ∧
    changed view s s' KDataset n (Some d') ∧ surroundings s' = surroundings s.
Proof using All.
  intros Hname Hnamespace Hdry n Hv; subst n.
  destruct (api_create s KDataset (in_namespace (ds_ns c) d) Hv)
    as (d' & s' & Hcreate & Hmeta & Hspec & Hdel & Hst & Hch & Hsur).
  exists d', s'. split; [|by split_and!].
  unfold datasets_Create, do_into. cbn [run call result final trace].
  rewrite (rest_create (hK := hK) s _ (ds_ns c) d); [|by split|by eexists|done|done|done].
  rewrite Hcreate. by rewrite (written_stored (MkNamespacedName (ds_ns c) (om_Name (ds_Meta d))) (None, s') d' eq_refl (proj1 Hch)).
Qed.

Lemma update_stored d o s old :
  om_Name (ds_Meta d) ≠ "" → om_Namespace (ds_Meta d) = "" ∨ om_Namespace (ds_Meta d) = ds_ns c →
  wo_DryRun o = [] →
  let n := MkNamespacedName (ds_ns c) (om_Name (ds_Meta d)) in
  view s KDataset n = Some old → om_DeletionTimestamp (ds_Meta old) = None →
  om_ResourceVersion (ds_Meta d) = om_ResourceVersion (ds_Meta old) →
  ∃ d' s', run hR (datasets_Update c d o) s
           = Outcome (trace (run hR (datasets_Update c d o) s)) (d', None) s' ∧
    same_spec KDataset d d' ∧
    same_meta KDataset (set_namespace (ds_ns c) (ds_Meta d)) (ds_Meta d') ∧
    ds_Status d' = ds_Status old ∧ changed view s s' KDataset n (Some d').
Proof using All.
  intros Hname Hnamespace Hdry n Hv Hdel Hver; subst n.
  destruct (api_update s KDataset (in_namespace (ds_ns c) d) old Hv Hver)
    as (d' & s' & Hupdate & Hmeta & Hspec & _ & Hst & Hch & _).
  rewrite decide_False in Hch by (cbn; rewrite Hdel; tauto).
  exists d', s'. split; [|by split_and!].
  unfold datasets_Update, do_into. cbn [run call result final trace].
  rewrite (rest_update (hK := hK) s _ (ds_ns c) d); [|by split|by eexists|done|done|done].
  rewrite Hupdate. by rewrite (written_stored (MkNamespacedName (ds_ns c) (om_Name (ds_Meta d))) (None, s') d' eq_refl (proj1 Hch)).
Qed.

Lemma delete_stored name s old :
  name ≠ "" →
  let n := MkNamespacedName (ds_ns c) name in
  view s KDataset n = Some old →
  ∃ s' d', let out := run hR (datasets_Delete c name (MkDeleteOptions None None None [])) s in
    result out = None ∧ final out = s' ∧ om_DeletionTimestamp (ds_Meta d') ≠ None ∧
    changed view s s' KDataset n
      (if decide (om_Finalizers (ds_Meta old) = []) then None else Some d').
Proof using All.
  intros Hname n Hv.
  pose (d := MkDataset (new_meta name "" None) empty_spec empty_status).
  destruct (api_delete s KDataset (in_namespace (ds_ns c) d) old Hv)
    as (d' & s' & Hdelete & Hdel & _ & Hch & _).
  exists s', d'. unfold datasets_Delete. cbn [run call result final].
  rewrite (rest_delete (hK := hK) s _ (ds_ns c) d); [|by split|done|].
  - by rewrite Hdelete.
  - by eexists.
Qed.

(** (C33) The client of Datasets implements storing and reading objects.  On a reachable
    API server, a Dataset that is created under a free name comes back from [Create] as
    the server has stored it (specification, labels, annotations and finalizers as given,
    in the namespace of the client, with an empty status), and from [Get] equal to that;
    what was read can be edited and written back with [Update], and is then read as
    edited, with its status; after [Delete] the object is gone if it had no finalizers,
    and is read as being deleted otherwise.  No other object of the cluster changes. *)
Theorem datasets_client_roundtrip (d : Dataset) (o : WriteOptions) (s : S)
    (n := MkNamespacedName (ds_ns c) (om_Name (ds_Meta d)))
    (Hname : om_Name (ds_Meta d) ≠ "")
    (Hnamespace : om_Namespace (ds_Meta d) = "" ∨ om_Namespace (ds_Meta d) = ds_ns c)
    (Hdry : wo_DryRun o = []) (Hfree : view s KDataset n = None) :
  ∃ d1 s1 tr, run hR (datasets_Create c d o) s = Outcome tr (d1, None) s1 ∧
    ds_Spec d1 = ds_Spec d ∧ ds_Status d1 = empty_status ∧
    same_meta KDataset (set_namespace (ds_ns c) (ds_Meta d)) (ds_Meta d1) ∧
    changed view s s1 KDataset n (Some d1) ∧
    get_now (nn_Name n) s1 = (d1, None) ∧
    (∀ d1', key_of (ds_Meta d1') = n →
       om_ResourceVersion (ds_Meta d1') = om_ResourceVersion (ds_Meta d1) →
       ∃ d2 s2 tr2, run hR (datasets_Update c d1' o) s1 = Outcome tr2 (d2, None) s2 ∧
         ds_Spec d2 = ds_Spec d1' ∧ om_Labels (ds_Meta d2) = om_Labels (ds_Meta d1') ∧
         ds_Status d2 = ds_Status d1 ∧ get_now (nn_Name n) s2 = (d2, None) ∧
         changed view s1 s2 KDataset n (Some d2)) ∧
    ∃ s3 tr3, run hR (datasets_Delete c (nn_Name n) (MkDeleteOptions None None None [])) s1
              = Outcome tr3 None s3 ∧
      (if decide (om_Finalizers (ds_Meta d) = [])
       then get_now (nn_Name n) s3 = (zero_value ADataset, Some NotFound)
       else ∃ d3, get_now (nn_Name n) s3 = (d3, None) ∧ om_DeletionTimestamp (ds_Meta d3) ≠ None) ∧
      ∀ k' n', k' ≠ KDataset ∨ n' ≠ n → view s3 k' n' = view s1 k' n'.
Proof using All.
  destruct (create_stored d o s Hname Hnamespace Hdry Hfree)
    as (d1 & s1 & Hrun & Hspec & Hmeta & Hst & Hdel & Hch & _).
  exists d1, s1, (trace (run hR (datasets_Create c d o) s)).
  pose proof (proj1 Hch) as Hv1. split; [done|].
  do 4 (split; [done|]). split; [by apply get_now_some|]. split.
  - intros d1' Hkey Hver.
    assert (om_Name (ds_Meta d1') = nn_Name n ∧ om_Namespace (ds_Meta d1') = ds_ns c) as [Hn1 Hn2]
      by (rewrite <-Hkey; split; [done|]; by apply (f_equal nn_Namespace) in Hkey).
    destruct (update_stored d1' o s1 d1) as (d2 & s2 & Hrun2 & Hspec2 & Hmeta2 & Hst2 & Hch2);
      [by rewrite Hn1|by right|done|by rewrite Hn1|done|done|].
    rewrite Hn1 in Hch2. exists d2, s2. eexists. split; [exact Hrun2|].
    split; [done|]. split; [apply Hmeta2|]. split; [done|].
    split; [by apply get_now_some; [|apply Hch2]|done].
  - destruct (delete_stored (nn_Name n) s1 d1 Hname Hv1) as (s3 & d3 & Hres & Hfin & Hd3 & Hch3).
    exists s3. eexists. split; [by apply outcome_eq|].
    rewrite (sm_finalizers _ _ _ Hmeta) in Hch3. cbn in Hch3. split.
    + destruct (decide _); [by apply get_now_none; [|apply Hch3]|].
      exists d3. split; [by apply get_now_some; [|apply Hch3]|done].
    + destruct Hch3 as (_ & Hn' & Hk'). intros k' n' [Hk|Hn]; [by apply Hk'|].
      destruct (decide (k' = KDataset)) as [->|Hk]; [by apply Hn'|by apply Hk'].
Qed.
End Client.

(** ** The client of DatasetInternals *)

(** The call answers [a] and changes nothing. *)
Definition only_answers {S A} (hR : handler Rest S) (p : prog Rest A) (s : S) (a : A) : Prop :=
  ∃ tr, run hR p s = Outcome tr a s.

Section Internals.
Context {S : Type} (hK : handler Kube S) `{!ApiServer hK} (hR : handler Rest S)
  `{!RestServer hK hR}.
Context (c : datasetInternal) (Hclient : di_client c ≠ None) (Hns : di_ns c ≠ "").

(** The client of DatasetInternals never works: it asks for the resource
    [datasetinternal], while the resource definition serves [datasetsinternal], so that on
    a reachable API server every call, whatever objects there are and whatever it is
    given, answers [NotFound] with an empty object, and changes nothing. *)
Theorem internal_client_finds_nothing (s : S) :
  (∀ name o, only_answers hR (internal_Get c name o) s (zero_value AInternal, Some NotFound)) ∧
  (∀ o, only_answers hR (internal_List c o) s (zero_value AInternalList, Some NotFound)) ∧
  (∀ o, only_answers hR (internal_Watch c o) s (inl NotFound)) ∧
  (∀ d o, only_answers hR (internal_Create c d o) s (zero_value AInternal, Some NotFound)).
Proof using All.
  split_and!; intros; eexists; apply outcome_eq;
    unfold internal_Get, internal_List, internal_Watch, internal_Create, do_into;
    cbn [run call result final];
    match goal with
    | |- context [hR ?o s] =>
        match o with
        | DoInto ?r ?t _ =>
            destruct (rest_unserved (hK := hK) s r (rq_verb r) (di_ns c) "datasetinternal"
              (rq_Name r)) as (Hn & _ & _); [by split|done|]; by rewrite Hn
        | DoWatch ?r =>
            destruct (rest_unserved (hK := hK) s r (rq_verb r) (di_ns c) "datasetinternal"
              (rq_Name r)) as (_ & _ & Hn); [by split|done|]; by rewrite Hn
        end
    end.
Qed.
End Internals.

(** ** Timeouts *)

(** The timeouts of the operations of an interaction with the REST client. *)
Definition timeout_sent (o : rest_op) : option Z :=
  match o with DoInto r _ _ | DoError r | DoWatch r => rq_Timeout r end.

Lemma wrap64_range n : minInt64 ≤ wrap64 n ≤ maxInt64.
Proof. unfold wrap64, minInt64, maxInt64. pose proof (Z.mod_pos_bound (n + 2 ^ 63) (2 ^ 64)). lia. Qed.

Lemma wrap64_id n : minInt64 ≤ n ≤ maxInt64 → wrap64 n = n.
Proof. unfold wrap64, minInt64, maxInt64. intros. rewrite Z.mod_small; lia. Qed.

(** The timeout of a list request is the one the options ask for, in nanoseconds,
    as long as it fits a [time.Duration]: up to 9223372036 seconds (292 years) in either
    direction.  Beyond that it wraps around, and what is sent is another number, in the
    range of 64 bits.  Without [TimeoutSeconds] it is 0.  This holds in every environment
    and for each of the calls that take list options. *)
Theorem list_timeout_bounds (c : datasets) (o : metav1_ListOptions) (p : list rest_op)
    (Hcall : (∃ S (h : handler Rest S) s, p = trace (run h (datasets_List c o) s)) ∨
             (∃ S (h : handler Rest S) s, p = trace (run h (datasets_Watch c o) s)) ∨
             (∃ S (h : handler Rest S) s d, p = trace (run h (datasets_DeleteCollection c d o) s))) :
  ∃ t, timeout_sent <$> p = [Some t] ∧ minInt64 ≤ t ≤ maxInt64 ∧
    match lopt_TimeoutSeconds o with
    | None => t = 0
    | Some n => t = n * 1000000000 ↔ -9223372036 ≤ n ≤ 9223372036
    end.
Proof.
  exists (timeout_of o). split.
  { by destruct Hcall as [(?&?&?&->)|[(?&?&?&->)|(?&?&?&?&->)]]. }
  unfold timeout_of. destruct (lopt_TimeoutSeconds o) as [n|]; [|done].
  split; [apply wrap64_range|]. unfold second.
  pose proof (wrap64_range (n * 1000000000)) as Hr. unfold minInt64, maxInt64 in Hr.
  split; intros Hn; [rewrite Hn in Hr; lia|].
  apply wrap64_id. unfold minInt64, maxInt64. lia.
Qed.

(** ** The fakes *)

(** A call of the interface [DatasetInterface]. *)
Inductive dataset_call :=
  | CallGet (name : string) (o : GetOptions)
  | CallList (o : metav1_ListOptions)
  | CallWatch (o : metav1_ListOptions)
  | CallCreate (d : Dataset) (o : WriteOptions)
  | CallUpdate (d : Dataset) (o : WriteOptions)
  | CallDelete (name : string) (o : DeleteOptions)
  | CallDeleteCollection (o : DeleteOptions) (l : metav1_ListOptions)
  | CallPatch (name pt data : string) (o : PatchOptions) (subresources : list string).

Definition client_calls {S} (h : handler Rest S) (s : S) (c : datasets) (m : dataset_call) :
    list rest_op :=
  match m with
  | CallGet name o => trace (run h (datasets_Get c name o) s)
  | CallList o => trace (run h (datasets_List c o) s)
  | CallWatch o => trace (run h (datasets_Watch c o) s)
  | CallCreate d o => trace (run h (datasets_Create c d o) s)
  | CallUpdate d o => trace (run h (datasets_Update c d o) s)
  | CallDelete name o => trace (run h (datasets_Delete c name o) s)
  | CallDeleteCollection o l => trace (run h (datasets_DeleteCollection c o l) s)
  | CallPatch name pt data o sub => trace (run h (datasets_Patch c name pt data o sub) s)
  end.

Section Fakes.
Context `{LabelSelectors}.

Definition fake_calls {S} (h : handler Fake S) (s : S) (c : FakeDatasets) (m : dataset_call) :
    list fake_op :=
  match m with
  | CallGet name o => trace (run h (fake_datasets_Get c name o) s)
  | CallList o => trace (run h (fake_datasets_List c o) s)
  | CallWatch o => trace (run h (fake_datasets_Watch c o) s)
  | CallCreate d o => trace (run h (fake_datasets_Create c d o) s)
  | CallUpdate d o => trace (run h (fake_datasets_Update c d o) s)
  | CallDelete name o => trace (run h (fake_datasets_Delete c name o) s)
  | CallDeleteCollection o l => trace (run h (fake_datasets_DeleteCollection c o l) s)
  | CallPatch name pt data o sub => trace (run h (fake_datasets_Patch c name pt data o sub) s)
  end.

(** The action a request stands for, by its verb, its name and its parameters. *)
Definition action_of (gv : string * string) (kind : string) (r : Request) : option Action :=
  let res := MkGVR gv.1 gv.2 (rq_Resource r) in
  match rq_verb r, rq_Name r, rq_Params r, rq_Body r with
  | GET, Some name, _, NoBody => Some (GetAction res (rq_Namespace r) name)
  | GET, None, ListParams o, NoBody =>
      Some (ListAction res (MkGVK gv.1 gv.2 kind) (rq_Namespace r) o)
  | POST, None, _, ObjectBody x => Some (CreateAction res (rq_Namespace r) x)
  | PUT, Some _, _, ObjectBody x => Some (UpdateAction res (rq_Namespace r) x)
  | DELETE, Some name, _, DeleteBody _ => Some (DeleteAction res (rq_Namespace r) name)
  | DELETE, None, ListParams o, DeleteBody _ =>
      Some (DeleteCollectionAction res (rq_Namespace r) o)
  | PATCH pt, Some name, _, BytesBody data =>
      Some (PatchSubresourceAction res (rq_Namespace r) name pt data (rq_SubResource r))
  | _, _, _, _ => None
  end.

(** A fake does what a client does: the action of the request, and for an object, the type
    it is decoded into.  The options of a watch carry the flag that asks for a watch. *)
Definition corresponds (gv : string * string) (kind : string) (o : rest_op) (f : fake_op) :
    Prop :=
  match o, f with
  | DoInto r t x, Invokes a y => action_of gv kind r = Some a ∧ y = existT t x
  | DoError r, Invokes a y =>
      action_of gv kind r = Some a ∧
      projT1 y = (if rq_Name r is Some _ then ADataset else ADatasetList)
  | DoWatch r, InvokesWatch (WatchAction res ns opts) =>
      res = MkGVR gv.1 gv.2 (rq_Resource r) ∧ rq_verb r = GET ∧ rq_Namespace r = ns ∧
      rq_Params r = ListParams (set_Watch opts)
  | _, _ => False
  end.

Lemma invoke_trace {S} (h : handler Fake S) t a s :
  trace (run h (invoke t a) s) = [Invokes a (existT t (zero_value t))].
Proof using Type.
  unfold invoke. cbn. by repeat case_match.
Qed.

Lemma fake_list_trace {S} (h : handler Fake S) c o s :
  trace (run h (fake_datasets_List c o) s) =
  [Invokes (ListAction datasetsResource datasetsKind (fds_ns c) o)
     (existT ADatasetList (zero_value ADatasetList))].
Proof using Type. unfold fake_datasets_List. rewrite run_bind. cbn zeta. cbn [trace]. 
  exact (f_equal2 app (invoke_trace h ADatasetList _ s) eq_refl).
Qed.

(** The fake of the client of Datasets stands for the client: whatever the server and
    the reactors answer, each of the eight calls is one request of the client and one
    action of the fake, and the action is the one the request stands for: the same verb,
    group, version, resource, namespace, name, subresources and object. *)
Theorem fake_performs_same_actions {S S'} (hR : handler Rest S) (s : S) (hF : handler Fake S')
    (s' : S') (c : option ComV1alpha1Client) (ns : string) (m : dataset_call) :
  ∃ o f, client_calls hR s (com_Datasets c ns) m = [o] ∧
    fake_calls hF s' (fake_com_Datasets ns) m = [f] ∧
    corresponds ("datashim.io", "v1alpha1") "Dataset" o f.
Proof using Type.
  destruct m; eexists _, _; (split; [reflexivity|]);
    (split; [cbn [fake_calls]; first [apply fake_list_trace|apply invoke_trace|reflexivity]|]);
    cbn; by split_and!.
Qed.

(** The fake of the client of DatasetInternals names another resource. *)
Lemma fake_internal_differs {S S'} (hR : handler Rest S) (s : S) (hF : handler Fake S')
    (s' : S') c ns d opts o f :
  trace (run hR (internal_Create (com_DatasetInternal c ns) d opts) s) = [o] →
  trace (run hF (fake_internal_Create (fake_com_DatasetInternal ns) d opts) s') = [f] →
  ¬ corresponds ("datashim.io", "v1alpha1") "DatasetInternal" o f.
Proof using Type.
  intros [= <-] Hf. unfold fake_internal_Create in Hf.
  rewrite invoke_trace in Hf. injection Hf as <-. by intros [[=] _].
Qed.

(** A list of the fake keeps the items whose labels the selector matches, in order. *)
Lemma matching_filter {A} (labels_of : A → gomap) label items acc :
  matching labels_of label items acc = acc ++ filter (λ x, label (labels_of x)) items.
Proof using Type.
  revert acc. induction items as [|x l IH]; intros acc; cbn [matching].
  - by rewrite app_nil_r.
  - rewrite IH, filter_cons. destruct (label (labels_of x)); (destruct (decide _); [|try done]).
    + by rewrite <-app_assoc.
    + done.
Qed.

Lemma fake_list_result {S} (h : handler Fake S) c o s l e s' :
  h (Invokes (ListAction datasetsResource datasetsKind (fds_ns c) o)
       (existT ADatasetList (zero_value ADatasetList))) s
  = ((Some (existT ADatasetList l), e), s') →
  result (run h (fake_datasets_List c o) s) =
    Some (Some (MkDatasetList (dl_ListMeta l)
                  (filter (λ d, selector o (om_Labels (ds_Meta d))) (dl_Items l))), e).
Proof using Type.
  intros Hh. unfold fake_datasets_List, invoke. cbn. cbn in Hh. rewrite Hh.
  cbn. destruct (decide (ADatasetList = ADatasetList)) as [E|]; [|done].
  rewrite (proof_irrel E eq_refl). cbn.
  by rewrite (matching_filter _ _ _ []).
Qed.
End Fakes.

(** ** How the clients are made *)

Section Connecting.
Context {F : Type} `{!Float32 F}.

(** The rate limiter, the rate and the host of the configuration of each client made. *)
Definition made_with (o : @connect_op F) : option (option nat * F * Z * string) :=
  match o with
  | RESTClientFor c | NewDiscoveryClientForConfig c =>
      Some (RateLimiter c, QPS c, Burst c, Host c)
  | _ => None
  end.
(** The limiters made: their rates, their bursts and who they are. *)
Definition limiter_made (e : event (@Connect F)) : option (F * Z * nat) :=
  match e with
  | Ev o r =>
      match o return connect_reply o → option (F * Z * nat) with
      | NewTokenBucketRateLimiter qps burst => λ r, Some (qps, burst, r)
      | _ => λ _, None
      end r
  end.

(** A limit is asked for, and no limiter is given. *)
Definition needs_limiter (c : @rest_Config F) : bool :=
  bool_decide (RateLimiter c = None) && is_positive (QPS c).

(** The event is a request for a REST client of the API group. *)
Definition connects_to_group (o : @connect_op F) : Prop :=
  match o with
  | RESTClientFor c =>
      GroupVersion c = Some ("datashim.io", "v1alpha1") ∧ APIPath c = "/apis" ∧
      NegotiatedSerializer c = Some "WithoutConversion"
  | _ => True
  end.

Definition clients_made (evs : list (event (@Connect F))) :
    list (option nat * F * Z * string) :=
  omap (λ e : event (@Connect F), made_with (ev_op e)) evs.

(** Two clients are made, with the same limiter, or one fails and the rest is not made. *)
Definition clients_from {A} (c : rest_Config) (r : option nat) (evs : list (event (@Connect F)))
    (success : A → Prop) (res : A) : Prop :=
  let client := (r, QPS c, Burst c, Host c) in
  Forall (λ e : event (@Connect F), connects_to_group (ev_op e)) evs ∧
  (success res ∧ clients_made evs = [client; client] ∨
   ¬ success res ∧ (clients_made evs = [client] ∨ clients_made evs = [client; client])).

(** Each of them is connected. *)
Definition both (cs : versioned_Clientset) : Prop :=
  is_Some (Discovery (Some cs)) ∧ is_Some (RESTClient (ComV1alpha1 cs)).

Ltac connect_cases :=
  repeat match goal with
  | H : behaviour (Call _ _) _ _ |- _ => destruct H as (? & ? & -> & H); cbn in H
  | H : behaviour (Ret _) _ _ |- _ => destruct H as [-> <-]
  | H : behaviour (if ?b then _ else _) _ _ |- _ => destruct b eqn:?; cbn in H
  | H : behaviour ?p _ _ |- _ =>
      match p with context [match ?x with inl _ => _ | inr _ => _ end] => destruct x; cbn in H end
  | H : context [decide ?P] |- _ => destruct (decide P); cbn in H
  | H : _ ∧ _ |- _ => destruct H
  | H : ∃ _, _ |- _ => destruct H
  end; subst.

Ltac connect_outcome :=
  split; [by repeat constructor|]; cbn;
  first [ left; split; [|done]; eexists; split; [done|split; by eexists]
        | right; split; [by intros (? & ? & ?)|by auto] ].

(** [NewForConfig] makes both clients of a clientset, the REST client of the group
    [datashim.io/v1alpha1] and the discovery client, for the host and with the rate of the
    configuration, and lets them share one rate limiter: the caller's if there is one, a
    new one if only a rate is given, none otherwise; a rate without a positive burst is
    rejected before anything is made.  If one of the clients cannot be made it answers
    the error.  [NewForConfigOrDie] hands the configuration to the clients as it is: it
    makes no limiter and accepts what [NewForConfig] rejects. *)
Theorem NewForConfig_shares_limiter (c : rest_Config) (evs : list (event (@Connect F))) :
  (∀ res, behaviour (NewForConfig c) evs res →
     if needs_limiter c && (Burst c <=? 0) then res = inl burst_error ∧ evs = []
     else ∃ r, omap limiter_made evs = (if needs_limiter c then [(QPS c, Burst c, r)] else []) ∧
          clients_from c (if needs_limiter c then Some r else RateLimiter c) evs
            (λ res, ∃ cs, res = inr cs ∧ both cs) res) ∧
  (∀ res, behaviour (NewForConfigOrDie c) evs res →
     omap limiter_made evs = [] ∧
     clients_from c (RateLimiter c) evs (λ res, ∃ cs, res = Some cs ∧ both cs) res).
Proof using Type.
  split; intros res.
  - unfold NewForConfig, with_limiter, com_NewForConfig, setConfigDefaults, needs_limiter.
    destruct (bool_decide _ && is_positive _) eqn:Hneeds; cbn; intros H; connect_cases;
      destruct (Z.leb_spec (Burst c) 0); try lia; try done;
      (first [exists 0%nat; split; [reflexivity|]|eexists; split; [reflexivity|]]);
      connect_outcome.
  - unfold NewForConfigOrDie, com_NewForConfigOrDie, com_NewForConfig, setConfigDefaults.
    cbn; intros H; connect_cases; (split; [reflexivity|]); connect_outcome.
Qed.
End Connecting.
