(* ===== verification/ClientsetWitness.v ===== *)
(** * The typed clients on a server in memory

    An implementation of [RestServer] on top of the server of [KubeServer.v], and the
    theorems of [ClientsetSafety.v] on concrete calls. *)

From Stdlib Require Import ZArith Lia.
From stdpp Require Import options.
From S2P Require Import Prelude GoStd KubeApi KubeServer Clientset ClientsetSafety.

Open Scope Z_scope.

(** ** A REST server in memory *)

Definition mem_dataset (r : Request) (s : MemServer) : (Dataset * option goerr) * MemServer :=
  let ns := rq_Namespace r in
  match rq_verb r, rq_Name r, rq_Body r with
  | GET, Some name, _ =>
      (match mem_view s KDataset (MkNamespacedName ns name) with
       | Some d => (d, None)
       | None => (zero_value ADataset, Some NotFound)
       end, s)
  | POST, None, ObjectBody (existT ADataset d) =>
      written mem_view (MkNamespacedName ns (om_Name (ds_Meta d)))
        (mem_handler (Create KDataset (in_namespace ns d)) s)
  | PUT, Some _, ObjectBody (existT ADataset d) =>
      written mem_view (MkNamespacedName ns (om_Name (ds_Meta d)))
        (mem_handler (Update KDataset (in_namespace ns d)) s)
  | _, _, _ => ((zero_value ADataset, Some (BadRequest "unsupported")), s)
  end.

Definition mem_rest : handler Rest MemServer := λ o s,
  match o return rest_reply o * MemServer with
  | DoInto r t x =>
      if served (rq_Resource r) then
        match t return (api_value t * option goerr) * MemServer with
        | ADataset => mem_dataset r s
        | t => ((zero_value t, Some (BadRequest "unsupported")), s)
        end
      else ((x, Some NotFound), s)
  | DoError r =>
      if served (rq_Resource r) then
        match rq_Name r with
        | Some name =>
            mem_handler (Delete KDataset
              (MkDataset (new_meta name (rq_Namespace r) None) empty_spec empty_status)) s
        | None => (Some (BadRequest "unsupported"), s)
        end
      else (Some NotFound, s)
  | DoWatch r => (if served (rq_Resource r) then inr 0%nat else inl NotFound, s)
  end.

Lemma mem_delete_key s ns d :
  mem_handler (Delete KDataset (MkDataset (new_meta (om_Name (ds_Meta d)) ns None)
    empty_spec empty_status)) s = mem_handler (Delete KDataset (in_namespace ns d)) s.
Proof. done. Qed.

#[export] Instance mem_rest_server : RestServer mem_handler mem_rest.
Proof.
  split.
  - intros s r ns name [_ Hv Hns _ Hr Hn _] _ _. cbn. rewrite Hr. cbn. unfold mem_dataset.
    by rewrite Hv, Hn, Hns.
  - intros s r ns d [_ Hv Hns _ Hr Hn _] _ Hb _ _. cbn. rewrite Hr. cbn. unfold mem_dataset.
    by rewrite Hv, Hn, Hns, Hb.
  - intros s r ns d [_ Hv Hns _ Hr Hn _] _ Hb _ _. cbn. rewrite Hr. cbn. unfold mem_dataset.
    by rewrite Hv, Hn, Hns, Hb.
  - intros s r ns d [_ Hv Hns _ Hr Hn _] _ _. cbn [mem_rest]. rewrite Hr, Hn, Hns. cbn [served].
    apply mem_delete_key.
  - intros s r v ns resource name [_ _ _ _ Hr _ _] Hs. cbn. by rewrite Hr, Hs.
Qed.

(** ** Witnesses *)

Definition vacant_server : MemServer :=
  MkMemServer (λ _ _, None) [] [] (λ _, "") [] 1.

Definition team_datasets : datasets := com_Datasets (Some (com_New (Some 7%nat))) "team".
Definition team_internals : datasetInternal :=
  com_DatasetInternal (Some (com_New (Some 7%nat))) "team".
Definition books : Dataset :=
  MkDataset (new_meta "books" "" (Some {[ "course" := "one" ]}))
    (MkDatasetSpec (Some {[ "type" := "COS" ]}) None "" "" "" "") empty_status.

Lemma client_roundtrip_witness :
  ∃ d1 s1 tr, run mem_rest (datasets_Create team_datasets books (MkWriteOptions [] "")) vacant_server
              = Outcome tr (d1, None) s1 ∧
    get_now mem_rest team_datasets "books" s1 = (d1, None) ∧ ds_Spec d1 = ds_Spec books ∧
    om_Namespace (ds_Meta d1) = "team".
Proof.
  destruct (datasets_client_roundtrip mem_handler mem_rest team_datasets (ltac:(done))
    (ltac:(done)) books (MkWriteOptions [] "") vacant_server (ltac:(done)) (or_introl eq_refl)
    eq_refl eq_refl) as (d1 & s1 & tr & Hrun & Hspec & _ & Hmeta & _ & Hget & _).
  exists d1, s1, tr. split; [exact Hrun|]. split; [exact Hget|]. split; [exact Hspec|].
  pose proof (sm_key _ _ _ Hmeta) as Hk. by apply (f_equal nn_Namespace) in Hk.
Defined.

Lemma internal_client_witness :
  let s := store vacant_server KDatasetInternal (MkNamespacedName "team" "books")
             (Some (MkDatasetInternal (new_meta "books" "team" None) empty_spec empty_placement)) in
  ∃ tr, run mem_rest (internal_Get team_internals "books" (MkGetOptions "")) s
        = Outcome tr (zero_value AInternal, Some NotFound) s.
Proof.
  cbn zeta.
  destruct (internal_client_finds_nothing mem_handler mem_rest team_internals (ltac:(done))
    (ltac:(done)) (store vacant_server KDatasetInternal (MkNamespacedName "team" "books")
      (Some (MkDatasetInternal (new_meta "books" "team" None) empty_spec empty_placement))))
    as (Hget & _).
  apply Hget.
Defined.

Definition list_options (n : Z) : metav1_ListOptions :=
  MkListOpts "" "" false false "" (Some n) 0 "".

(** Ten thousand million seconds wrap around to a negative timeout. *)
Lemma timeout_witness :
  ∃ t, timeout_sent <$> trace (run mem_rest (datasets_List team_datasets (list_options 10000000000))
                                 vacant_server) = [Some t] ∧ t ≠ 10000000000 * 1000000000.
Proof.
  destruct (list_timeout_bounds team_datasets (list_options 10000000000)
    (trace (run mem_rest (datasets_List team_datasets (list_options 10000000000)) vacant_server)))
    as (t & Ht & _ & Hiff); [left; by eexists _, _, _|].
  exists t. split; [done|]. cbn in Hiff. intros Hn. apply Hiff in Hn. lia.
Defined.

(** A configuration with a rate: both clients get the new limiter. *)
#[local] Instance demo_float : Float32 Z := λ q, bool_decide (0 < q).
Definition demo_config (burst : Z) : @rest_Config Z :=
  MkRestConfig "https://cluster" "" None None "demo" 5 burst None.
Definition demo_connect : handler (@Connect Z) unit := λ o s,
  (match o return connect_reply o with
   | DefaultKubernetesUserAgent => "go"
   | RESTClientFor _ => inr 1%nat
   | NewTokenBucketRateLimiter _ _ => 9%nat
   | NewDiscoveryClientForConfig _ => inr 2%nat
   | NewDiscoveryClient _ => 3%nat
   end, s).

Lemma shares_limiter_witness :
  result (run demo_connect (NewForConfig (demo_config 0)) tt) = inl burst_error ∧
  ∃ cs, result (run demo_connect (NewForConfig (demo_config 3)) tt) = inr cs ∧
    clients_made (events demo_connect (NewForConfig (demo_config 3)) tt) =
      [(Some 9%nat, 5, 3, "https://cluster"); (Some 9%nat, 5, 3, "https://cluster")].
Proof.
  split.
  - destruct (NewForConfig_shares_limiter (demo_config 0)
      (events demo_connect (NewForConfig (demo_config 0)) tt)) as [H _].
    apply (H _ (run_behaviour demo_connect _ tt)).
  - destruct (NewForConfig_shares_limiter (demo_config 3)
      (events demo_connect (NewForConfig (demo_config 3)) tt)) as [H _].
    destruct (H _ (run_behaviour demo_connect _ tt)) as (r & Hr & _ & Hc).
    cbn in Hr. injection Hr as <-.
    destruct Hc as [[(cs & Hcs & _) Hmade]|[Hno _]].
    + exists cs. by split.
    + exfalso. apply Hno. by eexists; split; [|split; eexists].
Defined.
