(* ===== verification/UserStory.v ===== *)
(** * From a program that creates a dataset to a pod that mounts it

    A program creates a Dataset with the typed client ([Clientset.v]); the reconcilers,
    the webhook and the driver do the rest ([EndToEnd.v]); the program sees it with the
    typed client again. *)

From Stdlib Require Import ZArith Lia Ascii.
From stdpp Require Import options.
From S2P Require Import Prelude GoStd KubeApi PodMutator PodPatch PodApply PodHandle KubeServer KubeWp NameRegex DatasetController DatasetSafety DatasetProgress Metastore InternalController InternalSafety InternalProgress InternalWitness NodeApi S3Client S3Mounter S3Server Pipeline EndToEnd Clientset ClientsetSafety ClientsetWitness.

Open Scope Z_scope.

Section Story.
Context {S : Type} (hK : handler Kube S) `{!ApiServer hK} (hR : handler Rest S)
  `{!RestServer hK hR} `{Metastore} `{ControllerUtil} `{MapRange}.
Context (c : datasets) (Hclient : ds_client c ≠ None) (Hns : ds_ns c ≠ "").

(** The name of a dataset the client creates. *)
Definition created_as (d : Dataset) : NamespacedName :=
  MkNamespacedName (ds_ns c) (om_Name (ds_Meta d)).

(** A COS dataset that can be created and used: a valid name of which nothing exists,
    usable credentials, no caching plugins. *)
Record creatable (s : S) (d : Dataset) (a k : string) : Prop := {
  cr_name : om_Name (ds_Meta d) ≠ "" ∧ name_rejected (om_Name (ds_Meta d)) = false;
  cr_namespace : om_Namespace (ds_Meta d) = "" ∨ om_Namespace (ds_Meta d) = ds_ns c;
  cr_cos : map_get (spec_Local (ds_Spec d)) "type" = Some "COS" ∧
           spec_Type (ds_Spec d) ≠ "ARCHIVE";
  cr_credentials : credentials hK s (as_internal (in_namespace (ds_ns c) d)) = inr (a, k);
  cr_plugins : pods s (plugin_options hK s) = [];
  cr_free : view s KDataset (created_as d) = None ∧
            view s KDatasetInternal (created_as d) = None ∧
            view s KPVC (created_as d) = None ∧ view s KSecret (created_as d) = None }.

(** What the client creates is what the reconcilers start from. *)
Lemma created_is_new (d : Dataset) (o : WriteOptions) (s : S) (a k : string) :
  creatable s d a k → wo_DryRun o = [] →
  ∃ d1 s1 tr, run hR (datasets_Create c d o) s = Outcome tr (d1, None) s1 ∧
    ds_Spec d1 = ds_Spec d ∧ new_cos_dataset hK (created_as d) s1 d1 a k.
Proof using All.
  intros [[Hname Hvalid] Hnamespace [Hcos Htype] Hcred Hplugins (Hf1 & Hf2 & Hf3 & Hf4)] Hdry.
  destruct (create_stored hK hR c Hclient Hns d o s Hname Hnamespace Hdry Hf1)
    as (d1 & s1 & Hrun & Hspec & Hmeta & Hst & Hdel & Hch & Hsur).
  exists d1, s1. eexists. split; [exact Hrun|]. split; [exact Hspec|].
  pose proof (sm_key _ _ _ Hmeta) as Hkey. cbn in Hkey.
  cbn in Hspec.
  assert (∀ k n, k ≠ KDataset → view s1 k n = view s k n) as Hother by apply Hch.
  split; try done.
  - split; try done; try (by rewrite ?Hspec); try (unfold caching_status, provision_status; rewrite Hst; set_solver).
    + apply Hch.
    + unfold plugin_options. injection Hsur as Hpods _ Henv _ _. by rewrite Hpods, Henv.
    + by rewrite Hother, Hf3.
    + by rewrite Hother, Hf2.
  - unfold caching_status, provision_status. by rewrite Hst.
  - by rewrite Hspec.
  - rewrite <-Hcred. rewrite (same_credentials hK s s1 (in_namespace (ds_ns c) d)); [done|done|done|].
    intros n. by apply Hother.
  - by rewrite !Hother.
Qed.
End Story.

(** ** Witness *)

Definition wanted : Dataset :=
  MkDataset (new_meta "books" "" None)
    (MkDatasetSpec
       (Some (list_to_map [("type", "COS"); ("endpoint", "http://minio:9000");
                           ("bucket", "books/2024"); ("accessKeyID", "id");
                           ("secretAccessKey", "key")]))
       None "" "" "" "")
    empty_status.

Definition books_key : NamespacedName := MkNamespacedName "team" "books".

Definition bind_books (s : MemServer) : MemServer :=
  match mem_view s KPVC books_key with
  | Some pvc => store s KPVC books_key (Some (set_status_of KPVC ClaimBound pvc))
  | None => s
  end.

Lemma bind_books_binds s :
  is_Some (mem_view s KPVC books_key) → binds mem_handler books_key s (bind_books s).
Proof.
  intros [pvc Hp]. exists pvc, (set_status_of KPVC ClaimBound pvc).
  unfold bind_books. rewrite Hp. split_and!; try done. apply store_changed.
Qed.

