(* ===== verification/DatasetLifecycle.v ===== *)
(** * The life of a dataset

    The reconcilers and the client on a reachable API server, and the S3 driver on a node
    and an object store that work: a dataset that is created is mounted on the node, a
    dataset that is deleted leaves nothing in the cluster, and its bucket exactly when its
    label does not ask for removal. *)

From Stdlib Require Import ZArith Lia Ascii.
From stdpp Require Import options.
From S2P Require Import Prelude GoStd Url Path KubeApi KubeServer KubeWp Metastore InternalController InternalSafety InternalProgress InternalWitness NodeApi S3Client S3Mounter S3Server Pipeline NodeWorld NodeMounts CsiSpec CsiLifecycle CsiWitness Clientset ClientsetSafety ClientsetWitness.

Open Scope Z_scope.

(** The mount of a volume that a dataset asks for. *)
Definition dataset_mount (i : DatasetInternal) (a k : string) (v : CsiVolume) : mount_cmd :=
  let type := map_index (cn_Parameters v) "mounter" in
  publish_command type (dataset_bucket i type) (dataset_config i a k) (cn_id v) (cn_Target v).

(** ** The driver, with the Secret of a dataset *)

Section Driver.
Context {N : Type} (hN : handler Node N) `{!ObjectStore hN} `{!MountTable hN}.
Context (i : DatasetInternal) (a k : string) (secrets : gomap).
Context (Hconf : config_of_secrets secrets = dataset_config i a k).

Lemma secret_bucket : secret secrets "bucket" = (cos_bucket i).1.
Proof using Hconf. exact (f_equal cfg_Bucket Hconf). Qed.

Lemma secret_provision : asked secrets "provision" = dataset_flag (di_Local i) "provision".
Proof using Hconf. exact (f_equal cfg_Provision Hconf). Qed.

Lemma secret_remove :
  asked secrets "remove-on-delete" = dataset_flag (om_Labels (di_Meta i)) "remove-on-delete".
Proof using Hconf. exact (f_equal cfg_RemoveOnDelete Hconf). Qed.

(** The mount of a volume with these secrets is that of the dataset. *)
Lemma mount_of_dataset v :
  cn_Secrets v = secrets → mount_of (publish_request v) = dataset_mount i a k v.
Proof using Hconf.
  intros Hs. unfold dataset_mount, mount_of, publish_request. cbn [np_Secrets np_VolumeContext].
  rewrite Hs, Hconf, secret_bucket. unfold dataset_bucket.
  by replace (secret secrets "folder") with (cos_bucket i).2
    by (symmetry; exact (f_equal cfg_Folder Hconf)).
Qed.

(** A volume with these secrets is created, staged and published. *)
Lemma provided_with_secret t w v keys :
  cn_Secrets v = secrets → usable_volume hN v → shows hN t w →
  w_mounts w !! cn_Target v = None →
  w_buckets w !! (cn_endpoint v, (cos_bucket i).1) = Some keys ∨
  w_buckets w !! (cn_endpoint v, (cos_bucket i).1) = None ∧
    dataset_flag (di_Local i) "provision" = true ∧ keys = [] →
  let out := run hN (serve_all (provide v)) t in
  result out = [inr (RsVolume (cn_volume v)); inr RsDone; inr RsDone] ∧
  shows hN (final out)
    (with_mount (with_bucket w (cn_endpoint v) (cos_bucket i).1 (Some keys)) (cn_Target v)
       (Some (dataset_mount i a k v))).
Proof using Type*.
  intros Hs Hv Hw Hfree Hb. cbn zeta.
  assert (cn_bucket v = (cos_bucket i).1) as Hbk
    by (unfold cn_bucket; rewrite Hs; by apply secret_bucket).
  rewrite <-secret_provision, <-Hs, <-Hbk in Hb.
  destruct (serve_all_refines hN (provide v) t w Hw) as [Hres Hsh];
    [by apply (provide_admissible hN v w keys)|].
  rewrite (provide_effect hN umount_error v w keys) in Hres, Hsh by done.
  unfold in_use in Hsh. rewrite (mount_of_dataset v Hs), Hbk in Hsh. by split.
Qed.

(** Deleting a volume with these secrets. *)
Lemma delete_with_secret vol t w :
  shows hN t w → accepts hN secrets → vol ≠ "" →
  let out := run hN (serve (RqDelete (MkDeleteVolumeRequest vol secrets))) t in
  result out = inr RsDone ∧
  shows hN (final out)
    (if dataset_flag (om_Labels (di_Meta i)) "remove-on-delete"
     then with_bucket w (endpoint_of secrets)
            (if decide ((cos_bucket i).1 = "") then vol else (cos_bucket i).1) None
     else w).
Proof using Type*.
  intros Hw Hacc Hvol. cbn zeta.
  pose proof (serve_refines hN (RqDelete (MkDeleteVolumeRequest vol secrets)) t w Hw) as [Hr Hs];
    [by intros _|].
  unfold spec, missing_field, first_missing, absent in Hr, Hs.
  cbn [List.find fst snd dv_VolumeId] in Hr, Hs.
  rewrite bool_decide_false in Hr, Hs by done.
  cbn [fmap option_fmap option_map effect fst snd dv_Secrets dv_VolumeId] in Hr, Hs.
  rewrite secret_remove in Hs. unfold volume_bucket in Hs. rewrite secret_bucket in Hs.
  split; [exact Hr|exact Hs].
Qed.
End Driver.


(** ** Deletion *)

Section Deletion.
Context {S : Type} (h : handler Kube S) `{!ApiServer h} `{Metastore} `{ControllerUtil}.
Context (req : NamespacedName).

Definition owned_by (d : Dataset) (i : DatasetInternal) : Prop :=
  ∃ r, r ∈ om_OwnerReferences (di_Meta i) ∧ or_UID r = om_UID (ds_Meta d).

(** A dataset that is in use: its DatasetInternal belongs to it and carries the finalizer
    of the controller, nothing else protects the claim and the Secret, and the Secret is
    the one the controller wrote. *)
Record deployed (s : S) (d : Dataset) (i : DatasetInternal) (sec : Secret) (a k : string) : Prop := {
  dp_dataset : view s KDataset req = Some d ∧ om_Finalizers (ds_Meta d) = [];
  dp_internal : view s KDatasetInternal req = Some i ∧ key_of (di_Meta i) = req;
  dp_owner : owned_by d i;
  dp_finalizer : ∀ f, f ∈ om_Finalizers (di_Meta i) ↔ f = datasetFinalizer;
  dp_claim pvc : view s KPVC req = Some pvc →
    key_of (pvc_Meta pvc) = req ∧ om_Finalizers (pvc_Meta pvc) = [];
  dp_secret : view s KSecret req = Some sec ∧ key_of (sec_Meta sec) = req ∧
    om_Finalizers (sec_Meta sec) = [];
  dp_config : config_of_secrets (sec_Data sec) = dataset_config i a k }.

(** The garbage collector deletes what belonged to the dataset, which is gone: the
    DatasetInternal, which has a finalizer, is marked as being deleted. *)
Definition collects (d : Dataset) (s s' : S) : Prop :=
  ∀ i, view s KDataset req = None → view s KDatasetInternal req = Some i → owned_by d i →
  ∃ i', changed view s s' KDatasetInternal req (Some i') ∧
    om_DeletionTimestamp (di_Meta i') ≠ None ∧
    same_meta KDatasetInternal (di_Meta i) (di_Meta i').

(** What belongs to a dataset. *)
Definition dataset_objects : list (Kind * NamespacedName) :=
  [(KDataset, req); (KDatasetInternal, req); (KPVC, req); (KSecret, req)].

(** The DatasetInternal of a deployed dataset that is gone is torn down. *)
Lemma collected_dies s s1 s2 d i sec a k :
  deployed s d i sec a k → changed view s s1 KDataset req None → collects d s1 s2 →
  ∃ i', dying h req s2 i' ∧ view s2 KDataset req = None ∧
    ∀ k' n, (k', n) ∉ dataset_objects → view s2 k' n = view s k' n.
Proof using Type.
  intros [[Hd Hfd] [Hi Hk] Hown Hf Hp (Hs & Hks & Hfs) _] Hch1 Hgc.
  destruct (Hgc i) as (i' & Hch2 & Hdel & Hm); [apply Hch1|by erewrite changed_kind|done|].
  assert (∀ k' n, k' ≠ KDataset → k' ≠ KDatasetInternal → view s2 k' n = view s k' n) as Hother.
  { intros k' n H1 H2. by rewrite (changed_kind h _ _ _ _ _ _ _ Hch2), (changed_kind h _ _ _ _ _ _ _ Hch1). }
  exists i'. split_and!.
  - split; [by eapply changed_here| |done| | |].
    + pose proof (sm_key _ _ _ Hm) as Hkey. exact (eq_trans Hkey Hk).
    + by rewrite (sm_finalizers _ _ _ Hm).
    + intros pvc. rewrite Hother by done. apply Hp.
    + intros sec'. rewrite Hother, Hs by done. by intros [= <-].
  - rewrite (changed_kind h _ _ _ _ _ _ _ Hch2) by done. apply Hch1.
  - intros k' n Hn. unfold dataset_objects in Hn.
    destruct (decide (k' = KDataset)) as [->|H1]; [|destruct (decide (k' = KDatasetInternal)) as [->|H2]];
      [..|by apply Hother].
    + rewrite (changed_kind h _ _ _ _ _ _ _ Hch2) by done.
      apply (changed_name h _ _ _ _ _ _ Hch1). set_solver.
    + rewrite (changed_name h _ _ _ _ _ _ Hch2) by set_solver.
      by apply (changed_kind h _ _ _ _ _ _ _ Hch1).
Qed.

(** The DatasetInternal reconciler leaves Datasets alone. *)
Lemma torn_down s s2 i' :
  dying h req s2 i' → view s2 KDataset req = None →
  (∀ k' n, (k', n) ∉ dataset_objects → view s2 k' n = view s k' n) →
  ∃ n, (n ≤ 3)%nat ∧ let s' := internal_rounds h req n s2 in
    (∀ k', (k', req) ∈ dataset_objects → view s' k' req = None) ∧
    ∀ k' n', (k', n') ∉ dataset_objects → view s' k' n' = view s k' n'.
Proof using Type*.
  intros Hd Hnone Hkept. destruct (teardown_completes h req s2 i' Hd) as (n & Hn & Hi & Hp & Hs & Ho).
  exists n. split; [done|]. split.
  - intros k' Hk'. unfold dataset_objects in Hk'.
    repeat (apply elem_of_cons in Hk' as [Heq|Hk']; [injection Heq as ->|]);
      [|done..|by apply not_elem_of_nil in Hk'].
    rewrite Ho by set_solver. exact Hnone.
  - intros k' n' Hn'. rewrite Ho by (unfold dataset_objects in Hn'; set_solver). by apply Hkept.
Qed.
End Deletion.


(** ** Witnesses *)

Definition books_request : NamespacedName := witness_req.
Definition books_internal : DatasetInternal := cos_dataset ["dataset-finalizer"] None.

(** A goofys volume with the Secret of the dataset, on a store that has its bucket. *)
Definition books_volume (secrets : gomap) : CsiVolume :=
  MkCsiVolume "pvc-1" secrets (Some {[ "mounter" := "goofys" ]})
    (MkVolumeCapability (Some MULTI_NODE_MULTI_WRITER) []) "/staging" "/pods/vol".

Definition books_keys : list string := ["2024/a"; "2024/b"].
Definition books_world : World := with_bucket old_world "minio:9000" "books" (Some books_keys).
Definition books_state : MemWorld :=
  set_buckets old_state (λ m, partial_alter (λ _, Some books_keys) ("minio:9000", "books") m).

Lemma books_shows : shows mem_world books_state books_world.
Proof.
  split; [|exact (proj2 old_shows)]. intros e b.
  destruct (decide ((e, b) = ("minio:9000", "books"))) as [[= -> ->]|Hne]; [done|].
  cbn. rewrite !lookup_partial_alter_ne by done. apply (proj1 old_shows e b).
Qed.


(** The dataset of the server in memory, provisioned, with its owner. *)
Definition owner_meta : ObjectMeta :=
  MkObjectMeta "books" "default" "u0" "7" (Some {[ "remove-on-delete" := "true" ]}) None [] [] None.
Definition books_owner : Dataset := MkDataset owner_meta cos_spec empty_status.
Definition owned_meta : ObjectMeta :=
  MkObjectMeta "books" "default" "u1" "1" (Some {[ "remove-on-delete" := "true" ]}) None
    ["dataset-finalizer"] [MkOwnerReference "Dataset" "books" "u0"] None.
Definition owned_internal : DatasetInternal := MkDatasetInternal owned_meta cos_spec empty_placement.

Definition deployed_server : MemServer :=
  store (store provisioned_server KDatasetInternal witness_req (Some owned_internal))
    KDataset witness_req (Some books_owner).

Definition books_secret : Secret :=
  default (MkSecret (witness_meta [] None) None None) (mem_view deployed_server KSecret witness_req).

Lemma books_deployed :
  deployed mem_handler witness_req deployed_server books_owner owned_internal books_secret "id" "key".
Proof.
  split; [done|done| | | | |].
  - exists (MkOwnerReference "Dataset" "books" "u0"). split; [set_solver|done].
  - intros f. cbn. set_solver.
  - intros pvc Hv. vm_compute in Hv. injection Hv as <-. by split.
  - split; [vm_compute; reflexivity|by split].
  - vm_compute. reflexivity.
Qed.

(** The garbage collector. *)
Definition collect (s : MemServer) : MemServer :=
  match mem_view s KDatasetInternal witness_req with
  | Some i =>
      store s KDatasetInternal witness_req
        (Some (MkDatasetInternal
           (MkObjectMeta (om_Name (di_Meta i)) (om_Namespace (di_Meta i)) (om_UID (di_Meta i))
              (om_ResourceVersion (di_Meta i)) (om_Labels (di_Meta i)) (om_Annotations (di_Meta i))
              (om_Finalizers (di_Meta i)) (om_OwnerReferences (di_Meta i)) (Some 5))
           (di_Spec i) (di_Placements i)))
  | None => s
  end.

Lemma collect_collects d s : collects mem_handler witness_req d s (collect s).
Proof.
  intros i _ Hi _. change (mem_view s KDatasetInternal witness_req = Some i) in Hi.
  unfold collect. rewrite Hi. eexists. split; [apply store_changed|]. by split.
Qed.

Definition default_datasets : datasets := com_Datasets (Some (com_New (Some 7%nat))) "default".

