(* ===== verification/CephLifecycle.v ===== *)
(** * From a cached dataset to a mount of its cache

    The Ceph cache plugin in turns with Rook, the DatasetInternal reconciler on what the
    plugin created, and the S3 driver on a node and an object store that work: what is
    mounted in the end is the bucket of the dataset, behind the gateway of its cache. *)

From Stdlib Require Import ZArith Lia Ascii.
From stdpp Require Import options.
From S2P Require Import Prelude GoStd KubeApi KubeServer KubeWp DatasetController Metastore InternalController InternalSafety InternalProgress InternalWitness NodeApi S3Client S3Mounter S3Server Pipeline EndToEnd CephCache CephProgress CephProvision CephWitness NodeWorld NodeMounts CsiSpec CsiLifecycle CsiWitness DatasetLifecycle.

Open Scope Z_scope.

Section Cache.
Context (d : Dataset) (secret : Secret) (service : Service).

(** The dataset that stands for the cache: what the plugin asks the operator for. *)
Definition cache_dataset : Dataset :=
  MkDataset (di_Meta (cached_internal d secret service))
    (di_Spec (cached_internal d secret service)) empty_status.

Definition cache_key : string := map_index (sec_Data secret) "AccessKey".
Definition cache_password : string := map_index (sec_Data secret) "SecretKey".

(** The bucket and the folder of the dataset. *)
Definition bucket_and_folder : string * string :=
  let '(bucket, folder, _) := Cut (map_index (ds_Local d) "bucket") "/" in (bucket, folder).

(** What the driver is told about the cache: the bucket, the folder, the region and the
    flags of the dataset, apart from [readonly], and the endpoint and the credentials of
    the gateway. *)
Definition cache_config : Config :=
  MkConfig cache_key cache_password (map_index (ds_Local d) "region")
    ("http://" +:+ svc_ClusterIP service) "" bucket_and_folder.1 bucket_and_folder.2
    (dataset_flag (om_Labels (ds_Meta d)) "remove-on-delete")
    false (dataset_flag (ds_Local d) "provision").

Lemma cached_label key :
  key ≠ "dlf-plugin-name" → key ≠ "dlf-plugin-type" →
  map_get (om_Labels (di_Meta (cached_internal d secret service))) key
  = map_get (om_Labels (ds_Meta d)) key.
Proof.
  intros Hn Ht. cbn. rewrite !lookup_insert_ne by congruence. by destruct (om_Labels (ds_Meta d)).
Qed.

Lemma config_of_cache :
  dataset_config (cached_internal d secret service) cache_key cache_password = cache_config.
Proof.
  unfold dataset_config, cache_config.
  assert (dataset_flag (om_Labels (di_Meta (cached_internal d secret service))) "remove-on-delete"
          = dataset_flag (om_Labels (ds_Meta d)) "remove-on-delete") as ->.
  { unfold dataset_flag, map_index. by rewrite cached_label. }
  reflexivity.
Qed.

(** The command that mounts the cache. *)
Definition cache_mount (v : CsiVolume) : mount_cmd :=
  let type := map_index (cn_Parameters v) "mounter" in
  publish_command type (MkBucket bucket_and_folder.1 bucket_and_folder.2 type) cache_config
    (cn_id v) (cn_Target v).

(** On a node and a store that work, a volume with these secrets, whose bucket the
    gateway has or is to provision, is created, staged and published without an error, and
    then the cache is mounted at its target; no other bucket and no other mount changes. *)
Definition mounts_cache {N : Type} (hN : handler Node N) `{!ObjectStore hN} `{!MountTable hN}
    (secrets : gomap) : Prop :=
  ∀ (t : N) (w : World) (v : CsiVolume) (keys : list string),
    cn_Secrets v = secrets → usable_volume hN v → shows hN t w →
    w_mounts w !! cn_Target v = None →
    w_buckets w !! (cn_endpoint v, bucket_and_folder.1) = Some keys ∨
    w_buckets w !! (cn_endpoint v, bucket_and_folder.1) = None ∧
      dataset_flag (ds_Local d) "provision" = true ∧ keys = [] →
    let out := run hN (serve_all (provide v)) t in
    result out = [inr (RsVolume (cn_volume v)); inr RsDone; inr RsDone] ∧
    shows hN (final out)
      (with_mount (with_bucket w (cn_endpoint v) bucket_and_folder.1 (Some keys))
         (cn_Target v) (Some (cache_mount v))).

Lemma secret_mounts_cache {N : Type} (hN : handler Node N) `{!ObjectStore hN}
    `{!MountTable hN} (secrets : gomap) :
  config_of_secrets secrets = cache_config → mounts_cache hN secrets.
Proof.
  intros Hcfg t w v keys Hv Hus Hw Hfree Hb. rewrite <-config_of_cache in Hcfg.
  pose proof (provided_with_secret hN (cached_internal d secret service) cache_key
    cache_password secrets Hcfg t w v keys Hv Hus Hw Hfree Hb) as Hout.
  cbn zeta in Hout. unfold dataset_mount in Hout. rewrite config_of_cache in Hout. exact Hout.
Qed.
End Cache.

(** What the operator makes of a cache. *)
Section Served.
Context {S : Type} (h : handler Kube S) `{!ApiServer h} `{Metastore} `{ControllerUtil}.
Context (req : NamespacedName) (d : Dataset) (secret : Secret) (service : Service).

(** The claim of the cache and the Secret of its claim are there. *)
Definition cache_served (s : S) : Prop :=
  (∃ pvc, view s KPVC req = Some pvc ∧
     same_spec KPVC (cos_claim (cached_internal d secret service)) pvc) ∧
  ∃ sec, view s KSecret req = Some sec ∧
    config_of_secrets (sec_Data sec) = cache_config d secret service.

Lemma cached_has_internal s :
  cached_there h req d s secret service → key_of (ds_Meta d) = req →
  ∃ i, has_internal h req s (cache_dataset d secret service) i.
Proof using Type*.
  intros (i & d' & Hi & Hk & Hl & Hsp & Hlab & _) Hreq. exists i.
  split_and!; [done..|]. by rewrite Hlab.
Qed.

Lemma cache_provisions s n :
  cached_there h req d s secret service → key_of (ds_Meta d) = req →
  view s KPVC req = None → view s KSecret req = None → (2 ≤ n)%nat →
  cache_served (internal_rounds h req n s).
Proof using Type*.
  intros Hc Hk Hp Hs Hn. destruct (cached_has_internal s Hc Hk) as [i Hi].
  destruct (internal_provisions h req s (cache_dataset d secret service) i (cache_key secret)
    (cache_password secret) n Hi Hk) as (i' & Hi' & (pvc & Hpvc & Hcl) & sec & Hsec & Hcfg);
    try done.
  split.
  - exists pvc. split; [done|].
    apply (same_claim (cache_dataset d secret service) i'); [by destruct Hi' as (_ & ? & _)|done].
  - exists sec. split; [done|]. rewrite Hcfg.
    rewrite (same_config h req _ (cache_dataset d secret service) i' _ _ Hi').
    apply config_of_cache.
Qed.
End Served.

(** A cached dataset is mounted through its cache: on a reachable API server where
    Rook runs, and where nothing exists yet for the dataset, three reconciliations of the
    Ceph cache plugin, in turns with Rook, a fourth when Rook has delivered the
    credentials and the service, and two or more reconciliations of the DatasetInternal
    make a claim and a Secret. On a node and an object store that work, a volume with
    this Secret, whose bucket the gateway has or is to provision, is created, staged and
    published without an error, and what is then mounted at the target is the bucket and
    the folder of the dataset, at the address of the gateway, with the credentials that
    Rook generated; the mount and the claim are never read-only, whatever the dataset
    asks for. No other bucket and no other mount has changed. *)
Theorem cached_dataset_is_mounted {S N : Type} (h : handler Kube S) `{!ApiServer h}
    `{Metastore} `{ControllerUtil} (hN : handler Node N) `{!ObjectStore hN} `{!MountTable hN}
    (req : NamespacedName) (d : Dataset) (s0 s3 s5 : S) (n : nat)
    (store : CephObjectStore) (secret : Secret) (service : Service)
    (Ht : to_cache h req d s0)
    (Hcm : view s0 KConfigMap (cm_name h req s0) = None)
    (Hst : view s0 KCephObjectStore (store_name h req s0) = None)
    (Hu : view s0 KCephObjectStoreUser (store_name h req s0) = None)
    (Hp : view s0 KPVC req = None) (Hs : view s0 KSecret req = None)
    (Hc : connects h req (round h req (round h req s0)) s3 store)
    (Hd : delivers h d (round h req s3) s5 store secret service) (Hn : (2 ≤ n)%nat) :
  let s7 := internal_rounds h req n (round h req s5) in
  (∃ pvc, view s7 KPVC req = Some pvc ∧ pvc_AccessModes pvc = [ReadWriteMany] ∧
     pvc_StorageClassName pvc = "csi-s3") ∧
  ∃ sec, view s7 KSecret req = Some sec ∧ mounts_cache d secret service hN (sec_Data sec).
Proof.
  cbn zeta.
  destruct (Ceph_cache_provisioned_aux h req d s0 s3 s5 store secret service Ht Hcm Hst Hu Hc Hd)
    as (_ & _ & _ & _ & _ & _ & _ & Hthere & He & Hpvc & Hsec).
  destruct (cache_provisions h req d secret service (round h req s5) n Hthere (tc_key _ _ _ _ Ht))
    as [(pvc & Hpv & Hcl) (sec & Hsc & Hcfg)]; [..|done|].
  - rewrite (el_view _ _ _ _ He), Hpvc by set_solver. exact Hp.
  - rewrite (el_view _ _ _ _ He), Hsec by set_solver. exact Hs.
  - split; [exists pvc; split; [done|]; by destruct Hcl as (-> & _ & -> & _)|].
    exists sec. split; [done|]. by apply secret_mounts_cache.
Qed.

(** ** Witness *)

#[local] Existing Instance list_finalizers.
#[local] Existing Instance demo_metastore.

Definition served_cache : MemServer :=
  internal_rounds mem_handler witness_req 2 (ceph_round cache_delivered).

(** The Secret that the operator writes for the cache. *)
Definition gateway_secrets : gomap := Some (list_to_map
  [("accessKeyID", "id"); ("secretAccessKey", "key"); ("endpoint", "http://10.0.0.7");
   ("bucket", "books"); ("folder", "2024"); ("region", ""); ("readonly", "false");
   ("extract", "false"); ("provision", "false"); ("remove-on-delete", "false")]).

Lemma served_secrets : sec_Data <$> mem_view served_cache KSecret witness_req = Some gateway_secrets.
Proof. vm_compute. reflexivity. Qed.

Definition gateway_world : World := with_bucket old_world "10.0.0.7" "books" (Some books_keys).
Definition gateway_state : MemWorld :=
  set_buckets old_state (λ m, partial_alter (λ _, Some books_keys) ("10.0.0.7", "books") m).

Lemma gateway_shows : shows mem_world gateway_state gateway_world.
Proof.
  split; [|exact (proj2 old_shows)]. intros e b.
  destruct (decide ((e, b) = ("10.0.0.7", "books"))) as [[= -> ->]|Hne]; [done|].
  cbn. rewrite !lookup_partial_alter_ne by done. apply (proj1 old_shows e b).
Qed.

Lemma cached_is_mounted_witness :
  ∃ sec, mem_view served_cache KSecret witness_req = Some sec ∧
    let t := final (run mem_world (serve_all (provide (books_volume (sec_Data sec)))) gateway_state) in
    mem_mount_at t "/pods/vol"
    = Mounted ("goofys", goofys_args (MkBucket "books" "2024" "goofys")
        (cache_config (cached_dataset [] None) rook_secret rook_service) "pvc-1" "/pods/vol").
Proof.
  destruct (@cached_dataset_is_mounted _ _ mem_handler mem_api_server demo_metastore
    list_finalizers mem_world _ _ witness_req (cached_dataset [] None) cache_start
    cache_connected cache_delivered 2 connected_store rook_secret rook_service
    cache_start_ready) as (_ & sec & Hsec & Hall);
    [reflexivity..|exact rook_connects|exact rook_delivers|lia|].
  change (mem_view served_cache KSecret witness_req = Some sec) in Hsec.
  pose proof served_secrets as Hdata. rewrite Hsec in Hdata. injection Hdata as Hdata.
  exists sec. split; [exact Hsec|]. cbn zeta. rewrite Hdata in Hall |- *.
  destruct (Hall gateway_state gateway_world (books_volume gateway_secrets) books_keys)
    as [_ [_ Hm]]; [done| |exact gateway_shows|done|by left|exact (Hm "/pods/vol")].
  clear Hall Hsec Hdata. split.
  - split_and!; done.
  - split; [vm_compute; done|]. change (3 ≤ 5 ≤ 63)%nat. lia.
  - by eexists.
  - vm_compute; done.
Defined.
