(* ===== verification/CacheStory.v ===== *)
(** * A new dataset on a cluster with a caching plugin

    The Dataset reconciler assigns a new dataset to a plugin and leaves the rest to it;
    the Ceph cache plugin, in turns with Rook, makes the cache and the DatasetInternal;
    the DatasetInternal reconciler provisions it; and when the claim is bound the Dataset
    reconciler says so. *)

From Stdlib Require Import ZArith Lia Ascii.
From stdpp Require Import options.
From S2P Require Import Prelude GoStd KubeApi KubeServer KubeWp NameRegex DatasetController DatasetSafety DatasetProgress Metastore InternalController InternalSafety InternalProgress InternalWitness NodeApi S3Client S3Mounter S3Server Pipeline EndToEnd CephCache CephProgress CephProvision CephWitness NodeWorld NodeMounts CsiSpec CsiLifecycle CsiWitness DatasetLifecycle CephLifecycle.

Open Scope Z_scope.

(** The annotations name a plugin. *)
Definition names_plugin (az : gomap) : Prop :=
  forallb (has_key az) ["dlf-plugin-type"; "dlf-plugin-name"] = true.

(** The plugin a dataset is assigned to: the one its label names, or the first. *)
Definition chosen_plugin (d : Dataset) (plugins : list PodInfo) : option PodInfo :=
  match map_get (om_Labels (ds_Meta d)) "cache.plugin" with
  | None => head plugins
  | Some label => find_plugin label plugins
  end.

Section Assign.
Context {S : Type} (h : handler Kube S) `{!ApiServer h} (req : NamespacedName).

Record new_cached_dataset (s : S) (d : Dataset) (plugin : PodInfo) : Prop := {
  nc_stored : view s KDataset req = Some d;
  nc_key : key_of (ds_Meta d) = req;
  nc_name : name_rejected (nn_Name req) = false;
  nc_live : om_DeletionTimestamp (ds_Meta d) = None;
  nc_status : statuses (ds_Status d) = (StatusEmpty, StatusEmpty);
  nc_enabled : caching_disabled d = false;
  nc_unassigned : ¬ names_plugin (om_Annotations (ds_Meta d));
  nc_plugin : chosen_plugin d (pods s (plugin_options h s)) = Some plugin ∧
    names_plugin (pi_Labels plugin);
  nc_absent : view s KDatasetInternal req = None ∧ view s KPVC req = None }.

(** The dataset on its way, with these annotations and statuses; nothing else of the
    cluster has changed since [s0]. *)
Record assigning (s0 : S) (d0 : Dataset) (az : gomap) (c p : string) (s : S) (d : Dataset) :
    Prop := {
  as_stored : view s KDataset req = Some d;
  as_key : key_of (ds_Meta d) = req;
  as_live : om_DeletionTimestamp (ds_Meta d) = None;
  as_same : same_dataset d0 d;
  as_finalizers : om_Finalizers (ds_Meta d) = om_Finalizers (ds_Meta d0);
  as_annotations : om_Annotations (ds_Meta d) = az;
  as_status : statuses (ds_Status d) = (c, p);
  as_others k n : k ≠ KDataset → view s k n = view s0 k n;
  as_surroundings : surroundings s = surroundings s0 }.

Lemma wp_assign_status s0 d0 az c p s d st c' p' :
  assigning s0 d0 az c p s d → statuses st = (c', p') →
  wp h (updateDatasetStatusAndReturn (set_status d st)) s (λ _ s',
    ∃ d', assigning s0 d0 az c' p' s' d').
Proof using Type*.
  intros [Hv Hk Hl [Hsp Hlab] Hf Haz _ Ho Hsur] Hst. unfold updateDatasetStatusAndReturn.
  assert (okey KDataset (set_status d st) = req) as Hok by exact Hk.
  apply (wp_kstatus_update h KDataset _ d); [by rewrite Hok|done|].
  intros d' s' (Hm & Hspec & Hdel & Hst' & Hch & Hsur'). rewrite Hok in Hch. apply wp_ret.
  cbn in Hm, Hspec, Hdel, Hst'. exists d'. split.
  - by eapply changed_here.
  - rewrite <-Hk. exact (sm_key _ _ _ Hm).
  - congruence.
  - split; [congruence|]. by rewrite (sm_labels _ _ _ Hm).
  - by rewrite (sm_finalizers _ _ _ Hm).
  - by rewrite (sm_annotations _ _ _ Hm).
  - by rewrite Hst'.
  - intros k n Hne. rewrite <-Ho by done. exact (changed_kind h _ _ _ _ _ _ _ Hch Hne).
  - congruence.
Qed.

Lemma wp_assign_annotations s0 d0 az c p s d az' :
  assigning s0 d0 az c p s d →
  wp h (updateDatasetAndReturn (annotate d az')) s (λ _ s',
    ∃ d', assigning s0 d0 az' c p s' d').
Proof using Type*.
  intros [Hv Hk Hl [Hsp Hlab] Hf Haz Hs Ho Hsur]. unfold updateDatasetAndReturn.
  assert (okey KDataset (annotate d az') = req) as Hok by exact Hk.
  apply (wp_kupdate h KDataset _ d); [by rewrite Hok|done|].
  intros d' s' (Hm & Hspec & Hdel & Hst' & Hch & Hsur'). rewrite Hok in Hch.
  rewrite decide_False in Hch by (intros [Hx _]; by apply Hx). apply wp_ret.
  cbn in Hm, Hspec, Hdel, Hst'. exists d'. split.
  - by eapply changed_here.
  - rewrite <-Hk. exact (sm_key _ _ _ Hm).
  - congruence.
  - split; [congruence|]. pose proof (sm_labels _ _ _ Hm) as Hx. cbn in Hx. congruence.
  - pose proof (sm_finalizers _ _ _ Hm) as Hx. cbn in Hx. congruence.
  - exact (sm_annotations _ _ _ Hm).
  - by rewrite Hst'.
  - intros k n Hne. rewrite <-Ho by done. exact (changed_kind h _ _ _ _ _ _ _ Hch Hne).
  - congruence.
Qed.

(** ** The reconciliations *)

Lemma assigning_surroundings s0 d0 az c p s d :
  assigning s0 d0 az c p s d → pods s = pods s0 ∧ environ s = environ s0.
Proof using Type*. intros Ha. apply (same_surroundings h), (as_surroundings _ _ _ _ _ _ _ Ha). Qed.

(** A reconciliation of a dataset whose statuses are set. *)
Lemma wp_Reconcile_set s d c p (Q : reconciled → S → Prop) :
  view s KDataset req = Some d → statuses (ds_Status d) = (c, p) →
  c ≠ StatusEmpty → p ≠ StatusEmpty →
  wp h (if decide (c = StatusInitial) then caching_setup d
        else or_else (if decide (c = StatusDisabled) then create_internal req d else Ret None)
               (or_else (provision_setup req d) (propagate_labels req d))) s Q →
  wp h (DatasetController.Reconcile req) s Q.
Proof using Type*.
  intros Hv [Hc Hp]%statuses_of Hce Hpe HQ. unfold DatasetController.Reconcile.
  apply (wp_kget_some h KDataset req _ s d _ Hv).
  rewrite initialized_same by congruence. by rewrite Hc.
Qed.

Lemma wp_assign_first s0 d0 az s d :
  name_rejected (nn_Name req) = false → assigning s0 d0 az StatusEmpty StatusEmpty s d →
  wp h (DatasetController.Reconcile req) s (λ _ s',
    ∃ d', assigning s0 d0 az StatusInitial StatusInitial s' d').
Proof using Type*.
  intros Hname Ha. pose proof (as_status _ _ _ _ _ _ _ Ha) as [Hc Hp]%statuses_of.
  unfold DatasetController.Reconcile.
  apply (wp_kget_some h KDataset req _ s d _ (as_stored _ _ _ _ _ _ _ Ha)).
  destruct (initialize_unset d ltac:(by left)) as (st & -> & _ & Hst).
  rewrite Hc, Hp in Hst. rewrite !decide_True in Hst by done.
  unfold initial_status_update. change (om_Name (ds_Meta (set_status d st)))
    with (nn_Name (key_of (ds_Meta d))).
  rewrite (as_key _ _ _ _ _ _ _ Ha), Hname. by eapply wp_assign_status.
Qed.

(** The plugin of the dataset, as any of its versions sees it. *)
Lemma wp_caching_setup s0 d0 az s d (Q : reconciled → S → Prop) :
  assigning s0 d0 az StatusInitial StatusInitial s d → caching_disabled d0 = false →
  (∀ first rest, pods s0 (plugin_options h s0) = first :: rest →
     wp h (let '(cachingPluginName, annotationsAreSet) := datasetHasCachingAnnotationsSet d in
           if (annotationsAreSet : bool) then
             updateDatasetStatusAndReturn
               (set_caching d StatusPending
                  ("Caching is assigned to " +:+ cachingPluginName +:+ " plugin"))
           else assign_plugin d first rest) s Q) →
  pods s0 (plugin_options h s0) ≠ [] →
  wp h (DatasetController.Reconcile req) s Q.
Proof using Type*.
  intros Ha Hen HQ Hne. apply (wp_Reconcile_set s d StatusInitial StatusInitial);
    [apply Ha|apply Ha|done|done|]. rewrite decide_True by done. unfold caching_setup.
  assert (caching_disabled d = false) as ->.
  { destruct (as_same _ _ _ _ _ _ _ Ha) as [_ Hl]. unfold caching_disabled in *. by rewrite Hl. }
  unfold getCachingPlugins. apply wp_bind, (wp_getenv h), wp_tail, (wp_list_pods h).
  fold (plugin_options h s). destruct (assigning_surroundings _ _ _ _ _ _ _ Ha) as [Hpods Henv].
  assert (pods s (plugin_options h s) = pods s0 (plugin_options h s0)) as ->
    by (unfold plugin_options; by rewrite Hpods, Henv).
  apply wp_ret. destruct (pods s0 _) as [|first rest]; [done|]. by apply HQ.
Qed.

Lemma chosen_none d : chosen_plugin d [] = None.
Proof using Type. unfold chosen_plugin. by destruct (map_get _ _). Qed.

Lemma wp_assign_second s0 d0 az plugin s d :
  assigning s0 d0 az StatusInitial StatusInitial s d → caching_disabled d0 = false →
  ¬ names_plugin az → chosen_plugin d0 (pods s0 (plugin_options h s0)) = Some plugin →
  wp h (DatasetController.Reconcile req) s (λ _ s',
    ∃ d', assigning s0 d0 (pi_Labels plugin) StatusInitial StatusInitial s' d').
Proof using Type*.
  intros Ha Hen Haz Hch. eapply wp_caching_setup; [done|done| |].
  - intros first rest Hp. rewrite Hp in Hch. unfold datasetHasCachingAnnotationsSet.
    rewrite (as_annotations _ _ _ _ _ _ _ Ha). unfold names_plugin in Haz.
    destruct (forallb _ _); [by destruct Haz|]. unfold assign_plugin.
    destruct (as_same _ _ _ _ _ _ _ Ha) as [_ Hl]. unfold chosen_plugin in Hch. rewrite Hl.
    destruct (map_get _ "cache.plugin").
    + rewrite Hch. by eapply wp_assign_annotations.
    + injection Hch as ->. by eapply wp_assign_annotations.
  - intros Hp. by rewrite Hp, chosen_none in Hch.
Qed.

Lemma wp_assign_third s0 d0 az s d :
  assigning s0 d0 az StatusInitial StatusInitial s d → caching_disabled d0 = false →
  names_plugin az → pods s0 (plugin_options h s0) ≠ [] →
  wp h (DatasetController.Reconcile req) s (λ _ s',
    ∃ d', assigning s0 d0 az StatusPending StatusInitial s' d').
Proof using Type*.
  intros Ha Hen Haz Hne. eapply wp_caching_setup; [done|done| |done].
  intros first rest _. unfold datasetHasCachingAnnotationsSet.
  rewrite (as_annotations _ _ _ _ _ _ _ Ha), Haz. eapply wp_assign_status; [done|].
  destruct (statuses_of d _ _ (as_status _ _ _ _ _ _ _ Ha)) as [_ Hp].
  unfold statuses. cbn. fold (provision_status d). by rewrite Hp.
Qed.

(** Without a claim, the provision becomes pending and nothing else happens. *)
Lemma wp_assign_fourth s0 d0 az s d :
  assigning s0 d0 az StatusPending StatusInitial s d → view s0 KPVC req = None →
  wp h (DatasetController.Reconcile req) s (λ _ s',
    ∃ d', assigning s0 d0 az StatusPending StatusPending s' d').
Proof using Type*.
  intros Ha Hpvc. destruct (statuses_of d _ _ (as_status _ _ _ _ _ _ _ Ha)) as [Hc Hp].
  apply (wp_Reconcile_set s d StatusPending StatusInitial); [apply Ha|apply Ha|done|done|].
  rewrite !decide_False by done. unfold or_else, provision_setup. apply wp_bind, wp_ret.
  rewrite decide_True by (rewrite Hp; done).
  apply wp_bind, (wp_kget_none h KPVC req _ s);
    [by rewrite (as_others _ _ _ _ _ _ _ Ha) by done|].
  change (IsNotFound KubeApi.NotFound) with true. cbn iota.
  rewrite decide_True by (rewrite Hp; done). apply wp_bind.
  eapply wp_mono; [eapply wp_assign_status; [done|]|intros r s' Hs; do 2 apply wp_ret; exact Hs].
  unfold statuses. cbn. fold (caching_status d). by rewrite Hc.
Qed.

Lemma wp_assign_idle s0 d0 az s d :
  assigning s0 d0 az StatusPending StatusPending s d → view s0 KPVC req = None →
  wp h (DatasetController.Reconcile req) s (λ _ s', s' = s).
Proof using Type*.
  intros Ha Hpvc. destruct (statuses_of d _ _ (as_status _ _ _ _ _ _ _ Ha)) as [Hc Hp].
  apply (wp_Reconcile_set s d StatusPending StatusPending); [apply Ha|apply Ha|done|done|].
  rewrite !decide_False by done. unfold or_else, provision_setup. apply wp_bind, wp_ret.
  rewrite decide_True by (rewrite Hp; done).
  apply wp_bind, (wp_kget_none h KPVC req _ s);
    [by rewrite (as_others _ _ _ _ _ _ _ Ha) by done|].
  change (IsNotFound KubeApi.NotFound) with true. cbn iota.
  rewrite decide_False by (intros Hx; by apply Hx). by do 2 apply wp_ret.
Qed.

(** Four reconciliations, and any number of further ones, assign a dataset. *)
Lemma reconciles_assign n s d plugin :
  new_cached_dataset s d plugin → (4 ≤ n)%nat →
  ∃ d', assigning s d (pi_Labels plugin) StatusPending StatusPending (reconciles h req n s) d'.
Proof using Type*.
  intros [Hv Hk Hname Hl Hst Hen Haz [Hch Hpl] [_ Hpvc]] Hn.
  assert (assigning s d (om_Annotations (ds_Meta d)) StatusEmpty StatusEmpty s d) as Ha by done.
  destruct n as [|[|[|[|n]]]]; [lia..|]. cbn [reconciles].
  destruct (wp_assign_first s d _ s d Hname Ha) as [d1 Ha1].
  destruct (wp_assign_second s d _ plugin _ d1 Ha1 Hen Haz Hch) as [d2 Ha2].
  assert (pods s (plugin_options h s) ≠ []) as Hne
    by (intros Hp; by rewrite Hp, chosen_none in Hch).
  destruct (wp_assign_third s d _ _ d2 Ha2 Hen Hpl Hne) as [d3 Ha3].
  destruct (wp_assign_fourth s d _ _ d3 Ha3 Hpvc) as [d4 Ha4].
  cbn beta in Ha4. match type of Ha4 with assigning _ _ _ _ _ ?x _ => set (s4 := x) in * end.
  exists d4. assert (reconciles h req n s4 = s4) as ->; [|done].
  clear Hn. induction n as [|n IH]; [done|]. cbn [reconciles].
  pose proof (wp_assign_idle _ _ _ _ _ Ha4 Hpvc) as Hid. unfold wp in Hid. by rewrite Hid.
Qed.
End Assign.

(** ** The whole way *)

Section Whole.
Context {S : Type} (h : handler Kube S) `{!ApiServer h} `{Metastore} `{ControllerUtil}.
Context (req : NamespacedName).

(** Nothing of the name of the dataset exists on a cluster where Rook runs. *)
Record nothing_cached (s : S) (d : Dataset) : Prop := {
  na_finalizer : datasetsFinalizer ∉ om_Finalizers (ds_Meta d);
  na_cluster : clusters s (environ s "ROOK_NAMESPACE") ≠ [];
  na_secret : view s KSecret req = None;
  na_config : view s KConfigMap (cm_name h req s) = None;
  na_store : view s KCephObjectStore (store_name h req s) = None;
  na_user : view s KCephObjectStoreUser (store_name h req s) = None }.

Lemma assigned_to_cache s0 d0 plugin c p s d :
  new_cached_dataset h req s0 d0 plugin → nothing_cached s0 d0 →
  assigning h req s0 d0 (pi_Labels plugin) c p s d →
  to_cache h req d s ∧ nothing_cached s d ∧ view s KPVC req = None.
Proof using Type*.
  intros Hnew [Hf Hcl Hs Hcm Hst Hu] [Hv Hk Hl [Hsp Hlab] Hfin _ _ Ho Hsur].
  destruct (nc_absent _ _ _ _ _ Hnew) as [Hi Hp].
  pose proof (surroundings_environ h _ _ Hsur) as Henv.
  pose proof (surroundings_clusters h _ _ Hsur) as Hclu.
  assert (∀ name, rook h s name = rook h s0 name) as Hrook by (intros name; unfold rook; by rewrite Henv).
  split_and!; [..|by rewrite Ho].
  - split; [done|done|done|by rewrite Hfin|by rewrite Ho|by rewrite Henv, Hclu].
  - unfold cm_name, store_name in *.
    split; [by rewrite Hfin|by rewrite Henv, Hclu|..]; unfold cm_name, store_name;
      rewrite ?Hrook, Ho by done; done.
Qed.

(** What is known of the cache depends on the specification and the labels only. *)
Lemma same_cache_config d d' secret service :
  same_dataset d d' → cache_config d' secret service = cache_config d secret service.
Proof using Type.
  intros [Hsp Hl]. unfold cache_config, bucket_and_folder, ds_Local. by rewrite Hsp, Hl.
Qed.

(** The claim is bound: the Dataset says that it is provisioned. *)
Lemma wp_bound s d pvc :
  view s KDataset req = Some d → key_of (ds_Meta d) = req →
  statuses (ds_Status d) = (StatusPending, StatusPending) →
  view s KPVC req = Some pvc → pvc_Phase pvc = ClaimBound →
  wp h (DatasetController.Reconcile req) s (λ _ s',
    (∃ d', view s' KDataset req = Some d' ∧ statuses (ds_Status d') = (StatusPending, StatusOK) ∧
       ds_Spec d' = ds_Spec d) ∧
    ∀ k n, k ≠ KDataset → view s' k n = view s k n).
Proof using Type*.
  intros Hv Hk Hst Hpvc Hb. destruct (statuses_of d _ _ Hst) as [Hc Hp].
  apply (wp_Reconcile_set h req s d StatusPending StatusPending); [done|done|done|done|].
  rewrite !decide_False by done. unfold or_else, provision_setup. apply wp_bind, wp_ret.
  rewrite decide_True by (rewrite Hp; done).
  apply wp_bind, (wp_kget_some h KPVC req _ s pvc _ Hpvc). rewrite Hb.
  rewrite decide_True by (rewrite Hp; done).
  apply wp_bind. unfold updateDatasetStatusAndReturn, set_provision.
  set (x := set_status d _). assert (okey KDataset x = req) as Hok by exact Hk.
  apply (wp_kstatus_update h KDataset x d); [by rewrite Hok|done|].
  intros d' s' (_ & Hsp & _ & Hst' & Hch & _). rewrite Hok in Hch. do 3 apply wp_ret. split.
  - exists d'. split; [by eapply changed_here|]. split; [|exact Hsp].
    cbn in Hst'. rewrite Hst'. unfold statuses. cbn. fold (caching_status d). by rewrite Hc.
  - intros k n Hne. exact (changed_kind h _ _ _ _ _ _ _ Hch Hne).
Qed.

End Whole.

(** ** Witness *)

#[local] Existing Instance list_finalizers.
#[local] Existing Instance demo_metastore.

Definition plugin_pod : PodInfo :=
  MkPodInfo (Some (list_to_map [("dlf-plugin-type", "caching");
                                ("dlf-plugin-name", "ceph-cache-plugin")])) "node-1".

Definition story_dataset : Dataset :=
  MkDataset (MkObjectMeta "books" "default" "u1" "1" None None [] [] None) cos_spec empty_status.

Definition story_start : MemServer := rook_server story_dataset [plugin_pod].
Definition story_assigned : MemServer := reconciles mem_handler witness_req 4 story_start.
Definition story_second : MemServer := ceph_round (ceph_round story_assigned).

Definition story_connected : MemServer :=
  with_pods (store story_second KCephObjectStore (MkNamespacedName "rook-ceph" "books")
    (Some connected_store)) [plugin_pod; rgw_pod].

Definition story_delivered : MemServer :=
  store
    (store (ceph_round story_connected) KSecret
       (MkNamespacedName "rook-ceph" (user_secret_name "books")) (Some rook_secret))
    KService (MkNamespacedName "rook-ceph" "rook-ceph-rgw-books") (Some rook_service).

Lemma story_new : new_cached_dataset mem_handler witness_req story_start story_dataset plugin_pod.
Proof. split; try reflexivity; [done|by split|by split]. Qed.

Lemma story_nothing : nothing_cached mem_handler witness_req story_start story_dataset.
Proof. split; try reflexivity; [cbn; set_solver|done]. Qed.

Lemma story_connects :
  connects mem_handler witness_req story_second story_connected connected_store.
Proof.
  split.
  - split; [|reflexivity|reflexivity]. intros k n Hk.
    exact (store_other story_second KCephObjectStore _ _ k n ltac:(set_solver)).
  - vm_compute. reflexivity.
  - intros before Hb. vm_compute in Hb. injection Hb as <-. reflexivity.
  - reflexivity.
  - done.
Qed.

Lemma story_delivers :
  delivers mem_handler story_dataset (ceph_round story_connected) story_delivered
    connected_store rook_secret rook_service.
Proof.
  split.
  - split; [|reflexivity|reflexivity]. intros k n Hk.
    etrans; [exact (store_other _ KService _ _ k n ltac:(set_solver))|].
    exact (store_other (ceph_round story_connected) KSecret _ _ k n ltac:(set_solver)).
  - intros n Hn. etrans; [exact (store_other _ KService _ _ KSecret n ltac:(done))|].
    destruct (store_changed (ceph_round story_connected) KSecret
      (MkNamespacedName "rook-ceph" (user_secret_name "books")) (Some rook_secret)) as (_ & H & _).
    apply H. exact Hn.
  - reflexivity.
  - vm_compute. reflexivity.
  - vm_compute. reflexivity.
  - reflexivity.
Qed.

(** The cluster binds the claim. *)
Definition bind_cached (s : MemServer) : MemServer :=
  match mem_view s KPVC witness_req with
  | Some pvc => store s KPVC witness_req (Some (set_status_of KPVC ClaimBound pvc))
  | None => s
  end.

Lemma bind_cached_binds s :
  is_Some (@view _ mem_handler _ s KPVC witness_req) →
  binds mem_handler witness_req s (bind_cached s).
Proof.
  intros [pvc Hp]. change (mem_view s KPVC witness_req = Some pvc) in Hp. exists pvc, (set_status_of KPVC ClaimBound pvc).
  unfold bind_cached. rewrite Hp. split_and!; try done. apply store_changed.
Qed.

