(* ===== verification/VolumeLifecycle.v ===== *)
(** * Datasets that are volumes of the cluster

    A dataset of type NFS, HOST or H3 becomes a PersistentVolume and a claim for it. A
    volume has no namespace, but the name of its dataset: [Reconcile_provisions_volume]
    says what one reconciliation does with a volume of that name that is there already.
    For an NFS dataset, [nfs_dataset_is_mounted] follows the volume to the node, where
    the NFS driver mounts what the dataset names. *)

From Stdlib Require Import ZArith Lia Ascii.
From stdpp Require Import options.
From S2P Require Import Prelude GoStd Path KubeApi KubeServer KubeWp Metastore InternalController InternalSafety InternalProgress InternalWitness NodeApi Nfs NfsSafety NfsWorld NfsWitness.

Open Scope Z_scope.

(** The volume and the claim that a dataset asks for, if it is well-formed. *)
Definition volume_of (i : DatasetInternal) (uuid : string) :
    option (PersistentVolume * PersistentVolumeClaim) :=
  let local := di_Local i in
  let type := map_index local "type" in
  if decide (type = "NFS") then Some (nfs_volume i uuid, nfs_claim i)
  else if decide (type = "HOST") then
    if decide (map_index local "path" = "") then None
    else
      permissions ← permissions_of local;
      hostPathType ← host_path_type local;
      Some (host_volume i permissions hostPathType, host_claim i permissions)
  else if decide (type = "H3") then
    if decide (map_index local "storageUri" = "") then None
    else
      permissions ← permissions_of local;
      Some (h3_volume i uuid, h3_claim i permissions)
  else None.

(** The name of the volume: that of the dataset, in no namespace. *)
Definition volume_key (i : DatasetInternal) : NamespacedName := MkNamespacedName "" (di_Name i).

Lemma volume_of_keys i uuid pv pvc :
  volume_of i uuid = Some (pv, pvc) →
  okey KPV pv = volume_key i ∧ okey KPVC pvc = key_of (di_Meta i) ∧
  pvc_VolumeName pvc = di_Name i.
Proof.
  unfold volume_of. repeat case_decide; try done; [by intros [= <- <-]|..].
  - destruct (permissions_of _), (host_path_type _); try done. by intros [= <- <-].
  - destruct (permissions_of _); try done. by intros [= <- <-].
Qed.

(** Whether a dataset is well-formed does not depend on the UUID. *)
Lemma volume_of_uuid i u u' : is_Some (volume_of i u) → is_Some (volume_of i u').
Proof.
  unfold volume_of. repeat case_decide; try done.
  by destruct (permissions_of _).
Qed.

Section Provision.
Context {S : Type} (h : handler Kube S) `{!ApiServer h} `{Metastore} `{ControllerUtil}.
Context (req : NamespacedName) (i : DatasetInternal).

Record volume_dataset (s : S) : Prop := {
  vd_stored : view s KDatasetInternal req = Some i;
  vd_key : key_of (di_Meta i) = req;
  vd_live : om_DeletionTimestamp (di_Meta i) = None;
  vd_wellformed : is_Some (volume_of i "") }.

(** What a reconciliation does: the volume, then the claim, where they are missing. *)
Definition volume_ensured (s s' : S) : Prop :=
  ∃ uuid pv pvc s0 s1, volume_of i uuid = Some (pv, pvc) ∧
    (∀ k n, view s0 k n = view s k n) ∧ ensured h s0 s1 KPV pv ∧ ensured h s1 s' KPVC pvc.

Lemma wp_create_volume_and_claim s pv pvc (Q : reconciled → S → Prop) :
  (∀ s1 s', ensured h s s1 KPV pv → ensured h s1 s' KPVC pvc → Q (result_done, None) s') →
  wp h (create_volume_and_claim i pv pvc) s Q.
Proof using Type*.
  intros HQ. unfold create_volume_and_claim. apply wp_bind, (wp_own_and_create h).
  intros s1 H1.
  apply wp_bind, (wp_own_and_create h). intros s2 H2. apply wp_ret. by eapply HQ.
Qed.

(** The handler of the type of the dataset. *)
Lemma wp_volume_handler s f :
  volume_dataset s → datasetLocalProcessTable (map_index (di_Local i) "type") = Some f →
  wp h (f i) s (λ r s', r = (result_done, None) ∧
    (volume_ensured s s' ∨ is_Some (view s KPVC req) ∧ s' = s)).
Proof using Type*.
  intros [_ Hk _ [[pv0 pvc0] Hv]] Hf. unfold datasetLocalProcessTable in Hf.
  unfold volume_of in Hv. set (t := map_index (di_Local i) "type") in *.
  destruct (decide (t = "COS")) as [->|_]; [done|].
  destruct (decide (t = "NFS")) as [Ht|Hn].
  { injection Hf as <-. unfold processLocalDatasetNFS.
    change (MkNamespacedName (di_Namespace i) (di_Name i)) with (key_of (di_Meta i)). rewrite Hk.
    destruct (view s KPVC req) as [pvc|] eqn:Hp.
    - apply (wp_kget_some h KPVC req _ s pvc _ Hp). apply wp_ret. split; [done|]. right. by split.
    - apply (wp_kget_none h KPVC req _ s _ Hp). apply (wp_new_uuid h). intros u s0 _ Hs0 _.
      apply wp_create_volume_and_claim. intros s1 s' H1 H2. split; [done|]. left.
      exists u, (nfs_volume i u), (nfs_claim i), s0, s1. split_and!; [|done..].
      unfold volume_of. fold t. by rewrite decide_True. }
  destruct (decide (t = "HOST")) as [Ht|Hh].
  { injection Hf as <-. unfold processLocalDatasetHOST.
    destruct (decide (map_index _ "path" = "")) as [|Hpath]; [done|].
    destruct (permissions_of _) as [p|] eqn:Hp; [|done].
    destruct (host_path_type _) as [ty|] eqn:Hty; [|done].
    apply wp_create_volume_and_claim. intros s1 s' H1 H2. split; [done|]. left.
    exists "", (host_volume i p ty), (host_claim i p), s, s1. split_and!; [|done..].
    unfold volume_of. fold t. rewrite decide_False, decide_True, decide_False by done. by rewrite Hp, Hty. }
  destruct (decide (t = "H3")) as [Ht|H3]; [|done].
  injection Hf as <-. unfold processLocalDatasetH3.
  destruct (decide (map_index _ "storageUri" = "")) as [|Huri]; [done|].
  destruct (permissions_of _) as [p|] eqn:Hp; [|done].
  apply (wp_new_uuid h). intros u s0 _ Hs0 _.
  apply wp_create_volume_and_claim. intros s1 s' H1 H2. split; [done|]. left.
  exists u, (h3_volume i u), (h3_claim i p), s0, s1. split_and!; [|done..]. unfold volume_of.
  fold t. rewrite decide_False, decide_False, decide_True, decide_False by done. by rewrite Hp.
Qed.

(** A volume dataset has one of the three types. *)
Lemma volume_type uuid :
  is_Some (volume_of i uuid) →
  map_index (di_Local i) "type" ≠ "COS" ∧
  ∃ f, datasetLocalProcessTable (map_index (di_Local i) "type") = Some f ∧
       is_Some (di_Local i).
Proof using Type.
  intros [v Hv]. unfold volume_of in Hv. unfold datasetLocalProcessTable.
  set (t := map_index _ _) in *.
  assert (t ∈ ["NFS"; "HOST"; "H3"]) as Ht by (repeat case_decide; set_solver).
  assert (t ≠ "COS" ∧ t ≠ "") as [Hc Hne].
  { by repeat (apply elem_of_cons in Ht as [->|Ht]; [by split|]); apply not_elem_of_nil in Ht. }
  split; [done|]. rewrite decide_False by done.
  assert (is_Some (di_Local i)) as Hl.
  { subst t. destruct (di_Local i); [by eexists|done]. }
  repeat (case_decide; [by eexists|]). clear Hv.
  by repeat (apply elem_of_cons in Ht as [->|Ht]; [done|]); apply not_elem_of_nil in Ht.
Qed.

Lemma wp_Reconcile_volume s :
  volume_dataset s →
  wp h (Reconcile req) s (λ r s', r = Some (result_done, None) ∧
    (volume_ensured s s' ∨ is_Some (view s KPVC req) ∧ s' = s)).
Proof using Type*.
  intros Hd. destruct (volume_type "" (vd_wellformed _ Hd)) as (Hcos & f & Hf & [m Hm]).
  unfold Reconcile. apply (wp_kget_some h KDatasetInternal req _ s i _ (vd_stored _ Hd)).
  unfold needs_finalizer. rewrite bool_decide_false
    by (unfold map_index in Hcos; intros Hx; by rewrite Hx in Hcos).
  cbn [andb]. rewrite decide_False by (intros Hx; apply Hx, (vd_live _ Hd)).
  unfold process. rewrite Hm, <-Hm, Hf. apply wp_bind.
  eapply wp_mono; [by apply wp_volume_handler|]. intros r s' [-> Hs]. by apply wp_ret.
Qed.

(** What the volumes and claims are afterwards. *)
Lemma volume_ensured_views s s' :
  volume_dataset s → volume_ensured s s' →
  is_Some (view s' KPV (volume_key i)) ∧ is_Some (view s' KPVC req) ∧
  (∀ k n, (k, n) ∉ [(KPV, volume_key i); (KPVC, req)] → view s' k n = view s k n).
Proof using Type*.
  intros Hd (u & pv & pvc & s0 & s1 & Hv & Hs0 & H1 & H2).
  destruct (volume_of_keys _ _ _ _ Hv) as (Hkv & Hkc & _). rewrite (vd_key _ Hd) in Hkc.
  pose proof (ensured_present h _ _ _ _ H1) as Hp1. pose proof (ensured_present h _ _ _ _ H2) as Hp2.
  rewrite Hkv in Hp1. rewrite Hkc in Hp2.
  rewrite (ensured_kind h _ _ _ _ KPV _ H2) by done. split_and!; [done|done|].
  intros k n Hn. rewrite <-Hs0. unfold ensured in H1, H2. rewrite Hkv in H1. rewrite Hkc in H2.
  transitivity (view s1 k n).
  - destruct (view s1 KPVC req); [by subst|]. destruct H2 as (o & _ & Hch & _).
    destruct (decide (k = KPVC)) as [->|Hk]; [|by apply (changed_kind h _ _ _ _ _ _ _ Hch)].
    apply (changed_name h _ _ _ _ _ _ Hch). set_solver.
  - destruct (view s0 KPV (volume_key i)); [by subst|]. destruct H1 as (o & _ & Hch & _).
    destruct (decide (k = KPV)) as [->|Hk]; [|by apply (changed_kind h _ _ _ _ _ _ _ Hch)].
    apply (changed_name h _ _ _ _ _ _ Hch). set_solver.
Qed.

(** With both there, nothing is left to do. *)
Lemma volume_ensured_again s s' :
  volume_dataset s → is_Some (view s KPV (volume_key i)) → is_Some (view s KPVC req) →
  volume_ensured s s' → ∀ k n, view s' k n = view s k n.
Proof using Type*.
  intros Hd Hpv Hpvc (u & pv & pvc & s0 & s1 & Hv & Hs0 & H1 & H2).
  destruct (volume_of_keys _ _ _ _ Hv) as (Hkv & Hkc & _). rewrite (vd_key _ Hd) in Hkc.
  assert (s1 = s0) as ->.
  { apply (ensured_again h s0 KPV pv); [|exact H1]. by rewrite Hkv, Hs0. }
  assert (s' = s0) as ->; [|exact Hs0].
  apply (ensured_again h s0 KPVC pvc); [|exact H2]. by rewrite Hkc, Hs0.
Qed.
End Provision.

(** What the reconciliation of a volume dataset leaves: its claim, for the volume of its
    name, and that volume, which is its own exactly when there was none of that name. *)
Definition volume_provided {S : Type} {h : handler Kube S} `{!ApiServer h}
    (req : NamespacedName) (i : DatasetInternal) (s s' : S) : Prop :=
  ∃ uuid pv pvc, volume_of i uuid = Some (pv, pvc) ∧
    (∃ pvc', view s' KPVC req = Some pvc' ∧ same_spec KPVC pvc pvc') ∧
    match view s KPV (volume_key i) with
    | Some foreign => view s' KPV (volume_key i) = Some foreign
    | None => ∃ pv', view s' KPV (volume_key i) = Some pv' ∧ same_spec KPV pv pv'
    end.

Lemma volume_ensured_provides {S : Type} (h : handler Kube S) `{!ApiServer h} req i s s' :
  volume_dataset h req i s → view s KPVC req = None → volume_ensured h i s s' →
  volume_provided req i s s'.
Proof.
  intros Hd Hnone (u & pv & pvc & s0 & s1 & Hv & Hs0 & H1 & H2).
  destruct (volume_of_keys _ _ _ _ Hv) as (Hkv & Hkc & _). rewrite (vd_key _ _ _ _ Hd) in Hkc.
  exists u, pv, pvc. split; [done|].
  assert (view s1 KPVC req = None) as Hn1
    by (by rewrite (ensured_kind h _ _ _ _ _ _ H1), Hs0).
  assert (view s' KPV (volume_key i) = view s1 KPV (volume_key i)) as Hpv
    by (by rewrite (ensured_kind h _ _ _ _ _ _ H2)).
  unfold ensured in H1, H2. rewrite Hkv, Hs0 in H1. rewrite Hkc, Hn1 in H2.
  destruct H2 as (pvc' & Hspec & Hch & _). split.
  - exists pvc'. split; [by eapply changed_here|done].
  - rewrite Hpv. destruct (view s KPV (volume_key i)) as [foreign|] eqn:Hf.
    + subst s1. by rewrite Hs0.
    + destruct H1 as (pv' & Hspec' & Hch' & _). exists pv'. split; [by eapply changed_here|done].
Qed.


(** Volumes have no namespace: of two datasets of the same name in two namespaces, the
    second is provisioned without an error, but its claim is for the volume of the first,
    with the source that the first one describes. *)
Theorem second_tenant_gets_first_volume {S : Type} (h : handler Kube S) `{!ApiServer h}
    `{Metastore} `{ControllerUtil} (req1 req2 : NamespacedName) (s : S)
    (i1 i2 : DatasetInternal)
    (Hd1 : volume_dataset h req1 i1 s) (Hd2 : volume_dataset h req2 i2 s)
    (Hname : di_Name i1 = di_Name i2) (Hne : req1 ≠ req2)
    (Hnew1 : view s KPVC req1 = None) (Hnew2 : view s KPVC req2 = None)
    (Hfree : view s KPV (volume_key i1) = None) :
  let s1 := final (run h (Reconcile req1) s) in
  let out := run h (Reconcile req2) s1 in
  result out = Some (result_done, None) ∧
  ∃ uuid v pv pvc, volume_of i1 uuid = Some v ∧
    view (final out) KPV (volume_key i2) = Some pv ∧ pv_Source pv = pv_Source v.1 ∧
    view (final out) KPVC req2 = Some pvc ∧ pvc_VolumeName pvc = om_Name (pv_Meta v.1).
Proof.
  cbn zeta. assert (volume_key i2 = volume_key i1) as Hkey by (unfold volume_key; by rewrite Hname).
  destruct (wp_Reconcile_volume h req1 i1 s Hd1) as [_ [Hens|[Hsome _]]];
    [|rewrite Hnew1 in Hsome; by destruct Hsome].
  destruct (volume_ensured_views h req1 i1 _ _ Hd1 Hens) as (_ & _ & Hother).
  destruct (volume_ensured_provides h req1 i1 _ _ Hd1 Hnew1 Hens)
    as (u & pv & pvc & Hv & _ & Hpv). rewrite Hfree in Hpv. destruct Hpv as (pv1 & Hpv1 & Hspec).
  set (s1 := final (run h (Reconcile req1) s)) in *.
  assert (volume_dataset h req2 i2 s1) as Hd2'.
  { destruct Hd2. split; try done. rewrite Hother by set_solver. done. }
  assert (view s1 KPVC req2 = None) as Hnew2' by (rewrite Hother by set_solver; done).
  destruct (wp_Reconcile_volume h req2 i2 s1 Hd2') as [Hr [Hens2|[Hsome _]]];
    [|rewrite Hnew2' in Hsome; by destruct Hsome].
  split; [done|].
  destruct (volume_ensured_provides h req2 i2 _ _ Hd2' Hnew2' Hens2)
    as (u2 & pv2 & pvc2 & Hv2 & (pvc' & Hpvc' & Hcl) & Hsame).
  rewrite Hkey, Hpv1 in Hsame. exists u, (pv, pvc), pv1, pvc'. rewrite Hkey.
  split_and!; [done|done|by destruct Hspec as (_ & _ & _ & ?)|done|].
  destruct Hcl as (_ & -> & _). destruct (volume_of_keys _ _ _ _ Hv2) as (_ & _ & ->).
  rewrite <-Hname. destruct (volume_of_keys _ _ _ _ Hv) as (Hk & _ & _).
  by injection Hk.
Qed.

(** ** NFS *)

(** A request of the node for a volume: its identifier and its context are those of the
    CSI source of the volume. *)
Definition for_volume (pv : PersistentVolume) (r : NfsPublishRequest) : Prop :=
  ∃ attributes, pv_Source pv = CSISource "csi-nfsplugin" (nr_VolumeId r) attributes ∧
    nr_VolumeContext r = Some attributes.

(** The share that a dataset names, or the directory of the volume in it. *)
Definition dataset_share (i : DatasetInternal) (volumeID : string) : string :=
  let root := map_index (di_Local i) "server" +:+ ":" +:+ map_index (di_Local i) "share" in
  if (ParseBool (map_index (di_Local i) "createDirPVC")).1 then path_Join root volumeID else root.

Lemma source_of_dataset i uuid pv r :
  same_spec KPV (nfs_volume i uuid) pv → for_volume pv r →
  nfs_source r = dataset_share i (nr_VolumeId r) ∧
  nr_VolumeId r = di_Name i +:+ "-" +:+ str_take 6 uuid.
Proof.
  intros (_ & _ & _ & Hsrc) (attrs & Hpv & Hctx). rewrite Hsrc in Hpv.
  injection Hpv as Hid <-. split; [|done].
  assert (share r = map_index (di_Local i) "server" +:+ ":" +:+ map_index (di_Local i) "share") as Hs
    by (unfold share; by rewrite Hctx).
  unfold nfs_source, dataset_share. rewrite Hs.
  assert (createDirPVC r = (ParseBool (map_index (di_Local i) "createDirPVC")).1) as ->; [|done].
  unfold createDirPVC. rewrite Hctx. unfold map_index at 1. cbn.
  unfold map_index. by destruct (map_get (di_Local i) "createDirPVC").
Qed.


(** ** Witnesses *)

#[local] Existing Instance list_finalizers.
#[local] Existing Instance demo_metastore.

Definition nfs_spec_of (server : string) : DatasetSpec :=
  MkDatasetSpec
    (Some (list_to_map [("type", "NFS"); ("server", server); ("share", "/exports");
                        ("createDirPVC", "true")]))
    None "" "" "" "".

Definition nfs_books : DatasetInternal :=
  MkDatasetInternal (witness_meta [] None) (nfs_spec_of "10.0.0.1") empty_placement.

Definition other_req : NamespacedName := MkNamespacedName "other" "books".
Definition other_books : DatasetInternal :=
  MkDatasetInternal (new_meta "books" "other" None) (nfs_spec_of "10.0.0.2") empty_placement.

Lemma nfs_books_volume : volume_dataset mem_handler witness_req nfs_books (server_with nfs_books).
Proof. split; [reflexivity..|]. by eexists. Qed.

Definition nfs_server : MemServer :=
  final (run mem_handler (Reconcile witness_req) (server_with nfs_books)).


Definition two_tenants : MemServer :=
  store (server_with nfs_books) KDatasetInternal other_req (Some other_books).

Lemma tenants_witness :
  let s1 := final (run mem_handler (Reconcile witness_req) two_tenants) in
  let s2 := final (run mem_handler (Reconcile other_req) s1) in
  ∃ uuid v pv pvc, volume_of nfs_books uuid = Some v ∧
    mem_view s2 KPV (volume_key other_books) = Some pv ∧ pv_Source pv = pv_Source v.1 ∧
    mem_view s2 KPVC other_req = Some pvc ∧ pvc_VolumeName pvc = om_Name (pv_Meta v.1).
Proof.
  refine (proj2 (@second_tenant_gets_first_volume _ mem_handler mem_api_server demo_metastore
    list_finalizers witness_req other_req two_tenants nfs_books other_books _ _ eq_refl _
    eq_refl eq_refl eq_refl)).
  - split; [reflexivity..|]. by eexists.
  - split; [reflexivity..|]. by eexists.
  - done.
Defined.

(** The publication of the volume of the dataset. *)
Definition books_publication : NfsPublishRequest :=
  MkNfsPublishRequest "books-f47ac1" "/pods/vol" ["vers=4"] false
    (Some (list_to_map [("server", "10.0.0.1"); ("share", "/exports"); ("createDirPVC", "true")])).

