(* ===== verification/ArchiveLifecycle.v ===== *)
(** * From an archive to a mount of its files

    A dataset of type ARCHIVE names the URL of an archive. Its reconciliation starts a
    job that downloads the archive into a bucket of the operator's own object store, and
    asks for a COS dataset of this bucket; what the S3 driver mounts in the end is the
    bucket that the job fills. *)

From Stdlib Require Import ZArith Lia Ascii.
From stdpp Require Import options.
From S2P Require Import Prelude GoStd KubeApi KubeServer KubeWp Archive DatasetController DatasetSafety Metastore InternalController InternalSafety InternalProgress InternalWitness NodeApi S3Client S3Mounter S3Server Pipeline EndToEnd NodeWorld NodeMounts CsiSpec CsiLifecycle CsiWitness DatasetLifecycle.

Open Scope Z_scope.

(** The job of the download with this UUID. *)
Definition download_job (d : Dataset) (namespace podId : string) : Job :=
  MkJob (new_meta ("cos-upload-" +:+ str_take 4 podId) namespace None) 1 1 "Never"
    "quay.io/datashim-io/cos-uploader:latest" "Always" "cos-uploader"
    (download_command (ParseBool (spec_Extract (ds_Spec d))).1 (spec_Url (ds_Spec d))
       (path_Base (spec_Url (ds_Spec d))) podId) "minio-conf".

(** The dataset of the bucket that the job fills. *)
Definition archive_dataset (d : Dataset) (minioConf : Secret) (bucket : string) : Dataset :=
  MkDataset (ds_Meta d) (archive_spec d minioConf bucket) empty_status.

Section Archive.
Context {S : Type} (h : handler Kube S) `{!ApiServer h} (req : NamespacedName).

Definition conf_name (s : S) : NamespacedName :=
  MkNamespacedName (environ s "OPERATOR_NAMESPACE") "minio-conf".
Definition job_name (s : S) (podId : string) : NamespacedName :=
  MkNamespacedName (environ s "OPERATOR_NAMESPACE") ("cos-upload-" +:+ str_take 4 podId).

(** A dataset of an archive that is to be provisioned: caching is settled, the operator
    has the configuration of its object store, and nothing of the name of the dataset
    exists yet; no download runs under a name that a new one may get. *)
Record archive_ready (s : S) (d : Dataset) (conf : Secret) : Prop := {
  ar_stored : view s KDataset req = Some d;
  ar_key : key_of (ds_Meta d) = req;
  ar_type : spec_Type (ds_Spec d) = "ARCHIVE";
  ar_caching : caching_status d = StatusDisabled;
  ar_provision : provision_status d = StatusInitial ∨ provision_status d = StatusPending;
  ar_conf : view s KSecret (conf_name s) = Some conf;
  ar_jobs podId : view s KJob (job_name s podId) = None;
  ar_absent : view s KDatasetInternal req = None ∧ view s KPVC req = None ∧
              view s KSecret req = None }.

(** The download and the DatasetInternal are there. *)
Definition archive_started (s s' : S) (d : Dataset) (conf : Secret) (podId : string) : Prop :=
  no_char "/" podId ∧
  (∃ job, view s' KJob (job_name s podId) = Some job ∧
     same_spec KJob (download_job d (environ s "OPERATOR_NAMESPACE") podId) job) ∧
  (∃ i, has_internal h req s' (archive_dataset d conf podId) i) ∧
  ∀ k n, k ≠ KJob → k ≠ KDatasetInternal → k ≠ KDataset → view s' k n = view s k n.

Lemma wp_internal_spec s d conf (Q : goerr + DatasetSpec → S → Prop) :
  archive_ready s d conf →
  (∀ podId job s', no_char "/" podId → same_spec KJob (download_job d (environ s "OPERATOR_NAMESPACE") podId) job →
     view s' KJob (job_name s podId) = Some job →
     (∀ k n, k ≠ KJob → view s' k n = view s k n) → Q (inr (archive_spec d conf podId)) s') →
  wp h (internal_spec d) s Q.
Proof using Type*.
  intros Hr HQ. unfold internal_spec. rewrite decide_True by apply (ar_type _ _ _ Hr).
  apply (wp_getenv h), wp_bind. unfold getPodDataDownload. apply (wp_new_uuid h).
  intros podId s1 Hslash Hs1 Hsur1. cbv zeta. apply wp_ret. cbv beta iota.
  set (job := MkJob _ _ _ _ _ _ _ _ _).
  assert (okey KJob job = job_name s podId) as Hok by done.
  apply (wp_kcreate h); [rewrite Hok, Hs1; apply (ar_jobs _ _ _ Hr)|].
  intros job' s2 (_ & Hspec & _ & _ & Hch & Hsur2). rewrite Hok in Hch.
  assert (environ s2 = environ s) as Henv.
  { unfold surroundings in Hsur1, Hsur2. congruence. }
  apply (wp_getenv h). rewrite Henv.
  assert (∀ k n, k ≠ KJob → view s2 k n = view s k n) as Hother
    by (intros k n Hk; by rewrite (changed_kind h _ _ _ _ _ _ _ Hch Hk), Hs1).
  apply (wp_kget_some h KSecret (conf_name s) _ s2 conf).
  { change (scoped KSecret (conf_name s)) with (conf_name s).
    rewrite Hother by done. apply (ar_conf _ _ _ Hr). }
  apply wp_ret, (HQ podId job'); [exact Hslash|exact Hspec|by eapply changed_here|exact Hother].
Qed.

Lemma wp_create_archive s d conf :
  archive_ready s d conf →
  wp h (create_internal req d) s (λ r s', r = None ∧ view s' KDataset req = Some d ∧
    ∃ podId, archive_started s s' d conf podId).
Proof using Type*.
  intros Hr. unfold create_internal. destruct (ar_absent _ _ _ Hr) as (Hi & _ & _).
  apply (wp_kget_none h KDatasetInternal req _ s _ Hi).
  change (IsNotFound KubeApi.NotFound) with true. cbn iota. apply wp_bind, (wp_internal_spec s d conf _ Hr).
  intros podId job s1 Hslash Hspec Hjob Hother. cbv beta iota.
  apply (wp_kset_owner h). intros o [refs ->]. set (o := set_meta _ _ _).
  assert (okey KDatasetInternal o = req) as Hok by exact (ar_key _ _ _ Hr).
  apply (wp_kcreate h); [by rewrite Hok, Hother|].
  intros i s2 (Hm & Hsp & Hdel & _ & Hch & _). rewrite Hok in Hch. apply wp_ret.
  assert (∀ k n, k ≠ KDatasetInternal → view s2 k n = view s1 k n) as Hother2
    by (intros k n Hk; exact (changed_kind h _ _ _ _ _ _ _ Hch Hk)).
  split_and!; [done|by rewrite Hother2, Hother by done; apply (ar_stored _ _ _ Hr)|].
  exists podId. split_and!; [exact Hslash| | |].
  - exists job. split; [by rewrite Hother2|exact Hspec].
  - exists i. split_and!; [by eapply changed_here|exact Hsp| |exact Hdel|].
    + rewrite <-(ar_key _ _ _ Hr). exact (sm_key _ _ _ Hm).
    + pose proof (sm_labels _ _ _ Hm) as Hl. cbn in Hl. by rewrite Hl.
  - intros k n Hj Hk _. by rewrite Hother2, Hother.
Qed.

(** Writing the status changes the Dataset only. *)
Lemma wp_status_only s d st :
  view s KDataset req = Some d → key_of (ds_Meta d) = req →
  wp h (updateDatasetStatusAndReturn (set_status d st)) s (λ _ s',
    ∀ k n, k ≠ KDataset → view s' k n = view s k n).
Proof using Type*.
  intros Hv Hk. unfold updateDatasetStatusAndReturn.
  apply (wp_kstatus_update h KDataset _ d); [|done|].
  - change (view s KDataset (key_of (ds_Meta d)) = Some d). by rewrite Hk.
  - intros d' s' (_ & _ & _ & _ & Hch & _). apply wp_ret. intros k n Hne.
    exact (changed_kind h _ _ _ _ _ _ _ Hch Hne).
Qed.

Lemma wp_Reconcile_archive s d conf :
  archive_ready s d conf →
  wp h (DatasetController.Reconcile req) s (λ _ s', ∃ podId, archive_started s s' d conf podId).
Proof using Type*.
  intros Hr. unfold DatasetController.Reconcile.
  apply (wp_kget_some h KDataset req _ s d _ (ar_stored _ _ _ Hr)).
  pose proof (ar_caching _ _ _ Hr) as Hc. pose proof (ar_provision _ _ _ Hr) as Hp.
  rewrite initialized_same; [|by rewrite Hc|by destruct Hp as [-> | ->]].
  rewrite decide_False by (by rewrite Hc). rewrite decide_True by done.
  unfold or_else at 1. apply wp_bind. eapply wp_mono; [by apply wp_create_archive|].
  intros r s1 (-> & Hd1 & podId & Hslash & Hjob & Hint & Hother). cbv beta iota.
  unfold or_else, provision_setup.
  rewrite decide_True by (destruct Hp as [-> | ->]; done).
  assert (view s1 KPVC req = None) as Hpvc by (rewrite Hother by done; apply (ar_absent _ _ _ Hr)).
  apply wp_bind, (wp_kget_none h KPVC req _ s1 _ Hpvc).
  change (IsNotFound KubeApi.NotFound) with true. cbn iota. case_decide.
  - apply wp_bind. eapply wp_mono; [apply wp_status_only; [done|apply (ar_key _ _ _ Hr)]|].
    intros res s2 Hs2. do 2 apply wp_ret. exists podId. destruct Hint as (i & Hi & Hrest).
    split_and!; [exact Hslash| | |].
    + destruct Hjob as (job & Hj & Hsp). exists job. by rewrite Hs2.
    + exists i. split; [by rewrite Hs2|done].
    + intros k n H1 H2 H3. by rewrite Hs2, Hother.
  - do 2 apply wp_ret. by exists podId.
Qed.
End Archive.

(** ** The mount *)

(** What the driver is told about the bucket of a download: read-only, at the operator's
    own object store. *)
Definition archive_config (d : Dataset) (conf : Secret) (podId : string) : Config :=
  MkConfig (secret_value conf "AWS_ACCESS_KEY_ID") (secret_value conf "AWS_SECRET_ACCESS_KEY") ""
    (secret_value conf "ENDPOINT") "" podId ""
    (dataset_flag (om_Labels (ds_Meta d)) "remove-on-delete")
    true (dataset_flag (spec_Local (ds_Spec d)) "provision").

Definition archive_mount (d : Dataset) (conf : Secret) (podId : string) (v : CsiVolume) :
    mount_cmd :=
  let type := map_index (cn_Parameters v) "mounter" in
  publish_command type (MkBucket podId "" type) (archive_config d conf podId) (cn_id v)
    (cn_Target v).

Lemma Cut_no_char s c : no_char c s → Cut s c = (s, "", false).
Proof.
  intros Hs. pose proof (Cut_spec s c) as Hc. destruct (Cut s c) as [[b a] [|]].
  - destruct Hc as [_ ->]. rewrite no_char_app in Hs. destruct Hs as [_ [Hx _]]. done.
  - by destruct Hc as (_ & -> & ->).
Qed.

Lemma provision_value_flag local :
  (ParseBool (provision_value local)).1 = dataset_flag local "provision".
Proof.
  unfold provision_value, dataset_flag, map_index. destruct (map_get local "provision") as [v|]; [|done].
  cbn [default from_option]. unfold id. destruct (ParseBool v) as [b [e|]] eqn:Hp.
  - cbn [fst]. by rewrite (ParseBool_error _ _ _ Hp).
  - by rewrite ParseBool_FormatBool.
Qed.

Lemma bucket_of_download d conf podId :
  no_char "/" podId → cos_bucket (as_internal (archive_dataset d conf podId)) = (podId, "").
Proof.
  intros Hn. unfold cos_bucket.
  change (map_index (di_Local (as_internal (archive_dataset d conf podId))) "bucket") with podId.
  by rewrite Cut_no_char.
Qed.

Lemma config_of_archive d conf podId :
  no_char "/" podId →
  dataset_config (as_internal (archive_dataset d conf podId))
    (secret_value conf "AWS_ACCESS_KEY_ID") (secret_value conf "AWS_SECRET_ACCESS_KEY")
  = archive_config d conf podId.
Proof.
  intros Hn. unfold dataset_config. rewrite bucket_of_download by done. unfold archive_config.
  by rewrite <-(provision_value_flag (spec_Local (ds_Spec d))).
Qed.


(** ** Witness *)

#[local] Existing Instance list_finalizers.
#[local] Existing Instance demo_metastore.

Definition minio_conf : Secret :=
  MkSecret (new_meta "minio-conf" "dlf" None)
    (Some (list_to_map [("AWS_ACCESS_KEY_ID", "id"); ("AWS_SECRET_ACCESS_KEY", "key");
                        ("ENDPOINT", "http://minio:9000")])) None.

Definition archive_books : Dataset :=
  MkDataset (witness_meta [] None)
    (MkDatasetSpec None None "ARCHIVE" "http://example.org/books.tar.gz" "" "true")
    (MkDatasetStatus (MkCondition StatusDisabled "") (MkCondition StatusInitial "")).

Definition archive_server : MemServer :=
  store (store blank KSecret (MkNamespacedName "dlf" "minio-conf") (Some minio_conf))
    KDataset witness_req (Some archive_books).

Lemma archive_server_ready :
  archive_ready mem_handler witness_req archive_server archive_books minio_conf.
Proof.
  split; try reflexivity; [by left|]. by split_and!.
Qed.

Definition archived_server : MemServer :=
  internal_rounds mem_handler witness_req 2
    (final (run mem_handler (DatasetController.Reconcile witness_req) archive_server)).

Definition download_uuid : string := "f47ac10b-58cc-0372-8567-0e02b2c3d479".

Definition archive_secrets : gomap := Some (list_to_map
  [("accessKeyID", "id"); ("secretAccessKey", "key"); ("endpoint", "http://minio:9000");
   ("bucket", download_uuid); ("folder", ""); ("region", ""); ("readonly", "true");
   ("extract", "false"); ("provision", "false"); ("remove-on-delete", "true")]).

Lemma archived_secrets :
  sec_Data <$> mem_view archived_server KSecret witness_req = Some archive_secrets.
Proof. vm_compute. reflexivity. Qed.

(** The node and the store once the job has run. *)
Definition archive_world : World := with_bucket old_world "minio:9000" download_uuid (Some books_keys).
Definition archive_state : MemWorld :=
  set_buckets old_state (λ m, partial_alter (λ _, Some books_keys) ("minio:9000", download_uuid) m).

Lemma archive_shows : shows mem_world archive_state archive_world.
Proof.
  split; [|exact (proj2 old_shows)]. intros e b.
  destruct (decide ((e, b) = ("minio:9000", download_uuid))) as [[= -> ->]|Hne]; [done|].
  cbn. rewrite !lookup_partial_alter_ne by done. apply (proj1 old_shows e b).
Qed.

