(* ===== verification/CatalogLifecycle.v ===== *)
(** * Datasets of a catalog

    A remote dataset names a table of a Hive metastore. Its reconciliation looks the
    table up and publishes the locations that it finds: all of them in a ConfigMap, the
    first one in the Secret of the dataset, and a claim for it if the dataset allows to
    mount it. *)

From Stdlib Require Import ZArith Lia Ascii.
From stdpp Require Import options.
From S2P Require Import Prelude GoStd KubeApi KubeServer KubeWp Metastore InternalController InternalSafety InternalProgress InternalWitness S3Client Pipeline.

Open Scope Z_scope.

(** ** The ConfigMap *)

Definition bucket_entry (j : Z) : string := "bucket." +:+ Itoa j.

Lemma bucket_entry_inj i j : bucket_entry i = bucket_entry j → i = j.
Proof. unfold bucket_entry, Itoa. intros H. by repeat (injection H as H || apply (inj pretty) in H). Qed.

(** An entry that the loop over the buckets does not write. *)
Lemma bucket_data_other bs j data key :
  (∀ i, j ≤ i → key ≠ bucket_entry i) → bucket_data bs j data !! key = data !! key.
Proof.
  revert j data. induction bs as [|b bs IH]; intros j data Hk; [done|]. cbn [bucket_data].
  rewrite IH by (intros i Hi; apply Hk; lia). apply lookup_insert_ne.
  intros He. by apply (Hk j); [lia|].
Qed.

Lemma bucket_data_lookup bs j data n b :
  bs !! n = Some b → bucket_data bs j data !! bucket_entry (j + Z.of_nat n) = Some b.
Proof.
  revert j data n. induction bs as [|b' bs IH]; intros j data [|n] Hb; [done..| |]; cbn in Hb.
  - injection Hb as ->. cbn [bucket_data]. rewrite Z.add_0_r, bucket_data_other.
    + apply lookup_insert_eq.
    + intros i Hi He. apply bucket_entry_inj in He. lia.
  - cbn [bucket_data]. rewrite <-(IH (j + 1) (<[bucket_entry j := b']> data) n Hb).
    f_equal. f_equal. lia.
Qed.

(** What the ConfigMap of a dataset says about its table. *)
Record lists_table (data : gomap) (host : string) (port : Z) (table : string)
    (bs : list string) : Prop := {
  lt_host : map_get data "catalogHost" = Some host;
  lt_port : map_get data "catalogPort" = Some (Itoa port);
  lt_table : map_get data "table" = Some table;
  lt_number : map_get data "numBuckets" = Some (Itoa (Z.of_nat (length bs)));
  lt_buckets n b : bs !! n = Some b → map_get data (bucket_entry (Z.of_nat n)) = Some b }.

Lemma catalog_data_lists host port table bs :
  lists_table (Some (catalog_data host port table bs)) host port table bs.
Proof.
  assert (∀ n b, bs !! n = Some b → bucket_data bs 0 ∅ !! bucket_entry (Z.of_nat n) = Some b)
    as Hb by exact (λ n b, bucket_data_lookup bs 0 ∅ n b).
  unfold catalog_data. split; cbn; try (by simplify_map_eq).
  intros n b Hn. rewrite !lookup_insert_ne by done. by apply Hb.
Qed.

(** ** The reconciliation *)

Section Catalog.
Context {S : Type} (h : handler Kube S) `{!ApiServer h} `{Metastore} `{ControllerUtil}.
Context (req : NamespacedName) (i : DatasetInternal).

(** Where the catalog of the dataset is: at the address it names, or at the service of
    the namespace. *)
Definition catalog_at (s : S) : option (string * Z) :=
  match map_get (di_Remote i) "catalogURI" with
  | Some uri => match parseCatalogUri uri with inr address => Some address | inl _ => None end
  | None =>
      svc ← view s KService (MkNamespacedName (di_Namespace i) "hivemetastore");
      if decide (svc_ClusterIP svc = "") then None
      else Some (svc_ClusterIP svc, service_port (svc_Ports svc))
  end.

(** A live dataset for the table [table], whose catalog answers with the locations [bs]. *)
Record catalog_dataset (s : S) (host : string) (port : Z) (table endpoint : string)
    (bs : list string) : Prop := {
  cg_stored : view s KDatasetInternal req = Some i;
  cg_key : key_of (di_Meta i) = req;
  cg_live : om_DeletionTimestamp (di_Meta i) = None;
  cg_remote : di_Local i = None ∧ map_get (di_Remote i) "type" = Some "CatalogEntry";
  cg_address : catalog_at s = Some (host, port);
  cg_table : map_get (di_Remote i) "table" = Some table;
  cg_endpoint : map_get (di_Remote i) "endpoint" = Some endpoint;
  cg_found : processCatalogEntry host port table = Some (inr bs) ∧ bs ≠ [] }.

Lemma wp_catalog_address s host port (Q : goerr + string * Z → S → Prop) :
  catalog_at s = Some (host, port) → Q (inr (host, port)) s → wp h (catalog_address i) s Q.
Proof using Type*.
  unfold catalog_at, catalog_address. intros Ha HQ.
  destruct (map_get (di_Remote i) "catalogURI") as [uri|].
  - destruct (parseCatalogUri uri); [done|]. injection Ha as ->. by apply wp_ret.
  - apply (wp_kget h). change (scoped KService ?n) with n.
    destruct (view s KService _) as [svc|]; [|done]. cbn in Ha.
    case_decide; [done|]. injection Ha as <- <-. by apply wp_ret.
Qed.

Definition catalog_map (host : string) (port : Z) (table : string) (bs : list string) : ConfigMap :=
  MkConfigMap (dataset_meta i) (Some (catalog_data host port table bs)).

Definition catalog_secret (endpoint : string) (host : string) (port : Z) (table : string)
    (bs : list string) : Secret :=
  remote_secret i endpoint (catalog_data host port table bs).

Definition catalog_claim : PersistentVolumeClaim :=
  MkPVC (dataset_meta i) [ReadWriteOnce] "" "csi-s3" (Some "5Gi") None ClaimPhaseEmpty.

(** The three objects, where they are missing. *)
Definition catalog_ensured (s s' : S) (host : string) (port : Z) (table endpoint : string)
    (bs : list string) : Prop :=
  ∃ s1 s2, ensured h s s1 KConfigMap (catalog_map host port table bs) ∧
    ensured h s1 s2 KSecret (catalog_secret endpoint host port table bs) ∧
    if mount_allowed (di_Remote i) then ensured h s2 s' KPVC catalog_claim else s' = s2.

Lemma wp_create_remote s host port table endpoint bs :
  wp h (create_remote i endpoint (catalog_data host port table bs)) s (λ r s',
    r = (result_done, None) ∧ catalog_ensured s s' host port table endpoint bs).
Proof using Type*.
  unfold create_remote. apply wp_bind, (wp_own_and_create h). intros s1 H1.
  apply wp_bind, (wp_own_and_create h). intros s2 H2. unfold catalog_ensured.
  destruct (mount_allowed (di_Remote i)).
  - apply wp_bind, (wp_own_and_create h). intros s3 H3. apply wp_ret. split; [done|]. by exists s1, s2.
  - apply wp_ret. split; [done|]. by exists s1, s2.
Qed.

Lemma wp_Reconcile_catalog s host port table endpoint bs :
  catalog_dataset s host port table endpoint bs →
  wp h (Reconcile req) s (λ r s', r = Some (result_done, None) ∧
    catalog_ensured s s' host port table endpoint bs).
Proof using Type*.
  intros [Hs Hk Hl [Hloc Hty] Ha Ht He [Hf Hne]]. unfold Reconcile.
  apply (wp_kget_some h KDatasetInternal req _ s i _ Hs).
  unfold needs_finalizer. rewrite Hloc, bool_decide_false by done. cbn [andb].
  rewrite decide_False by (intros Hx; by apply Hx). unfold process. rewrite Hloc.
  destruct (di_Remote i) as [m|] eqn:Hm; [|done]. apply wp_bind.
  unfold processRemoteDataset. rewrite Hm. unfold map_index. rewrite Hty.
  rewrite decide_True by done. apply wp_bind, (wp_catalog_address s host port); [done|].
  cbv beta iota. rewrite Ht, He, Hf. destruct bs as [|b bs]; [done|].
  apply wp_bind. eapply wp_mono; [apply wp_create_remote|]. intros r s' [-> Hens].
  do 2 apply wp_ret. by split.
Qed.
End Catalog.

(** ** What is published *)

(** What the driver is told: the first location, whole, is the bucket; there is no folder,
    and no flag is passed on. *)
Definition catalog_config (i : DatasetInternal) (endpoint b : string) : Config :=
  MkConfig (map_index (di_Remote i) "accessKeyID") (map_index (di_Remote i) "secretAccessKey")
    (map_index (di_Remote i) "region") endpoint "" b "" false false false.

Record catalog_published {S : Type} {h : handler Kube S} `{!ApiServer h}
    (req : NamespacedName) (i : DatasetInternal) (s : S) (host : string) (port : Z)
    (table endpoint : string) (bs : list string) : Prop := {
  cp_map : ∃ cm, view s KConfigMap req = Some cm ∧ lists_table (cm_Data cm) host port table bs;
  cp_secret : ∃ sec b, view s KSecret req = Some sec ∧ head bs = Some b ∧
    config_of_secrets (sec_Data sec) = catalog_config i endpoint b;
  cp_claim : if mount_allowed (di_Remote i)
    then ∃ pvc, view s KPVC req = Some pvc ∧ pvc_AccessModes pvc = [ReadWriteOnce] ∧
      pvc_StorageClassName pvc = "csi-s3"
    else view s KPVC req = None }.

Section Published.
Context {S : Type} (h : handler Kube S) `{!ApiServer h} `{Metastore}.
Context (req : NamespacedName) (i : DatasetInternal).
Context (host : string) (port : Z) (table endpoint : string) (bs : list string).

(** One missing object is created. *)
Lemma ensured_new s s' k o :
  okey k o = req → view s k req = None → ensured h s s' k o →
  (∃ o', view s' k req = Some o' ∧ same_spec k o o') ∧
  ∀ k' n, (k', n) ≠ (k, req) → view s' k' n = view s k' n.
Proof using Type.
  unfold ensured. intros -> ->. intros (o' & Hspec & Hch & _). split.
  - exists o'. split; [apply (changed_here h _ _ _ _ _ Hch)|done].
  - intros k' n Hne. destruct (decide (k' = k)) as [->|Hk].
    + apply (changed_name h _ _ _ _ _ _ Hch). congruence.
    + by apply (changed_kind h _ _ _ _ _ _ _ Hch).
Qed.

Lemma config_of_catalog sec b :
  head bs = Some b → same_spec KSecret (catalog_secret i endpoint host port table bs) sec →
  config_of_secrets (sec_Data sec) = catalog_config i endpoint b.
Proof using Type.
  intros Hb [_ Hdata].
  assert (catalog_data host port table bs !! "bucket.0" = Some b) as Hl.
  { destruct (catalog_data_lists host port table bs) as [_ _ _ _ Hbs].
    apply (Hbs 0%nat). by destruct bs. }
  assert (∀ key, map_get (sec_Data sec) key
    = map_get (sec_StringData (catalog_secret i endpoint host port table bs)) key) as Hkeys.
  { intros key. rewrite Hdata. by destruct (map_get _ key). }
  rewrite (config_of_secrets_ext _ _ Hkeys).
  unfold catalog_secret, remote_secret. rewrite Hl. reflexivity.
Qed.

Lemma catalog_ensured_published s s' :
  key_of (di_Meta i) = req → bs ≠ [] →
  view s KConfigMap req = None → view s KSecret req = None → view s KPVC req = None →
  catalog_ensured h i s s' host port table endpoint bs →
  catalog_published (h := h) req i s' host port table endpoint bs ∧
  ∀ k n, (k, n) ∉ [(KConfigMap, req); (KSecret, req); (KPVC, req)] → view s' k n = view s k n.
Proof using Type*.
  intros Hk Hne Hc Hs Hp (s1 & s2 & H1 & H2 & H3).
  destruct (ensured_new s s1 KConfigMap (catalog_map i host port table bs) Hk Hc H1) as [(cm & Hcm & Hcmd) Ho1].
  destruct (ensured_new s1 s2 KSecret (catalog_secret i endpoint host port table bs) Hk
    ltac:(by rewrite Ho1) H2) as [(sec & Hsec & Hsecd) Ho2].
  assert ((∀ k n, (k, n) ≠ (KPVC, req) → view s' k n = view s2 k n) ∧
    if mount_allowed (di_Remote i)
    then ∃ pvc, view s' KPVC req = Some pvc ∧ pvc_AccessModes pvc = [ReadWriteOnce] ∧
      pvc_StorageClassName pvc = "csi-s3"
    else view s' KPVC req = None) as [Ho3 Hclaim].
  { assert (view s2 KPVC req = None) as Hp2 by (by rewrite Ho2, Ho1).
    destruct (mount_allowed _); [|by subst s'].
    destruct (ensured_new s2 s' KPVC (catalog_claim i) Hk Hp2 H3) as [(pvc & Hpvc & Hspec) Ho3].
    split; [exact Ho3|]. exists pvc. by destruct Hspec as (-> & _ & -> & _). }
  destruct (head bs) as [b|] eqn:Hb; [|by destruct bs]. split; [split|].
  - exists cm. split; [by rewrite Ho3, Ho2|]. cbn in Hcmd. rewrite Hcmd. apply catalog_data_lists.
  - exists sec, b. split; [by rewrite Ho3|]. split; [done|]. by apply config_of_catalog.
  - exact Hclaim.
  - intros k n Hn. rewrite Ho3, Ho2, Ho1; [done|set_solver..].
Qed.

(** With everything there, nothing is left to do. *)
Lemma catalog_ensured_again s s' :
  key_of (di_Meta i) = req → bs ≠ [] →
  catalog_published (h := h) req i s host port table endpoint bs →
  catalog_ensured h i s s' host port table endpoint bs → s' = s.
Proof using Type*.
  intros Hk Hne [(cm & Hcm & _) (sec & b & Hsec & _) Hclaim] (s1 & s2 & H1 & H2 & H3).
  apply (ensured_again h s KConfigMap (catalog_map i host port table bs)) in H1 as ->;
    [|change (is_Some (view s KConfigMap (key_of (di_Meta i)))); rewrite Hk; by eexists].
  apply (ensured_again h s KSecret (catalog_secret i endpoint host port table bs)) in H2 as ->;
    [|change (is_Some (view s KSecret (key_of (di_Meta i)))); rewrite Hk; by eexists].
  destruct (mount_allowed _); [|done]. destruct Hclaim as (pvc & Hpvc & _).
  apply (ensured_again h s KPVC (catalog_claim i)) in H3; [done|].
  change (is_Some (view s KPVC (key_of (di_Meta i)))). rewrite Hk. by eexists.
Qed.
End Published.


(** ** Witness *)

#[local] Existing Instance list_finalizers.
#[local] Existing Instance demo_metastore.

Definition remote_books : DatasetInternal :=
  MkDatasetInternal (witness_meta [] None)
    (MkDatasetSpec None
       (Some (list_to_map [("type", "CatalogEntry"); ("catalogURI", "hive:9083");
                           ("table", "db/t"); ("endpoint", "http://minio:9000");
                           ("accessKeyID", "id"); ("secretAccessKey", "key");
                           ("mountAllowed", "true")])) "" "" "" "")
    empty_placement.

